(** * melonDS multiplayer coordination core

    The Netplay lockstep engine ([NetplaySession], NetplaySession.cpp and
    NetplaySession.h), its transport and blob transfer ([NetplayTransport],
    [BlobTransfer], NetplayProtocol.cpp and NetplayProtocol.h) and the LAN
    bridge ([LAN], LAN.cpp), embedded function by function, followed by the
    properties proved of them. *)

From Stdlib Require Import ZArith Lia Bool List.
From Stdlib Require Import Strings.Byte.
From stdpp Require Import base tactics option list list_numbers.

Local Open Scope Z_scope.

Set Warnings "-clear-no-such-hyp".

(** ** Fixed-width integers

    The C++ code computes on [u8], [u16], [u32], [u64] and [int].  Values are
    kept in [Z]; every operation whose result the source stores in a
    fixed-width variable is wrapped explicitly. *)

Definition u8 (x : Z) : Z := x mod 2 ^ 8.
Definition u16 (x : Z) : Z := x mod 2 ^ 16.
Definition u32 (x : Z) : Z := x mod 2 ^ 32.
Definition u64 (x : Z) : Z := x mod 2 ^ 64.

(** [(int)x] for a 32-bit pattern [x]. *)
Definition to_int (x : Z) : Z :=
  let y := u32 x in if y <? 2 ^ 31 then y else y - 2 ^ 32.

(** Bytes of a packet. *)
Definition byte_val (b : byte) : Z := Z.of_N (Byte.to_N b).
Definition byte_of (x : Z) : byte :=
  match Byte.of_N (Z.to_N (u8 x)) with
  | Some b => b
  | None => x00
  end.

(** Little-endian store and load of an [n]-byte field of a packed struct. *)
Fixpoint le_store (n : nat) (x : Z) : list byte :=
  match n with
  | O => []
  | S k => byte_of x :: le_store k (x / 256)
  end.

Fixpoint le_load (bs : list byte) : Z :=
  match bs with
  | [] => 0
  | b :: rest => byte_val b + 256 * le_load rest
  end.

(** The field of [n] bytes found [off] bytes into a message. *)
Definition field (off n : nat) (data : list byte) : Z :=
  le_load (take n (drop off data)).

(** [for (int k = 0; k < n; k++) body(k)] on a threaded state. *)
Fixpoint for_upto {S : Type} (n : nat) (body : Z → S → S) (s : S) : S :=
  match n with
  | O => s
  | Datatypes.S k => body (Z.of_nat k) (for_upto k body s)
  end.

(** Two-dimensional C arrays [a[p][i]].  Every index the sources use is
    guarded into range before the access (a player id below the player
    count, a slot reduced modulo the ring size). *)
Definition get2 {A} `{Inhabited A} (a : list (list A)) (p i : Z) : A :=
  (a !!! Z.to_nat p) !!! Z.to_nat i.
Definition set2 {A} (a : list (list A)) (p i : Z) (v : A) : list (list A) :=
  alter (λ row, <[Z.to_nat i := v]> row) (Z.to_nat p) a.

(** ** Protocol constants and packed wire structs (NetplayProtocol.h) *)

Definition kNetplayMaxPlayers : Z := 4.
Definition kBlobChunkSize : Z := 0x10000.

Definition Chan_Control : Z := 0.
Definition Chan_Input : Z := 1.

Definition Msg_SessionOffer : Z := 0x10.
Definition Msg_SessionAccept : Z := 0x11.
Definition Msg_BlobStart : Z := 0x12.
Definition Msg_BlobChunk : Z := 0x13.
Definition Msg_BlobEnd : Z := 0x14.
Definition Msg_SyncReady : Z := 0x15.
Definition Msg_StartGame : Z := 0x16.
Definition Msg_DesyncAlert : Z := 0x20.
Definition Msg_Disconnect : Z := 0xFF.
Definition Msg_InputFrame : Z := 0x30.
Definition Msg_InputBatch : Z := 0x31.

Definition Blob_SRAM : Z := 0.
Definition Blob_Savestate0 : Z := 1.
Definition Blob_MAX : Z := 5.

(** [sizeof] of the packed message structs. *)
Definition sizeof_MsgSessionOffer : Z := 11.
Definition sizeof_MsgSessionAccept : Z := 2.
Definition sizeof_MsgBlobStart : Z := 6.
Definition sizeof_MsgBlobChunk : Z := 5.
Definition sizeof_MsgBlobEnd : Z := 6.
Definition sizeof_MsgStartGame : Z := 6.
Definition sizeof_MsgDesyncAlert : Z := 13.
Definition sizeof_MsgDisconnect : Z := 2.
Definition sizeof_InputFrame : Z := 18.
Definition sizeof_MsgInputFrame : Z := 19.
Definition sizeof_MsgInputBatch : Z := 2.

Record InputFrame := mkInputFrame {
  FrameNum : Z;   (* u32 *)
  KeyMask : Z;    (* u32, 12-bit button mask, 1 = released *)
  Touching : Z;   (* u8 *)
  TouchX : Z;     (* u16 *)
  TouchY : Z;     (* u16 *)
  LidClosed : Z;  (* u8 *)
  Checksum : Z    (* u32 *)
}.

(** [InputFrame x = {}] and the cells of a [memset]-cleared ring. *)
Definition InputFrame_zero : InputFrame := mkInputFrame 0 0 0 0 0 0 0.

#[global] Instance InputFrame_inhabited : Inhabited InputFrame :=
  populate InputFrame_zero.

Definition InputFrame_bytes (i : InputFrame) : list byte :=
  le_store 4 (FrameNum i) ++ le_store 4 (KeyMask i) ++ le_store 1 (Touching i)
  ++ le_store 2 (TouchX i) ++ le_store 2 (TouchY i) ++ le_store 1 (LidClosed i)
  ++ le_store 4 (Checksum i).

(** The [InputFrame] read [off] bytes into a message. *)
Definition InputFrame_at (off : nat) (data : list byte) : InputFrame :=
  {| FrameNum := field off 4 data;
     KeyMask := field (off + 4) 4 data;
     Touching := field (off + 8) 1 data;
     TouchX := field (off + 9) 2 data;
     TouchY := field (off + 11) 2 data;
     LidClosed := field (off + 13) 1 data;
     Checksum := field (off + 14) 4 data |}.

(** ** NetplayTransport: the parts of the ENet wrapper the engine relies on.
    Packets handed to ENet are recorded in [Sent], oldest first. *)
Module NetplayTransport.

Record OutPacket := mkOut {
  dest : option Z;        (* [None]: enet_host_broadcast *)
  channel : Z;
  reliable : bool;
  payload : list byte
}.

Record state := mkTransport {
  Host : bool;            (* Host != nullptr *)
  Peers : list bool;      (* Peers[i] != nullptr *)
  NumPeers : Z;
  HostMode : bool;
  Connected : bool;
  Sent : list OutPacket
}.

Definition initial : state :=
  mkTransport false (replicate 4 false) 0 false false [].

Definition IsConnected (t : state) : bool := Connected t.

Definition enqueue (p : OutPacket) (t : state) : state :=
  mkTransport (Host t) (Peers t) (NumPeers t) (HostMode t) (Connected t)
              (Sent t ++ [p]).

Definition SendTo (peerIdx : Z) (data : list byte) (chan : Z) (rel : bool)
    (t : state) : state :=
  if negb (Host t) || (peerIdx <? 0) || (peerIdx >=? NumPeers t)
     || negb (Peers t !!! Z.to_nat peerIdx)
  then t
  else enqueue (mkOut (Some peerIdx) chan rel data) t.

Definition Broadcast (data : list byte) (chan : Z) (rel : bool)
    (t : state) : state :=
  if negb (Host t) then t
  else enqueue (mkOut None chan rel data) t.

(** [Stop]: the peers still held in slots below [NumPeers] are disconnected
    and their slots emptied, the host is flushed and destroyed.  On a
    transport without a host nothing happens. *)
Definition Stop (t : state) : state :=
  if negb (Host t) then t
  else
    let peers :=
      for_upto (Z.to_nat (NumPeers t))
        (λ (i : Z) (ps : list bool),
           if (ps !!! Z.to_nat i : bool) then <[Z.to_nat i := false]> ps
           else ps)
        (Peers t) in
    mkTransport false peers 0 (HostMode t) false (Sent t).

End NetplayTransport.

(** ** BlobTransfer (NetplayProtocol.cpp) *)
Module BlobTransfer.

Record state := mkBlob {
  Type_ : Z;              (* NetplayBlobType Type *)
  TotalLen : Z;
  ReceivedLen : Z;
  Buffer : list byte;
  Complete : bool;
  Receiving : bool
}.

Definition initial : state := mkBlob Blob_SRAM 0 0 [] false false.

#[global] Instance state_inhabited : Inhabited state := populate initial.

Definition Reset (b : state) : state := initial.

Definition IsComplete (b : state) : bool := Complete b.
Definition GetData (b : state) : list byte := Buffer b.

(** [checksum += byte] over a byte run, in [u32]. *)
Definition byte_sum (bs : list byte) : Z :=
  fold_left (λ acc b, u32 (acc + byte_val b)) bs 0.

Definition msg_BlobStart (type : Z) (len : Z) : list byte :=
  le_store 1 Msg_BlobStart ++ le_store 1 type ++ le_store 4 len.
Definition msg_BlobChunk (offset : Z) (chunk : list byte) : list byte :=
  le_store 1 Msg_BlobChunk ++ le_store 4 offset ++ chunk.
Definition msg_BlobEnd (type : Z) (checksum : Z) : list byte :=
  le_store 1 Msg_BlobEnd ++ le_store 1 type ++ le_store 4 checksum.

(** The chunk loop of [Send]: [while (offset < len)].  Every round moves
    [offset] forward by at least one byte, so [length data] rounds are
    always enough. *)
Fixpoint chunk_messages (fuel : nat) (offset : Z) (data : list byte)
    : list (list byte) :=
  match fuel with
  | O => []
  | S k =>
      let len := Z.of_nat (length data) in
      if offset <? len then
        let chunkLen := Z.min kBlobChunkSize (len - offset) in
        msg_BlobChunk offset
          (take (Z.to_nat chunkLen) (drop (Z.to_nat offset) data))
        :: chunk_messages k (u32 (offset + chunkLen)) data
      else []
  end.

(** The messages [Send] and [Broadcast] emit for a blob, in order. *)
Definition messages (type : Z) (data : list byte) : list (list byte) :=
  msg_BlobStart type (Z.of_nat (length data))
  :: chunk_messages (length data) 0 data
  ++ [msg_BlobEnd type (byte_sum data)].

Definition Send (peerIdx : Z) (type : Z) (data : list byte)
    (t : NetplayTransport.state) : NetplayTransport.state :=
  fold_left (λ t m, NetplayTransport.SendTo peerIdx m Chan_Control true t)
            (messages type data) t.

Definition Broadcast (type : Z) (data : list byte)
    (t : NetplayTransport.state) : NetplayTransport.state :=
  fold_left (λ t m, NetplayTransport.Broadcast m Chan_Control true t)
            (messages type data) t.

(** [OnMessage].  The result is [None] where the C++ reads or writes
    outside [Buffer], which it leaves undefined: a chunk whose
    [offset + chunkLen] wraps around in [u32] passes the bounds test. *)
Definition OnMessage (data : list byte) (b : state) : option (bool * state) :=
  let len := Z.of_nat (length data) in
  if len <? 1 then Some (false, b) else
  let type := field 0 1 data in
  if type =? Msg_BlobStart then
    if len <? sizeof_MsgBlobStart then Some (false, b) else
    let total := field 2 4 data in
    Some (false, mkBlob (field 1 1 data) total 0
                        (replicate (Z.to_nat total) x00) false true)
  else if type =? Msg_BlobChunk then
    if negb (Receiving b) || (len <? sizeof_MsgBlobChunk) then Some (false, b)
    else
      let chunkLen := len - sizeof_MsgBlobChunk in
      let offset := field 1 4 data in
      if u32 (offset + chunkLen) >? TotalLen b then Some (false, b)
      else if offset + chunkLen <=? Z.of_nat (length (Buffer b)) then
        Some (false,
              mkBlob (Type_ b) (TotalLen b) (u32 (ReceivedLen b + chunkLen))
                     (list_inserts (Z.to_nat offset) (drop 5 data) (Buffer b))
                     (Complete b) (Receiving b))
      else None
  else if type =? Msg_BlobEnd then
    if negb (Receiving b) || (len <? sizeof_MsgBlobEnd) then Some (false, b)
    else if Z.of_nat (length (Buffer b)) <? TotalLen b then None
    else
      let checksum := byte_sum (take (Z.to_nat (TotalLen b)) (Buffer b)) in
      if negb (checksum =? field 2 4 data) then
        Some (false, mkBlob (Type_ b) (TotalLen b) (ReceivedLen b) (Buffer b)
                            (Complete b) false)
      else
        Some (true, mkBlob (Type_ b) (TotalLen b) (ReceivedLen b) (Buffer b)
                           true false)
  else Some (false, b).

(** Feeding a run of messages to one receiver, oldest first. *)
Fixpoint feed (msgs : list (list byte)) (b : state) : option state :=
  match msgs with
  | [] => Some b
  | m :: rest => r ← OnMessage m b; feed rest r.2
  end.

End BlobTransfer.


(** ** The external collaborators of the engine

    The emulator core ([NDS]) and the xxhash library are not part of the
    multiplayer core; the engine only calls the operations below. *)
Class Emulator := {
  NDS : Type;
  SetKeyMask : Z → NDS → NDS;
  TouchScreen : Z → Z → NDS → NDS;
  ReleaseScreen : NDS → NDS;
  SetLidClosed : bool → NDS → NDS;
  (** one emulated frame; the second component is the scanline count *)
  NDS_RunFrame : NDS → NDS * Z;
  (** [MainRAM[0 .. MainRAMMask]], [ARM9.R] and [ARM7.R] as raw bytes *)
  MainRAM : NDS → list byte;
  ARM9_R : NDS → list byte;
  ARM7_R : NDS → list byte;
  (** [XXH64_reset(seed)], [XXH64_update]s over the concatenated input,
      [XXH64_digest] *)
  XXH64 : Z → list byte → Z
}.

(** The rest of the emulator core the session calls when it creates its
    instances and moves their state between machines. *)
Class Console {emu : Emulator} := {
  NDSArgs : Type;
  (** [new NDS(args, &InstData[i])], [InstData[i]] holding the instance id
      and the session *)
  NDS_new : NDSArgs → Z → nat → NDS;
  Reset : NDS → NDS;
  (** [SPU.SetPowerCnt] *)
  SPU_SetPowerCnt : Z → NDS → NDS;
  (** [Savestate state; DoSavestate(&state)], writing: the bytes of the
      state, or [None] when the savestate reports an error or [DoSavestate]
      fails *)
  DoSavestate_save : NDS → NDS * option (list byte);
  (** [Savestate state(data, len, false); DoSavestate(&state)], reading;
      the flag tells whether all of it went well *)
  DoSavestate_load : list byte → NDS → NDS * bool;
  (** [GetNDSSave()] with [GetNDSSaveLength()]; [None] for a null pointer *)
  GetNDSSave : NDS → option (list byte);
  SetNDSSave : list byte → NDS → NDS
}.

(** ** NetplaySession (NetplaySession.cpp) *)
Module NetplaySession.

Definition INPUT_BUF_SIZE : Z := 256.
Definition DESYNC_CHECK_INTERVAL : Z := 60.

(** Calls made to the UI callbacks, oldest first. *)
Inductive Callback :=
| Desync (frame localHash remoteHash : Z)
| Disconnected (playerID reason : Z).

(** The process-wide [NetplaySession::Current] pointer; sessions are named
    by an address. *)
Record Globals := mkGlobals { Current : option nat }.

Section Engine.
Context {emu : Emulator}.

Record state := mkSession {
  Instances : list (option NDS);       (* NDS* Instances[4] *)
  NumInstances : Z;
  LocalPlayerID : Z;
  Active : bool;
  HostMode : bool;
  InputBuf : list (list InputFrame);   (* [4][256] *)
  InputReady : list (list bool);       (* [4][256] *)
  InputDelay : Z;
  CurrentFrame : Z;                    (* u32 *)
  StartFrame : Z;
  InstanceScanlines : list Z;          (* u32 [4] *)
  ThreadsRunning : bool;
  LastStateHash : Z;                   (* u64 *)
  LastHashFrame : Z;                   (* u32 *)
  Transport : NetplayTransport.state;
  BlobRecv : list BlobTransfer.state;  (* [Blob_MAX] *)
  OnDesync : bool;                     (* a callback is registered *)
  OnDisconnect : bool;
  Fired : list Callback
}.

Definition cleared_InputBuf : list (list InputFrame) :=
  replicate 4 (replicate 256 InputFrame_zero).
Definition cleared_InputReady : list (list bool) :=
  replicate 4 (replicate 256 false).

(** The constructor together with the in-class member initialisers. *)
Definition new : state :=
  {| Instances := replicate 4 None; NumInstances := 0; LocalPlayerID := 0;
     Active := false; HostMode := false;
     InputBuf := cleared_InputBuf; InputReady := cleared_InputReady;
     InputDelay := 4; CurrentFrame := 0; StartFrame := 0;
     InstanceScanlines := replicate 4 0; ThreadsRunning := false;
     LastStateHash := 0; LastHashFrame := 0;
     Transport := NetplayTransport.initial;
     BlobRecv := replicate 5 BlobTransfer.initial;
     OnDesync := false; OnDisconnect := false; Fired := [] |}.

Definition set_inputs (buf : list (list InputFrame)) (rdy : list (list bool))
    (s : state) : state :=
  mkSession (Instances s) (NumInstances s) (LocalPlayerID s) (Active s)
    (HostMode s) buf rdy (InputDelay s) (CurrentFrame s) (StartFrame s)
    (InstanceScanlines s) (ThreadsRunning s) (LastStateHash s)
    (LastHashFrame s) (Transport s) (BlobRecv s) (OnDesync s)
    (OnDisconnect s) (Fired s).

Definition set_instances (insts : list (option NDS)) (scan : list Z)
    (s : state) : state :=
  mkSession insts (NumInstances s) (LocalPlayerID s) (Active s)
    (HostMode s) (InputBuf s) (InputReady s) (InputDelay s) (CurrentFrame s)
    (StartFrame s) scan (ThreadsRunning s) (LastStateHash s)
    (LastHashFrame s) (Transport s) (BlobRecv s) (OnDesync s)
    (OnDisconnect s) (Fired s).

Definition set_frame (frame delay : Z) (s : state) : state :=
  mkSession (Instances s) (NumInstances s) (LocalPlayerID s) (Active s)
    (HostMode s) (InputBuf s) (InputReady s) delay frame (StartFrame s)
    (InstanceScanlines s) (ThreadsRunning s) (LastStateHash s)
    (LastHashFrame s) (Transport s) (BlobRecv s) (OnDesync s)
    (OnDisconnect s) (Fired s).

Definition set_threads (running : bool) (s : state) : state :=
  mkSession (Instances s) (NumInstances s) (LocalPlayerID s) (Active s)
    (HostMode s) (InputBuf s) (InputReady s) (InputDelay s) (CurrentFrame s)
    (StartFrame s) (InstanceScanlines s) running (LastStateHash s)
    (LastHashFrame s) (Transport s) (BlobRecv s) (OnDesync s)
    (OnDisconnect s) (Fired s).

Definition set_hash (hash frame : Z) (t : NetplayTransport.state)
    (s : state) : state :=
  mkSession (Instances s) (NumInstances s) (LocalPlayerID s) (Active s)
    (HostMode s) (InputBuf s) (InputReady s) (InputDelay s) (CurrentFrame s)
    (StartFrame s) (InstanceScanlines s) (ThreadsRunning s) hash frame t
    (BlobRecv s) (OnDesync s) (OnDisconnect s) (Fired s).

Definition set_transport (t : NetplayTransport.state) (s : state) : state :=
  set_hash (LastStateHash s) (LastHashFrame s) t s.

Definition set_blobs (blobs : list BlobTransfer.state) (s : state) : state :=
  mkSession (Instances s) (NumInstances s) (LocalPlayerID s) (Active s)
    (HostMode s) (InputBuf s) (InputReady s) (InputDelay s) (CurrentFrame s)
    (StartFrame s) (InstanceScanlines s) (ThreadsRunning s) (LastStateHash s)
    (LastHashFrame s) (Transport s) blobs (OnDesync s) (OnDisconnect s)
    (Fired s).

Definition fire (c : Callback) (s : state) : state :=
  mkSession (Instances s) (NumInstances s) (LocalPlayerID s) (Active s)
    (HostMode s) (InputBuf s) (InputReady s) (InputDelay s) (CurrentFrame s)
    (StartFrame s) (InstanceScanlines s) (ThreadsRunning s) (LastStateHash s)
    (LastHashFrame s) (Transport s) (BlobRecv s) (OnDesync s)
    (OnDisconnect s) (Fired s ++ [c]).

Definition SetDesyncCallback (s : state) : state :=
  mkSession (Instances s) (NumInstances s) (LocalPlayerID s) (Active s)
    (HostMode s) (InputBuf s) (InputReady s) (InputDelay s) (CurrentFrame s)
    (StartFrame s) (InstanceScanlines s) (ThreadsRunning s) (LastStateHash s)
    (LastHashFrame s) (Transport s) (BlobRecv s) true (OnDisconnect s)
    (Fired s).

(** The neutral input [Init] pre-fills for frame [f]. *)
Definition neutral (f : Z) : InputFrame :=
  {| FrameNum := f; KeyMask := 0xFFF; Touching := 0; TouchX := 0;
     TouchY := 0; LidClosed := 0; Checksum := 0 |}.

Definition prefill_cell (p f : Z)
    (br : list (list InputFrame) * list (list bool))
    : list (list InputFrame) * list (list bool) :=
  (set2 br.1 p (f mod INPUT_BUF_SIZE) (neutral f),
   set2 br.2 p (f mod INPUT_BUF_SIZE) true).

Definition prefill (numPlayers inputDelay : Z)
    : list (list InputFrame) * list (list bool) :=
  for_upto (Z.to_nat numPlayers)
    (λ p br, for_upto (Z.to_nat inputDelay) (prefill_cell p) br)
    (cleared_InputBuf, cleared_InputReady).

Definition Init (this : nat) (localPlayerID numPlayers inputDelay : Z)
    (s : state) (g : Globals) : bool * state * Globals :=
  if (numPlayers <? 2) || (numPlayers >? kNetplayMaxPlayers) then (false, s, g)
  else if (localPlayerID <? 0) || (localPlayerID >=? numPlayers)
  then (false, s, g)
  else
    let br := prefill numPlayers inputDelay in
    (true,
     {| Instances := Instances s; NumInstances := numPlayers;
        LocalPlayerID := localPlayerID; Active := true;
        HostMode := (localPlayerID =? 0);
        InputBuf := br.1; InputReady := br.2;
        InputDelay := inputDelay; CurrentFrame := 0; StartFrame := 0;
        InstanceScanlines := InstanceScanlines s;
        ThreadsRunning := ThreadsRunning s;
        LastStateHash := LastStateHash s; LastHashFrame := LastHashFrame s;
        Transport := Transport s; BlobRecv := BlobRecv s;
        OnDesync := OnDesync s; OnDisconnect := OnDisconnect s;
        Fired := Fired s |},
     mkGlobals (Some this)).

(** ---- Input handling ---- *)


Definition SetRemoteInput (playerID : Z) (input : InputFrame) (s : state)
    : state :=
  if (playerID <? 0) || (playerID >=? NumInstances s) then s
  else
    let bufIdx := FrameNum input mod INPUT_BUF_SIZE in
    set_inputs (set2 (InputBuf s) playerID bufIdx input)
               (set2 (InputReady s) playerID bufIdx true) s.

Definition ReadyForFrame (frameNum : Z) (s : state) : bool :=
  let bufIdx := frameNum mod INPUT_BUF_SIZE in
  forallb (λ i, get2 (InputReady s) i bufIdx) (seqZ 0 (NumInstances s)).

(** Keys, touch and lid of one instance from its ring cell. *)
Definition apply_input (input : InputFrame) (n : NDS) : NDS :=
  let n1 := SetKeyMask (KeyMask input) n in
  let n2 := if Touching input =? 0 then ReleaseScreen n1
            else TouchScreen (TouchX input) (TouchY input) n1 in
  SetLidClosed (negb (LidClosed input =? 0)) n2.

(** [ApplyInputs].  [None]: [Instances[i]] is dereferenced while null. *)
Definition ApplyInputs (frame : Z) (s : state) : option state :=
  let bufIdx := frame mod INPUT_BUF_SIZE in
  insts ← for_upto (Z.to_nat (NumInstances s))
    (λ i acc,
       insts ← acc;
       n ← mjoin (insts !! Z.to_nat i);
       Some (<[Z.to_nat i := Some (apply_input (get2 (InputBuf s) i bufIdx) n)]>
               insts))
    (Some (Instances s));
  let rdy := for_upto (Z.to_nat (NumInstances s))
    (λ i r, set2 r i bufIdx false) (InputReady s) in
  Some (set_inputs (InputBuf s) rdy
          (set_instances insts (InstanceScanlines s) s)).

(** ---- Threading ---- *)

Definition StartThreads (s : state) : state :=
  if ThreadsRunning s then s else set_threads true s.

(** Between the two barrier waits of [RunFrame] every worker thread runs
    [InstanceScanlines[i] = Instances[i]->RunFrame()] on its own instance;
    the controller resumes once all of them have arrived. *)
Definition run_workers (s : state) : option state :=
  r ← for_upto (Z.to_nat (NumInstances s))
    (λ i acc,
       '(insts, scan) ← acc;
       n ← mjoin (insts !! Z.to_nat i);
       let '(n', lines) := NDS_RunFrame n in
       Some (<[Z.to_nat i := Some n']> insts, <[Z.to_nat i := u32 lines]> scan))
    (Some (Instances s, InstanceScanlines s));
  Some (set_instances r.1 r.2 s).

(** ---- Desync detection ---- *)

Definition hashed_bytes (n : NDS) : list byte :=
  MainRAM n ++ ARM9_R n ++ ARM7_R n.

Definition ComputeStateHash (s : state) : Z :=
  XXH64 0
    (concat (map (λ o, match o with Some n => hashed_bytes n | None => [] end)
                 (take (Z.to_nat (NumInstances s)) (Instances s)))).

Definition msg_DesyncAlert (frame hash : Z) : list byte :=
  le_store 1 Msg_DesyncAlert ++ le_store 4 frame ++ le_store 8 hash.

(** The block of [RunFrame] under "Desync check every
    DESYNC_CHECK_INTERVAL frames". *)
Definition desync_block (s : state) : state :=
  if (CurrentFrame s >? 0) && (CurrentFrame s mod DESYNC_CHECK_INTERVAL =? 0)
  then
    let hash := ComputeStateHash s in
    let t :=
      if NetplayTransport.IsConnected (Transport s)
      then NetplayTransport.Broadcast
             (msg_DesyncAlert (CurrentFrame s) hash) Chan_Control true
             (Transport s)
      else Transport s in
    set_hash hash (CurrentFrame s) t s
  else s.

Definition RunFrame (s : state) : option (Z * state) :=
  if negb (Active s) || (NumInstances s =? 0) then Some (0, s)
  else
    s1 ← ApplyInputs (CurrentFrame s) s;
    let s2 := if ThreadsRunning s1 then s1 else StartThreads s1 in
    s3 ← run_workers s2;
    let s4 := desync_block s3 in
    let s5 := set_frame (u32 (CurrentFrame s4 + 1)) (InputDelay s4) s4 in
    Some (InstanceScanlines s5 !!! Z.to_nat (LocalPlayerID s5), s5).

(** ---- Network ---- *)

Definition msg_InputFrame (input : InputFrame) : list byte :=
  le_store 1 Msg_InputFrame ++ InputFrame_bytes input.

Definition SendLocalInput (input : InputFrame) (s : state) : state :=
  if negb (NetplayTransport.IsConnected (Transport s)) then s
  else set_transport
         (NetplayTransport.Broadcast (msg_InputFrame input) Chan_Input true
            (Transport s)) s.

(** The blob case of [HandleControlMessage]: the message is offered to
    [BlobRecv[0]], [BlobRecv[1]], ... until one of them reports a complete
    blob. *)
Fixpoint offer_blob (data : list byte) (recv : list BlobTransfer.state)
    : option (list BlobTransfer.state) :=
  match recv with
  | [] => Some []
  | b :: rest =>
      '(complete, b') ← BlobTransfer.OnMessage data b;
      if (complete : bool) then Some (b' :: rest)
      else rest' ← offer_blob data rest; Some (b' :: rest')
  end.

Definition msg_SessionAccept (playerID : Z) : list byte :=
  le_store 1 Msg_SessionAccept ++ le_store 1 playerID.

Definition HandleControlMessage (peerIdx : Z) (data : list byte) (s : state)
    : option state :=
  let len := Z.of_nat (length data) in
  if len <? 1 then Some s else
  let type := field 0 1 data in
  if type =? Msg_SessionOffer then
    if len <? sizeof_MsgSessionOffer then Some s
    else Some (set_transport
                 (NetplayTransport.SendTo peerIdx (msg_SessionAccept 0)
                    Chan_Control true (Transport s)) s)
  else if type =? Msg_SessionAccept then Some s
  else if (type =? Msg_BlobStart) || (type =? Msg_BlobChunk)
          || (type =? Msg_BlobEnd) then
    blobs ← offer_blob data (BlobRecv s); Some (set_blobs blobs s)
  else if type =? Msg_SyncReady then Some s
  else if type =? Msg_StartGame then
    if len <? sizeof_MsgStartGame then Some s
    else Some (set_frame (field 1 4 data) (field 5 1 data) s)
  else if type =? Msg_DesyncAlert then
    if len <? sizeof_MsgDesyncAlert then Some s
    else
      let frame := field 1 4 data in
      let hash := field 5 8 data in
      if (frame =? LastHashFrame s) && negb (hash =? LastStateHash s) then
        if OnDesync s then Some (fire (Desync frame (LastStateHash s) hash) s)
        else Some s
      else Some s
  else if type =? Msg_Disconnect then
    if len <? sizeof_MsgDisconnect then Some s
    else if OnDisconnect s
    then Some (fire (Disconnected peerIdx (field 1 1 data)) s)
    else Some s
  else Some s.

(** The player a peer's input belongs to: on the host peer [k] is player
    [k + 1], on a client everything comes from player 0. *)
Definition sender_player (peerIdx : Z) (s : state) : Z :=
  if HostMode s then peerIdx + 1 else 0.

Definition HandleInputMessage (peerIdx : Z) (data : list byte) (s : state)
    : state :=
  let len := Z.of_nat (length data) in
  if len <? 1 then s else
  let type := field 0 1 data in
  if type =? Msg_InputFrame then
    if len <? sizeof_MsgInputFrame then s
    else SetRemoteInput (sender_player peerIdx s) (InputFrame_at 1 data) s
  else if type =? Msg_InputBatch then
    if len <? sizeof_MsgInputBatch then s
    else
      let count := field 1 1 data in
      let expectedLen := u32 (sizeof_MsgInputBatch + count * sizeof_InputFrame) in
      if len <? expectedLen then s
      else
        for_upto (Z.to_nat count)
          (λ i s, SetRemoteInput (sender_player peerIdx s)
                    (InputFrame_at (2 + 18 * Z.to_nat i) data) s)
          s
  else s.

(** ---- Teardown ---- *)

Definition StopThreads (s : state) : state :=
  if negb (ThreadsRunning s) then s else set_threads false s.

(** [DeInit] of the session at address [this]. *)
Definition DeInit (this : nat) (s : state) (g : Globals) : state * Globals :=
  let s1 := StopThreads s in
  let insts :=
    for_upto (Z.to_nat kNetplayMaxPlayers)
      (λ (i : Z) (insts : list (option NDS)),
         if (insts !!! Z.to_nat i : option NDS) is Some _
         then <[Z.to_nat i := None]> insts
         else insts)
      (Instances s1) in
  (mkSession insts 0 (LocalPlayerID s1) false (HostMode s1) (InputBuf s1)
     (InputReady s1) (InputDelay s1) (CurrentFrame s1) (StartFrame s1)
     (InstanceScanlines s1) (ThreadsRunning s1) (LastStateHash s1)
     (LastHashFrame s1) (NetplayTransport.Stop (Transport s1)) (BlobRecv s1)
     (OnDesync s1) (OnDisconnect s1) (Fired s1),
   if decide (Current g = Some this) then mkGlobals None else g).

(** ---- Display ---- *)

Definition GetInstance (idx : Z) (s : state) : option NDS :=
  if (idx >=? 0) && (idx <? NumInstances s)
  then Instances s !!! Z.to_nat idx
  else None.

Definition GetDisplayInstance (s : state) : option NDS :=
  if (LocalPlayerID s >=? 0) && (LocalPlayerID s <? NumInstances s)
  then Instances s !!! Z.to_nat (LocalPlayerID s)
  else None.

End Engine.

Section StateSync.
Context {emu : Emulator} {con : Console}.

(** ---- Setup ---- *)

Definition MuteNonLocalInstances (s : state) : state :=
  set_instances
    (for_upto (Z.to_nat (NumInstances s))
       (λ (i : Z) (insts : list (option NDS)),
          if negb (i =? LocalPlayerID s) then
            match (insts !!! Z.to_nat i : option NDS) with
            | Some n => <[Z.to_nat i := Some (SPU_SetPowerCnt 0 n)]> insts
            | None => insts
            end
          else insts)
       (Instances s))
    (InstanceScanlines s) s.

(** [CreateInstances] of the session at address [this]; [argsBuilder i] is
    what the [i]-th call of the builder returns.  [new] does not return
    null, so the function returns true.  The last component lists the
    instances registered with [LMP.Begin], in order. *)
Definition CreateInstances (this : nat) (argsBuilder : Z → NDSArgs)
    (s : state) : bool * state * list Z :=
  let insts :=
    for_upto (Z.to_nat (NumInstances s))
      (λ (i : Z) (insts : list (option NDS)),
         <[Z.to_nat i := Some (Reset (NDS_new (argsBuilder i) i this))]> insts)
      (Instances s) in
  (true,
   MuteNonLocalInstances (set_instances insts (InstanceScanlines s) s),
   seqZ 0 (NumInstances s)).

(** ---- Savestates ---- *)

(** The [len] bytes a caller passes with [(u32)v.size()]. *)
Definition first_u32 (v : list byte) : list byte :=
  take (Z.to_nat (u32 (Z.of_nat (length v)))) v.

(** [TakeState(inst, out)]: the second component is [out] when the
    function returns true. *)
Definition TakeState (inst : Z) (s : state) : state * option (list byte) :=
  if (inst <? 0) || (inst >=? NumInstances s) then (s, None)
  else
    match (Instances s !!! Z.to_nat inst : option NDS) with
    | None => (s, None)
    | Some n =>
        let '(n', out) := DoSavestate_save n in
        (set_instances (<[Z.to_nat inst := Some n']> (Instances s))
           (InstanceScanlines s) s,
         out)
    end.

Definition LoadState (inst : Z) (data : list byte) (s : state)
    : state * bool :=
  if (inst <? 0) || (inst >=? NumInstances s) then (s, false)
  else
    match (Instances s !!! Z.to_nat inst : option NDS) with
    | None => (s, false)
    | Some n =>
        let '(n', ok) := DoSavestate_load data n in
        (set_instances (<[Z.to_nat inst := Some n']> (Instances s))
           (InstanceScanlines s) s,
         ok)
    end.

(** ---- State sync (host -> client) ---- *)

(** The loop of [HostSendStates] over the instances [idxs]: it leaves with
    false at the first instance whose state cannot be taken. *)
Fixpoint send_states (clientIdx : Z) (idxs : list Z) (s : state)
    : bool * state :=
  match idxs with
  | [] => (true, s)
  | i :: rest =>
      let '(s1, out) := TakeState i s in
      match out with
      | None => (false, s1)
      | Some stateData =>
          send_states clientIdx rest
            (set_transport
               (BlobTransfer.Send clientIdx (Blob_Savestate0 + i)
                  (first_u32 stateData) (Transport s1))
               s1)
      end
  end.

(** [HostSendStates].  [None]: [Instances[0]] is dereferenced while
    null. *)
Definition HostSendStates (clientIdx : Z) (s : state)
    : option (bool * state) :=
  let '(ok, s1) := send_states clientIdx (seqZ 0 (NumInstances s)) s in
  if negb ok then Some (false, s1)
  else
    n ← (Instances s1 !!! 0%nat : option NDS);
    match GetNDSSave n with
    | Some sram =>
        if u32 (Z.of_nat (length sram)) >? 0 then
          Some (true,
                set_transport
                  (BlobTransfer.Send clientIdx Blob_SRAM (first_u32 sram)
                     (Transport s1))
                  s1)
        else Some (true, s1)
    | None => Some (true, s1)
    end.

(** The first loop of [ClientReceiveStates]: are the states of all
    instances there? *)
Fixpoint states_complete (idxs : list Z) (s : state) : bool :=
  match idxs with
  | [] => true
  | i :: rest =>
      let blobIdx := Blob_Savestate0 + i in
      if blobIdx >=? Blob_MAX then true
      else if negb (BlobTransfer.IsComplete (BlobRecv s !!! Z.to_nat blobIdx))
      then false
      else states_complete rest s
  end.

(** Its second loop: apply them. *)
Fixpoint load_states (idxs : list Z) (s : state) : bool * state :=
  match idxs with
  | [] => (true, s)
  | i :: rest =>
      let blobIdx := Blob_Savestate0 + i in
      if blobIdx >=? Blob_MAX then (true, s)
      else
        let blobData := BlobTransfer.GetData (BlobRecv s !!! Z.to_nat blobIdx) in
        let '(s1, ok) := LoadState i (first_u32 blobData) s in
        if negb ok then (false, s1)
        else
          load_states rest
            (set_blobs
               (alter BlobTransfer.Reset (Z.to_nat blobIdx) (BlobRecv s1))
               s1)
  end.

(** [ClientReceiveStates].  [None]: [Instances[0]] is dereferenced while
    null. *)
Definition ClientReceiveStates (s : state) : option (bool * state) :=
  if negb (states_complete (seqZ 0 (NumInstances s)) s) then Some (false, s)
  else
    let '(ok, s1) := load_states (seqZ 0 (NumInstances s)) s in
    if negb ok then Some (false, s1)
    else if BlobTransfer.IsComplete (BlobRecv s1 !!! Z.to_nat Blob_SRAM) then
      let sramData := BlobTransfer.GetData (BlobRecv s1 !!! Z.to_nat Blob_SRAM) in
      n ← (Instances s1 !!! 0%nat : option NDS);
      Some (true,
            set_blobs
              (alter BlobTransfer.Reset (Z.to_nat Blob_SRAM) (BlobRecv s1))
              (set_instances
                 (<[0%nat := Some (SetNDSSave (first_u32 sramData) n)]>
                    (Instances s1))
                 (InstanceScanlines s1) s1))
    else Some (true, s1).

End StateSync.
End NetplaySession.


(** ** LAN bridge (LAN.cpp) *)
Module LAN.

Definition kLANMagic : Z := 0x504E414C.
Definition kPacketMagic : Z := 0x4946494E.
Definition kProtocolVersion : Z := 1.

Definition Chan_Cmd : Z := 0.
Definition Chan_MP : Z := 1.

Definition Cmd_ClientInit : Z := 1.
Definition Cmd_PlayerInfo : Z := 2.
Definition Cmd_PlayerList : Z := 3.
Definition Cmd_PlayerConnect : Z := 4.
Definition Cmd_PlayerDisconnect : Z := 5.

(** Modelled from the spec: the enum [PlayerStatus] of LAN.h, which is not
    among the sources; the constants are those LAN.cpp uses and the data
    model of the specification lists. *)
Inductive PlayerStatus :=
| Player_None | Player_Client | Player_Host | Player_Connecting
| Player_Disconnected.

#[global] Instance PlayerStatus_eq_dec : EqDecision PlayerStatus.
Proof. solve_decision. Defined.

(** Modelled from the spec: the struct [Player] of LAN.h, which is not
    among the sources; the fields are those LAN.cpp reads and writes. *)
Record Player := mkPlayer {
  ID : Z;                 (* int *)
  Name : list byte;       (* char Name[32] *)
  Status : PlayerStatus;
  Address : Z;
  IsLocalPlayer : bool;
  Ping : Z
}.

(** A [memset]-cleared table entry. *)
Definition Player_zero : Player :=
  mkPlayer 0 (replicate 32 x00) Player_None 0 false 0.

#[global] Instance Player_inhabited : Inhabited Player := populate Player_zero.

(** Modelled from the spec: the struct [MPPacketHeader] of LAN.h, which is
    not among the sources; the fields are those LAN.cpp reads and writes. *)
Record MPPacketHeader := mkHeader {
  Magic : Z;       (* u32; overwritten with the receive wall-clock *)
  SenderID : Z;    (* u32 *)
  Type_ : Z;       (* u32: 0 frame, 1 cmd, 2 | aid << 16 reply, 3 ack *)
  Length : Z;      (* u32 *)
  Timestamp : Z    (* u64, emulated-wireless time *)
}.

(** An ENet peer, named by an address-like handle, with the host part of its
    network address. *)
Record ENetPeer := mkPeer { peer_ref : nat; address_host : Z }.

(** A queued [ENetPacket]: header, the bytes after it, [userData]. *)
Record ENetPacket := mkPacket {
  header : MPPacketHeader;
  body : list byte;
  userData : ENetPeer
}.

(** Calls into ENet that leave the machine, oldest first. *)
Inductive NetCall :=
| peer_disconnect (peer : ENetPeer)
| peer_send (peer : ENetPeer) (chan : Z) (data : list byte)
| host_broadcast (chan : Z) (data : list byte).

Record state := mkLAN {
  Host : bool;                        (* Host != nullptr *)
  IsHost : bool;
  Players : list Player;              (* Player Players[16] *)
  NumPlayers : Z;
  MaxPlayers : Z;
  MyPlayer : Player;
  RemotePeers : list (option ENetPeer);   (* ENetPeer* RemotePeers[16] *)
  PeerData : list (nat * Z);          (* peer->data = &Players[id] *)
  ConnectedBitmask : Z;               (* std::atomic<u16> *)
  MPRecvTimeout : Z;
  LastHostID : Z;
  LastHostPeer : option ENetPeer;
  RXQueue : list ENetPacket;          (* front of the queue first *)
  Net : list NetCall
}.

Definition set_queue (q : list ENetPacket) (lastID : Z)
    (lastPeer : option ENetPeer) (s : state) : state :=
  mkLAN (Host s) (IsHost s) (Players s) (NumPlayers s) (MaxPlayers s)
    (MyPlayer s) (RemotePeers s) (PeerData s) (ConnectedBitmask s)
    (MPRecvTimeout s) lastID lastPeer q (Net s).

Definition net_call (c : NetCall) (s : state) : state :=
  mkLAN (Host s) (IsHost s) (Players s) (NumPlayers s) (MaxPlayers s)
    (MyPlayer s) (RemotePeers s) (PeerData s) (ConnectedBitmask s)
    (MPRecvTimeout s) (LastHostID s) (LastHostPeer s) (RXQueue s)
    (Net s ++ [c]).

(** ---- ProcessHostEvent, ENET_EVENT_TYPE_CONNECT ---- *)

(** The id search: [for (id = 0; id < 16; id++)] leaving at the first id
    that is not below [NumPlayers] or whose slot is [Player_None]. *)
Fixpoint assign_id (rounds : nat) (id : Z) (s : state) : Z :=
  match rounds with
  | O => id
  | S k =>
      if id >=? NumPlayers s then id
      else if decide (Status (Players s !!! Z.to_nat id) = Player_None) then id
      else assign_id k (id + 1) s
  end.

Definition cmd_ClientInit (id maxPlayers : Z) : list byte :=
  le_store 1 Cmd_ClientInit ++ le_store 4 kLANMagic
  ++ le_store 4 kProtocolVersion ++ le_store 1 id ++ le_store 1 maxPlayers.

Definition claim_slot (id : Z) (peer : ENetPeer) (p : Player) : Player :=
  mkPlayer id (Name p) Player_Connecting (address_host peer)
           (IsLocalPlayer p) (Ping p).

Definition ProcessHostEvent_CONNECT (peer : ENetPeer) (s : state) : state :=
  if (NumPlayers s >=? MaxPlayers s) || (NumPlayers s >=? 16) then
    (* game is full, reject connection *)
    net_call (peer_disconnect peer) s
  else
    let id := assign_id 16 0 s in
    if id <? 16 then
      mkLAN (Host s) (IsHost s)
        (alter (claim_slot id peer) (Z.to_nat id) (Players s))
        (NumPlayers s + 1) (MaxPlayers s) (MyPlayer s)
        (<[Z.to_nat id := Some peer]> (RemotePeers s))
        ((peer_ref peer, id) :: PeerData s)
        (ConnectedBitmask s) (MPRecvTimeout s) (LastHostID s)
        (LastHostPeer s) (RXQueue s)
        (Net s ++ [peer_send peer Chan_Cmd
                     (cmd_ClientInit id (MaxPlayers s))])
    else net_call (peer_disconnect peer) s.

(** ---- NetworkThreadFunc, a packet on the MP channel ---- *)

(** The packet [p] as it came off the wire (it is at least a header long),
    at wall-clock [now]: it is dropped unless its magic is right and it
    comes from another player; otherwise its [Magic] is overwritten with
    the wall-clock, the peer it came from is recorded in it, and it is
    pushed onto the RX queue. *)
Definition NetworkThread_MP (now : Z) (peer : ENetPeer) (p : ENetPacket)
    (s : state) : state :=
  let h := header p in
  if negb (Magic h =? kPacketMagic) then s
  else if SenderID h =? u32 (ID (MyPlayer s)) then s
  else
    let stamped :=
      mkPacket (mkHeader (u32 now) (SenderID h) (Type_ h) (Length h)
                         (Timestamp h))
               (body p) peer in
    set_queue (RXQueue s ++ [stamped]) (LastHostID s) (LastHostPeer s) s.

(** ---- ProcessLAN ---- *)

(** The staleness test on the receive wall-clock kept in [Magic]. *)
Definition stale (time_last : Z) (p : ENetPacket) : bool :=
  (Magic (header p) >? time_last)
  || (Magic (header p) <? u32 (time_last - 500)).

(** The loop over the queue under the RX mutex; the result is the queue left
    behind and [found]. *)
Fixpoint scan_queue (type : Z) (time_last : Z) (q : list ENetPacket)
    : list ENetPacket * bool :=
  match q with
  | [] => ([], false)
  | p :: rest =>
      if stale time_last p then scan_queue type time_last rest
      else if type =? 2 then (p :: rest, true)
      else if type =? 1 then
        if Type_ (header p) =? 0 then (p :: rest, true) else (rest, false)
      else (p :: rest, false)
  end.

(** [ProcessLAN(type)] with the clock reading [time_last]; the last
    component is the time slept, in milliseconds. *)
Definition ProcessLAN (type : Z) (time_last : Z) (s : state)
    : state * Z :=
  if negb (Host s) then (s, 0)
  else
    let '(q, found) := scan_queue type time_last (RXQueue s) in
    let s' := set_queue q (LastHostID s) (LastHostPeer s) s in
    if found then (s', 0)
    else if type =? 2 then (s', 2) else (s', 0).

(** What [RecvPacketGeneric] hands back: the return value, the bytes copied
    to [packet] and the value stored through [timestamp]. *)
Record Received := mkReceived {
  ret_len : Z;
  copied : list byte;
  out_timestamp : option Z
}.

(** [RecvPacketGeneric(packet, block, timestamp)].  [time_last] is the
    clock reading of [ProcessLAN]; [arrived] are the packets the network
    thread pushes onto the queue between the two critical sections (during
    the 2 ms sleep, when there is one).  The copy takes [Length] bytes, cut
    at 2048, from behind the header without looking at the size of the
    packet: the result is [None] where the packet holds fewer.  The caller's
    buffer is one of 2048 bytes. *)
Definition RecvPacketGeneric (block : bool) (time_last : Z)
    (arrived : list ENetPacket) (s : state)
    : option (Received * state * Z) :=
  if negb (Host s) then Some (mkReceived 0 [] None, s, 0)
  else
    let '(s1, slept) := ProcessLAN (if block then 2 else 1) time_last s in
    match RXQueue s1 ++ arrived with
    | [] => Some (mkReceived 0 [] None, s1, slept)
    | p :: rest =>
        let h := header p in
        if Length h =? 0 then
          Some (mkReceived 0 [] (Some (Timestamp h)),
                set_queue rest (LastHostID s1) (LastHostPeer s1) s1, slept)
        else
          let len := if Length h >? 2048 then 2048 else Length h in
          if Z.of_nat (length (body p)) <? len then None
          else
            let s2 :=
              if Type_ h =? 1
              then set_queue rest (SenderID h) (Some (userData p)) s1
              else set_queue rest (LastHostID s1) (LastHostPeer s1) s1 in
            Some (mkReceived len (take (Z.to_nat len) (body p))
                             (Some (Timestamp h)), s2, slept)
    end.

Definition RecvPacket (time_last : Z) (arrived : list ENetPacket)
    (s : state) : option (Received * state * Z) :=
  RecvPacketGeneric false time_last arrived s.

Definition RecvHostPacket (time_last : Z) (arrived : list ENetPacket)
    (s : state) : option (Received * state * Z) :=
  RecvPacketGeneric true time_last arrived s.

(** ---- RecvReplies ---- *)

(** What the rest of the machine does while [RecvReplies] runs: the value
    each relaxed load of [ConnectedBitmask] returns ([conn_seen j] for the
    load made while the [j]-th packet dequeued by this call is handled) and,
    per round of the outer loop, the packets the network thread has pushed
    since the previous drain and the clock reading taken after the drain. *)
Record Round := mkRound {
  arrived : list ENetPacket;
  now : Z
}.

(** The drain loop ends with a [return] or falls through to the timeout
    check; with it go [ret], [myinstmask] and the caller's [packets]
    buffer. *)
Inductive Drained :=
| Return (ret : Z) (packets : list byte) (leftover : list ENetPacket)
| Continue (ret myinstmask : Z) (packets : list byte).

(** What a call comes to: a value returned, with the [packets] buffer and
    the state left behind, or behaviour the C++ does not define. *)
Inductive Reply :=
| Returned (ret : Z) (packets : list byte) (s : state)
| Undefined.

(** [good] of the drain loop. *)
Definition good (timestamp : Z) (h : MPPacketHeader) : bool :=
  if negb (Z.land (Type_ h) 0xFFFF =? 2) then false
  else if Timestamp h <? u64 (timestamp - 0x100000) then false
  else true.

(** [1 << n] on the [int] 1: defined for the counts 0 to 31. *)
Definition shift_one (n : Z) : option Z :=
  if (0 <=? n) && (n <? 32) then Some (Z.shiftl 1 n) else None.

(** [memcpy(&packets[(aid-1)*1024],
    &enetpacket->data[sizeof(MPPacketHeader)], len)], the index computed
    on 32 bits: [None] where the copy reads past the data of the packet or
    writes outside [packets]. *)
Definition store_reply (packets : list byte) (aid len : Z)
    (data : list byte) : option (list byte) :=
  let off := u32 ((aid - 1) * 1024) in
  if Z.of_nat (length data) <? len then None
  else if Z.of_nat (length packets) <? off + len then None
  else
    Some (list_inserts (Z.to_nat off) (take (Z.to_nat len) data) packets).

(** The block [if (len) { ... }] of a packet that is [good]: the payload,
    cut at 1024 bytes, goes to [packets] and the bit of the aid to [ret],
    which is a [u16]. *)
Definition add_aid (ret : Z) (packets : list byte) (p : ENetPacket)
    : option (Z * list byte) :=
  let h := header p in
  if Length h =? 0 then Some (ret, packets)
  else
    let len := if Length h >? 1024 then 1024 else Length h in
    let aid := Z.shiftr (Type_ h) 16 in
    packets' ← store_reply packets aid len (body p);
    bit ← shift_one aid;
    Some (u16 (Z.lor ret bit), packets').

(** [myinstmask |= (1<<header->SenderID)], [myinstmask] a [u16]. *)
Definition add_sender (myinstmask : Z) (h : MPPacketHeader) : option Z :=
  bit ← shift_one (SenderID h);
  Some (u16 (Z.lor myinstmask bit)).

(** The test that ends [RecvReplies] early. *)
Definition exit_test (myinstmask connmask ret aidmask : Z) : bool :=
  (Z.land myinstmask connmask =? connmask)
  || (Z.land ret aidmask =? aidmask).

(** The inner [while (!RXQueue.empty())] under the RX mutex; [k] packets
    have been dequeued by this call before.  [None]: undefined
    behaviour. *)
Fixpoint drain (timestamp aidmask : Z) (conn_seen : nat → Z) (k : nat)
    (q : list ENetPacket) (ret myinstmask : Z) (packets : list byte)
    : option Drained :=
  match q with
  | [] => Some (Continue ret myinstmask packets)
  | p :: rest =>
      let h := header p in
      if good timestamp h then
        '(ret', packets') ← add_aid ret packets p;
        my' ← add_sender myinstmask h;
        if exit_test my' (conn_seen k) ret' aidmask
        then Some (Return ret' packets' rest)
        else drain timestamp aidmask conn_seen (S k) rest ret' my' packets'
      else drain timestamp aidmask conn_seen (S k) rest ret myinstmask
             packets
  end.

(** The outer [for (;;)]: drain, check the timeout, sleep 1 ms.  [None]
    when the rounds supplied end before the function returns. *)
Fixpoint reply_loop (timestamp aidmask timeout_start : Z)
    (conn_seen : nat → Z) (rounds : list Round) (k : nat)
    (ret myinstmask : Z) (packets : list byte) (s : state)
    : option Reply :=
  match rounds with
  | [] => None
  | r :: later =>
      let q := RXQueue s ++ arrived r in
      match drain timestamp aidmask conn_seen k q ret myinstmask packets with
      | None => Some Undefined
      | Some (Return ret' packets' leftover) =>
          Some (Returned ret' packets'
                  (set_queue leftover (LastHostID s) (LastHostPeer s) s))
      | Some (Continue ret' my' packets') =>
          let s' := set_queue [] (LastHostID s) (LastHostPeer s) s in
          let remaining :=
            MPRecvTimeout s - to_int (u32 (now r - timeout_start)) in
          if remaining <=? 0 then Some (Returned ret' packets' s')
          else reply_loop timestamp aidmask timeout_start conn_seen later
                 (k + length q) ret' my' packets' s'
      end
  end.

(** [RecvReplies(inst, packets, timestamp, aidmask)]; [packets] is the
    caller's buffer, [timeout_start] the clock reading taken before the
    loop. *)
Definition RecvReplies (packets : list byte) (timestamp aidmask : Z)
    (timeout_start : Z) (conn_seen : nat → Z) (rounds : list Round)
    (s : state) : option Reply :=
  if negb (Host s) then Some (Returned 0 packets s)
  else
    match shift_one (ID (MyPlayer s)) with
    | None => Some Undefined
    | Some bit =>
        let myinstmask := u16 bit in
        let connmask := ConnectedBitmask s in
        if Z.land myinstmask connmask =? connmask
        then Some (Returned 0 packets s)
        else reply_loop timestamp aidmask timeout_start conn_seen rounds
               0 0 myinstmask packets s
    end.

(** ---- The constructor, StartHost, EndSession ---- *)

Definition kLocalhost : Z := 0x0100007F.

(** The members as the constructor leaves them; [me] is [MyPlayer], which
    the constructor does not set. *)
Definition LAN_new (me : Player) : state :=
  mkLAN false false (replicate 16 Player_zero) 0 0 me (replicate 16 None)
        [] 0 25 (-1) None [] [].

(** [strncpy(player->Name, playername, 31)] into a cleared [Name[32]];
    [playername] are the bytes of the C string before its terminator. *)
Definition player_name (playername : list byte) : list byte :=
  take 31 playername
  ++ replicate (32 - length (take 31 playername)) x00.

(** [StartHost(playername, numplayers, port)].  [inited] is the member
    [Inited]; [created] tells whether [enet_host_create] gave a host, whose
    peers are new ones, without [data]. *)
Definition StartHost (inited created : bool) (playername : list byte)
    (numplayers : Z) (s : state) : bool * state :=
  if negb inited then (false, s)
  else if numplayers >? 16 then (false, s)
  else if negb created then
    (false,
     mkLAN false (IsHost s) (Players s) (NumPlayers s) (MaxPlayers s)
       (MyPlayer s) (RemotePeers s) (PeerData s) (ConnectedBitmask s)
       (MPRecvTimeout s) (LastHostID s) (LastHostPeer s) (RXQueue s)
       (Net s))
  else
    let player :=
      mkPlayer 0 (player_name playername) Player_Host kLocalhost false 0 in
    (true,
     mkLAN true true (<[0%nat := player]> (Players s)) 1 numplayers player
       (RemotePeers s) [] (ConnectedBitmask s) (MPRecvTimeout s) (-1) None
       (RXQueue s) (Net s)).

(** [EndSession]; [active] is the member [Active].  With the ENet host its
    peers go, and what their [data] pointed to with them. *)
Definition EndSession (active : bool) (s : state) : state :=
  if negb active then s
  else
    let '(peers, net) :=
      for_upto 16
        (λ (i : Z) '((peers, net) : list (option ENetPeer) * list NetCall),
           if i =? ID (MyPlayer s) then (peers, net)
           else
             (<[Z.to_nat i := None]> peers,
              match (peers !!! Z.to_nat i : option ENetPeer) with
              | Some peer => net ++ [peer_disconnect peer]
              | None => net
              end))
        (RemotePeers s, Net s) in
    mkLAN false false (Players s) (NumPlayers s) (MaxPlayers s) (MyPlayer s)
      peers [] (ConnectedBitmask s) (MPRecvTimeout s) (LastHostID s)
      (LastHostPeer s) [] net.

(** ---- Bits of ConnectedBitmask ---- *)

(** [ConnectedBitmask.fetch_or(1 << id)] and
    [ConnectedBitmask.fetch_and(~(1 << id))] on the 16-bit atomic. *)
Definition set_bit (id mask : Z) : Z :=
  Z.lor mask (u16 (Z.shiftl 1 id)).

Definition clear_bit (id mask : Z) : Z :=
  Z.land mask (u16 (Z.lnot (Z.shiftl 1 id))).

Definition set_connected (mask : Z) (s : state) : state :=
  mkLAN (Host s) (IsHost s) (Players s) (NumPlayers s) (MaxPlayers s)
    (MyPlayer s) (RemotePeers s) (PeerData s) mask (MPRecvTimeout s)
    (LastHostID s) (LastHostPeer s) (RXQueue s) (Net s).

(** ---- Begin, End ---- *)

Definition Begin (s : state) : state :=
  if negb (Host s) then s
  else
    mkLAN (Host s) (IsHost s) (Players s) (NumPlayers s) (MaxPlayers s)
      (MyPlayer s) (RemotePeers s) (PeerData s)
      (set_bit (ID (MyPlayer s)) (ConnectedBitmask s)) (MPRecvTimeout s)
      (-1) None (RXQueue s)
      (Net s ++ [host_broadcast Chan_Cmd (le_store 1 Cmd_PlayerConnect)]).

Definition End_ (s : state) : state :=
  if negb (Host s) then s
  else
    mkLAN (Host s) (IsHost s) (Players s) (NumPlayers s) (MaxPlayers s)
      (MyPlayer s) (RemotePeers s) (PeerData s)
      (clear_bit (ID (MyPlayer s)) (ConnectedBitmask s)) (MPRecvTimeout s)
      (LastHostID s) (LastHostPeer s) (RXQueue s)
      (Net s ++ [host_broadcast Chan_Cmd (le_store 1 Cmd_PlayerDisconnect)]).

(** ---- SendPacketGeneric and its callers ---- *)

(** Modelled from the spec: the layout of [MPPacketHeader], declared in
    LAN.h, which is not among the sources: the five fields in the order
    the wire format of the specification lists them, little-endian and
    without padding, 24 bytes. *)
Definition MPPacketHeader_bytes (h : MPPacketHeader) : list byte :=
  le_store 4 (Magic h) ++ le_store 4 (SenderID h) ++ le_store 4 (Type_ h)
  ++ le_store 4 (Length h) ++ le_store 8 (Timestamp h).

Definition sizeof_MPPacketHeader : Z := 24.

(** The header at the front of a packet's data. *)
Definition MPPacketHeader_at (data : list byte) : MPPacketHeader :=
  mkHeader (field 0 4 data) (field 4 4 data) (field 8 4 data)
           (field 12 4 data) (field 16 8 data).

(** [SendPacketGeneric(type, packet, len, timestamp)], [packet] being the
    [len] bytes handed in. *)
Definition SendPacketGeneric (type : Z) (packet : list byte) (timestamp : Z)
    (s : state) : Z * state :=
  if negb (Host s) then (0, s)
  else
    let len := Z.of_nat (length packet) in
    let pktheader :=
      mkHeader kPacketMagic (u32 (ID (MyPlayer s))) (u32 type) (u32 len)
               (u64 timestamp) in
    let data := MPPacketHeader_bytes pktheader ++ packet in
    match LastHostPeer s with
    | Some peer =>
        if Z.land (u32 type) 0xFFFF =? 2
        then (len, net_call (peer_send peer Chan_MP data) s)
        else (len, net_call (host_broadcast Chan_MP data) s)
    | None => (len, net_call (host_broadcast Chan_MP data) s)
    end.

Definition SendPacket (packet : list byte) (timestamp : Z) (s : state)
    : Z * state :=
  SendPacketGeneric 0 packet timestamp s.

Definition SendCmd (packet : list byte) (timestamp : Z) (s : state)
    : Z * state :=
  SendPacketGeneric 1 packet timestamp s.

Definition SendReply (packet : list byte) (timestamp : Z) (aid : Z)
    (s : state) : Z * state :=
  SendPacketGeneric (Z.lor 2 (Z.shiftl aid 16)) packet timestamp s.

Definition SendAck (packet : list byte) (timestamp : Z) (s : state)
    : Z * state :=
  SendPacketGeneric 3 packet timestamp s.

(** ---- NetworkThreadFunc, from the bytes of a packet ---- *)

(** A packet of the MP channel as it comes from ENet: dropped when it is
    shorter than a header, otherwise treated as [NetworkThread_MP] says. *)
Definition NetworkThread_receive (now : Z) (peer : ENetPeer)
    (data : list byte) (s : state) : state :=
  if Z.of_nat (length data) <? sizeof_MPPacketHeader then s
  else
    NetworkThread_MP now peer
      (mkPacket (MPPacketHeader_at data) (drop 24 data) peer) s.

(** ---- GetPlayerList ---- *)

(** [GetPlayerList]; [HostAddress] is the member of that name. *)
Definition GetPlayerList (HostAddress : Z) (s : state) : list Player :=
  for_upto 16
    (λ (i : Z) (ret : list Player),
       let p : Player := Players s !!! Z.to_nat i in
       if decide (Status p = Player_None) then ret
       else
         let newp :=
           if ID p =? ID (MyPlayer s)
           then mkPlayer (ID p) (Name p) (Status p) kLocalhost true (Ping p)
           else
             mkPlayer (ID p) (Name p) (Status p)
               (if decide (Status p = Player_Host) then HostAddress
                else Address p)
               false (Ping p) in
         ret ++ [newp])
    [].

(** ---- StartClient, the packet that ends the wait ---- *)

(** What [StartClient] makes of a packet received once connected: [None]
    where it reads [data[0]] of an empty packet; [Some None] where the
    packet is passed over; [Some (Some (id, max))] where it is taken as
    the [ClientInit], [id] and [max] being stored in [MyPlayer.ID] and
    [MaxPlayers]. *)
Definition StartClient_takes (chan : Z) (data : list byte)
    : option (option (Z * Z)) :=
  if negb (chan =? Chan_Cmd) then Some None
  else if Z.of_nat (length data) =? 0 then None
  else if negb (field 0 1 data =? Cmd_ClientInit) then Some None
  else if negb (Z.of_nat (length data) =? 11) then Some None
  else if negb (field 1 4 data =? kLANMagic) then Some None
  else if negb (field 5 4 data =? kProtocolVersion) then Some None
  else if field 10 1 data >? 16 then Some None
  else Some (Some (field 9 1 data, field 10 1 data)).

(** ---- ProcessHostEvent, the other events ---- *)

(** [peer->data]: the table slot a peer was given, if any. *)
Fixpoint peer_data (pd : list (nat * Z)) (r : nat) : option Z :=
  match pd with
  | [] => None
  | (r', slot) :: rest => if decide (r' = r) then Some slot else peer_data rest r
  end.

(** ---- ProcessClientEvent, connections between clients ---- *)

(** The search of [ENET_EVENT_TYPE_CONNECT] for the player a connecting
    peer is: the first slot, other than the one of the local player's id,
    that holds a client with the peer's address; -1 when there is none. *)
Fixpoint find_client (rounds : nat) (i : Z) (host : Z) (s : state) : Z :=
  match rounds with
  | O => -1
  | S k =>
      let player := Players s !!! Z.to_nat i in
      if i =? ID (MyPlayer s) then find_client k (i + 1) host s
      else if negb (bool_decide (Status player = Player_Client))
      then find_client k (i + 1) host s
      else if Address player =? host then i
      else find_client k (i + 1) host s
  end.

Definition ProcessClientEvent_CONNECT (peer : ENetPeer) (s : state)
    : state :=
  let playerid := find_client 16 0 (address_host peer) s in
  if playerid <? 0 then net_call (peer_disconnect peer) s
  else
    mkLAN (Host s) (IsHost s) (Players s) (NumPlayers s) (MaxPlayers s)
      (MyPlayer s) (<[Z.to_nat playerid := Some peer]> (RemotePeers s))
      ((peer_ref peer, playerid) :: PeerData s) (ConnectedBitmask s)
      (MPRecvTimeout s) (LastHostID s) (LastHostPeer s) (RXQueue s)
      (Net s).

Definition mark_disconnected (p : Player) : Player :=
  mkPlayer (ID p) (Name p) Player_Disconnected (Address p)
           (IsLocalPlayer p) (Ping p).

Definition ProcessClientEvent_DISCONNECT (peer : ENetPeer) (s : state)
    : state :=
  match peer_data (PeerData s) (peer_ref peer) with
  | None => s
  | Some slot =>
      let id := ID (Players s !!! Z.to_nat slot) in
      mkLAN (Host s) (IsHost s)
        (alter mark_disconnected (Z.to_nat slot) (Players s))
        (NumPlayers s) (MaxPlayers s) (MyPlayer s)
        (<[Z.to_nat id := None]> (RemotePeers s)) (PeerData s)
        (clear_bit id (ConnectedBitmask s)) (MPRecvTimeout s)
        (LastHostID s) (LastHostPeer s) (RXQueue s) (Net s)
  end.

Section PlayerLayout.
(** The bytes of a [struct Player] and the struct read back from them; the
    layout is that of LAN.h. *)
Context (sizeof_Player : nat) (Player_bytes : Player → list byte)
        (Player_of_bytes : list byte → Player).

Definition HostUpdatePlayerList (s : state) : state :=
  net_call
    (host_broadcast Chan_Cmd
       (le_store 1 Cmd_PlayerList ++ le_store 1 (NumPlayers s)
        ++ concat (map Player_bytes (Players s))))
    s.

Definition free_slot (p : Player) : Player :=
  mkPlayer 0 (Name p) Player_None (Address p) (IsLocalPlayer p) (Ping p).

Definition ProcessHostEvent_DISCONNECT (peer : ENetPeer) (s : state)
    : state :=
  match peer_data (PeerData s) (peer_ref peer) with
  | None => s
  | Some slot =>
      let id := ID (Players s !!! Z.to_nat slot) in
      HostUpdatePlayerList
        (mkLAN (Host s) (IsHost s)
           (alter free_slot (Z.to_nat slot) (Players s))
           (NumPlayers s - 1) (MaxPlayers s) (MyPlayer s)
           (<[Z.to_nat id := None]> (RemotePeers s)) (PeerData s)
           (clear_bit id (ConnectedBitmask s)) (MPRecvTimeout s)
           (LastHostID s) (LastHostPeer s) (RXQueue s) (Net s))
  end.

(** The player a [PlayerInfo] carries, as the host takes it over. *)
Definition client_entry (peer : ENetPeer) (data : list byte) : Player :=
  let player := Player_of_bytes (take sizeof_Player (drop 9 data)) in
  mkPlayer (ID player) (<[31%nat := x00]> (Name player)) Player_Client
           (address_host peer) (IsLocalPlayer player) (Ping player).

(** [ProcessHostEvent], [ENET_EVENT_TYPE_RECEIVE].  [None]: [peer->data]
    is dereferenced while null. *)
Definition ProcessHostEvent_RECEIVE (peer : ENetPeer) (data : list byte)
    (s : state) : option state :=
  if Z.of_nat (length data) <? 1 then Some s
  else
    let cmd := field 0 1 data in
    if cmd =? Cmd_PlayerInfo then
      if negb (length data =? 9 + sizeof_Player)%nat then Some s
      else if negb (field 1 4 data =? kLANMagic)
              || negb (field 5 4 data =? kProtocolVersion)
      then Some (net_call (peer_disconnect peer) s)
      else
        slot ← peer_data (PeerData s) (peer_ref peer);
        let player := client_entry peer data in
        if negb (ID player =? ID (Players s !!! Z.to_nat slot))
        then Some (net_call (peer_disconnect peer) s)
        else
          Some (HostUpdatePlayerList
                  (mkLAN (Host s) (IsHost s)
                     (<[Z.to_nat slot := player]> (Players s))
                     (NumPlayers s) (MaxPlayers s) (MyPlayer s)
                     (RemotePeers s) (PeerData s) (ConnectedBitmask s)
                     (MPRecvTimeout s) (LastHostID s) (LastHostPeer s)
                     (RXQueue s) (Net s)))
    else if cmd =? Cmd_PlayerConnect then
      if negb (length data =? 1)%nat then Some s
      else
        match peer_data (PeerData s) (peer_ref peer) with
        | None => Some s
        | Some slot =>
            Some (set_connected
                    (set_bit (ID (Players s !!! Z.to_nat slot))
                       (ConnectedBitmask s)) s)
        end
    else if cmd =? Cmd_PlayerDisconnect then
      if negb (length data =? 1)%nat then Some s
      else
        match peer_data (PeerData s) (peer_ref peer) with
        | None => Some s
        | Some slot =>
            Some (set_connected
                    (clear_bit (ID (Players s !!! Z.to_nat slot))
                       (ConnectedBitmask s)) s)
        end
    else Some s.

(** [MyPlayer] as [StartClient] sets it up before it waits, and the
    [PlayerInfo] it sends once it has taken a [ClientInit] carrying [id]. *)
Definition StartClient_player (playername : list byte) : Player :=
  mkPlayer 0 (player_name playername) Player_Connecting 0 false 0.

Definition with_ID (id : Z) (p : Player) : Player :=
  mkPlayer id (Name p) (Status p) (Address p) (IsLocalPlayer p) (Ping p).

Definition cmd_PlayerInfo (me : Player) : list byte :=
  le_store 1 Cmd_PlayerInfo ++ le_store 4 kLANMagic
  ++ le_store 4 kProtocolVersion ++ Player_bytes me.

Definition StartClient_reply (playername : list byte) (id : Z) : list byte :=
  cmd_PlayerInfo (with_ID id (StartClient_player playername)).

End PlayerLayout.

End LAN.


(** ** A recording emulator

    A small instance of [Emulator] that only records what the engine feeds
    it, used to run the engine on concrete inputs. *)
Record Recorder := mkRecorder {
  rec_keys : Z;
  rec_touch : option (Z * Z);
  rec_lid : bool;
  rec_ram : list byte     (* one byte more after every frame *)
}.

Definition recorder : Emulator :=
  {| NDS := Recorder;
     SetKeyMask := λ k n, mkRecorder k (rec_touch n) (rec_lid n) (rec_ram n);
     TouchScreen := λ x y n,
       mkRecorder (rec_keys n) (Some (x, y)) (rec_lid n) (rec_ram n);
     ReleaseScreen := λ n,
       mkRecorder (rec_keys n) None (rec_lid n) (rec_ram n);
     SetLidClosed := λ b n,
       mkRecorder (rec_keys n) (rec_touch n) b (rec_ram n);
     NDS_RunFrame := λ n,
       (mkRecorder (rec_keys n) (rec_touch n) (rec_lid n) (x01 :: rec_ram n),
        263);
     MainRAM := rec_ram;
     ARM9_R := λ n, [];
     ARM7_R := λ n, [];
     XXH64 := λ seed bs, Z.of_nat (length bs) |}.

Definition Recorder_reset : Recorder := mkRecorder 0 None false [].

(** * Vocabulary of the properties *)

(** ** The input ring *)

(** An [InputFrame] whose fields fit their C types. *)
Definition InputFrame_fits (i : InputFrame) : Prop :=
  0 ≤ FrameNum i < 2 ^ 32 ∧ 0 ≤ KeyMask i < 2 ^ 32
  ∧ 0 ≤ Touching i < 2 ^ 8 ∧ 0 ≤ TouchX i < 2 ^ 16 ∧ 0 ≤ TouchY i < 2 ^ 16
  ∧ 0 ≤ LidClosed i < 2 ^ 8 ∧ 0 ≤ Checksum i < 2 ^ 32.

(** The shape of the two rings: [4] rows of [256] cells. *)
Definition ring_shape {A} (a : list (list A)) : Prop :=
  length a = 4%nat ∧ Forall (λ row, length row = 256%nat) a.

(** The pre-fill loops of [Init] on one ring, the cell written for frame
    [f] being [v f]. *)
Definition fill_row {A} (v : Z → A) (p : Z) (n : nat) (a : list (list A))
    : list (list A) :=
  for_upto n (λ f a, set2 a p (f mod NetplaySession.INPUT_BUF_SIZE) (v f)) a.

Definition fill_rows {A} (v : Z → A) (np d : nat) (a : list (list A))
    : list (list A) :=
  for_upto np (λ p a, fill_row v p d a) a.

(** The second loop of [ApplyInputs]. *)
Definition clear_slot (bufIdx : Z) (n : nat) (r : list (list bool))
    : list (list bool) :=
  for_upto n (λ i r, set2 r i bufIdx false) r.

Section SessionVocabulary.
Context {emu : Emulator}.
Import NetplaySession.

(** The session [s] with other ready flags. *)
Definition with_ready (rdy : list (list bool)) (s : state) : state :=
  set_inputs (InputBuf s) rdy s.

(** [CreateInstances] has made the emulators of all players: none of
    [Instances[0 .. NumInstances)] is null. *)
Definition instances_created (s : state) : Prop :=
  ∀ i, (i < Z.to_nat (NumInstances s))%nat →
       ∃ n, Instances s !! i = Some (Some n).

(** What a frame does to the emulator of one player: the inputs of the ring
    cell [input] are applied, then the emulator runs the frame. *)
Definition instance_frame (input : InputFrame) (n : NDS) : NDS * Z :=
  NDS_RunFrame (apply_input input n).

End SessionVocabulary.

(** ** Netplay messages *)

(** The wire form of [MsgInputBatch] followed by its frames, and of
    [MsgStartGame] (packed structs of NetplayProtocol.h). *)
Definition msg_InputBatch (frames : list InputFrame) : list byte :=
  le_store 1 Msg_InputBatch ++ le_store 1 (Z.of_nat (length frames))
  ++ concat (map InputFrame_bytes frames).

Definition msg_StartGame (frame delay : Z) : list byte :=
  le_store 1 Msg_StartGame ++ le_store 4 frame ++ le_store 1 delay.

(** The size of the struct a control message of the given type is read
    as; [None] for a type [HandleControlMessage] does not know. *)
Definition control_size (type : Z) : option Z :=
  if type =? Msg_SessionOffer then Some sizeof_MsgSessionOffer
  else if type =? Msg_SessionAccept then Some sizeof_MsgSessionAccept
  else if type =? Msg_BlobStart then Some sizeof_MsgBlobStart
  else if type =? Msg_BlobChunk then Some sizeof_MsgBlobChunk
  else if type =? Msg_BlobEnd then Some sizeof_MsgBlobEnd
  else if type =? Msg_SyncReady then Some 1
  else if type =? Msg_StartGame then Some sizeof_MsgStartGame
  else if type =? Msg_DesyncAlert then Some sizeof_MsgDesyncAlert
  else if type =? Msg_Disconnect then Some sizeof_MsgDisconnect
  else None.

Section FrameVocabulary.
Context {emu : Emulator}.
Import NetplaySession.

(** [n] calls of [RunFrame] in a row. *)
Fixpoint RunFrames (n : nat) (s : state) : option state :=
  match n with
  | O => Some s
  | S k => s1 ← RunFrames k s; rs ← RunFrame s1; Some rs.2
  end.

(** A run of control messages from one peer, oldest first. *)
Fixpoint handle_all (peerIdx : Z) (msgs : list (list byte)) (s : state)
    : option state :=
  match msgs with
  | [] => Some s
  | m :: rest => s' ← HandleControlMessage peerIdx m s; handle_all peerIdx rest s'
  end.

(** A run of blob messages through the dispatch loop alone. *)
Fixpoint offer_run (msgs : list (list byte)) (recv : list BlobTransfer.state)
    : option (list BlobTransfer.state) :=
  match msgs with
  | [] => Some recv
  | m :: rest => r ← offer_blob m recv; offer_run rest r
  end.

(** A transport that is connected has a host. *)
Definition transport_ok (t : NetplayTransport.state) : Prop :=
  NetplayTransport.Connected t = true → NetplayTransport.Host t = true.

End FrameVocabulary.

(** One of the three blob messages. *)
Definition blob_message (m : list byte) : Prop :=
  field 0 1 m = Msg_BlobStart ∨ field 0 1 m = Msg_BlobChunk
  ∨ field 0 1 m = Msg_BlobEnd.

(** A receiver in the middle of a transfer of [data] as a blob of type
    [type]: every chunk is in, the [BlobEnd] is not. *)
Definition awaiting_end (type : Z) (data : list byte)
    (b : BlobTransfer.state) : Prop :=
  BlobTransfer.Receiving b = true ∧ BlobTransfer.Complete b = false
  ∧ BlobTransfer.Buffer b = data ∧ BlobTransfer.Type_ b = type
  ∧ BlobTransfer.TotalLen b = Z.of_nat (length data).

(** A receiver that holds [data] as a complete blob of type [type]. *)
Definition holds_blob (type : Z) (data : list byte)
    (b : BlobTransfer.state) : Prop :=
  BlobTransfer.Complete b = true ∧ BlobTransfer.Receiving b = false
  ∧ BlobTransfer.Buffer b = data ∧ BlobTransfer.Type_ b = type.

(** The payloads of the packets a transport has handed to ENet since it
    was [t]. *)
Definition payloads_since (t t' : NetplayTransport.state)
    : list (list byte) :=
  map NetplayTransport.payload
    (drop (length (NetplayTransport.Sent t)) (NetplayTransport.Sent t')).

(** A blob as [Send] is given it: its type and its bytes. *)
Definition blob_stream (b : Z * list byte) : list (list byte) :=
  BlobTransfer.messages b.1 b.2.

Definition sendable (b : Z * list byte) : Prop :=
  0 ≤ b.1 < 256 ∧ Z.of_nat (length b.2) < 2 ^ 32.

(** ** The host's player table *)
Section TableVocabulary.
Import LAN.

(** Slot [id] of the table is [Player_None]. *)
Definition slot_free (s : state) (id : Z) : Prop :=
  Status (Players s !!! Z.to_nat id) = Player_None.

(** Number of table entries that are not [Player_None]. *)
Definition occupied (ps : list Player) : nat :=
  length (filter (λ p, Status p ≠ Player_None) ps).

(** The host's table: sixteen entries, [NumPlayers] of them in use. *)
Definition table_ok (s : state) : Prop :=
  length (Players s) = 16%nat
  ∧ NumPlayers s = Z.of_nat (occupied (Players s))
  ∧ length (RemotePeers s) = 16%nat.

End TableVocabulary.

(** ** Replies *)
Section ReplyVocabulary.
Import LAN.

(** A queued packet passes the filter of [RecvReplies]: it is a reply and
    its emulated timestamp is not more than 2^20 behind the caller's. *)
Definition accepted (timestamp : Z) (p : ENetPacket) : Prop :=
  Z.land (Type_ (header p)) 0xFFFF = 2
  ∧ u64 (timestamp - 0x100000) ≤ Timestamp (header p).

(** Its payload is copied to the caller: it also carries data. *)
Definition collected (timestamp : Z) (p : ENetPacket) : Prop :=
  accepted timestamp p ∧ Length (header p) ≠ 0.

(** The association id carried in the high half of the packet type. *)
Definition aid_of (p : ENetPacket) : Z := Z.shiftr (Type_ (header p)) 16.

(** The bytes of a collected reply that are copied out, at most 1024, and
    where in the caller's [packets] they go: slot [aid - 1], the slots
    being 1024 bytes apart. *)
Definition reply_len (p : ENetPacket) : Z := Z.min (Length (header p)) 1024.

Definition reply_slot (p : ENetPacket) : Z := u32 ((aid_of p - 1) * 1024).

(** Byte [j] of [packets] is one the payload of [p] is copied to. *)
Definition in_slot_of (p : ENetPacket) (j : Z) : Prop :=
  reply_slot p ≤ j < reply_slot p + reply_len p.

(** [m] fits a [u16]. *)
Definition low16 (m : Z) : Prop := ∀ b, 16 ≤ b → Z.testbit m b = false.

(** The timeout test made after a drain. *)
Definition expired (timeout_start timeout : Z) (r : Round) : Prop :=
  timeout - to_int (u32 (now r - timeout_start)) ≤ 0.

(** Player [i] (one of the sixteen the masks have a bit for) is the caller
    itself or the sender of an accepted reply among [ps]. *)
Definition has_replied (timestamp me : Z) (ps : list ENetPacket) (i : Z)
    : Prop :=
  i < 16
  ∧ (i = me
     ∨ ∃ p, p ∈ ps ∧ accepted timestamp p ∧ SenderID (header p) = i).

(** (a): every player connected according to [conn] has replied. *)
Definition all_replied (timestamp me conn : Z) (ps : list ENetPacket)
    : Prop :=
  ∀ i, 0 ≤ i → Z.testbit conn i = true → has_replied timestamp me ps i.

(** (b): for every aid asked for in [aidmask] a reply was collected. *)
Definition aids_cover (timestamp aidmask : Z) (ps : list ENetPacket)
    : Prop :=
  ∀ a, 0 ≤ a → Z.testbit aidmask a = true →
    ∃ p, p ∈ ps ∧ collected timestamp p ∧ aid_of p = a ∧ a < 16.

(** (a) or (b) holds once the packets [ps] have been dequeued, the last of
    them just now; [conn_seen] gives the connected mask at that moment. *)
Definition done_after (timestamp me aidmask : Z) (conn_seen : nat → Z)
    (ps : list ENetPacket) : Prop :=
  all_replied timestamp me (conn_seen (length ps - 1)%nat) ps
  ∨ aids_cover timestamp aidmask ps.

(** At none of the accepted replies among [ps] did (a) or (b) hold when it
    was handled. *)
Definition kept_waiting (timestamp me aidmask : Z) (conn_seen : nat → Z)
    (ps : list ENetPacket) : Prop :=
  ∀ pre p post, ps = pre ++ p :: post →
    accepted timestamp p →
    ¬ done_after timestamp me aidmask conn_seen (pre ++ [p]).

(** [ret] and [myinstmask] record the packets [ps]: the aids (below 16) of
    the collected replies, and who has replied. *)
Definition reply_masks (timestamp me : Z) (ps : list ENetPacket)
    (ret myinstmask : Z) : Prop :=
  low16 ret ∧ low16 myinstmask
  ∧ (∀ a, 0 ≤ a →
       Z.testbit ret a = true
       ↔ ∃ p, p ∈ ps ∧ collected timestamp p ∧ aid_of p = a ∧ a < 16)
  ∧ (∀ i, 0 ≤ i →
       Z.testbit myinstmask i = true ↔ has_replied timestamp me ps i).

(** The handling of [p] stays within what the C++ defines: the sender id
    of an accepted reply is a shift count below 32 and, when it carries a
    payload, so is its aid, the packet holds the bytes that are copied and
    they fit into [packets]. *)
Definition reply_fits (packets : list byte) (timestamp : Z)
    (p : ENetPacket) : Prop :=
  accepted timestamp p →
  0 ≤ SenderID (header p) < 32
  ∧ (Length (header p) ≠ 0 →
     0 ≤ aid_of p < 32
     ∧ reply_len p ≤ Z.of_nat (length (body p))
     ∧ reply_slot p + reply_len p ≤ Z.of_nat (length packets)).

(** Every collected reply among [ps] fitted. *)
Definition replies_fit (packets : list byte) (timestamp : Z)
    (ps : list ENetPacket) : Prop :=
  ∀ q, q ∈ ps → collected timestamp q →
    0 ≤ aid_of q < 32
    ∧ reply_len q ≤ Z.of_nat (length (body q))
    ∧ reply_slot q + reply_len q ≤ Z.of_nat (length packets).

(** The buffer [pk] is [packets] with the payloads of the collected
    replies among [ps] copied in: the bytes no collected reply is copied to
    are those of [packets], and the slot of a collected reply holds its
    payload unless a later collected reply has the same aid. *)
Definition replies_stored (packets : list byte) (timestamp : Z)
    (ps : list ENetPacket) (pk : list byte) : Prop :=
  length pk = length packets
  ∧ (∀ j, 0 ≤ j →
       (∀ q, q ∈ ps → collected timestamp q → ¬ in_slot_of q j) →
       pk !! Z.to_nat j = packets !! Z.to_nat j)
  ∧ (∀ pre p post, ps = pre ++ p :: post → collected timestamp p →
       (∀ q, q ∈ post → collected timestamp q → aid_of q ≠ aid_of p) →
       ∀ k, 0 ≤ k < reply_len p →
         pk !! Z.to_nat (reply_slot p + k) = body p !! Z.to_nat k).

(** The variables of the loop once the packets [ps] have gone through it:
    the two masks, and the caller's buffer, which started as [packets]. *)
Definition drained (packets : list byte) (timestamp me : Z)
    (ps : list ENetPacket) (ret myinstmask : Z) (pk : list byte) : Prop :=
  reply_masks timestamp me ps ret myinstmask
  ∧ replies_fit packets timestamp ps
  ∧ replies_stored packets timestamp ps pk.

End ReplyVocabulary.

(** ** Blob framing *)

(** The number of chunks [Send] cuts [n] bytes into, the bytes the [k]-th
    chunk carries and the chunk message itself. *)
Definition chunk_count (n : nat) : nat :=
  Z.to_nat ((Z.of_nat n + (kBlobChunkSize - 1)) / kBlobChunkSize).

Definition chunk_payload (data : list byte) (k : nat) : list byte :=
  take (Z.to_nat kBlobChunkSize)
       (drop (Z.to_nat (kBlobChunkSize * Z.of_nat k)) data).

Definition nth_chunk (data : list byte) (k : nat) : list byte :=
  BlobTransfer.msg_BlobChunk (kBlobChunkSize * Z.of_nat k)
    (chunk_payload data k).

(** Peer [peerIdx] of a transport can be sent to. *)
Definition peer_ok (peerIdx : Z) (t : NetplayTransport.state) : Prop :=
  NetplayTransport.Host t = true
  ∧ 0 ≤ peerIdx < NetplayTransport.NumPeers t
  ∧ NetplayTransport.Peers t !!! Z.to_nat peerIdx = true.

(** The transport [t] with more packets handed to ENet. *)
Definition with_sent (more : list NetplayTransport.OutPacket)
    (t : NetplayTransport.state) : NetplayTransport.state :=
  NetplayTransport.mkTransport (NetplayTransport.Host t)
    (NetplayTransport.Peers t) (NetplayTransport.NumPeers t)
    (NetplayTransport.HostMode t) (NetplayTransport.Connected t)
    (NetplayTransport.Sent t ++ more).

(** A control message as a reliable packet for one peer, or for all. *)
Definition to_peer (peerIdx : Z) (m : list byte) : NetplayTransport.OutPacket :=
  NetplayTransport.mkOut (Some peerIdx) Chan_Control true m.

Definition to_all (m : list byte) : NetplayTransport.OutPacket :=
  NetplayTransport.mkOut None Chan_Control true m.

(** A message that is not a [BlobStart]. *)
Definition not_BlobStart (m : list byte) : Prop :=
  field 0 1 m ≠ Msg_BlobStart.

(** The sum of the bytes of a run, unreduced. *)
Definition byte_total (bs : list byte) : Z :=
  foldr (λ b acc, byte_val b + acc) 0 bs.

(** A started transport with one peer, as a client has it once connected. *)
Definition one_peer_transport : NetplayTransport.state :=
  NetplayTransport.mkTransport true [true; false; false; false] 1 false true
    [].

(** ** Concrete sessions *)

(** No session registered as [Current]. *)
Definition fresh_globals : NetplaySession.Globals :=
  NetplaySession.mkGlobals None.

(** A two-player session on the recording emulator, host side, delay 4. *)
Definition two_player_init :=
  NetplaySession.Init (emu := recorder) 1 0 2 4 NetplaySession.new
    fresh_globals.

(** The session [Init] hands back. *)
Definition two_player_idle : NetplaySession.state (emu := recorder) :=
  two_player_init.1.2.


(** The session of [two_player_init] once [CreateInstances] has made and
    reset its two emulators. *)
Definition two_player_session : NetplaySession.state :=
  NetplaySession.set_instances (emu := recorder)
    [Some Recorder_reset; Some Recorder_reset; None; None]
    (replicate 4 0) two_player_idle.

(** [n] calls of [RunFrame] in a row. *)
Fixpoint run_frames (n : nat) (s : NetplaySession.state (emu := recorder))
    : option (NetplaySession.state (emu := recorder)) :=
  match n with
  | O => Some s
  | S k => s1 ← run_frames k s; rs ← NetplaySession.RunFrame s1; Some rs.2
  end.

(** The result of one more frame, for a session on which [RunFrame]
    succeeds. *)
Definition frame_after (s : NetplaySession.state (emu := recorder))
    : NetplaySession.state (emu := recorder) :=
  (default (0, s) (NetplaySession.RunFrame s)).2.

(** The session above after its four pre-filled frames, no input having
    been entered or received. *)
Definition starved_session : NetplaySession.state :=
  default two_player_session (run_frames 4 two_player_session).

(** The two-player session at checkpoint frame 60, its transport started
    and a desync callback registered. *)
Definition checkpoint_session : NetplaySession.state :=
  NetplaySession.SetDesyncCallback
    (NetplaySession.set_transport
       (NetplayTransport.mkTransport true [true; false; false; false] 1 true
          true [])
       (NetplaySession.set_frame 60 4 two_player_session)).

(** The blob receivers of a session after a run of control messages from
    peer 0. *)
Fixpoint control_run (msgs : list (list byte))
    (s : NetplaySession.state (emu := recorder))
    : option (NetplaySession.state (emu := recorder)) :=
  match msgs with
  | [] => Some s
  | m :: rest =>
      s' ← NetplaySession.HandleControlMessage 0 m s; control_run rest s'
  end.

(** The recording emulator as a [Console]: a savestate is the recorded
    RAM, there is no cartridge save memory and no sound to mute. *)
Definition recorder_console : @Console recorder :=
  @Build_Console recorder unit
    (λ _ _ _, mkRecorder 0 None false [])
    (λ n : Recorder, n)
    (λ _ (n : Recorder), n)
    (λ n : Recorder, (n, Some (rec_ram n)))
    (λ data (n : Recorder),
       (mkRecorder (rec_keys n) (rec_touch n) (rec_lid n) data, true))
    (λ n : Recorder, None)
    (λ _ (n : Recorder), n).

(** The host of [checkpoint_session] after [HostSendStates] to peer 0. *)
Definition synced_host : NetplaySession.state (emu := recorder) :=
  (default (false, checkpoint_session)
     (NetplaySession.HostSendStates (con := recorder_console) 0
        checkpoint_session)).2.

(** *** LAN sessions *)

Definition peer_of_player1 : LAN.ENetPeer := LAN.mkPeer 1 0x0A000002.
Definition peer_of_player2 : LAN.ENetPeer := LAN.mkPeer 2 0x0A000003.
Definition new_peer : LAN.ENetPeer := LAN.mkPeer 9 0x0A000009.

Definition host_player : LAN.Player :=
  LAN.mkPlayer 0 (replicate 32 x00) LAN.Player_Host 0x0100007F false 0.

(** A host with three players in game (ids 0, 1, 2), room for four, and an
    empty RX queue. *)
Definition lan_host : LAN.state :=
  {| LAN.Host := true; LAN.IsHost := true;
     LAN.Players :=
       host_player
       :: LAN.mkPlayer 1 (replicate 32 x00) LAN.Player_Client 0x0A000002
            false 0
       :: LAN.mkPlayer 2 (replicate 32 x00) LAN.Player_Client 0x0A000003
            false 0
       :: replicate 13 LAN.Player_zero;
     LAN.NumPlayers := 3; LAN.MaxPlayers := 4;
     LAN.MyPlayer := host_player;
     LAN.RemotePeers :=
       None :: Some peer_of_player1 :: Some peer_of_player2
       :: replicate 13 None;
     LAN.PeerData := [(1%nat, 1); (2%nat, 2)];
     LAN.ConnectedBitmask := 7; LAN.MPRecvTimeout := 25;
     LAN.LastHostID := -1; LAN.LastHostPeer := None;
     LAN.RXQueue := []; LAN.Net := [] |}.

Definition with_queue (q : list LAN.ENetPacket) (s : LAN.state) : LAN.state :=
  LAN.set_queue q (LAN.LastHostID s) (LAN.LastHostPeer s) s.

Definition with_capacity (n : Z) (s : LAN.state) : LAN.state :=
  LAN.mkLAN (LAN.Host s) (LAN.IsHost s) (LAN.Players s) (LAN.NumPlayers s) n
    (LAN.MyPlayer s) (LAN.RemotePeers s) (LAN.PeerData s)
    (LAN.ConnectedBitmask s) (LAN.MPRecvTimeout s) (LAN.LastHostID s)
    (LAN.LastHostPeer s) (LAN.RXQueue s) (LAN.Net s).

(** Player 1 of the same session, as a client sees it: connected to the
    host and to player 2. *)
Definition peer_of_host : LAN.ENetPeer := LAN.mkPeer 0 0x0A000001.

Definition lan_client : LAN.state :=
  {| LAN.Host := true; LAN.IsHost := false;
     LAN.Players := LAN.Players lan_host;
     LAN.NumPlayers := 3; LAN.MaxPlayers := 4;
     LAN.MyPlayer :=
       LAN.mkPlayer 1 (replicate 32 x00) LAN.Player_Client 0x0A000002
         false 0;
     LAN.RemotePeers :=
       Some peer_of_host :: None :: Some peer_of_player2
       :: replicate 13 None;
     LAN.PeerData := [(0%nat, 0); (2%nat, 2)];
     LAN.ConnectedBitmask := 7; LAN.MPRecvTimeout := 25;
     LAN.LastHostID := -1; LAN.LastHostPeer := None;
     LAN.RXQueue := []; LAN.Net := [] |}.

(** A layout of [struct Player] for the examples: the fields in the order
    of the record, integers little-endian on four bytes, the flag padded
    to four bytes; 52 bytes. *)
Definition status_code (st : LAN.PlayerStatus) : Z :=
  match st with
  | LAN.Player_None => 0
  | LAN.Player_Client => 1
  | LAN.Player_Host => 2
  | LAN.Player_Connecting => 3
  | LAN.Player_Disconnected => 4
  end.

Definition status_of_code (c : Z) : LAN.PlayerStatus :=
  if c =? 1 then LAN.Player_Client
  else if c =? 2 then LAN.Player_Host
  else if c =? 3 then LAN.Player_Connecting
  else if c =? 4 then LAN.Player_Disconnected
  else LAN.Player_None.

Definition example_Player_bytes (p : LAN.Player) : list byte :=
  le_store 4 (LAN.ID p) ++ take 32 (LAN.Name p)
  ++ le_store 4 (status_code (LAN.Status p)) ++ le_store 4 (LAN.Address p)
  ++ le_store 4 (if LAN.IsLocalPlayer p then 1 else 0)
  ++ le_store 4 (LAN.Ping p).

Definition example_Player_of_bytes (bs : list byte) : LAN.Player :=
  LAN.mkPlayer (to_int (field 0 4 bs)) (take 32 (drop 4 bs))
    (status_of_code (field 36 4 bs)) (field 40 4 bs)
    (negb (field 44 1 bs =? 0)) (field 48 4 bs).

(** A caller's buffer for the replies of fifteen clients, 1024 bytes for
    each. *)
Definition reply_buffer : list byte := replicate (Z.to_nat 15360) x00.

(** A bulk frame (type 0) from player 1 as it comes off the wire. *)
Definition wire_frame : LAN.ENetPacket :=
  LAN.mkPacket (LAN.mkHeader LAN.kPacketMagic 1 0 4 77) [x01; x02; x03; x04]
    new_peer.

(** The same frame once the network thread has queued it at wall-clock
    1000. *)
Definition queued_frame : LAN.ENetPacket :=
  LAN.mkPacket (LAN.mkHeader 1000 1 0 4 77) [x01; x02; x03; x04]
    peer_of_player1.

(** A two-byte reply with the given aid as it comes off the wire, and once
    the network thread has queued it at wall-clock 1000. *)
Definition wire_reply (sender aid : Z) : LAN.ENetPacket :=
  LAN.mkPacket
    (LAN.mkHeader LAN.kPacketMagic sender (Z.lor 2 (Z.shiftl aid 16)) 2
                  3000000)
    [x0a; x0b] new_peer.

Definition reply_from (sender aid : Z) (peer : LAN.ENetPeer)
    : LAN.ENetPacket :=
  LAN.mkPacket (LAN.mkHeader 1000 sender (Z.lor 2 (Z.shiftl aid 16)) 2 3000000)
    [x0a; x0b] peer.


(** ** The RX queue *)
Section QueueVocabulary.
Import LAN.

(** The receive wall-clock of a queued packet is a 32-bit value, as the
    network thread stores it. *)
Definition stamped (p : ENetPacket) : Prop :=
  0 ≤ Magic (header p) < 2 ^ 32.

(** [r] is what a receive hands back for the packet [p]: its payload cut at
    2048 bytes, and its emulated timestamp. *)
Definition hands_back (p : ENetPacket) (r : Received) : Prop :=
  ret_len r = Z.min (Length (header p)) 2048
  ∧ copied r = take (Z.to_nat (ret_len r)) (body p)
  ∧ out_timestamp r = Some (Timestamp (header p)).

(** Nothing was there to hand back. *)
Definition hands_nothing (r : Received) : Prop :=
  ret_len r = 0 ∧ copied r = [] ∧ out_timestamp r = None.

(** The length field of [p] announces more bytes (counted up to the 2048 a
    receive copies) than the packet holds behind its header. *)
Definition over_read (p : ENetPacket) : Prop :=
  Z.of_nat (length (body p)) < Z.min (Length (header p)) 2048.

End QueueVocabulary.

(** ** MP packets on the wire *)
Section WireVocabulary.
Import LAN.

(** The type word of a reply with association id [aid]. *)
Definition reply_type (aid : Z) : Z := Z.lor 2 (Z.shiftl aid 16).

(** The header [SendPacketGeneric] writes, and the packet it hands to
    ENet. *)
Definition sent_header (type : Z) (packet : list byte) (timestamp : Z)
    (s : state) : MPPacketHeader :=
  mkHeader kPacketMagic (u32 (ID (MyPlayer s))) (u32 type)
           (u32 (Z.of_nat (length packet))) (u64 timestamp).

Definition wire_packet (type : Z) (packet : list byte) (timestamp : Z)
    (s : state) : list byte :=
  MPPacketHeader_bytes (sent_header type packet timestamp s) ++ packet.

(** The packet as the network thread of a receiver queues it at wall-clock
    [now], coming from [peer]. *)
Definition queued_packet (now : Z) (peer : ENetPeer) (h : MPPacketHeader)
    (packet : list byte) : ENetPacket :=
  mkPacket (mkHeader (u32 now) (SenderID h) (Type_ h) (Length h)
                     (Timestamp h))
           packet peer.

End WireVocabulary.

(** ** The player list shown to the user *)
Section ListVocabulary.
Import LAN.

(** A table entry as the player list shows it: the local player is
    flagged and shown at the loopback address, the host at the address the
    session was joined at. *)
Definition shown (HostAddress : Z) (me : Player) (p : Player) : Player :=
  if ID p =? ID me
  then mkPlayer (ID p) (Name p) (Status p) kLocalhost true (Ping p)
  else
    mkPlayer (ID p) (Name p) (Status p)
      (if decide (Status p = Player_Host) then HostAddress else Address p)
      false (Ping p).

End ListVocabulary.

(** ** The end of a session *)
Section EndVocabulary.
Import LAN.

(** The disconnects [EndSession] asks of ENet: one for every peer it
    holds, the slot of the local player's id left out, in slot order. *)
Definition leaving (s : state) : list NetCall :=
  omap (λ i : nat,
          if Z.of_nat i =? ID (MyPlayer s) then None
          else peer_disconnect <$> (RemotePeers s !!! i : option ENetPeer))
       (seq 0 16).

End EndVocabulary.

(** ** Hosting *)
Section HostVocabulary.
Import LAN.

(** The host after the peers of [peers] have connected, one after the
    other. *)
Definition connect_all (peers : list ENetPeer) (s : state) : state :=
  fold_left (λ s peer, ProcessHostEvent_CONNECT peer s) peers s.

(** The table is filled from the front: [k] players, in the slots below
    [k]. *)
Definition dense (k : Z) (s : state) : Prop :=
  table_ok s ∧ NumPlayers s = k
  ∧ ∀ j, 0 ≤ j < k → ¬ slot_free s j.

End HostVocabulary.

(** ** Connections between clients *)
Section MeshVocabulary.
Import LAN.

(** Slot [j] of a client's table holds another player, a client, that the
    table shows at the address [host]. *)
Definition known_at (s : state) (host : Z) (j : Z) : Prop :=
  j ≠ ID (MyPlayer s)
  ∧ Status (Players s !!! Z.to_nat j) = Player_Client
  ∧ Address (Players s !!! Z.to_nat j) = host.

(** The client with [peer] registered as player [j]. *)
Definition registered (peer : ENetPeer) (j : Z) (s : state) : state :=
  mkLAN (Host s) (IsHost s) (Players s) (NumPlayers s) (MaxPlayers s)
    (MyPlayer s) (<[Z.to_nat j := Some peer]> (RemotePeers s))
    ((peer_ref peer, j) :: PeerData s) (ConnectedBitmask s)
    (MPRecvTimeout s) (LastHostID s) (LastHostPeer s) (RXQueue s) (Net s).

End MeshVocabulary.

(** * Properties *)

(** ** Bytes and arrays *)

Lemma byte_val_range b : 0 ≤ byte_val b < 256.
Proof.
  unfold byte_val. pose proof (Byte.to_N_bounded b). lia.
Qed.

Lemma byte_val_of x : byte_val (byte_of x) = u8 x.
Proof.
  unfold byte_of, byte_val.
  assert (Hr : 0 ≤ u8 x < 256) by (unfold u8; apply Z.mod_pos_bound; lia).
  destruct (Byte.of_N (Z.to_N (u8 x))) as [b|] eqn:E.
  - apply Byte.to_of_N in E. rewrite E. lia.
  - apply Byte.of_N_None_iff in E. lia.
Qed.

Lemma le_load_store n x : le_load (le_store n x) = x mod 256 ^ Z.of_nat n.
Proof.
  revert x. induction n as [|n IH]; intros x.
  - simpl. now rewrite Z.mod_1_r.
  - cbn [le_store le_load]. rewrite byte_val_of, IH. unfold u8.
    change (2 ^ 8) with 256.
    rewrite Nat2Z.inj_succ, Z.pow_succ_r by lia.
    rewrite Z.rem_mul_r by lia. lia.
Qed.

Lemma get2_set2_eq {A} `{Inhabited A} (a : list (list A)) p i v :
  0 ≤ p → 0 ≤ i →
  (Z.to_nat p < length a)%nat →
  (Z.to_nat i < length (a !!! Z.to_nat p))%nat →
  get2 (set2 a p i v) p i = v.
Proof.
  intros Hp Hi Hlen Hrow. unfold get2, set2.
  rewrite list_lookup_total_alter_eq by done.
  now rewrite list_lookup_total_insert_eq.
Qed.

Lemma get2_set2_ne {A} `{Inhabited A} (a : list (list A)) p i q j v :
  0 ≤ p → 0 ≤ i → 0 ≤ q → 0 ≤ j →
  (p, i) ≠ (q, j) →
  get2 (set2 a p i v) q j = get2 a q j.
Proof.
  intros Hp Hi Hq Hj Hne. unfold get2, set2.
  destruct (decide (Z.to_nat p = Z.to_nat q)) as [E|E].
  - assert (p = q) by lia. subst q.
    assert (Z.to_nat i ≠ Z.to_nat j) by (intros E2; apply Hne; f_equal; lia).
    destruct (decide (Z.to_nat p < length a)%nat).
    + rewrite list_lookup_total_alter_eq by done.
      now rewrite list_lookup_total_insert_ne.
    + rewrite !list_lookup_total_alt, list_lookup_alter_eq.
      rewrite (lookup_ge_None_2 a) by lia. done.
  - now rewrite list_lookup_total_alter_ne.
Qed.

Lemma set2_length {A} (a : list (list A)) p i v :
  length (set2 a p i v) = length a.
Proof. unfold set2. apply length_alter. Qed.

Lemma set2_row_length {A} `{Inhabited A} (a : list (list A)) p i v q :
  length (set2 a p i v !!! q) = length (a !!! q).
Proof.
  unfold set2. rewrite list_lookup_total_alter.
  case_decide as E; [|done]. destruct E as [-> _].
  apply length_insert.
Qed.


Lemma field_app_l off n (pre post : list byte) :
  (off + n ≤ length pre)%nat →
  field off n (pre ++ post) = field off n pre.
Proof.
  intros Hlen. unfold field. f_equal.
  rewrite drop_app_le by lia. rewrite take_app_le; [done|].
  rewrite length_drop. lia.
Qed.

Lemma length_le_store n x : length (le_store n x) = n.
Proof. revert x. induction n as [|n IH]; intros x; cbn; [done|by rewrite IH]. Qed.

Lemma field_exact n x (pre post : list byte) :
  field (length pre) n (pre ++ le_store n x ++ post) = x mod 256 ^ Z.of_nat n.
Proof.
  unfold field. rewrite drop_app_length.
  rewrite take_app_le by (rewrite length_le_store; lia).
  rewrite firstn_all2 by (rewrite length_le_store; lia).
  apply le_load_store.
Qed.

(** ** Init and the input ring *)
Section EngineFacts.
Context {emu : Emulator}.
Import NetplaySession.

Lemma ring_shape_row {A} `{Inhabited A} (a : list (list A)) p :
  ring_shape a → (p < 4)%nat → length (a !!! p) = 256%nat.
Proof.
  intros [Hl Hr] Hp.
  destruct (lookup_lt_is_Some_2 a p) as [row Hrow]; [lia|].
  rewrite (list_lookup_total_correct _ _ _ Hrow).
  eapply (proj1 (Forall_lookup _ _) Hr); eauto.
Qed.

Lemma ring_shape_set2 {A} (a : list (list A)) p i v :
  ring_shape a → ring_shape (set2 a p i v).
Proof.
  intros [Hl Hr]. split; [by rewrite set2_length|].
  unfold set2. apply Forall_alter; [done|].
  intros row Hrow. by rewrite length_insert.
Qed.

Lemma ring_shape_replicate {A} (x : A) :
  ring_shape (replicate 4 (replicate 256 x)).
Proof.
  split; [by rewrite length_replicate|].
  apply Forall_replicate. by rewrite length_replicate.
Qed.

Section Fill.
Context {A : Type} `{Inhabited A} (v : Z → A).

Lemma fill_row_shape p n a : ring_shape a → ring_shape (fill_row v p n a).
Proof.
  intros Ha. induction n as [|n IH]; [done|].
  cbn. by apply ring_shape_set2.
Qed.

Lemma fill_row_other p n a q j :
  0 ≤ p → 0 ≤ q → 0 ≤ j → p ≠ q →
  get2 (fill_row v p n a) q j = get2 a q j.
Proof.
  intros Hp Hq Hj Hne. induction n as [|n IH]; [done|].
  cbn. rewrite get2_set2_ne; [exact IH|lia| |lia|lia|congruence].
  apply Z.mod_pos_bound. unfold INPUT_BUF_SIZE. lia.
Qed.

Lemma fill_row_cell p n a f :
  ring_shape a → 0 ≤ p < 4 → 0 ≤ f < Z.of_nat n →
  ∃ f', 0 ≤ f' < Z.of_nat n ∧ f' mod 256 = f mod 256
        ∧ get2 (fill_row v p n a) p (f mod 256) = v f'.
Proof.
  intros Ha Hp. induction n as [|n IH]; intros Hf; [lia|].
  cbn. fold (fill_row v p n a). unfold INPUT_BUF_SIZE.
  pose proof (fill_row_shape p n a Ha) as Hs.
  assert (Hm : ∀ x, 0 ≤ x mod 256 < 256) by (intros; apply Z.mod_pos_bound; lia).
  destruct (decide (f mod 256 = Z.of_nat n mod 256)) as [E|E].
  - exists (Z.of_nat n). split; [lia|]. split; [done|].
    rewrite E. apply get2_set2_eq.
    + lia.
    + apply Hm.
    + destruct Hs as [-> _]. lia.
    + rewrite ring_shape_row by (done || lia). specialize (Hm (Z.of_nat n)). lia.
  - assert (f ≠ Z.of_nat n) by congruence.
    destruct IH as (f' & Hf' & Hmod & Hget); [lia|].
    exists f'. split; [lia|]. split; [done|].
    rewrite get2_set2_ne; [done|lia|apply Hm|lia|apply Hm|].
    intros [=]. congruence.
Qed.

Lemma fill_rows_shape np d a : ring_shape a → ring_shape (fill_rows v np d a).
Proof.
  intros Ha. induction np as [|np IH]; [done|].
  cbn. by apply fill_row_shape.
Qed.

Lemma fill_rows_cell np d a p f :
  ring_shape a → (np ≤ 4)%nat → 0 ≤ p < Z.of_nat np → 0 ≤ f < Z.of_nat d →
  ∃ f', 0 ≤ f' < Z.of_nat d ∧ f' mod 256 = f mod 256
        ∧ get2 (fill_rows v np d a) p (f mod 256) = v f'.
Proof.
  intros Ha. induction np as [|np IH]; intros Hnp Hp Hf; [lia|].
  cbn. fold (fill_rows v np d a).
  pose proof (fill_rows_shape np d a Ha) as Hs.
  destruct (decide (p = Z.of_nat np)) as [->|Hne].
  - apply fill_row_cell; [done|lia|done].
  - destruct IH as (f' & Hf' & Hmod & Hget); [lia|lia|done|].
    exists f'. split; [done|]. split; [done|].
    rewrite fill_row_other; [done|lia|lia| |congruence].
    apply Z.mod_pos_bound. lia.
Qed.

End Fill.

Lemma prefill_cell_split p n br :
  for_upto n (prefill_cell p) br
  = (fill_row neutral p n br.1, fill_row (λ _, true) p n br.2).
Proof.
  unfold fill_row. induction n as [|n IH]; [by destruct br|].
  cbn [for_upto]. rewrite IH. done.
Qed.

Lemma prefill_split np d :
  prefill np d
  = (fill_rows neutral (Z.to_nat np) (Z.to_nat d) cleared_InputBuf,
     fill_rows (λ _, true) (Z.to_nat np) (Z.to_nat d) cleared_InputReady).
Proof.
  unfold prefill, fill_rows. generalize (Z.to_nat np) as n.
  induction n as [|n IH]; [done|].
  cbn [for_upto]. rewrite IH. apply prefill_cell_split.
Qed.

(** What [Init] does on accepted arguments. *)
Lemma Init_accepts this lp np d s g :
  2 ≤ np ≤ 4 → 0 ≤ lp < np →
  Init this lp np d s g =
    (true,
     {| Instances := Instances s; NumInstances := np;
        LocalPlayerID := lp; Active := true; HostMode := (lp =? 0);
        InputBuf := (prefill np d).1; InputReady := (prefill np d).2;
        InputDelay := d; CurrentFrame := 0; StartFrame := 0;
        InstanceScanlines := InstanceScanlines s;
        ThreadsRunning := ThreadsRunning s;
        LastStateHash := LastStateHash s; LastHashFrame := LastHashFrame s;
        Transport := Transport s; BlobRecv := BlobRecv s;
        OnDesync := OnDesync s; OnDisconnect := OnDisconnect s;
        Fired := Fired s |},
     mkGlobals (Some this)).
Proof.
  intros Hnp Hlp. unfold Init, kNetplayMaxPlayers.
  replace (np <? 2) with false by lia.
  replace (np >? 4) with false by lia.
  replace (lp <? 0) with false by lia.
  replace (lp >=? np) with false by lia.
  done.
Qed.

Lemma Init_rejects this lp np d s g :
  np < 2 ∨ 4 < np ∨ lp < 0 ∨ np ≤ lp →
  Init this lp np d s g = (false, s, g).
Proof.
  intros Hbad. unfold Init, kNetplayMaxPlayers.
  destruct (np <? 2) eqn:E1; [done|].
  destruct (np >? 4) eqn:E2; [done|].
  destruct (lp <? 0) eqn:E3; [done|].
  destruct (lp >=? np) eqn:E4; [done|].
  lia.
Qed.

(** C10.  [Init] refuses every [numPlayers] outside [2, 4] and every
    [localPlayerID] outside [0, numPlayers): it returns [false] and hands
    back the session and the global [Current] pointer exactly as they were
    (so [Active], [Current] and every ready flag keep the values the
    constructor gave them).  Inside the ranges it returns [true], sets the
    current frame to 0, marks the session active, registers it as [Current]
    and sets host mode exactly when [localPlayerID] is 0. *)
Theorem Init_validates_arguments this lp np d s g :
  (np < 2 ∨ 4 < np ∨ lp < 0 ∨ np ≤ lp →
     Init this lp np d s g = (false, s, g)
     ∧ (Active s = false → Current g = None →
        (∀ p i, get2 (InputReady s) p i = false) →
        ∀ r s' g', Init this lp np d s g = (r, s', g') →
          Active s' = false ∧ Current g' = None
          ∧ ∀ p i, get2 (InputReady s') p i = false))
  ∧ (2 ≤ np ≤ 4 → 0 ≤ lp < np →
     ∃ s', Init this lp np d s g = (true, s', mkGlobals (Some this))
           ∧ CurrentFrame s' = 0 ∧ Active s' = true
           ∧ (HostMode s' = true ↔ lp = 0)).
Proof.
  split.
  - intros Hbad. pose proof (Init_rejects this lp np d s g Hbad) as E.
    split; [exact E|].
    intros Ha Hc Hr r s' g' E'. rewrite E in E'. by simplify_eq.
  - intros Hnp Hlp. eexists. split; [by apply Init_accepts|].
    cbn. split; [done|]. split; [done|]. lia.
Qed.

End EngineFacts.

Section InputPipeline.
Context {emu : Emulator}.
Import NetplaySession.

Lemma field_skip k off n x (rest : list byte) :
  field (k + off) n (le_store k x ++ rest) = field off n rest.
Proof.
  unfold field. rewrite <-(length_le_store k x) at 1.
  by rewrite drop_app_add.
Qed.

Lemma field_head n x (rest : list byte) :
  field 0 n (le_store n x ++ rest) = x mod 256 ^ Z.of_nat n.
Proof. apply (field_exact n x [] rest). Qed.

(** An input frame survives its wire format. *)
Lemma InputFrame_at_bytes k t (post : list byte) i :
  InputFrame_fits i →
  InputFrame_at k (le_store k t ++ InputFrame_bytes i ++ post) = i.
Proof.
  intros (H1 & H2 & H3 & H4 & H5 & H6 & H7). destruct i as [f m t' x y l c].
  cbn [FrameNum KeyMask Touching TouchX TouchY LidClosed Checksum] in *.
  unfold InputFrame_at, InputFrame_bytes.
  cbn [FrameNum KeyMask Touching TouchX TouchY LidClosed Checksum].
  rewrite <-!app_assoc.
  rewrite <-(Nat.add_0_r k) at 1.
  rewrite !field_skip.
  rewrite (field_skip 4 0), (field_skip 4 4), (field_skip 4 0),
    (field_skip 4 5), (field_skip 4 1), (field_skip 1 0),
    (field_skip 4 7), (field_skip 4 3), (field_skip 1 2), (field_skip 2 0),
    (field_skip 4 9), (field_skip 4 5), (field_skip 1 4), (field_skip 2 2),
    (field_skip 2 0),
    (field_skip 4 10), (field_skip 4 6), (field_skip 1 5), (field_skip 2 3),
    (field_skip 2 1), (field_skip 1 0).
  rewrite !field_head.
  f_equal; apply Z.mod_small; simpl; lia.
Qed.

(** A frame sent by [SendLocalInput] is stored by the receiving side under
    the player its peer stands for. *)
Lemma HandleInputMessage_frame peerIdx i (s : state) :
  InputFrame_fits i →
  HandleInputMessage peerIdx (msg_InputFrame i) s
  = SetRemoteInput (sender_player peerIdx s) i s.
Proof.
  intros Hi. unfold HandleInputMessage, msg_InputFrame.
  rewrite <-(app_nil_r (InputFrame_bytes i)).
  rewrite (InputFrame_at_bytes 1 Msg_InputFrame [] i Hi).
  rewrite app_nil_r. reflexivity.
Qed.

Lemma Init_true_inv this lp np d s g s' g' :
  Init this lp np d s g = (true, s', g') → 2 ≤ np ≤ 4 ∧ 0 ≤ lp < np.
Proof.
  intros E.
  destruct (decide (np < 2 ∨ 4 < np ∨ lp < 0 ∨ np ≤ lp)) as [Hbad|Hok].
  - rewrite Init_rejects in E by done. discriminate.
  - lia.
Qed.

(** After a successful [Init] both rings have their declared shape and the
    local player id indexes a row. *)
Lemma Init_ring_shape this lp np d s g s' g' :
  Init this lp np d s g = (true, s', g') →
  ring_shape (InputBuf s') ∧ ring_shape (InputReady s')
  ∧ 0 ≤ LocalPlayerID s' < 4.
Proof.
  intros E. destruct (Init_true_inv _ _ _ _ _ _ _ _ E) as [Hnp Hlp].
  rewrite Init_accepts in E by done. simplify_eq.
  cbn [InputBuf InputReady LocalPlayerID]. rewrite prefill_split.
  cbn [fst snd].
  split; [|split; [|lia]]; apply fill_rows_shape, ring_shape_replicate.
Qed.


End InputPipeline.


(** ** The frame loop *)
Section FrameLoop.
Context {emu : Emulator}.
Import NetplaySession.

Lemma clear_slot_shape j n r : ring_shape r → ring_shape (clear_slot j n r).
Proof.
  intros Hr. induction n as [|n IH]; [done|].
  cbn. by apply ring_shape_set2.
Qed.

Lemma clear_slot_cleared j n r i :
  ring_shape r → (n ≤ 4)%nat → 0 ≤ j < 256 → 0 ≤ i < Z.of_nat n →
  get2 (clear_slot j n r) i j = false.
Proof.
  intros Hr. induction n as [|n IH]; intros Hn Hj Hi; [lia|].
  cbn. fold (clear_slot j n r).
  pose proof (clear_slot_shape j n r Hr) as Hs.
  destruct (decide (i = Z.of_nat n)) as [->|Hne].
  - apply get2_set2_eq; [lia|lia| |].
    + destruct Hs as [-> _]. lia.
    + rewrite ring_shape_row by (done || lia). lia.
  - rewrite get2_set2_ne; [apply IH; lia|lia|lia|lia|lia|congruence].
Qed.

Lemma clear_slot_other j n r i k :
  0 ≤ i → 0 ≤ j → 0 ≤ k → j ≠ k →
  get2 (clear_slot j n r) i k = get2 r i k.
Proof.
  intros Hi Hj Hk Hne. induction n as [|n IH]; [done|].
  cbn. fold (clear_slot j n r).
  rewrite get2_set2_ne; [done|lia|lia|lia|lia|congruence].
Qed.

Lemma ApplyInputs_ready frame s s1 :
  ApplyInputs frame s = Some s1 →
  InputReady s1
  = clear_slot (frame mod INPUT_BUF_SIZE) (Z.to_nat (NumInstances s))
      (InputReady s)
  ∧ InputBuf s1 = InputBuf s ∧ NumInstances s1 = NumInstances s
  ∧ CurrentFrame s1 = CurrentFrame s.
Proof.
  unfold ApplyInputs. intros E.
  apply bind_Some in E as (insts & _ & E). by simplify_eq.
Qed.

Lemma run_workers_keeps s s3 :
  run_workers s = Some s3 →
  InputReady s3 = InputReady s ∧ InputBuf s3 = InputBuf s
  ∧ NumInstances s3 = NumInstances s ∧ CurrentFrame s3 = CurrentFrame s
  ∧ Transport s3 = Transport s ∧ Active s3 = Active s
  ∧ Fired s3 = Fired s.
Proof.
  unfold run_workers. intros E.
  apply bind_Some in E as (r & _ & E). by simplify_eq.
Qed.

(** The loop of [ApplyInputs] over created instances: it succeeds, and has
    applied to each instance its own input. *)
Lemma apply_loop_spec (g : Z → NDS → NDS) k insts :
  (∀ i, (i < k)%nat → ∃ n, insts !! i = Some (Some n)) →
  ∃ insts',
    for_upto k
      (λ i acc,
         insts ← acc;
         n ← mjoin (insts !! Z.to_nat i);
         Some (<[Z.to_nat i := Some (g i n)]> insts))
      (Some insts) = Some insts'
    ∧ length insts' = length insts
    ∧ (∀ i n, (i < k)%nat → insts !! i = Some (Some n) →
         insts' !! i = Some (Some (g (Z.of_nat i) n)))
    ∧ (∀ i, (k ≤ i)%nat → insts' !! i = insts !! i).
Proof.
  induction k as [|k IH]; intros Hc.
  - exists insts. split; [done|]. split; [done|]. split; [intros; lia|done].
  - destruct IH as (i1 & E & Hlen & Hlo & Hhi); [intros; apply Hc; lia|].
    cbn [for_upto]. rewrite E. cbn. rewrite Nat2Z.id.
    destruct (Hc k) as [n Hn]; [lia|].
    rewrite (Hhi k), Hn by lia. cbn. eexists. split; [done|].
    split; [by rewrite length_insert|]. split.
    + intros i m Hi Hm. destruct (decide (i = k)) as [->|Hne].
      * rewrite list_lookup_insert_eq
          by (rewrite Hlen; by eapply lookup_lt_Some).
        by simplify_eq.
      * rewrite list_lookup_insert_ne by done. apply Hlo; [lia|done].
    + intros i Hi. rewrite list_lookup_insert_ne by lia. apply Hhi. lia.
Qed.

(** The frame of the worker threads over created instances: every worker
    has run its emulator for a frame and left its scanline count. *)
Lemma worker_loop_spec k insts scan :
  (∀ i, (i < k)%nat → ∃ n, insts !! i = Some (Some n)) →
  ∃ insts' scan',
    for_upto k
      (λ i acc,
         '(insts, scan) ← acc;
         n ← mjoin (insts !! Z.to_nat i);
         let '(n', lines) := NDS_RunFrame n in
         Some (<[Z.to_nat i := Some n']> insts,
               <[Z.to_nat i := u32 lines]> scan))
      (Some (insts, scan)) = Some (insts', scan')
    ∧ length insts' = length insts ∧ length scan' = length scan
    ∧ (∀ i n, (i < k)%nat → insts !! i = Some (Some n) →
         insts' !! i = Some (Some (NDS_RunFrame n).1)
         ∧ ((i < length scan)%nat →
            scan' !! i = Some (u32 (NDS_RunFrame n).2)))
    ∧ (∀ i, (k ≤ i)%nat → insts' !! i = insts !! i).
Proof.
  induction k as [|k IH]; intros Hc.
  - exists insts, scan. split; [done|]. split; [done|]. split; [done|].
    split; [intros; lia|done].
  - destruct IH as (i1 & sc1 & E & Hlen & Hslen & Hlo & Hhi);
      [intros; apply Hc; lia|].
    cbn [for_upto]. rewrite E. cbn. rewrite Nat2Z.id.
    destruct (Hc k) as [n Hn]; [lia|].
    rewrite (Hhi k), Hn by lia. cbn.
    destruct (NDS_RunFrame n) as [n' lines] eqn:En.
    eexists _, _. split; [done|].
    split; [by rewrite length_insert|].
    split; [by rewrite length_insert|]. split.
    + intros i m Hi Hm. destruct (decide (i = k)) as [->|Hne].
      * simplify_eq. rewrite En. cbn. split.
        -- apply list_lookup_insert_eq. rewrite Hlen.
           by eapply lookup_lt_Some.
        -- intros Hs. apply list_lookup_insert_eq. lia.
      * rewrite !list_lookup_insert_ne by done. apply Hlo; [lia|done].
    + intros i Hi. rewrite list_lookup_insert_ne by lia. apply Hhi. lia.
Qed.

(** [ReadyForFrame] says exactly that every player's flag at the slot of
    the frame is set. *)
Lemma ReadyForFrame_spec frameNum s :
  ReadyForFrame frameNum s = true
  ↔ ∀ i, 0 ≤ i < NumInstances s →
         get2 (InputReady s) i (frameNum mod 256) = true.
Proof.
  unfold ReadyForFrame, INPUT_BUF_SIZE. rewrite forallb_forall. split.
  - intros Hall i Hi. apply Hall. apply list_elem_of_In, elem_of_seqZ. lia.
  - intros Hall i Hi%list_elem_of_In%elem_of_seqZ. apply Hall. lia.
Qed.

(** The steps of a frame that is processed. *)
Lemma RunFrame_steps s r s' :
  RunFrame s = Some (r, s') → Active s = true → NumInstances s ≠ 0 →
  ∃ s1 s3,
    ApplyInputs (CurrentFrame s) s = Some s1
    ∧ run_workers (if ThreadsRunning s1 then s1 else StartThreads s1) = Some s3
    ∧ InputReady s' = InputReady s1
    ∧ CurrentFrame s' = u32 (CurrentFrame s + 1).
Proof.
  unfold RunFrame. intros E Ha Hn. rewrite Ha in E.
  replace (NumInstances s =? 0) with false in E by lia. cbn in E.
  destruct (ApplyInputs _ s) as [s1|] eqn:E1; [|discriminate]. cbn in E.
  destruct (run_workers _) as [s3|] eqn:E3; [|discriminate]. cbn in E.
  exists s1, s3. split; [done|]. split; [done|].
  destruct (ApplyInputs_ready _ _ _ E1) as (_ & _ & _ & Hf1).
  destruct (run_workers_keeps _ _ E3) as (Hr3 & _ & _ & Hf3 & _).
  assert (Hthr : ∀ x, InputReady (if ThreadsRunning x then x else StartThreads x)
                      = InputReady x
                    ∧ CurrentFrame (if ThreadsRunning x then x else StartThreads x)
                      = CurrentFrame x).
  { intros x. unfold StartThreads. by destruct (ThreadsRunning x). }
  destruct (Hthr s1) as [Hr2 Hf2].
  simplify_eq. unfold desync_block.
  destruct ((CurrentFrame s3 >? 0) && _); cbn;
    rewrite ?Hr3, ?Hr2, ?Hf3, ?Hf2, ?Hf1; done.
Qed.

Lemma ApplyInputs_with_ready frame rdy s :
  ApplyInputs frame (with_ready rdy s)
  = with_ready (clear_slot (frame mod INPUT_BUF_SIZE)
                  (Z.to_nat (NumInstances s)) rdy)
    <$> ApplyInputs frame s.
Proof.
  destruct s. unfold ApplyInputs, with_ready, set_inputs.
  cbn [NumInstances Instances InputBuf InputReady InstanceScanlines].
  destruct (for_upto _ _ (Some _)) as [insts1|]; reflexivity.
Qed.

Lemma run_workers_with_ready rdy s :
  run_workers (with_ready rdy s) = with_ready rdy <$> run_workers s.
Proof.
  destruct s. unfold run_workers, with_ready, set_inputs.
  cbn [NumInstances Instances InputBuf InputReady InstanceScanlines].
  destruct (for_upto _ _ (Some _)) as [r|]; reflexivity.
Qed.

Lemma StartThreads_with_ready rdy s :
  (if ThreadsRunning (with_ready rdy s) then with_ready rdy s
   else StartThreads (with_ready rdy s))
  = with_ready rdy (if ThreadsRunning s then s else StartThreads s).
Proof. destruct s as [? ? ? ? ? ? ? ? ? ? ? [] ? ? ? ? ? ? ?]; reflexivity. Qed.

Lemma desync_block_with_ready rdy s :
  desync_block (with_ready rdy s) = with_ready rdy (desync_block s).
Proof.
  destruct s. unfold desync_block, with_ready, set_inputs, set_hash.
  cbn [CurrentFrame Transport InputBuf].
  destruct ((_ >? 0) && _); reflexivity.
Qed.

(** [RunFrame] never reads the ready flags: started from the same session
    with any other flags it does the same thing, only the flags it hands
    back differ. *)
Lemma RunFrame_ignores_ready rdy s :
  RunFrame (with_ready rdy s)
  = (λ rs, (rs.1,
            with_ready
              (if negb (Active s) || (NumInstances s =? 0) then rdy
               else clear_slot (CurrentFrame s mod INPUT_BUF_SIZE)
                      (Z.to_nat (NumInstances s)) rdy)
              rs.2))
    <$> RunFrame s.
Proof.
  unfold RunFrame.
  change (Active (with_ready rdy s)) with (Active s).
  change (NumInstances (with_ready rdy s)) with (NumInstances s).
  change (CurrentFrame (with_ready rdy s)) with (CurrentFrame s).
  destruct (negb (Active s) || (NumInstances s =? 0)); [reflexivity|].
  rewrite ApplyInputs_with_ready.
  destruct (ApplyInputs (CurrentFrame s) s) as [s1|]; [|reflexivity].
  cbn [fmap option_fmap option_map mbind option_bind].
  rewrite StartThreads_with_ready, run_workers_with_ready.
  destruct (run_workers _) as [s3|]; [|reflexivity].
  cbn [fmap option_fmap option_map mbind option_bind].
  rewrite desync_block_with_ready.
  generalize (desync_block s3). intros s4. destruct s4. reflexivity.
Qed.

(** [ApplyInputs] on created instances. *)
Lemma ApplyInputs_returns frame s :
  instances_created s →
  ∃ s1, ApplyInputs frame s = Some s1
    ∧ NumInstances s1 = NumInstances s
    ∧ length (Instances s1) = length (Instances s)
    ∧ InstanceScanlines s1 = InstanceScanlines s
    ∧ LocalPlayerID s1 = LocalPlayerID s
    ∧ ∀ i n, (i < Z.to_nat (NumInstances s))%nat →
        Instances s !! i = Some (Some n) →
        Instances s1 !! i
        = Some (Some (apply_input
                        (get2 (InputBuf s) (Z.of_nat i)
                           (frame mod INPUT_BUF_SIZE)) n)).
Proof.
  intros Hc. unfold ApplyInputs.
  destruct (apply_loop_spec
              (λ i n, apply_input
                        (get2 (InputBuf s) i (frame mod INPUT_BUF_SIZE)) n)
              (Z.to_nat (NumInstances s)) (Instances s) Hc)
    as (insts1 & E & Hlen & Hlo & _).
  cbn beta in E. rewrite E. cbn. eexists. split; [done|].
  destruct s; cbn in *. done.
Qed.

(** The worker threads on created instances. *)
Lemma run_workers_returns s :
  instances_created s →
  ∃ s3, run_workers s = Some s3
    ∧ LocalPlayerID s3 = LocalPlayerID s
    ∧ length (InstanceScanlines s3) = length (InstanceScanlines s)
    ∧ ∀ i n, (i < Z.to_nat (NumInstances s))%nat →
        Instances s !! i = Some (Some n) →
        Instances s3 !! i = Some (Some (NDS_RunFrame n).1)
        ∧ ((i < length (InstanceScanlines s))%nat →
           InstanceScanlines s3 !! i = Some (u32 (NDS_RunFrame n).2)).
Proof.
  intros Hc. unfold run_workers.
  destruct (worker_loop_spec (Z.to_nat (NumInstances s)) (Instances s)
              (InstanceScanlines s) Hc)
    as (insts3 & scan3 & E & _ & Hslen & Hlo & _).
  rewrite E. cbn. eexists. split; [done|].
  destruct s; cbn in *. done.
Qed.

(** The part of a session the desync block and the frame counter leave
    alone. *)
Lemma desync_block_keeps s :
  Instances (desync_block s) = Instances s
  ∧ InstanceScanlines (desync_block s) = InstanceScanlines s
  ∧ LocalPlayerID (desync_block s) = LocalPlayerID s.
Proof.
  unfold desync_block. destruct ((_ >? 0) && _); destruct s; done.
Qed.

(** [RunFrame] on an active session whose instances are created returns:
    every instance has been given the inputs of its ring cell and has run
    the frame, and the value returned is the scanline count of the local
    player's instance. *)
Lemma RunFrame_returns s :
  Active s = true → NumInstances s ≠ 0 → instances_created s →
  let slot := CurrentFrame s mod 256 in
  ∃ r s', RunFrame s = Some (r, s')
    ∧ (∀ i n, 0 ≤ i < NumInstances s →
         Instances s !! Z.to_nat i = Some (Some n) →
         Instances s' !! Z.to_nat i
         = Some (Some (instance_frame (get2 (InputBuf s) i slot) n).1))
    ∧ (∀ n, (Z.to_nat (LocalPlayerID s) < length (InstanceScanlines s))%nat →
         0 ≤ LocalPlayerID s < NumInstances s →
         Instances s !! Z.to_nat (LocalPlayerID s) = Some (Some n) →
         r = u32 (instance_frame
                    (get2 (InputBuf s) (LocalPlayerID s) slot) n).2).
Proof.
  intros Ha Hn Hc slot. unfold RunFrame. rewrite Ha.
  replace (NumInstances s =? 0) with false by lia. cbn [negb orb].
  destruct (ApplyInputs_returns (CurrentFrame s) s Hc)
    as (s1 & E1 & Hn1 & Hl1 & Hsc1 & Hlp1 & Hi1).
  rewrite E1. cbn [mbind option_bind].
  set (s2 := if ThreadsRunning s1 then s1 else StartThreads s1).
  assert (H2 : Instances s2 = Instances s1 ∧ NumInstances s2 = NumInstances s1
                ∧ InstanceScanlines s2 = InstanceScanlines s1
                ∧ LocalPlayerID s2 = LocalPlayerID s1).
  { subst s2. unfold StartThreads. destruct (ThreadsRunning s1); [done|].
    by destruct s1. }
  destruct H2 as (Hi2 & Hn2 & Hsc2 & Hlp2).
  assert (Hc2 : instances_created s2).
  { intros i Hi. rewrite Hn2, Hn1 in Hi. destruct (Hc i Hi) as [n Hin].
    rewrite Hi2, (Hi1 i n Hi Hin). eauto. }
  destruct (run_workers_returns s2 Hc2) as (s3 & E3 & Hlp3 & Hsl3 & Hi3).
  rewrite E3. cbn [mbind option_bind].
  destruct (desync_block_keeps s3) as (Hi4 & Hsc4 & Hlp4).
  eexists _, _. split; [done|]. split.
  - intros i n Hi Hin.
    assert (Hi' : (Z.to_nat i < Z.to_nat (NumInstances s))%nat) by lia.
    pose proof (Hi1 _ n Hi' Hin) as Hin1. rewrite Z2Nat.id in Hin1 by lia.
    rewrite <-Hi2 in Hin1.
    destruct (Hi3 (Z.to_nat i) _ ltac:(lia) Hin1) as [Hin3 _].
    cbn [Instances set_frame]. by rewrite Hi4.
  - intros n Hlen Hlp Hin.
    assert (Hi' : (Z.to_nat (LocalPlayerID s) < Z.to_nat (NumInstances s))%nat)
      by lia.
    pose proof (Hi1 _ n Hi' Hin) as Hin1. rewrite Z2Nat.id in Hin1 by lia.
    rewrite <-Hi2 in Hin1.
    destruct (Hi3 (Z.to_nat (LocalPlayerID s)) _ ltac:(lia) Hin1)
      as [_ Hsc3].
    cbn [InstanceScanlines LocalPlayerID set_frame].
    apply list_lookup_total_correct. rewrite Hsc4, Hlp4, Hlp3, Hlp2, Hlp1.
    apply Hsc3. rewrite Hsc2, Hsc1. done.
Qed.

(** C1 (amended).  For a frame [F] that [RunFrame] processes (the session
    is active and its instances are created), the engine applies to every
    player's instance the ring cell at slot [F mod 256], runs the frame and
    clears the ready flags of that slot afterwards, without testing the
    flags: started with any other flags it returns the same value and the
    same session.  Readiness is the separate query [ReadyForFrame], left to
    the caller; when it holds on entry every player's flag at the slot was
    set when [ApplyInputs] consumed it. *)
Theorem RunFrame_consumes_ring_slot s :
  Active s = true → NumInstances s ≠ 0 → instances_created s →
  ring_shape (InputReady s) → NumInstances s ≤ 4 →
  let slot := CurrentFrame s mod 256 in
  ∃ r s',
    RunFrame s = Some (r, s')
    ∧ (∀ i n, 0 ≤ i < NumInstances s →
         Instances s !! Z.to_nat i = Some (Some n) →
         Instances s' !! Z.to_nat i
         = Some (Some (instance_frame (get2 (InputBuf s) i slot) n).1))
    ∧ (ReadyForFrame (CurrentFrame s) s = true →
         ∀ i, 0 ≤ i < NumInstances s → get2 (InputReady s) i slot = true)
    ∧ (∀ i, 0 ≤ i < NumInstances s → get2 (InputReady s') i slot = false)
    ∧ CurrentFrame s' = u32 (CurrentFrame s + 1)
    ∧ (∀ rdy, RunFrame (with_ready rdy s)
              = Some (r, with_ready
                           (clear_slot slot (Z.to_nat (NumInstances s)) rdy)
                           s')).
Proof.
  intros Ha Hn Hc Hshape Hle slot.
  destruct (RunFrame_returns s Ha Hn Hc) as (r & s' & E & Hinst & _).
  exists r, s'. split; [exact E|]. split; [exact Hinst|].
  destruct (RunFrame_steps s r s' E Ha Hn) as (s1 & s3 & E1 & E3 & Hr & Hf).
  destruct (ApplyInputs_ready _ _ _ E1) as (Hr1 & _).
  split; [by apply ReadyForFrame_spec|].
  split; [|split; [done|]].
  - intros i Hi. rewrite Hr, Hr1.
    apply clear_slot_cleared; [done|lia| |lia].
    apply Z.mod_pos_bound. lia.
  - intros rdy. rewrite RunFrame_ignores_ready, E, Ha. cbn.
    replace (NumInstances s =? 0) with false by lia. done.
Qed.

End FrameLoop.

(** ** Desync detection *)
Section Desync.
Context {emu : Emulator}.
Import NetplaySession.

(** The fields of a [DesyncAlert] as a peer reads them back. *)
Lemma msg_DesyncAlert_fields frame hash :
  length (msg_DesyncAlert frame hash) = 13%nat
  ∧ field 0 1 (msg_DesyncAlert frame hash) = Msg_DesyncAlert
  ∧ field 1 4 (msg_DesyncAlert frame hash) = u32 frame
  ∧ field 5 8 (msg_DesyncAlert frame hash) = u64 hash.
Proof.
  unfold msg_DesyncAlert. split; [by rewrite !length_app, !length_le_store|].
  split; [reflexivity|]. split.
  - apply (field_exact 4 frame (le_store 1 Msg_DesyncAlert) (le_store 8 hash)).
  - pose proof (field_exact 8 hash
                  (le_store 1 Msg_DesyncAlert ++ le_store 4 frame) []) as E.
    rewrite length_app, !length_le_store, app_nil_r, <- app_assoc in E.
    exact E.
Qed.


End Desync.

(** ** Blob transfer *)
Section Blob.
Import BlobTransfer.

Lemma le_load_nonneg bs : 0 ≤ le_load bs.
Proof.
  induction bs as [|b bs IH]; cbn [le_load]; [done|].
  pose proof (byte_val_range b). lia.
Qed.

Lemma field_nonneg off n data : 0 ≤ field off n data.
Proof. apply le_load_nonneg. Qed.

Lemma u32_le x : 0 ≤ x → u32 x ≤ x.
Proof. intros Hx. unfold u32. apply Z.mod_le; lia. Qed.

Lemma u32_small x : 0 ≤ x < 2 ^ 32 → u32 x = x.
Proof. intros Hx. unfold u32. by apply Z.mod_small. Qed.

Lemma byte_sum_from_range acc bs :
  0 ≤ acc < 2 ^ 32 →
  0 ≤ fold_left (λ acc b, u32 (acc + byte_val b)) bs acc < 2 ^ 32.
Proof.
  revert acc. induction bs as [|b bs IH]; intros acc Hacc; cbn; [done|].
  apply IH. unfold u32. apply Z.mod_pos_bound. lia.
Qed.

Lemma byte_sum_range bs : 0 ≤ byte_sum bs < 2 ^ 32.
Proof. apply byte_sum_from_range. lia. Qed.

(** What [OnMessage] does with a [BlobEnd] while receiving. *)
Lemma OnMessage_BlobEnd b data :
  Receiving b = true → (6 ≤ length data)%nat →
  field 0 1 data = Msg_BlobEnd →
  TotalLen b ≤ Z.of_nat (length (Buffer b)) →
  OnMessage data b =
    if byte_sum (take (Z.to_nat (TotalLen b)) (Buffer b)) =? field 2 4 data
    then Some (true, mkBlob (Type_ b) (TotalLen b) (ReceivedLen b) (Buffer b)
                            true false)
    else Some (false, mkBlob (Type_ b) (TotalLen b) (ReceivedLen b) (Buffer b)
                             (Complete b) false).
Proof.
  intros Hr Hlen Ht Hbuf. unfold OnMessage, sizeof_MsgBlobEnd.
  rewrite Ht, Hr.
  replace (Z.of_nat (length data) <? 1) with false by lia.
  replace (Z.of_nat (length data) <? 6) with false by lia.
  replace (Z.of_nat (length (Buffer b)) <? TotalLen b) with false by lia.
  cbn. by destruct (_ =? field 2 4 data).
Qed.

(** What [OnMessage] does with an in-bounds [BlobChunk] while receiving:
    the payload is copied at its offset whatever was received before. *)
Lemma OnMessage_BlobChunk b data :
  Receiving b = true → (5 ≤ length data)%nat →
  field 0 1 data = Msg_BlobChunk →
  field 1 4 data + (Z.of_nat (length data) - 5) ≤ TotalLen b →
  TotalLen b ≤ Z.of_nat (length (Buffer b)) →
  OnMessage data b =
    Some (false,
          mkBlob (Type_ b) (TotalLen b)
                 (u32 (ReceivedLen b + (Z.of_nat (length data) - 5)))
                 (list_inserts (Z.to_nat (field 1 4 data)) (drop 5 data)
                               (Buffer b))
                 (Complete b) true).
Proof.
  intros Hr Hlen Ht Hin Hbuf. unfold OnMessage, sizeof_MsgBlobChunk.
  rewrite Ht, Hr.
  replace (Z.of_nat (length data) <? 1) with false by lia.
  replace (Z.of_nat (length data) <? 5) with false by lia.
  cbn.
  pose proof (field_nonneg 1 4 data) as Hoff.
  pose proof (u32_le (field 1 4 data + (Z.of_nat (length data) - 5))).
  replace (u32 _ >? TotalLen b) with false by lia.
  replace (_ <=? Z.of_nat (length (Buffer b))) with true by lia.
  done.
Qed.

Lemma OnMessage_BlobStart b data :
  (6 ≤ length data)%nat → field 0 1 data = Msg_BlobStart →
  OnMessage data b =
    Some (false, mkBlob (field 1 1 data) (field 2 4 data) 0
                        (replicate (Z.to_nat (field 2 4 data)) x00)
                        false true).
Proof.
  intros Hlen Ht. unfold OnMessage, sizeof_MsgBlobStart. rewrite Ht.
  replace (Z.of_nat (length data) <? 1) with false by lia.
  replace (Z.of_nat (length data) <? 6) with false by lia.
  done.
Qed.

(** The wire fields of the three blob messages. *)
Lemma msg_BlobStart_fields type len :
  length (msg_BlobStart type len) = 6%nat
  ∧ field 0 1 (msg_BlobStart type len) = Msg_BlobStart
  ∧ field 1 1 (msg_BlobStart type len) = u8 type
  ∧ field 2 4 (msg_BlobStart type len) = u32 len.
Proof.
  unfold msg_BlobStart. split; [by rewrite !length_app, !length_le_store|].
  split; [reflexivity|]. split.
  - apply (field_exact 1 type (le_store 1 Msg_BlobStart) (le_store 4 len)).
  - pose proof (field_exact 4 len
                  (le_store 1 Msg_BlobStart ++ le_store 1 type) []) as E.
    rewrite length_app, !length_le_store, app_nil_r, <- app_assoc in E.
    exact E.
Qed.

Lemma msg_BlobEnd_fields type sum :
  length (msg_BlobEnd type sum) = 6%nat
  ∧ field 0 1 (msg_BlobEnd type sum) = Msg_BlobEnd
  ∧ field 2 4 (msg_BlobEnd type sum) = u32 sum.
Proof.
  unfold msg_BlobEnd. split; [by rewrite !length_app, !length_le_store|].
  split; [reflexivity|].
  pose proof (field_exact 4 sum
                (le_store 1 Msg_BlobEnd ++ le_store 1 type) []) as E.
  rewrite length_app, !length_le_store, app_nil_r, <- app_assoc in E.
  exact E.
Qed.

Lemma msg_BlobChunk_fields offset chunk :
  length (msg_BlobChunk offset chunk) = (5 + length chunk)%nat
  ∧ field 0 1 (msg_BlobChunk offset chunk) = Msg_BlobChunk
  ∧ field 1 4 (msg_BlobChunk offset chunk) = u32 offset
  ∧ drop 5 (msg_BlobChunk offset chunk) = chunk.
Proof.
  unfold msg_BlobChunk. split; [by rewrite !length_app, !length_le_store|].
  split; [reflexivity|]. split.
  - apply (field_exact 4 offset (le_store 1 Msg_BlobChunk) chunk).
  - rewrite app_assoc. apply drop_app_length'.
    by rewrite length_app, !length_le_store.
Qed.

(** The chunk loop of [Send], fed to a receiver that has seen the matching
    [BlobStart], fills the buffer with the data. *)
Lemma feed_chunks fuel (o : nat) data b :
  Z.of_nat (length data) < 2 ^ 32 →
  (o ≤ length data)%nat → (length data - o ≤ fuel)%nat →
  Receiving b = true → TotalLen b = Z.of_nat (length data) →
  Buffer b = take o data ++ replicate (length data - o) x00 →
  ∃ b', feed (chunk_messages fuel (Z.of_nat o) data) b = Some b'
        ∧ Receiving b' = true ∧ TotalLen b' = TotalLen b
        ∧ Type_ b' = Type_ b ∧ Complete b' = Complete b
        ∧ Buffer b' = data.
Proof.
  intros Hlen. revert o b.
  induction fuel as [|fuel IH]; intros o b Ho Hfuel Hr Ht Hb.
  - exists b. repeat (split; [done|]).
    rewrite Hb, take_ge by lia.
    replace (length data - o)%nat with 0%nat by lia. apply app_nil_r.
  - cbn [chunk_messages].
    destruct (Z.of_nat o <? Z.of_nat (length data)) eqn:Elt.
    2:{ exists b. repeat (split; [done|]).
        rewrite Hb, take_ge by lia.
        replace (length data - o)%nat with 0%nat by lia. apply app_nil_r. }
    set (chunkLen := Z.min kBlobChunkSize (Z.of_nat (length data) - Z.of_nat o)).
    assert (Hc : 0 < chunkLen ≤ Z.of_nat (length data) - Z.of_nat o)
      by (unfold chunkLen, kBlobChunkSize; lia).
    set (c := Z.to_nat chunkLen).
    set (chunk := take c (drop (Z.to_nat (Z.of_nat o)) data)).
    assert (Hchunk : length chunk = c).
    { unfold chunk. rewrite length_take_le; [done|].
      rewrite length_drop. lia. }
    destruct (msg_BlobChunk_fields (Z.of_nat o) chunk)
      as (Hml & Hm0 & Hm1 & Hm5).
    rewrite u32_small in Hm1 by lia.
    cbn [feed].
    rewrite OnMessage_BlobChunk; [|done|lia|done|lia|].
    2:{ rewrite Hb, length_app, length_take_le, length_replicate by lia. lia. }
    cbn [mbind option_bind snd].
    rewrite Hm1, Hm5, Hml, Nat2Z.id.
    replace (u32 (Z.of_nat o + chunkLen)) with (Z.of_nat (o + c))
      by (rewrite u32_small by lia; lia).
    edestruct (IH (o + c)%nat) as (b' & Hfeed & Hr' & Ht' & Hty' & Hc' & Hb');
      [| | | |
       |exists b'; split; [exact Hfeed|]; repeat (split; [done|]); exact Hb'].
    + lia.
    + lia.
    + done.
    + done.
    + cbn [Buffer]. rewrite Hb.
      rewrite <- (Nat.add_0_r o) at 1.
      rewrite <- (length_take_le data o) at 1 by lia.
      rewrite list_inserts_app_r.
      replace (length data - o)%nat with (c + (length data - (o + c)))%nat
        by lia.
      rewrite replicate_add, list_inserts_0_r
        by (rewrite length_replicate; done).
      rewrite app_assoc. f_equal.
      unfold chunk. rewrite Nat2Z.id. apply take_take_drop.
Qed.

(** A blob sent by [Send], received in order by one receiver, completes
    with exactly the bytes sent. *)
Lemma Send_received type data b :
  0 ≤ type < 256 → Z.of_nat (length data) < 2 ^ 32 →
  ∃ b', feed (messages type data) b = Some b'
        ∧ Complete b' = true ∧ Receiving b' = false
        ∧ Buffer b' = data ∧ Type_ b' = type
        ∧ TotalLen b' = Z.of_nat (length data).
Proof.
  intros Hty Hlen. unfold messages. cbn [feed].
  destruct (msg_BlobStart_fields type (Z.of_nat (length data)))
    as (Hsl & Hs0 & Hs1 & Hs2).
  rewrite OnMessage_BlobStart by (done || lia).
  cbn [mbind option_bind snd]. rewrite Hs1, Hs2.
  rewrite u32_small by lia. rewrite Nat2Z.id.
  set (b0 := mkBlob _ _ _ _ _ _).
  destruct (feed_chunks (length data) 0 data b0)
    as (b1 & Hfeed & Hr1 & Ht1 & Hty1 & Hc1 & Hb1);
    [done|lia|lia|done|done| |].
  { cbn. by rewrite Nat.sub_0_r. }
  assert (Hfeed_app : ∀ ms1 ms2 x,
            feed (ms1 ++ ms2) x = feed ms1 x ≫= feed ms2).
  { induction ms1 as [|m ms1 IHm]; intros ms2 x; cbn [feed app]; [done|].
    destruct (OnMessage m x) as [[r x']|]; cbn; [apply IHm|done]. }
  change (Z.of_nat 0) with 0 in Hfeed.
  rewrite Hfeed_app, Hfeed. cbn [mbind option_bind feed].
  destruct (msg_BlobEnd_fields type (byte_sum data)) as (Hel & He0 & He2).
  rewrite OnMessage_BlobEnd; [|done|lia|done|rewrite Hb1, Ht1; cbn; lia].
  rewrite He2, Hb1, Ht1. cbn [TotalLen b0]. rewrite Nat2Z.id, firstn_all.
  rewrite (u32_small (byte_sum data)) by apply byte_sum_range.
  rewrite Z.eqb_refl. cbn.
  eexists. split; [done|]. cbn. rewrite Hty1. cbn.
  unfold u8. rewrite Z.mod_small by lia. done.
Qed.

(** C2 (amended).  A receiver marks a blob complete on a [BlobEnd] exactly
    when it is receiving and the sum of the [TotalLen] bytes of its buffer
    modulo 2^32 equals the checksum carried in [BlobEnd]; how the buffer
    was covered is not examined.  A chunk is copied at its offset whenever
    it lies within [TotalLen], in any order and any number of times.  For
    the message stream [Send] produces, received in order, the blob
    completes and the buffer is the data sent. *)
Theorem BlobTransfer_completion :
  (∀ b data,
     Receiving b = true → (6 ≤ length data)%nat →
     field 0 1 data = Msg_BlobEnd →
     TotalLen b ≤ Z.of_nat (length (Buffer b)) →
     ∃ r b', OnMessage data b = Some (r, b')
       ∧ (r = true
          ↔ byte_sum (take (Z.to_nat (TotalLen b)) (Buffer b))
            = field 2 4 data)
       ∧ (Complete b' = true
          ↔ Complete b = true
            ∨ byte_sum (take (Z.to_nat (TotalLen b)) (Buffer b))
              = field 2 4 data)
       ∧ Buffer b' = Buffer b ∧ Receiving b' = false)
  ∧ (∀ b data,
       Receiving b = false → field 0 1 data = Msg_BlobEnd →
       OnMessage data b = Some (false, b))
  ∧ (∀ b data,
       Receiving b = true → (5 ≤ length data)%nat →
       field 0 1 data = Msg_BlobChunk →
       field 1 4 data + (Z.of_nat (length data) - 5) ≤ TotalLen b →
       TotalLen b ≤ Z.of_nat (length (Buffer b)) →
       ∃ b', OnMessage data b = Some (false, b')
         ∧ Buffer b' = list_inserts (Z.to_nat (field 1 4 data)) (drop 5 data)
                         (Buffer b)
         ∧ ReceivedLen b'
           = u32 (ReceivedLen b + (Z.of_nat (length data) - 5))
         ∧ Receiving b' = true ∧ Complete b' = Complete b)
  ∧ (∀ type data b,
       0 ≤ type < 256 → Z.of_nat (length data) < 2 ^ 32 →
       ∃ b', feed (messages type data) b = Some b'
         ∧ Complete b' = true ∧ Buffer b' = data ∧ Type_ b' = type).
Proof.
  split; [|split; [|split]].
  - intros b data Hr Hlen Ht Hbuf.
    rewrite OnMessage_BlobEnd by done.
    destruct (_ =? field 2 4 data) eqn:E; eexists _, _; (split; [done|]); cbn.
    + apply Z.eqb_eq in E. naive_solver.
    + apply Z.eqb_neq in E. intuition congruence.
  - intros b data Hr Ht. unfold OnMessage. rewrite Ht, Hr. cbn.
    by destruct (Z.of_nat (length data) <? 1).
  - intros b data Hr Hlen Ht Hin Hbuf.
    rewrite OnMessage_BlobChunk by done. eexists. split; [done|]. done.
  - intros type data b Hty Hlen.
    destruct (Send_received type data b Hty Hlen)
      as (b' & Hf & Hc & _ & Hb & Ht & _).
    by exists b'.
Qed.

End Blob.

(** ** LAN host: the player table *)
Section PlayerTable.
Import LAN.

Lemma occupied_all ps :
  Forall (λ p, Status p ≠ Player_None) ps → occupied ps = length ps.
Proof.
  unfold occupied. induction 1 as [|p ps Hp _ IH]; [done|].
  rewrite filter_cons_True by done. cbn. by rewrite IH.
Qed.

Lemma occupied_none ps :
  occupied ps = 0%nat → Forall (λ p, Status p = Player_None) ps.
Proof.
  unfold occupied. induction ps as [|p ps IH]; intros Hz; [done|].
  destruct (decide (Status p ≠ Player_None)) as [Hp|Hp].
  - rewrite filter_cons_True in Hz by done. discriminate.
  - rewrite filter_cons_False in Hz by done.
    constructor; [|by apply IH].
    by destruct (decide (Status p = Player_None)).
Qed.

Lemma occupied_split n ps :
  occupied ps = (occupied (take n ps) + occupied (drop n ps))%nat.
Proof.
  unfold occupied. rewrite <- (take_drop n ps) at 1.
  by rewrite filter_app, length_app.
Qed.

Lemma assign_id_spec n id s :
  0 ≤ id →
  id ≤ assign_id n id s ≤ id + Z.of_nat n
  ∧ (∀ j, id ≤ j < assign_id n id s → j < NumPlayers s ∧ ¬ slot_free s j)
  ∧ (assign_id n id s < id + Z.of_nat n →
     NumPlayers s ≤ assign_id n id s ∨ slot_free s (assign_id n id s)).
Proof.
  revert id. induction n as [|n IH]; intros id Hid; cbn [assign_id].
  - split; [lia|]. split; [intros j Hj; lia|lia].
  - destruct (id >=? NumPlayers s) eqn:E1.
    { split; [lia|]. split; [intros j Hj; lia|lia]. }
    destruct (decide (Status (Players s !!! Z.to_nat id) = Player_None))
      as [E2|E2].
    { split; [lia|]. split; [intros j Hj; lia|]. intros _. by right. }
    destruct (IH (id + 1)) as (Hr & Hocc & Hend); [lia|].
    split; [lia|]. split.
    + intros j Hj. destruct (decide (j = id)) as [->|Hne].
      * split; [lia|done].
      * apply Hocc. lia.
    + intros Hlt. apply Hend. lia.
Qed.

(** Below capacity the search ends on the lowest free slot. *)
Lemma assign_id_lowest_free s :
  table_ok s → NumPlayers s < 16 →
  let id := assign_id 16 0 s in
  0 ≤ id < 16 ∧ slot_free s id ∧ ∀ j, 0 ≤ j < id → ¬ slot_free s j.
Proof.
  intros (Hlen & Hnum & _) Hcap id.
  destruct (assign_id_spec 16 0 s) as (Hr & Hocc & Hend); [lia|].
  fold id in Hr, Hocc, Hend.
  assert (Hlt : id < 16).
  { destruct (decide (id < 16)) as [|Hge]; [done|].
    destruct (Hocc 15) as [H15 _]; lia. }
  split; [lia|]. split; [|intros j Hj; by apply Hocc].
  destruct Hend as [Hge|Hfree]; [lia| |done].
  assert (Hid : id = NumPlayers s).
  { destruct (decide (id = 0)) as [->|Hnz]; [lia|].
    destruct (Hocc (id - 1)) as [Hlast _]; lia. }
  assert (Hfirst : occupied (take (Z.to_nat id) (Players s)) = Z.to_nat id).
  { rewrite occupied_all; [rewrite length_take_le; lia|].
    apply Forall_lookup. intros i p Hp.
    apply lookup_take_Some in Hp as [Hp Hi].
    destruct (Hocc (Z.of_nat i)) as [_ Hn]; [lia|].
    unfold slot_free in Hn. rewrite Nat2Z.id in Hn.
    by rewrite (list_lookup_total_correct _ _ _ Hp) in Hn. }
  pose proof (occupied_split (Z.to_nat id) (Players s)) as Hsplit.
  assert (Hrest : occupied (drop (Z.to_nat id) (Players s)) = 0%nat) by lia.
  apply occupied_none in Hrest.
  unfold slot_free.
  destruct (lookup_lt_is_Some_2 (Players s) (Z.to_nat id)) as [p Hp]; [lia|].
  rewrite (list_lookup_total_correct _ _ _ Hp).
  apply (proj1 (Forall_lookup _ _) Hrest 0%nat p).
  rewrite lookup_drop. by rewrite Nat.add_0_r.
Qed.

Lemma occupied_claim ps i f :
  (i < length ps)%nat → Status (ps !!! i) = Player_None →
  (∀ p, Status (f p) ≠ Player_None) →
  occupied (alter f i ps) = S (occupied ps).
Proof.
  intros Hi Hfree Hf. revert i Hi Hfree.
  induction ps as [|p ps IH]; intros [|i] Hi Hfree; cbn in Hi; try lia.
  - cbn in Hfree. unfold occupied. cbn [alter list_alter].
    rewrite filter_cons_True by apply Hf.
    rewrite (filter_cons_False _ p) by (intros Hp; by apply Hp). done.
  - cbn in Hfree. unfold occupied in *. cbn [alter list_alter].
    fold (alter f i ps). specialize (IH i ltac:(lia) Hfree).
    destruct (decide (Status p ≠ Player_None)).
    + rewrite !filter_cons_True by done. cbn. by rewrite IH.
    + rewrite !filter_cons_False by done. done.
Qed.

(** The connect event keeps the table consistent. *)
Lemma table_ok_connect peer s :
  table_ok s → table_ok (ProcessHostEvent_CONNECT peer s).
Proof.
  intros Hok. unfold ProcessHostEvent_CONNECT.
  destruct ((NumPlayers s >=? MaxPlayers s) || (NumPlayers s >=? 16)) eqn:E;
    [done|].
  destruct (assign_id_lowest_free s Hok) as (Hid & Hfree & _); [lia|].
  replace (assign_id 16 0 s <? 16) with true by lia.
  destruct Hok as (Hlen & Hnum & Hpeers).
  split; [|split]; cbn [Players NumPlayers RemotePeers].
  - by rewrite length_alter.
  - rewrite occupied_claim; [lia|lia|done|done].
  - by rewrite length_insert.
Qed.

Lemma cmd_ClientInit_fields id maxPlayers :
  length (cmd_ClientInit id maxPlayers) = 11%nat
  ∧ field 0 1 (cmd_ClientInit id maxPlayers) = Cmd_ClientInit
  ∧ field 1 4 (cmd_ClientInit id maxPlayers) = kLANMagic
  ∧ field 5 4 (cmd_ClientInit id maxPlayers) = kProtocolVersion
  ∧ field 9 1 (cmd_ClientInit id maxPlayers) = u8 id
  ∧ field 10 1 (cmd_ClientInit id maxPlayers) = u8 maxPlayers.
Proof.
  unfold cmd_ClientInit. split; [by rewrite !length_app, !length_le_store|].
  split; [reflexivity|]. split; [reflexivity|]. split; [reflexivity|].
  split.
  - pose proof (field_exact 1 id
      (le_store 1 Cmd_ClientInit ++ le_store 4 kLANMagic
       ++ le_store 4 kProtocolVersion) (le_store 1 maxPlayers)) as E.
    rewrite !length_app, !length_le_store, <- !app_assoc in E. exact E.
  - pose proof (field_exact 1 maxPlayers
      (le_store 1 Cmd_ClientInit ++ le_store 4 kLANMagic
       ++ le_store 4 kProtocolVersion ++ le_store 1 id) []) as E.
    rewrite !length_app, !length_le_store, app_nil_r, <- !app_assoc in E.
    exact E.
Qed.

(** C9.  On the host, a connect event with the table at capacity
    ([NumPlayers] at [MaxPlayers] or at 16) disconnects the peer and leaves
    every player entry, the player count and the peer table as they were.
    Below capacity the peer gets the lowest id whose slot is free: the slot
    becomes [Player_Connecting] with that id and the peer's address, the
    other entries stay, and a [ClientInit] carrying the id and
    [MaxPlayers] is sent to the peer on the command channel. *)
Theorem host_connect_assigns_lowest_free_id :
  (∀ s peer,
     MaxPlayers s ≤ NumPlayers s ∨ 16 ≤ NumPlayers s →
     let s' := ProcessHostEvent_CONNECT peer s in
     Net s' = Net s ++ [peer_disconnect peer]
     ∧ Players s' = Players s ∧ NumPlayers s' = NumPlayers s
     ∧ RemotePeers s' = RemotePeers s)
  ∧ (∀ s peer,
       table_ok s → NumPlayers s < MaxPlayers s → NumPlayers s < 16 →
       let s' := ProcessHostEvent_CONNECT peer s in
       ∃ id, 0 ≤ id < 16
         ∧ slot_free s id ∧ (∀ j, 0 ≤ j < id → ¬ slot_free s j)
         ∧ Net s' = Net s ++ [peer_send peer Chan_Cmd
                                (cmd_ClientInit id (MaxPlayers s))]
         ∧ field 0 1 (cmd_ClientInit id (MaxPlayers s)) = Cmd_ClientInit
         ∧ field 9 1 (cmd_ClientInit id (MaxPlayers s)) = id
         ∧ (MaxPlayers s ≤ 255 →
            field 10 1 (cmd_ClientInit id (MaxPlayers s)) = MaxPlayers s)
         ∧ ID (Players s' !!! Z.to_nat id) = id
         ∧ Status (Players s' !!! Z.to_nat id) = Player_Connecting
         ∧ Address (Players s' !!! Z.to_nat id) = address_host peer
         ∧ (∀ j, 0 ≤ j → j ≠ id →
              Players s' !!! Z.to_nat j = Players s !!! Z.to_nat j)
         ∧ NumPlayers s' = NumPlayers s + 1
         ∧ RemotePeers s' !! Z.to_nat id = Some (Some peer)).
Proof.
  split.
  - intros s peer Hfull s'. subst s'. unfold ProcessHostEvent_CONNECT.
    replace ((NumPlayers s >=? MaxPlayers s) || (NumPlayers s >=? 16))
      with true by lia.
    done.
  - intros s peer Hok Hmax Hcap s'. subst s'.
    unfold ProcessHostEvent_CONNECT.
    replace ((NumPlayers s >=? MaxPlayers s) || (NumPlayers s >=? 16))
      with false by lia.
    destruct (assign_id_lowest_free s Hok Hcap) as (Hid & Hfree & Hlow).
    set (id := assign_id 16 0 s) in *.
    replace (id <? 16) with true by lia.
    destruct (cmd_ClientInit_fields id (MaxPlayers s))
      as (_ & Hf0 & _ & _ & Hf9 & Hf10).
    assert (Hnum : 0 ≤ NumPlayers s) by (destruct Hok as (_ & -> & _); lia).
    destruct Hok as (Hlen & _ & Hpeers).
    exists id. cbn [Net Players NumPlayers RemotePeers].
    split; [done|]. split; [done|]. split; [done|]. split; [done|].
    split; [done|].
    split; [rewrite Hf9; unfold u8; apply Z.mod_small; lia|].
    split; [intros Hm; rewrite Hf10; unfold u8; apply Z.mod_small; lia|].
    rewrite list_lookup_total_alter_eq by lia.
    cbn [claim_slot ID Status Address].
    split; [done|]. split; [done|]. split; [done|].
    split; [|split; [done|]].
    + intros j Hj Hne. apply list_lookup_total_alter_ne. lia.
    + apply list_lookup_insert_eq. lia.
Qed.

End PlayerTable.

(** ** LAN bridge: the receive paths *)
Section Receive.
Import LAN.

(** [scan_queue] for a blocking receive drops the stale packets at the
    front and stops at the first packet that is not stale. *)
Lemma scan_queue_blocking time_last q :
  ∃ dropped kept,
    q = dropped ++ kept
    ∧ Forall (λ p, stale time_last p = true) dropped
    ∧ match kept with
      | p :: _ => stale time_last p = false
      | [] => True
      end
    ∧ scan_queue 2 time_last q = (kept, bool_decide (kept ≠ [])).
Proof.
  induction q as [|p q (dropped & kept & Hq & Hst & Hk & Hscan)].
  - by exists [], [].
  - cbn [scan_queue]. destruct (stale time_last p) eqn:E.
    + exists (p :: dropped), kept. rewrite Hq at 1.
      split; [done|]. split; [by constructor|]. done.
    + exists [], (p :: q). split; [done|]. split; [done|]. done.
Qed.

(** The pop at the end of [RecvPacketGeneric], [q] being the queue
    [ProcessLAN] has left: nothing is handed back from an empty queue; the
    front packet is handed back when it holds the bytes that are copied,
    and the copy runs past it otherwise. *)
Lemma RecvPacketGeneric_front (block : bool) time_last arrived s q
    (found : bool) :
  Host s = true →
  scan_queue (if block then 2 else 1) time_last (RXQueue s) = (q, found) →
  let slept := if found then 0 else if block then 2 else 0 in
  match q ++ arrived with
  | [] =>
      RecvPacketGeneric block time_last arrived s
      = Some (mkReceived 0 [] None, with_queue [] s, slept)
  | p :: rest =>
      (over_read p → RecvPacketGeneric block time_last arrived s = None)
      ∧ (¬ over_read p →
         ∃ r s',
           RecvPacketGeneric block time_last arrived s = Some (r, s', slept)
           ∧ hands_back p r
           ∧ length (copied r) = Z.to_nat (ret_len r)
           ∧ s' = set_queue rest (LastHostID s') (LastHostPeer s') s
           ∧ (LastHostID s', LastHostPeer s')
             = (if (Type_ (header p) =? 1) && negb (Length (header p) =? 0)
                then (SenderID (header p), Some (userData p))
                else (LastHostID s, LastHostPeer s)))
  end.
Proof.
  intros Hhost Hscan slept.
  assert (E : RecvPacketGeneric block time_last arrived s
    = match q ++ arrived with
      | [] => Some (mkReceived 0 [] None, with_queue [] s, slept)
      | p :: rest =>
          let h := header p in
          if Length h =? 0 then
            Some (mkReceived 0 [] (Some (Timestamp h)), with_queue rest s,
                  slept)
          else
            let len := if Length h >? 2048 then 2048 else Length h in
            if Z.of_nat (length (body p)) <? len then None
            else
              Some (mkReceived len (take (Z.to_nat len) (body p))
                      (Some (Timestamp h)),
                    (if Type_ h =? 1
                     then set_queue rest (SenderID h) (Some (userData p)) s
                     else with_queue rest s),
                    slept)
      end).
  { unfold RecvPacketGeneric, ProcessLAN. rewrite Hhost. cbn [negb].
    rewrite Hscan. subst slept.
    destruct found; [|destruct block]; cbn [Z.eqb Pos.eqb];
      unfold with_queue, set_queue;
      cbn [Host IsHost Players NumPlayers MaxPlayers MyPlayer RemotePeers
           PeerData ConnectedBitmask MPRecvTimeout LastHostID LastHostPeer
           RXQueue Net];
      (destruct (q ++ arrived) as [|p rest] eqn:Eq;
       [by apply app_eq_nil in Eq as [-> _]|]);
      cbn zeta; destruct (Length (header p) =? 0); try done;
      destruct (_ <? _); try done; by destruct (Type_ (header p) =? 1). }
  rewrite E. clear E. destruct (q ++ arrived) as [|p rest]; [done|].
  cbn zeta. unfold over_read.
  destruct (Length (header p) =? 0) eqn:E0.
  { apply Z.eqb_eq in E0. rewrite E0. split; [lia|]. intros _.
    eexists _, _. split; [done|]. unfold hands_back. rewrite E0.
    cbn [ret_len copied out_timestamp with_queue set_queue LastHostID
         LastHostPeer]. rewrite andb_false_r. done. }
  apply Z.eqb_neq in E0.
  assert (Hlen : (if Length (header p) >? 2048 then 2048
                  else Length (header p))
                 = Z.min (Length (header p)) 2048)
    by (destruct (_ >? 2048) eqn:E; lia).
  rewrite Hlen.
  destruct (_ <? Z.min (Length (header p)) 2048) eqn:Eo.
  { split; [done|]. intros Hno. lia. }
  split; [intros Hover; lia|]. intros _.
  eexists _, _. split; [done|]. unfold hands_back.
  cbn [ret_len copied out_timestamp].
  split; [done|]. split; [rewrite length_take; lia|].
  rewrite andb_true_r.
  destruct (Type_ (header p) =? 1);
    cbn [with_queue set_queue LastHostID LastHostPeer]; done.
Qed.

(** C5 (amended).  [RecvHostPacket] drops the stale packets at the front
    of the RX queue.  If a packet that is not stale is then at the front it
    is delivered at once, whatever its type.  Otherwise the call sleeps
    2 ms, once, and delivers whatever packet the network thread has queued
    meanwhile, again of any type, or returns 0 when there is none.  The
    payload handed back is cut at 2048 bytes; it is the payload of the
    packet when the packet holds the bytes its length field announces, and
    the copy runs past the packet when it does not.  (The configured MP
    receive timeout plays no part.) *)
Theorem RecvHostPacket_delivers_queue_front s time_last arrived :
  Host s = true →
  ∃ dropped kept,
    RXQueue s = dropped ++ kept
    ∧ Forall (λ p, stale time_last p = true) dropped
    ∧ match kept with
      | p :: _ => stale time_last p = false
      | [] => True
      end
    ∧ let slept := if kept is [] then 2 else 0 in
      match kept ++ arrived with
      | [] =>
          ∃ r s',
            RecvHostPacket time_last arrived s = Some (r, s', slept)
            ∧ ret_len r = 0 ∧ copied r = [] ∧ RXQueue s' = []
      | p :: rest =>
          (over_read p → RecvHostPacket time_last arrived s = None)
          ∧ (¬ over_read p →
             ∃ r s',
               RecvHostPacket time_last arrived s = Some (r, s', slept)
               ∧ ret_len r = (if Length (header p) >? 2048 then 2048
                              else Length (header p))
               ∧ copied r = take (Z.to_nat (ret_len r)) (body p)
               ∧ length (copied r) = Z.to_nat (ret_len r)
               ∧ out_timestamp r = Some (Timestamp (header p))
               ∧ RXQueue s' = rest)
      end.
Proof.
  intros Hhost.
  destruct (scan_queue_blocking time_last (RXQueue s))
    as (dropped & kept & Hq & Hst & Hk & Hscan).
  exists dropped, kept. split; [done|]. split; [done|]. split; [done|].
  pose proof (RecvPacketGeneric_front true time_last arrived s kept
                (bool_decide (kept ≠ [])) Hhost Hscan) as Hfront.
  cbn zeta in Hfront. unfold RecvHostPacket.
  set (sl := if bool_decide (kept ≠ []) then 0 else if true then 2 else 0)
    in Hfront.
  assert (Hsl : sl = (if kept is [] then 2 else 0))
    by (subst sl; by destruct kept).
  clearbody sl. subst sl. cbn zeta.
  destruct (kept ++ arrived) as [|p rest].
  - eexists _, _. split; [exact Hfront|]. done.
  - destruct Hfront as [Hover Hok]. split; [exact Hover|].
    intros Hno. destruct (Hok Hno) as (r & s' & E & Hb & Hl & Hs & _).
    exists r, s'. destruct Hb as (Hr & Hc & Ht).
    split; [exact E|]. split.
    { rewrite Hr. destruct (_ >? 2048) eqn:E'; lia. }
    split; [done|]. split; [done|]. split; [done|].
    rewrite Hs. done.
Qed.

End Receive.

(** ** LAN bridge: gathering replies *)
Section Replies.
Import LAN.

Lemma good_accepted timestamp p :
  good timestamp (header p) = true ↔ accepted timestamp p.
Proof.
  unfold good, accepted.
  destruct (Z.land _ 0xFFFF =? 2) eqn:E1; cbn.
  - apply Z.eqb_eq in E1.
    destruct (Timestamp _ <? _) eqn:E2; [|split; [lia|done]].
    split; [done|lia].
  - apply Z.eqb_neq in E1. split; [done|tauto].
Qed.

Lemma testbit_one n : Z.testbit 1 n = (n =? 0).
Proof. destruct n as [|n|n]; [done| |done]. by destruct n. Qed.

Lemma testbit_set_bit m d a :
  0 ≤ a →
  Z.testbit (u16 (Z.lor m (Z.shiftl 1 d))) a
  = (a <? 16) && (Z.testbit m a || (a =? d)).
Proof.
  intros Ha. unfold u16. rewrite Z.testbit_mod_pow2 by lia.
  rewrite Z.lor_spec, Z.shiftl_spec, testbit_one by lia.
  f_equal. f_equal. lia.
Qed.

Lemma low16_u16 x : low16 (u16 x).
Proof.
  intros b Hb. unfold u16. rewrite Z.testbit_mod_pow2 by lia.
  replace (b <? 16) with false by lia. done.
Qed.

Lemma low16_0 : low16 0.
Proof. intros b _. apply Z.testbit_0_l. Qed.

Lemma land_covers m c :
  Z.land m c = c
  ↔ ∀ i, 0 ≤ i → Z.testbit c i = true → Z.testbit m i = true.
Proof.
  split.
  - intros E i Hi Hc. rewrite <- E, Z.land_spec in Hc.
    by apply andb_true_iff in Hc as [? _].
  - intros Hcov. apply Z.bits_inj'. intros n Hn. rewrite Z.land_spec.
    destruct (Z.testbit c n) eqn:Ec; [|apply andb_false_r].
    by rewrite (Hcov n Hn Ec).
Qed.

(** A bit set in a [u16] mask by [mask |= 1 << d]. *)
Lemma set_bit_iff m d a (P : Prop) :
  0 ≤ a → (Z.testbit m a = true ↔ P) → (P → a < 16) →
  Z.testbit (u16 (Z.lor m (Z.shiftl 1 d))) a = true
  ↔ P ∨ (a = d ∧ a < 16).
Proof.
  intros Ha Hm HP. rewrite testbit_set_bit by done.
  rewrite andb_true_iff, orb_true_iff, Z.ltb_lt, Z.eqb_eq, Hm. tauto.
Qed.

Lemma shift_one_inv n bit :
  shift_one n = Some bit → 0 ≤ n < 32 ∧ bit = Z.shiftl 1 n.
Proof.
  unfold shift_one. destruct ((0 <=? n) && (n <? 32)) eqn:E; [|done].
  intros [= <-]. apply andb_true_iff in E as [E1 E2]. lia.
Qed.

Lemma shift_one_defined n :
  0 ≤ n < 32 → shift_one n = Some (Z.shiftl 1 n).
Proof.
  intros Hn. unfold shift_one.
  by rewrite (proj2 (Z.leb_le 0 n)), (proj2 (Z.ltb_lt n 32)) by lia.
Qed.

Lemma reply_slot_val a :
  0 ≤ a < 32 →
  u32 ((a - 1) * 1024) = if a =? 0 then 2 ^ 32 - 1024 else (a - 1) * 1024.
Proof.
  intros Ha. destruct (a =? 0) eqn:E.
  - apply Z.eqb_eq in E. by subst.
  - apply Z.eqb_neq in E. unfold u32. apply Z.mod_small. lia.
Qed.

(** The slots of two aids do not overlap. *)
Lemma slots_apart p q j :
  0 ≤ aid_of p < 32 → 0 ≤ aid_of q < 32 → aid_of q ≠ aid_of p →
  in_slot_of p j → ¬ in_slot_of q j.
Proof.
  unfold in_slot_of, reply_slot, reply_len. intros Hp Hq Hne.
  rewrite !reply_slot_val by done.
  destruct (aid_of p =? 0) eqn:E1, (aid_of q =? 0) eqn:E2; lia.
Qed.

Lemma snoc_split {A} (ps : list A) p pre x post :
  ps ++ [p] = pre ++ x :: post →
  (post = [] ∧ x = p ∧ pre = ps)
  ∨ ∃ post', post = post' ++ [p] ∧ ps = pre ++ x :: post'.
Proof.
  intros E. destruct post as [|y post _] using rev_ind.
  - apply app_inj_tail in E as [-> ->]. by left.
  - rewrite app_comm_cons, app_assoc in E.
    apply app_inj_tail in E as [-> ->]. right. by exists post.
Qed.

(** What [add_aid] and [add_sender] do when they are defined, and that
    they are for a reply that fits. *)
Lemma add_aid_inv ret pk p ret' pk' :
  add_aid ret pk p = Some (ret', pk') →
  (Length (header p) = 0 ∧ ret' = ret ∧ pk' = pk)
  ∨ (Length (header p) ≠ 0 ∧ 0 ≤ aid_of p < 32
     ∧ reply_len p ≤ Z.of_nat (length (body p))
     ∧ reply_slot p + reply_len p ≤ Z.of_nat (length pk)
     ∧ ret' = u16 (Z.lor ret (Z.shiftl 1 (aid_of p)))
     ∧ pk' = list_inserts (Z.to_nat (reply_slot p))
               (take (Z.to_nat (reply_len p)) (body p)) pk).
Proof.
  unfold add_aid. destruct (Length (header p) =? 0) eqn:E0.
  { apply Z.eqb_eq in E0. intros [= <- <-]. by left. }
  apply Z.eqb_neq in E0. cbn zeta.
  assert (Hlen : (if Length (header p) >? 1024 then 1024
                  else Length (header p)) = reply_len p)
    by (unfold reply_len; destruct (_ >? 1024) eqn:E; lia).
  rewrite Hlen. fold (aid_of p). unfold store_reply. fold (reply_slot p).
  destruct (Z.of_nat (length (body p)) <? reply_len p) eqn:E1; [done|].
  destruct (Z.of_nat (length pk) <? reply_slot p + reply_len p) eqn:E2;
    [done|].
  cbn [mbind option_bind].
  destruct (shift_one (aid_of p)) as [bit|] eqn:Es; [|done].
  apply shift_one_inv in Es as [Ha ->]. cbn [mbind option_bind].
  intros [= <- <-]. right. repeat split; try done; lia.
Qed.

Lemma add_aid_defined ret pk p :
  (Length (header p) ≠ 0 →
   0 ≤ aid_of p < 32
   ∧ reply_len p ≤ Z.of_nat (length (body p))
   ∧ reply_slot p + reply_len p ≤ Z.of_nat (length pk)) →
  is_Some (add_aid ret pk p).
Proof.
  intros Hfit. unfold add_aid.
  destruct (Length (header p) =? 0) eqn:E0; [done|].
  apply Z.eqb_neq in E0. destruct (Hfit E0) as (Ha & Hb & Hs). cbn zeta.
  assert (Hlen : (if Length (header p) >? 1024 then 1024
                  else Length (header p)) = reply_len p)
    by (unfold reply_len; destruct (_ >? 1024) eqn:E; lia).
  rewrite Hlen. fold (aid_of p). unfold store_reply. fold (reply_slot p).
  rewrite (proj2 (Z.ltb_ge _ _)) by lia.
  rewrite (proj2 (Z.ltb_ge _ _)) by lia.
  cbn [mbind option_bind]. rewrite shift_one_defined by done. done.
Qed.

Lemma add_sender_inv my h my' :
  add_sender my h = Some my' →
  0 ≤ SenderID h < 32 ∧ my' = u16 (Z.lor my (Z.shiftl 1 (SenderID h))).
Proof.
  unfold add_sender.
  destruct (shift_one (SenderID h)) as [bit|] eqn:Es; [|done].
  apply shift_one_inv in Es as [Hs ->]. by intros [= <-].
Qed.

Section Loop.
Variables (packets0 : list byte) (timestamp aidmask timeout_start : Z)
          (conn_seen : nat → Z) (me : Z).

Lemma kept_waiting_nil :
  kept_waiting timestamp me aidmask conn_seen [].
Proof. intros pre p post E. by destruct pre. Qed.

Lemma kept_waiting_snoc ps p :
  kept_waiting timestamp me aidmask conn_seen ps →
  (accepted timestamp p →
   ¬ done_after timestamp me aidmask conn_seen (ps ++ [p])) →
  kept_waiting timestamp me aidmask conn_seen (ps ++ [p]).
Proof.
  intros Hps Hp pre x post E Hacc.
  apply snoc_split in E as [(-> & -> & ->)|(post' & -> & ->)].
  - by apply Hp.
  - by apply (Hps pre x post').
Qed.

(** The masks, packet by packet. *)
Lemma reply_masks_skip ps p ret my :
  reply_masks timestamp me ps ret my → ¬ accepted timestamp p →
  reply_masks timestamp me (ps ++ [p]) ret my.
Proof.
  intros (H1 & H2 & Hr & Hm) Hno. split; [done|]. split; [done|]. split.
  - intros a Ha. rewrite (Hr a Ha). split.
    + intros (q & Hq & Hc). exists q. split; [|done].
      apply elem_of_app. by left.
    + intros (q & Hq & Hc & Ha'). exists q. split; [|done].
      apply elem_of_app in Hq as [Hq|Hq]; [done|].
      apply list_elem_of_singleton in Hq as ->. by destruct Hc.
  - intros i Hi. rewrite (Hm i Hi). unfold has_replied. split.
    + intros (Hlt & [->|(q & Hq & Hc)]); (split; [done|]); [by left|].
      right. exists q. split; [|done]. apply elem_of_app. by left.
    + intros (Hlt & [->|(q & Hq & Hc & Hs)]); (split; [done|]); [by left|].
      right. exists q. split; [|done].
      apply elem_of_app in Hq as [Hq|Hq]; [done|].
      by apply list_elem_of_singleton in Hq as ->.
Qed.

Lemma reply_masks_step ps p ret my :
  reply_masks timestamp me ps ret my → accepted timestamp p →
  reply_masks timestamp me (ps ++ [p])
    (if Length (header p) =? 0 then ret
     else u16 (Z.lor ret (Z.shiftl 1 (aid_of p))))
    (u16 (Z.lor my (Z.shiftl 1 (SenderID (header p))))).
Proof.
  intros (H1 & H2 & Hr & Hm) Hacc.
  split; [destruct (_ =? 0); [done|apply low16_u16]|].
  split; [apply low16_u16|]. split.
  - intros a Ha. destruct (Length (header p) =? 0) eqn:E0.
    + apply Z.eqb_eq in E0. rewrite (Hr a Ha). split.
      * intros (q & Hq & Hc). exists q. split; [|done].
        apply elem_of_app. by left.
      * intros (q & Hq & Hc & Ha'). exists q. split; [|done].
        apply elem_of_app in Hq as [Hq|Hq]; [done|].
        apply list_elem_of_singleton in Hq as ->. by destruct Hc.
    + apply Z.eqb_neq in E0.
      rewrite (set_bit_iff ret (aid_of p) a _ Ha (Hr a Ha))
        by (by intros (q & _ & _ & _ & Hlt)).
      split.
      * intros [(q & Hq & Hc)|[-> Hlt]].
        -- exists q. split; [|done]. apply elem_of_app. by left.
        -- exists p. split; [apply elem_of_app; right;
                             by apply list_elem_of_singleton|].
           done.
      * intros (q & Hq & Hc & Hq' & Hlt).
        apply elem_of_app in Hq as [Hq|Hq]; [left; by exists q|].
        apply list_elem_of_singleton in Hq as ->. by right.
  - intros i Hi.
    rewrite (set_bit_iff my (SenderID (header p)) i _ Hi (Hm i Hi))
      by (by intros [Hlt _]).
    unfold has_replied. split.
    + intros [(Hlt & [->|(q & Hq & Hc)])|[-> Hlt]]; (split; [done|]).
      * by left.
      * right. exists q. split; [|done]. apply elem_of_app. by left.
      * right. exists p.
        split; [apply elem_of_app; right; by apply list_elem_of_singleton|].
        done.
    + intros (Hlt & [->|(q & Hq & Hc & Hs)]); [left; split; [done|by left]|].
      apply elem_of_app in Hq as [Hq|Hq].
      * left. split; [done|]. right. by exists q.
      * apply list_elem_of_singleton in Hq as ->. by right.
Qed.

(** The buffer, packet by packet. *)
Lemma replies_stored_keep ps p pk :
  replies_stored packets0 timestamp ps pk → ¬ collected timestamp p →
  replies_stored packets0 timestamp (ps ++ [p]) pk.
Proof.
  intros (Hl & Hout & Hin) Hno. split; [done|]. split.
  - intros j Hj Hfree. apply Hout; [done|]. intros q Hq.
    apply Hfree, elem_of_app. by left.
  - intros pre x post E Hc Hlast k Hk.
    apply snoc_split in E as [(-> & -> & ->)|(post' & -> & ->)]; [done|].
    apply (Hin pre x post' eq_refl Hc); [|done].
    intros q Hq. apply Hlast, elem_of_app. by left.
Qed.

Lemma replies_stored_write ps p pk :
  replies_stored packets0 timestamp ps pk →
  replies_fit packets0 timestamp ps →
  collected timestamp p → 0 ≤ aid_of p < 32 →
  reply_len p ≤ Z.of_nat (length (body p)) →
  reply_slot p + reply_len p ≤ Z.of_nat (length pk) →
  replies_stored packets0 timestamp (ps ++ [p])
    (list_inserts (Z.to_nat (reply_slot p))
       (take (Z.to_nat (reply_len p)) (body p)) pk).
Proof.
  intros (Hl & Hout & Hin) Hfit Hc Ha Hb Hs.
  assert (Hslot : 0 ≤ reply_slot p)
    by (unfold reply_slot, u32; apply Z.mod_pos_bound; lia).
  assert (Hdata : length (take (Z.to_nat (reply_len p)) (body p))
                  = Z.to_nat (reply_len p))
    by (rewrite length_take; lia).
  assert (Hother : ∀ j, 0 ≤ j → ¬ in_slot_of p j →
    list_inserts (Z.to_nat (reply_slot p))
      (take (Z.to_nat (reply_len p)) (body p)) pk !! Z.to_nat j
    = pk !! Z.to_nat j).
  { intros j Hj Hno. unfold in_slot_of in Hno.
    destruct (decide (j < reply_slot p)) as [Hlt|Hge].
    - apply list_lookup_inserts_lt. lia.
    - apply list_lookup_inserts_ge. rewrite Hdata. lia. }
  split; [by rewrite length_inserts|]. split.
  - intros j Hj Hfree. rewrite Hother; [|done|].
    + apply Hout; [done|]. intros q Hq.
      apply Hfree, elem_of_app. by left.
    + apply Hfree; [|done]. apply elem_of_app. right.
      by apply list_elem_of_singleton.
  - intros pre x post E Hcx Hlast k Hk.
    apply snoc_split in E as [(-> & -> & ->)|(post' & -> & ->)].
    + rewrite list_lookup_inserts by (rewrite ?Hdata; lia).
      rewrite lookup_take_lt by lia. f_equal. lia.
    + assert (Hx : x ∈ pre ++ x :: post')
        by (apply elem_of_app; right; apply elem_of_cons; by left).
      destruct (Hfit x Hx Hcx) as (Hax & _ & Hsx).
      assert (Hslotx : 0 ≤ reply_slot x)
        by (unfold reply_slot, u32; apply Z.mod_pos_bound; lia).
      rewrite Hother; [|lia|].
      * apply (Hin pre x post' eq_refl Hcx); [|done].
        intros q Hq. apply Hlast, elem_of_app. by left.
      * apply (slots_apart x p); [done|done| |unfold in_slot_of; lia].
        apply Hlast; [|done]. apply elem_of_app. right.
        by apply list_elem_of_singleton.
Qed.

Lemma drained_nil my :
  low16 my →
  (∀ i, 0 ≤ i → Z.testbit my i = true ↔ i < 16 ∧ i = me) →
  drained packets0 timestamp me [] 0 my packets0.
Proof.
  intros Hlow Hbits. split; [|split].
  - split; [apply low16_0|]. split; [done|]. split.
    + intros a Ha. rewrite Z.testbit_0_l. split; [done|].
      intros (p & Hp & _). by apply elem_of_nil in Hp.
    + intros i Hi. rewrite (Hbits i Hi). unfold has_replied. split.
      * intros [Hlt ->]. split; [done|by left].
      * intros (Hlt & [->|(p & Hp & _)]); [done|].
        by apply elem_of_nil in Hp.
  - intros q Hq. by apply elem_of_nil in Hq.
  - split; [done|]. split; [done|].
    intros pre p post E. by destruct pre.
Qed.

Lemma drained_skip ps p ret my pk :
  drained packets0 timestamp me ps ret my pk → ¬ accepted timestamp p →
  drained packets0 timestamp me (ps ++ [p]) ret my pk.
Proof.
  intros (Hm & Hf & Hs) Hno.
  assert (Hnc : ¬ collected timestamp p) by (by intros [? _]).
  split; [by apply reply_masks_skip|]. split.
  - intros q Hq Hc. apply elem_of_app in Hq as [Hq|Hq]; [by apply Hf|].
    by apply list_elem_of_singleton in Hq as ->.
  - by apply replies_stored_keep.
Qed.

Lemma drained_step ps p ret my pk ret' pk' my' :
  drained packets0 timestamp me ps ret my pk → accepted timestamp p →
  add_aid ret pk p = Some (ret', pk') →
  add_sender my (header p) = Some my' →
  drained packets0 timestamp me (ps ++ [p]) ret' my' pk'.
Proof.
  intros (Hm & Hf & Hs) Hacc Ea Es.
  apply add_sender_inv in Es as [_ ->].
  pose proof (reply_masks_step ps p ret my Hm Hacc) as Hm'.
  pose proof (proj1 Hs) as Hl.
  apply add_aid_inv in Ea
    as [(E0 & -> & ->)|(E0 & Ha & Hb & Hsl & -> & ->)].
  - rewrite E0 in Hm'. cbn in Hm'.
    assert (Hnc : ¬ collected timestamp p) by (by intros [_ ?]).
    split; [done|]. split.
    + intros q Hq Hc. apply elem_of_app in Hq as [Hq|Hq]; [by apply Hf|].
      by apply list_elem_of_singleton in Hq as ->.
    + by apply replies_stored_keep.
  - rewrite (proj2 (Z.eqb_neq _ _) E0) in Hm'.
    split; [done|]. split.
    + intros q Hq Hc. apply elem_of_app in Hq as [Hq|Hq]; [by apply Hf|].
      apply list_elem_of_singleton in Hq as ->.
      split; [done|]. split; [done|]. lia.
    + by apply replies_stored_write.
Qed.

(** The early-exit test says that (a) or (b) holds. *)
Lemma exit_test_done ps ret my pk conn :
  drained packets0 timestamp me ps ret my pk →
  exit_test my conn ret aidmask = true
  ↔ all_replied timestamp me conn ps ∨ aids_cover timestamp aidmask ps.
Proof.
  intros ((_ & _ & Hr & Hm) & _). unfold exit_test.
  rewrite orb_true_iff, !Z.eqb_eq, !land_covers.
  unfold all_replied, aids_cover. split.
  - intros [Ha|Hb]; [left|right].
    + intros i Hi Hc. apply Hm; [done|]. by apply Ha.
    + intros a Ha Hc. apply Hr; [done|]. by apply Hb.
  - intros [Ha|Hb]; [left|right].
    + intros i Hi Hc. apply Hm; [done|]. by apply Ha.
    + intros a Ha Hc. apply Hr; [done|]. by apply Hb.
Qed.

Lemma drain_spec q done_ ret my pk :
  drained packets0 timestamp me done_ ret my pk →
  kept_waiting timestamp me aidmask conn_seen done_ →
  match drain timestamp aidmask conn_seen (length done_) q ret my pk with
  | None => ¬ Forall (reply_fits packets0 timestamp) q
  | Some (Continue r m pk') =>
      drained packets0 timestamp me (done_ ++ q) r m pk'
      ∧ kept_waiting timestamp me aidmask conn_seen (done_ ++ q)
  | Some (Return r pk' leftover) =>
      ∃ pre p m,
        q = pre ++ p :: leftover ∧ accepted timestamp p
        ∧ drained packets0 timestamp me (done_ ++ pre ++ [p]) r m pk'
        ∧ kept_waiting timestamp me aidmask conn_seen (done_ ++ pre)
        ∧ done_after timestamp me aidmask conn_seen (done_ ++ pre ++ [p])
  end.
Proof.
  revert done_ ret my pk.
  induction q as [|p q IH]; intros done_ ret my pk Hd Hw; cbn [drain].
  - by rewrite app_nil_r.
  - assert (Hlen : length (done_ ++ [p]) = S (length done_))
      by (rewrite length_app; cbn; lia).
    assert (Hnext : ∀ r m pk',
      drained packets0 timestamp me (done_ ++ [p]) r m pk' →
      kept_waiting timestamp me aidmask conn_seen (done_ ++ [p]) →
      match drain timestamp aidmask conn_seen (S (length done_)) q r m pk'
      with
      | None => ¬ Forall (reply_fits packets0 timestamp) (p :: q)
      | Some (Continue r' m' pk'') =>
          drained packets0 timestamp me (done_ ++ p :: q) r' m' pk''
          ∧ kept_waiting timestamp me aidmask conn_seen (done_ ++ p :: q)
      | Some (Return r' pk'' leftover) =>
          ∃ pre p' m',
            p :: q = pre ++ p' :: leftover ∧ accepted timestamp p'
            ∧ drained packets0 timestamp me (done_ ++ pre ++ [p']) r' m' pk''
            ∧ kept_waiting timestamp me aidmask conn_seen (done_ ++ pre)
            ∧ done_after timestamp me aidmask conn_seen
                (done_ ++ pre ++ [p'])
      end).
    { intros r m pk' Hd' Hw'. specialize (IH (done_ ++ [p]) r m pk' Hd' Hw').
      rewrite Hlen in IH.
      destruct (drain _ _ _ _ _ _ _ _) as [[r' pk'' leftover|r' m' pk'']|].
      - destruct IH as (pre & p' & m' & Hq & Hacc & Hd'' & Hw'' & Hdone).
        exists (p :: pre), p', m'. rewrite <- !app_assoc in *.
        cbn [app] in *. split; [by rewrite Hq|]. done.
      - by rewrite <- app_assoc in IH.
      - intros Hall. apply IH. by apply Forall_cons in Hall as [_ ?]. }
    destruct (good timestamp (header p)) eqn:Eg.
    + apply good_accepted in Eg.
      destruct (add_aid ret pk p) as [[ret' pk']|] eqn:Ea;
        cbn [mbind option_bind].
      2:{ intros Hall. apply Forall_cons in Hall as [Hfit _].
          destruct (Hfit Eg) as [_ Hpay].
          destruct (add_aid_defined ret pk p) as [x Hx]; [|congruence].
          intros Hne. destruct (Hpay Hne) as (? & ? & ?).
          destruct Hd as (_ & _ & Hl & _). rewrite Hl. done. }
      destruct (add_sender my (header p)) as [my'|] eqn:Es;
        cbn [mbind option_bind].
      2:{ intros Hall. apply Forall_cons in Hall as [Hfit _].
          destruct (Hfit Eg) as [Hsid _]. unfold add_sender in Es.
          rewrite shift_one_defined in Es by done. done. }
      pose proof (drained_step _ _ _ _ _ _ _ _ Hd Eg Ea Es) as Hd'.
      pose proof (exit_test_done _ _ _ _ (conn_seen (length done_)) Hd')
        as Hexit.
      assert (Hdone : done_after timestamp me aidmask conn_seen
                        (done_ ++ [p])
                      ↔ exit_test my' (conn_seen (length done_)) ret'
                          aidmask = true).
      { rewrite Hexit. unfold done_after. rewrite Hlen.
        by replace (S (length done_) - 1)%nat with (length done_) by lia. }
      destruct (exit_test _ _ _ _) eqn:Et.
      * exists [], p, my'. rewrite app_nil_r. cbn [app].
        split; [done|]. split; [done|]. split; [done|]. split; [done|].
        by apply Hdone.
      * apply Hnext; [done|]. apply kept_waiting_snoc; [done|].
        intros _ Hdn. apply Hdone in Hdn. done.
    + assert (Hno : ¬ accepted timestamp p)
        by (rewrite <- good_accepted, Eg; done).
      apply Hnext; [by apply drained_skip|].
      apply kept_waiting_snoc; [done|]. done.
Qed.

Lemma reply_loop_spec rounds done_ ret my pk s :
  drained packets0 timestamp me done_ ret my pk →
  kept_waiting timestamp me aidmask conn_seen done_ →
  match reply_loop timestamp aidmask timeout_start conn_seen rounds
          (length done_) ret my pk s with
  | None => Forall (λ r, ¬ expired timeout_start (MPRecvTimeout s) r) rounds
  | Some Undefined =>
      ¬ Forall (reply_fits packets0 timestamp)
          (RXQueue s ++ concat (map arrived rounds))
  | Some (Returned ret' pk' s') =>
      ∃ before last later consumed my',
        rounds = before ++ last :: later
        ∧ Forall (λ r, ¬ expired timeout_start (MPRecvTimeout s) r) before
        ∧ RXQueue s ++ concat (map arrived (before ++ [last]))
          = consumed ++ RXQueue s'
        ∧ s' = with_queue (RXQueue s') s
        ∧ drained packets0 timestamp me (done_ ++ consumed) ret' my' pk'
        ∧ ((∃ pre p, consumed = pre ++ [p] ∧ accepted timestamp p
              ∧ kept_waiting timestamp me aidmask conn_seen (done_ ++ pre)
              ∧ done_after timestamp me aidmask conn_seen
                  (done_ ++ consumed))
           ∨ (kept_waiting timestamp me aidmask conn_seen
                (done_ ++ consumed)
              ∧ RXQueue s' = []
              ∧ expired timeout_start (MPRecvTimeout s) last))
  end.
Proof.
  revert done_ ret my pk s.
  induction rounds as [|r rounds IH]; intros done_ ret my pk s Hd Hw;
    cbn [reply_loop]; [done|].
  pose proof (drain_spec (RXQueue s ++ arrived r) done_ ret my pk Hd Hw)
    as Hdr.
  destruct (drain _ _ _ _ _ _ _ _) as [[r1 pk1 leftover|r1 my1 pk1]|].
  - destruct Hdr as (pre & p & m & Hq & Hacc & Hd' & Hw' & Hdone).
    exists [], r, rounds, (pre ++ [p]), m.
    split; [done|]. split; [done|].
    cbn [app map concat RXQueue set_queue].
    rewrite app_nil_r, <- app_assoc. split; [done|]. split; [done|].
    split; [done|]. left. by exists pre, p.
  - destruct Hdr as [Hd' Hw'].
    destruct (_ <=? 0) eqn:Et.
    + exists [], r, rounds, (RXQueue s ++ arrived r), my1.
      split; [done|]. split; [done|].
      cbn [app map concat RXQueue set_queue]. rewrite !app_nil_r.
      split; [done|]. split; [done|]. split; [done|].
      right. split; [done|]. split; [done|]. unfold expired. lia.
    + set (q := RXQueue s ++ arrived r) in *.
      specialize (IH (done_ ++ q) r1 my1 pk1
                     (set_queue [] (LastHostID s) (LastHostPeer s) s)).
      rewrite length_app in IH. specialize (IH Hd' Hw').
      cbn [MPRecvTimeout set_queue RXQueue app] in IH.
      destruct (reply_loop _ _ _ _ _ _ _ _ _ _) as [[ret' pk' s'|]|].
      * destruct IH as (before & last & later & consumed & my' & Hr & Hb
                        & Hc & Hs & Hd'' & Hex).
        exists (r :: before), last, later, (q ++ consumed), my'.
        split; [by rewrite Hr|]. split.
        { constructor; [unfold expired; lia|done]. }
        split.
        { cbn [app map concat]. rewrite Hc. subst q.
          by rewrite !app_assoc. }
        split; [by rewrite Hs|]. rewrite !app_assoc. split; [done|].
        destruct Hex as [(pre & p & Hcons & Hacc & Hw2 & Hdn)|Hto].
        -- left. exists (q ++ pre), p. rewrite Hcons, !app_assoc.
           rewrite Hcons, !app_assoc in Hdn. done.
        -- by right.
      * intros Hall. apply IH. cbn [map concat] in Hall.
        subst q. rewrite app_assoc in Hall.
        by apply Forall_app in Hall as [_ ?].
      * constructor; [unfold expired; lia|done].
  - intros Hall. apply Hdr. cbn [map concat] in Hall.
    rewrite app_assoc in Hall. by apply Forall_app in Hall as [? _].
Qed.

End Loop.

(** C3 (amended).  With a host at hand [RecvReplies] returns once the
    clock reading taken after a drain is past the MP receive timeout, if
    not before, and its behaviour is defined when the local id and the
    sender ids of the accepted replies are shift counts below 32 and every
    accepted reply with a payload has an aid below 32, holds the bytes that
    are copied and fits the caller's buffer.  The value returned has bit
    [aid] set exactly when a reply with that aid, below 16, was collected
    among the packets the call dequeued (a reply within the timestamp
    window with a payload), so it is 0 when there was none; the payload of
    a collected reply, cut at 1024 bytes, is in slot [aid - 1] of the
    buffer unless a later one has the same aid, and the rest of the buffer
    is as it was.  The call returns 0 at entry when no player but the
    caller is connected.  Otherwise it looks at (a) and (b) only when it
    accepts a reply: it returns at the first accepted reply after which
    every player then connected has replied or the collected aids cover
    [aidmask], leaving the packets behind that reply queued; failing that
    it returns after the first drain at whose end the timeout has elapsed,
    with the queue empty. *)
Theorem RecvReplies_gathers_replies packets timestamp aidmask timeout_start
    conn_seen rounds s :
  Host s = true →
  let me := ID (MyPlayer s) in
  let result :=
    RecvReplies packets timestamp aidmask timeout_start conn_seen rounds s in
  (Exists (expired timeout_start (MPRecvTimeout s)) rounds → is_Some result)
  ∧ (0 ≤ me < 32 →
     Forall (reply_fits packets timestamp)
       (RXQueue s ++ concat (map arrived rounds)) →
     result ≠ Some Undefined)
  ∧ ∀ ret packets' s',
      result = Some (Returned ret packets' s') →
      ∃ used later consumed,
        rounds = used ++ later
        ∧ RXQueue s ++ concat (map arrived used) = consumed ++ RXQueue s'
        ∧ s' = with_queue (RXQueue s') s
        ∧ (∀ a, 0 ≤ a →
             Z.testbit ret a = true
             ↔ ∃ p, p ∈ consumed ∧ collected timestamp p ∧ aid_of p = a
                    ∧ a < 16)
        ∧ ((∀ p, p ∈ consumed → ¬ collected timestamp p) → ret = 0)
        ∧ replies_stored packets timestamp consumed packets'
        ∧ ((all_replied timestamp me (ConnectedBitmask s) []
            ∧ used = [] ∧ consumed = [] ∧ ret = 0)
           ∨ (¬ all_replied timestamp me (ConnectedBitmask s) []
              ∧ ∃ pre p,
                  consumed = pre ++ [p] ∧ accepted timestamp p
                  ∧ kept_waiting timestamp me aidmask conn_seen pre
                  ∧ done_after timestamp me aidmask conn_seen consumed)
           ∨ (¬ all_replied timestamp me (ConnectedBitmask s) []
              ∧ kept_waiting timestamp me aidmask conn_seen consumed
              ∧ RXQueue s' = []
              ∧ ∃ before last,
                  used = before ++ [last]
                  ∧ Forall (λ r, ¬ expired timeout_start (MPRecvTimeout s) r)
                           before
                  ∧ expired timeout_start (MPRecvTimeout s) last)).
Proof.
  intros Hhost me result. subst result. unfold RecvReplies.
  rewrite Hhost. cbn [negb]. fold me.
  destruct (shift_one me) as [bit|] eqn:Eme.
  2:{ split; [done|]. split; [|done].
      intros Hme. by rewrite shift_one_defined in Eme. }
  apply shift_one_inv in Eme as [Hme ->].
  set (self := u16 (Z.shiftl 1 me)).
  assert (Hself : ∀ i, 0 ≤ i → Z.testbit self i = true ↔ i < 16 ∧ i = me).
  { intros i Hi. subst self. rewrite <- (Z.lor_0_l (Z.shiftl 1 me)).
    rewrite testbit_set_bit by done. rewrite Z.testbit_0_l. cbn [orb].
    rewrite andb_true_iff, Z.ltb_lt, Z.eqb_eq. done. }
  pose proof (drained_nil packets timestamp me self (low16_u16 _) Hself)
    as Hd0.
  assert (Hentry : Z.land self (ConnectedBitmask s) = ConnectedBitmask s
                   ↔ all_replied timestamp me (ConnectedBitmask s) []).
  { rewrite land_covers. unfold all_replied. split.
    - intros H i Hi Hc. apply (proj1 Hd0); [done|]. by apply H.
    - intros H i Hi Hc. apply (proj1 Hd0); [done|]. by apply H. }
  destruct (Z.land self _ =? _) eqn:E0.
  { apply Z.eqb_eq in E0. split; [done|]. split; [done|].
    intros ret packets' s' [= <- <- <-].
    exists [], rounds, []. split; [done|]. split; [by rewrite app_nil_r|].
    split; [by destruct s|]. split.
    { intros a Ha. rewrite Z.testbit_0_l. split; [done|].
      intros (p & Hp & _). by apply elem_of_nil in Hp. }
    split; [done|]. split; [apply Hd0|]. left. by apply Hentry in E0. }
  apply Z.eqb_neq in E0.
  assert (Hnot : ¬ all_replied timestamp me (ConnectedBitmask s) [])
    by (by rewrite <- Hentry).
  pose proof (reply_loop_spec packets timestamp aidmask timeout_start
                conn_seen me rounds [] 0 self packets s Hd0
                (kept_waiting_nil timestamp aidmask conn_seen me)) as Hloop.
  cbn [length app] in Hloop.
  destruct (reply_loop _ _ _ _ _ _ _ _ _ _) as [[ret1 pk1 s1|]|].
  - split; [done|]. split; [done|].
    intros ret packets' s' [= <- <- <-].
    destruct Hloop as (before & last & later & consumed & my' & Hr & Hb & Hc
                       & Hs & Hd & Hex).
    destruct Hd as ((_ & _ & Hbits & _) & _ & Hstored).
    exists (before ++ [last]), later, consumed.
    split; [by rewrite <- app_assoc|]. split; [done|]. split; [done|].
    split; [exact Hbits|]. split.
    { intros Hnone. apply Z.bits_inj'. intros n Hn. rewrite Z.testbit_0_l.
      destruct (Z.testbit ret1 n) eqn:En; [|done].
      apply (Hbits n Hn) in En as (p & Hp & Hcol & _).
      by destruct (Hnone p Hp). }
    split; [done|]. right.
    destruct Hex as [(pre & p & Hcons & Hacc & Hw & Hdn)|(Hw & Hq & Hto)].
    + left. split; [done|]. by exists pre, p.
    + right. split; [done|]. split; [done|]. split; [done|].
      by exists before, last.
  - split; [done|]. split; [|done]. intros _ Hall. by destruct Hloop.
  - split; [|done]. intros Hex. exfalso.
    apply Exists_exists in Hex as (r & Hr & Hexp).
    by apply (proj1 (Forall_forall _ _) Hloop r Hr).
Qed.

End Replies.

(** ** Concrete runs *)

Lemma two_player_init_eq :
  NetplaySession.Init (emu := recorder) 1 0 2 4 NetplaySession.new
    fresh_globals
  = (true, two_player_idle, NetplaySession.mkGlobals (Some 1%nat)).
Proof. vm_compute. reflexivity. Qed.

Lemma Init_validates_arguments_witness :
  (5 < 2 ∨ 4 < 5 ∨ 0 < 0 ∨ 5 ≤ 0)
  ∧ NetplaySession.Init (emu := recorder) 1 0 5 4 NetplaySession.new
      fresh_globals = (false, NetplaySession.new, fresh_globals)
  ∧ (2 ≤ 2 ≤ 4 ∧ 0 ≤ 0 < 2)
  ∧ ∃ s', two_player_init
          = (true, s', NetplaySession.mkGlobals (Some 1%nat))
          ∧ NetplaySession.CurrentFrame s' = 0
          ∧ NetplaySession.Active s' = true
          ∧ (NetplaySession.HostMode s' = true ↔ 0 = 0).
Proof.
  split; [lia|]. split.
  - apply (Init_validates_arguments (emu := recorder) 1%nat 0 5 4
             NetplaySession.new fresh_globals). lia.
  - split; [lia|].
    apply (Init_validates_arguments (emu := recorder) 1%nat 0 2 4
             NetplaySession.new fresh_globals); lia.
Defined.


(** C1, as stated, fails: at frame 4 neither player's slot is ready, yet
    [RunFrame] applies the cleared cells (key mask 0, every button held) and
    moves on to frame 5. *)
Lemma RunFrame_applies_unready_slot :
  run_frames 4 two_player_session = Some starved_session
  ∧ NetplaySession.Active starved_session = true
  ∧ NetplaySession.NumInstances starved_session = 2
  ∧ NetplaySession.CurrentFrame starved_session = 4
  ∧ get2 (NetplaySession.InputReady starved_session) 0 4 = false
  ∧ get2 (NetplaySession.InputReady starved_session) 1 4 = false
  ∧ NetplaySession.ReadyForFrame 4 starved_session = false
  ∧ NetplaySession.RunFrame starved_session
    = Some (263, frame_after starved_session)
  ∧ NetplaySession.CurrentFrame (frame_after starved_session) = 5
  ∧ NetplaySession.Instances (frame_after starved_session) !! 1%nat
    = Some (Some (mkRecorder 0 None false [x01; x01; x01; x01; x01])).
Proof.
  repeat (split; [vm_compute; reflexivity|]). vm_compute; reflexivity.
Qed.

Lemma two_player_first_frame :
  NetplaySession.RunFrame two_player_session
  = Some (263, frame_after two_player_session).
Proof. vm_compute. reflexivity. Qed.

Lemma RunFrame_consumes_ring_slot_witness :
  NetplaySession.ReadyForFrame 0 two_player_session = true
  ∧ get2 (NetplaySession.InputReady two_player_session) 1 0 = true
  ∧ NetplaySession.RunFrame two_player_session
    = Some (263, frame_after two_player_session)
  ∧ NetplaySession.Instances (frame_after two_player_session) !! 1%nat
    = Some (Some (mkRecorder 0xFFF None false [x01]))
  ∧ get2 (NetplaySession.InputReady (frame_after two_player_session)) 1 0
    = false
  ∧ NetplaySession.CurrentFrame (frame_after two_player_session) = 1.
Proof.
  destruct (RunFrame_consumes_ring_slot two_player_session)
    as (r & s' & E & Hinst & Hready & Hclear & Hframe & _).
  - vm_compute. reflexivity.
  - vm_compute. discriminate.
  - intros [|[|i]] Hi; [vm_compute; eauto ..|].
    vm_compute in Hi. lia.
  - apply (Init_ring_shape (emu := recorder) 1%nat 0 2 4 NetplaySession.new
             fresh_globals two_player_idle _ two_player_init_eq).
  - vm_compute. discriminate.
  - assert (Hrdy : NetplaySession.ReadyForFrame 0 two_player_session = true)
      by (vm_compute; reflexivity).
    assert (Es : s' = frame_after two_player_session)
      by (unfold frame_after; rewrite E; reflexivity).
    assert (Er : r = 263)
      by (rewrite two_player_first_frame in E; congruence).
    subst s' r.
    split; [exact Hrdy|].
    split; [apply (Hready Hrdy); vm_compute; split; [discriminate|reflexivity]|].
    split; [exact E|].
    split.
    { etrans; [apply (Hinst 1 Recorder_reset)|vm_compute; reflexivity].
      - vm_compute. split; [discriminate|reflexivity].
      - vm_compute. reflexivity. }
    split; [apply Hclear; vm_compute; split; [discriminate|reflexivity]|].
    rewrite Hframe. vm_compute. reflexivity.
Defined.


(** C2, as stated, fails.  A blob of four bytes completes without a single
    chunk (no byte was covered; the zeroed buffer sums to the checksum 0).
    A duplicate chunk and chunks in reverse order are copied like any
    other: the receiver's state changes and the blob completes. *)
Lemma BlobTransfer_accepts_uncovered_and_repeated :
  (∃ b, BlobTransfer.feed
          [BlobTransfer.msg_BlobStart 1 4; BlobTransfer.msg_BlobEnd 1 0]
          BlobTransfer.initial = Some b
        ∧ BlobTransfer.Complete b = true
        ∧ BlobTransfer.ReceivedLen b = 0
        ∧ BlobTransfer.Buffer b = [x00; x00; x00; x00])
  ∧ (∃ b1 b2 b3,
       BlobTransfer.feed
         [BlobTransfer.msg_BlobStart 1 2;
          BlobTransfer.msg_BlobChunk 0 [x01; x02]]
         BlobTransfer.initial = Some b1
       ∧ BlobTransfer.OnMessage (BlobTransfer.msg_BlobChunk 0 [x01; x02]) b1
         = Some (false, b2)
       ∧ BlobTransfer.ReceivedLen b1 = 2 ∧ BlobTransfer.ReceivedLen b2 = 4
       ∧ BlobTransfer.OnMessage (BlobTransfer.msg_BlobEnd 1 3) b2
         = Some (true, b3)
       ∧ BlobTransfer.Complete b3 = true)
  ∧ (∃ b,
       BlobTransfer.feed
         [BlobTransfer.msg_BlobStart 1 2;
          BlobTransfer.msg_BlobChunk 1 [x02];
          BlobTransfer.msg_BlobChunk 0 [x01];
          BlobTransfer.msg_BlobEnd 1 3]
         BlobTransfer.initial = Some b
       ∧ BlobTransfer.Complete b = true
       ∧ BlobTransfer.Buffer b = [x01; x02]).
Proof.
  split; [|split].
  - eexists. split; [vm_compute; reflexivity|]. by vm_compute.
  - eexists _, _, _. split; [vm_compute; reflexivity|].
    split; [vm_compute; reflexivity|]. split; [by vm_compute|].
    split; [by vm_compute|]. split; [vm_compute; reflexivity|]. by vm_compute.
  - eexists. split; [vm_compute; reflexivity|]. by vm_compute.
Qed.

Lemma BlobTransfer_completion_witness :
  ∃ b, BlobTransfer.feed (BlobTransfer.messages 1 [x07; x09])
         BlobTransfer.initial = Some b
       ∧ BlobTransfer.Complete b = true
       ∧ BlobTransfer.Buffer b = [x07; x09]
       ∧ BlobTransfer.Type_ b = 1.
Proof.
  destruct BlobTransfer_completion as (_ & _ & _ & Hsend).
  apply (Hsend 1 [x07; x09] BlobTransfer.initial); [lia|].
  vm_compute. reflexivity.
Defined.

(** C6: what the dispatch does with the blob [Savestate0 = [07]].  The
    [BlobStart] alone resets all five receivers, the SRAM one included; at
    the end of the transfer it is [BlobRecv[Blob_SRAM]] that holds the
    completed blob, and [BlobRecv[Blob_Savestate0]] is still receiving. *)
Theorem blob_message_reaches_other_receivers :
  (NetplaySession.BlobRecv
     <$> NetplaySession.HandleControlMessage (emu := recorder) 0
           (BlobTransfer.msg_BlobStart Blob_Savestate0 1) NetplaySession.new)
  = Some (replicate 5 (BlobTransfer.mkBlob 1 1 0 [x00] false true))
  ∧ (NetplaySession.BlobRecv
       <$> control_run (BlobTransfer.messages Blob_Savestate0 [x07])
             NetplaySession.new)
    = Some (BlobTransfer.mkBlob 1 1 1 [x07] true false
            :: replicate 4 (BlobTransfer.mkBlob 1 1 1 [x07] false true)).
Proof. split; vm_compute; reflexivity. Qed.

(** *** LAN sessions *)

Lemma host_connect_assigns_lowest_free_id_witness :
  (LAN.MaxPlayers (with_capacity 3 lan_host)
     ≤ LAN.NumPlayers (with_capacity 3 lan_host)
   ∧ LAN.Net (LAN.ProcessHostEvent_CONNECT new_peer (with_capacity 3 lan_host))
     = [LAN.peer_disconnect new_peer]
   ∧ LAN.Players
       (LAN.ProcessHostEvent_CONNECT new_peer (with_capacity 3 lan_host))
     = LAN.Players lan_host)
  ∧ (table_ok lan_host
     ∧ ∃ id, 0 ≤ id < 16 ∧ slot_free lan_host id
         ∧ (∀ j, 0 ≤ j < id → ¬ slot_free lan_host j)
         ∧ LAN.Net (LAN.ProcessHostEvent_CONNECT new_peer lan_host)
           = [LAN.peer_send new_peer LAN.Chan_Cmd (LAN.cmd_ClientInit id 4)]
         ∧ LAN.Status
             (LAN.Players (LAN.ProcessHostEvent_CONNECT new_peer lan_host)
                !!! Z.to_nat id) = LAN.Player_Connecting).
Proof.
  destruct host_connect_assigns_lowest_free_id as [Hfull Hfree].
  split.
  - assert (Hcap : LAN.MaxPlayers (with_capacity 3 lan_host)
                   ≤ LAN.NumPlayers (with_capacity 3 lan_host))
      by (vm_compute; discriminate).
    split; [exact Hcap|].
    destruct (Hfull (with_capacity 3 lan_host) new_peer (or_introl Hcap))
      as (Hnet & Hpl & _).
    split; [exact Hnet|exact Hpl].
  - assert (Hok : table_ok lan_host).
    { split; [reflexivity|]. split; [vm_compute; reflexivity|reflexivity]. }
    split; [exact Hok|].
    destruct (Hfree lan_host new_peer Hok) as (id & Hid & Hf & Hlow & Hnet
      & _ & _ & _ & _ & Hst & _); [vm_compute; reflexivity..|].
    exists id. split; [exact Hid|]. split; [exact Hf|]. split; [exact Hlow|].
    split; [exact Hnet|exact Hst].
Defined.

(** C5, as stated, fails: with a fresh bulk frame at the front of the
    queue [RecvHostPacket] hands that frame back at once although it is not
    a command; and with nothing queued and nothing arriving it gives up
    after one 2 ms sleep, not after the 25 ms timeout. *)
Lemma RecvHostPacket_delivers_non_command :
  LAN.NetworkThread_MP 1000 peer_of_player1 wire_frame lan_host
  = with_queue [queued_frame] lan_host
  ∧ LAN.stale 1001 queued_frame = false
  ∧ LAN.Type_ (LAN.header queued_frame) ≠ 1
  ∧ LAN.RecvHostPacket 1001 [] (with_queue [queued_frame] lan_host)
    = Some (LAN.mkReceived 4 [x01; x02; x03; x04] (Some 77), lan_host, 0)
  ∧ LAN.MPRecvTimeout lan_host = 25
  ∧ LAN.RecvHostPacket 1001 [] lan_host
    = Some (LAN.mkReceived 0 [] None, lan_host, 2).
Proof.
  split; [vm_compute; reflexivity|].
  split; [vm_compute; reflexivity|]. split; [vm_compute; discriminate|].
  split; [vm_compute; reflexivity|]. split; vm_compute; reflexivity.
Qed.

Lemma RecvHostPacket_delivers_queue_front_witness :
  LAN.Host (with_queue [queued_frame] lan_host) = true
  ∧ ¬ over_read queued_frame
  ∧ ∃ r s',
      LAN.RecvHostPacket 1001 [] (with_queue [queued_frame] lan_host)
      = Some (r, s', 0)
      ∧ LAN.ret_len r = 4 ∧ LAN.copied r = [x01; x02; x03; x04]
      ∧ LAN.RXQueue s' = [].
Proof.
  split; [reflexivity|].
  assert (Hno : ¬ over_read queued_frame) by (vm_compute; discriminate).
  split; [exact Hno|].
  destruct (RecvHostPacket_delivers_queue_front
              (with_queue [queued_frame] lan_host) 1001 [] eq_refl)
    as (dropped & kept & Hq & Hst & _ & Hres).
  destruct dropped as [|d dropped].
  - cbn in Hq. subst kept. cbn zeta in Hres. cbn [app] in Hres.
    destruct Hres as [_ Hres].
    destruct (Hres Hno) as (r & s' & E & Hr & Hc & _ & _ & Hs).
    exists r, s'. split; [exact E|]. split; [exact Hr|].
    split; [|exact Hs]. rewrite Hc, Hr. reflexivity.
  - exfalso. cbn in Hq. injection Hq as <- _.
    apply Forall_cons in Hst as [Hd _]. vm_compute in Hd. discriminate.
Defined.

(** C4: a reply queued by the network thread at wall-clock 1000 and still
    in the RX queue at 1600, 600 ms later.  [RecvPacket] discards it as
    stale; [RecvReplies] collects it, copies its payload out and reports
    its aid. *)
Theorem RecvReplies_collects_stale_reply :
  LAN.NetworkThread_MP 1000 peer_of_player1 (wire_reply 1 1) lan_host
  = with_queue [reply_from 1 1 peer_of_player1] lan_host
  ∧ LAN.stale 1600 (reply_from 1 1 peer_of_player1) = true
  ∧ LAN.RecvPacket 1600 []
      (with_queue [reply_from 1 1 peer_of_player1] lan_host)
    = Some (LAN.mkReceived 0 [] None, lan_host, 0)
  ∧ LAN.RecvReplies reply_buffer 3000000 2 1600 (λ _, 7)
      [LAN.mkRound [] 1600]
      (with_queue [reply_from 1 1 peer_of_player1] lan_host)
    = Some (LAN.Returned 2 ([x0a; x0b] ++ drop 2 reply_buffer) lan_host).
Proof.
  split; [vm_compute; reflexivity|].
  split; [vm_compute; reflexivity|]. split; vm_compute; reflexivity.
Qed.

(** C3, as stated, fails: with [aidmask] 0 the collected aids cover the
    mask from the start, yet with two other players connected and nothing
    arriving [RecvReplies] has not returned after a drain at 10 ms; it
    returns at the timeout, 25 ms after it was called. *)
Lemma RecvReplies_waits_though_covered :
  aids_cover 3000000 0 []
  ∧ LAN.MPRecvTimeout lan_host = 25
  ∧ LAN.RecvReplies reply_buffer 3000000 0 1000 (λ _, 7)
      [LAN.mkRound [] 1010] lan_host
    = None
  ∧ LAN.RecvReplies reply_buffer 3000000 0 1000 (λ _, 7)
      [LAN.mkRound [] 1010; LAN.mkRound [] 1025] lan_host
    = Some (LAN.Returned 0 reply_buffer lan_host).
Proof.
  split.
  { intros a Ha Hbit. rewrite Z.testbit_0_l in Hbit. discriminate. }
  split; [reflexivity|]. split; vm_compute; reflexivity.
Qed.

(** The replies of players 1 and 2, with the aids 1 and 2, both asked
    for: the call returns at the second. *)
Lemma RecvReplies_gathers_replies_witness :
  LAN.Host lan_host = true
  ∧ Exists (expired 1000 (LAN.MPRecvTimeout lan_host)) [LAN.mkRound [] 1030]
  ∧ is_Some (LAN.RecvReplies reply_buffer 3000000 6 1000 (λ _, 7)
               [LAN.mkRound [] 1030]
               (with_queue [reply_from 1 1 peer_of_player1;
                            reply_from 2 2 peer_of_player2] lan_host))
  ∧ LAN.RecvReplies reply_buffer 3000000 6 1000 (λ _, 7)
      [LAN.mkRound [] 1030]
      (with_queue [reply_from 1 1 peer_of_player1;
                   reply_from 2 2 peer_of_player2] lan_host)
    = Some (LAN.Returned 6
              ([x0a; x0b] ++ take 1022 (drop 2 reply_buffer)
               ++ [x0a; x0b] ++ drop 1026 reply_buffer)
              lan_host).
Proof.
  split; [reflexivity|].
  assert (Hex : Exists (expired 1000 (LAN.MPRecvTimeout lan_host))
                       [LAN.mkRound [] 1030]).
  { apply Exists_cons_hd. vm_compute. discriminate. }
  split; [exact Hex|]. split; [|vm_compute; reflexivity].
  destruct (RecvReplies_gathers_replies reply_buffer 3000000 6 1000 (λ _, 7)
              [LAN.mkRound [] 1030]
              (with_queue [reply_from 1 1 peer_of_player1;
                           reply_from 2 2 peer_of_player2] lan_host) eq_refl)
    as [Hreturns _].
  exact (Hreturns Hex).
Defined.

(** ** Blob transfer: framing *)
Section BlobFraming.
Import BlobTransfer.

Lemma chunk_messages_done fuel o data :
  Z.of_nat (length data) ≤ o → chunk_messages fuel o data = [].
Proof.
  intros Ho. destruct fuel as [|fuel]; [done|]. cbn [chunk_messages].
  by replace (o <? Z.of_nat (length data)) with false by lia.
Qed.

Lemma chunk_count_bounds n :
  65536 * Z.of_nat (chunk_count n) - 65536 < Z.of_nat n
  ≤ 65536 * Z.of_nat (chunk_count n).
Proof.
  unfold chunk_count, kBlobChunkSize.
  pose proof (Z.div_mod (Z.of_nat n + (65536 - 1)) 65536 ltac:(lia)) as E.
  pose proof (Z.mod_pos_bound (Z.of_nat n + (65536 - 1)) 65536 ltac:(lia)).
  assert (0 ≤ (Z.of_nat n + (65536 - 1)) / 65536)
    by (apply Z.div_pos; lia).
  rewrite Z2Nat.id by done. lia.
Qed.

(** The chunk loop in closed form. *)
Lemma chunk_messages_closed fuel k data :
  Z.of_nat (length data) < 2 ^ 32 →
  65536 * Z.of_nat k ≤ Z.of_nat (length data) →
  Z.of_nat (length data) - 65536 * Z.of_nat k ≤ Z.of_nat fuel →
  chunk_messages fuel (kBlobChunkSize * Z.of_nat k) data
  = map (nth_chunk data) (seq k (chunk_count (length data) - k)).
Proof.
  intros Hlen. revert k. induction fuel as [|fuel IH]; intros k Hk Hfuel.
  - pose proof (chunk_count_bounds (length data)).
    replace (chunk_count (length data) - k)%nat with 0%nat by lia. done.
  - pose proof (chunk_count_bounds (length data)) as Hcc.
    destruct (decide (Z.of_nat (length data) = 65536 * Z.of_nat k)) as [E|Hne].
    { rewrite chunk_messages_done by (unfold kBlobChunkSize; lia).
      replace (chunk_count (length data) - k)%nat with 0%nat by lia. done. }
    cbn [chunk_messages].
    replace (kBlobChunkSize * Z.of_nat k <? Z.of_nat (length data)) with true
      by (unfold kBlobChunkSize; lia).
    set (chunkLen := Z.min kBlobChunkSize _).
    assert (Hpay : take (Z.to_nat chunkLen)
                     (drop (Z.to_nat (kBlobChunkSize * Z.of_nat k)) data)
                   = chunk_payload data k).
    { unfold chunk_payload, chunkLen, kBlobChunkSize.
      destruct (decide (65536 ≤ Z.of_nat (length data) - 65536 * Z.of_nat k)).
      - f_equal. lia.
      - rewrite !take_ge; [done|rewrite length_drop; lia..]. }
    rewrite Hpay.
    destruct (decide (Z.of_nat (length data) ≤ 65536 * (Z.of_nat k + 1)))
      as [Hlast|Hmore].
    + replace (chunk_count (length data) - k)%nat with 1%nat by lia.
      cbn [seq map]. rewrite chunk_messages_done; [done|].
      unfold chunkLen, kBlobChunkSize. rewrite u32_small by lia. lia.
    + replace (chunk_count (length data) - k)%nat
        with (S (chunk_count (length data) - S k))%nat by lia.
      cbn [seq map]. f_equal.
      replace (u32 (kBlobChunkSize * Z.of_nat k + chunkLen))
        with (kBlobChunkSize * Z.of_nat (S k)).
      * apply IH; lia.
      * unfold chunkLen, kBlobChunkSize. rewrite u32_small by lia. lia.
Qed.

(** The chunks are consecutive pieces of the data. *)
Lemma chunk_payloads_concat data k n :
  concat (map (chunk_payload data) (seq k n))
  = take (Z.to_nat (kBlobChunkSize * Z.of_nat n))
         (drop (Z.to_nat (kBlobChunkSize * Z.of_nat k)) data).
Proof.
  revert k. induction n as [|n IH]; intros k; [done|].
  cbn [seq map concat]. rewrite IH. unfold chunk_payload.
  replace (Z.to_nat (kBlobChunkSize * Z.of_nat (S k)))
    with (Z.to_nat (kBlobChunkSize * Z.of_nat k) + Z.to_nat kBlobChunkSize)%nat
    by (unfold kBlobChunkSize; lia).
  rewrite <-drop_drop, take_take_drop. f_equal.
  unfold kBlobChunkSize. lia.
Qed.

Lemma fold_SendTo peerIdx ms t :
  peer_ok peerIdx t →
  fold_left (λ t m, NetplayTransport.SendTo peerIdx m Chan_Control true t)
    ms t
  = with_sent (map (to_peer peerIdx) ms) t.
Proof.
  revert t. induction ms as [|m ms IH]; intros t (Hh & Hi & Hp).
  - destruct t. unfold with_sent. cbn. by rewrite app_nil_r.
  - cbn [fold_left map]. unfold NetplayTransport.SendTo at 2.
    rewrite Hh, Hp. cbn [negb orb].
    replace (peerIdx <? 0) with false by lia.
    replace (peerIdx >=? NetplayTransport.NumPeers t) with false by lia.
    cbn [orb]. rewrite IH by done.
    unfold with_sent, NetplayTransport.enqueue. cbn.
    by rewrite <-app_assoc.
Qed.

Lemma fold_SendTo_nowhere peerIdx ms t :
  ¬ peer_ok peerIdx t →
  fold_left (λ t m, NetplayTransport.SendTo peerIdx m Chan_Control true t)
    ms t
  = t.
Proof.
  intros Hbad. induction ms as [|m ms IH]; [done|]. cbn [fold_left].
  replace (NetplayTransport.SendTo peerIdx m Chan_Control true t) with t;
    [done|].
  unfold NetplayTransport.SendTo.
  destruct (NetplayTransport.Host t) eqn:Hh; [|done]. cbn [negb orb].
  destruct (peerIdx <? 0) eqn:H0; [done|].
  destruct (peerIdx >=? NetplayTransport.NumPeers t) eqn:H1; [done|].
  cbn [orb].
  destruct (NetplayTransport.Peers t !!! Z.to_nat peerIdx) eqn:Hp; [|done].
  exfalso. apply Hbad. unfold peer_ok. split; [done|]. split; [lia|done].
Qed.

Lemma fold_Broadcast ms t :
  NetplayTransport.Host t = true →
  fold_left (λ t m, NetplayTransport.Broadcast m Chan_Control true t) ms t
  = with_sent (map to_all ms) t.
Proof.
  revert t. induction ms as [|m ms IH]; intros t Hh.
  - destruct t. unfold with_sent. cbn. by rewrite app_nil_r.
  - cbn [fold_left map]. unfold NetplayTransport.Broadcast at 2.
    rewrite Hh. cbn [negb]. rewrite IH by done.
    unfold with_sent, NetplayTransport.enqueue. cbn.
    by rewrite <-app_assoc.
Qed.

(** X1.  [Send] frames a blob of [n] bytes (below 2^32) as one [BlobStart]
    carrying [n], then [ceil (n / 65536)] chunks, the [k]-th carrying
    offset [65536 * k] and the bytes of the data from there (65536 of them,
    fewer in the last chunk), then one [BlobEnd] carrying the byte sum.
    The chunk payloads, in order, are the data. *)
Theorem Send_frames_blob type data :
  Z.of_nat (length data) < 2 ^ 32 →
  messages type data
  = msg_BlobStart type (Z.of_nat (length data))
    :: map (nth_chunk data) (seq 0 (chunk_count (length data)))
    ++ [msg_BlobEnd type (byte_sum data)]
  ∧ concat (map (chunk_payload data) (seq 0 (chunk_count (length data))))
    = data
  ∧ ∀ k, (k < chunk_count (length data))%nat →
         1 ≤ Z.of_nat (length (chunk_payload data k)) ≤ 65536
         ∧ ((k + 1 < chunk_count (length data))%nat →
            Z.of_nat (length (chunk_payload data k)) = 65536).
Proof.
  intros Hlen. pose proof (chunk_count_bounds (length data)) as Hcc.
  split; [|split].
  - unfold messages. f_equal. f_equal.
    pose proof (chunk_messages_closed (length data) 0 data Hlen) as E.
    rewrite Nat.sub_0_r in E. apply E; lia.
  - rewrite chunk_payloads_concat. cbn [drop].
    apply take_ge. unfold kBlobChunkSize. lia.
  - intros k Hk. unfold chunk_payload, kBlobChunkSize.
    rewrite length_take, length_drop. lia.
Qed.

(** X2.  [Send] to a peer that can be sent to hands ENet exactly the
    messages of the blob, in order, each as a reliable packet for that peer
    on the control channel, and changes nothing else; to any other peer
    index, or on a transport without a host, it sends nothing.
    [Broadcast] does the same with packets for all peers. *)
Theorem Send_hands_over_messages peerIdx type data t :
  (peer_ok peerIdx t →
     Send peerIdx type data t
     = with_sent (map (to_peer peerIdx) (messages type data)) t)
  ∧ (¬ peer_ok peerIdx t → Send peerIdx type data t = t)
  ∧ (NetplayTransport.Host t = true →
     Broadcast type data t = with_sent (map to_all (messages type data)) t)
  ∧ (NetplayTransport.Host t = false → Broadcast type data t = t).
Proof.
  unfold Send, Broadcast. split; [apply fold_SendTo|].
  split; [apply fold_SendTo_nowhere|]. split; [apply fold_Broadcast|].
  intros Hh. induction (messages type data) as [|m ms IH]; [done|].
  cbn [fold_left]. unfold NetplayTransport.Broadcast at 2. by rewrite Hh.
Qed.

End BlobFraming.

Lemma Send_frames_blob_witness :
  BlobTransfer.messages 1 [x07; x09]
  = [BlobTransfer.msg_BlobStart 1 2;
     BlobTransfer.msg_BlobChunk 0 [x07; x09];
     BlobTransfer.msg_BlobEnd 1 16].
Proof.
  destruct (Send_frames_blob 1 [x07; x09]) as (E & _).
  - vm_compute. reflexivity.
  - rewrite E. vm_compute. reflexivity.
Defined.

Lemma Send_hands_over_messages_witness :
  NetplayTransport.Sent
    (BlobTransfer.Send 0 1 [x07; x09] one_peer_transport)
  = map (to_peer 0) (BlobTransfer.messages 1 [x07; x09])
  ∧ BlobTransfer.Send 1 1 [x07; x09] one_peer_transport = one_peer_transport
  ∧ NetplayTransport.Sent
      (BlobTransfer.Broadcast 1 [x07; x09] one_peer_transport)
    = map to_all (BlobTransfer.messages 1 [x07; x09])
  ∧ BlobTransfer.Broadcast 1 [x07; x09] NetplayTransport.initial
    = NetplayTransport.initial.
Proof.
  assert (Hok : peer_ok 0 one_peer_transport).
  { split; [reflexivity|].
    split; [vm_compute; split; [discriminate|reflexivity]|reflexivity]. }
  assert (Hbad : ¬ peer_ok 1 one_peer_transport).
  { intros (_ & _ & Hp). vm_compute in Hp. discriminate. }
  split.
  { destruct (Send_hands_over_messages 0 1 [x07; x09] one_peer_transport)
      as (E & _).
    rewrite (E Hok). reflexivity. }
  split.
  { destruct (Send_hands_over_messages 1 1 [x07; x09] one_peer_transport)
      as (_ & E & _).
    exact (E Hbad). }
  split.
  { destruct (Send_hands_over_messages 0 1 [x07; x09] one_peer_transport)
      as (_ & _ & E & _).
    rewrite (E eq_refl). reflexivity. }
  destruct (Send_hands_over_messages 0 1 [x07; x09] NetplayTransport.initial)
    as (_ & _ & _ & E).
  exact (E eq_refl).
Defined.

(** ** Blob transfer: the receiver *)
Section BlobReceiver.
Import BlobTransfer.

Lemma OnMessage_idle b m :
  Receiving b = false → not_BlobStart m → OnMessage m b = Some (false, b).
Proof.
  intros Hr Hm. unfold OnMessage. rewrite Hr. cbn [negb orb].
  destruct (Z.of_nat (length m) <? 1); [done|].
  replace (field 0 1 m =? Msg_BlobStart) with false
    by (unfold not_BlobStart in Hm; lia).
  destruct (field 0 1 m =? Msg_BlobChunk); [done|].
  by destruct (field 0 1 m =? Msg_BlobEnd).
Qed.

Lemma byte_sum_from a bs :
  fold_left (λ acc b, u32 (acc + byte_val b)) bs (u32 a)
  = u32 (a + byte_total bs).
Proof.
  revert a. induction bs as [|b bs IH]; intros a; cbn [fold_left byte_total foldr].
  - by rewrite Z.add_0_r.
  - fold (byte_total bs). rewrite IH. unfold u32.
    rewrite <-Z.add_assoc, Zplus_mod_idemp_l. done.
Qed.

Lemma byte_sum_total bs : byte_sum bs = u32 (byte_total bs).
Proof. apply (byte_sum_from 0 bs). Qed.

Lemma byte_total_perm bs bs' : bs ≡ₚ bs' → byte_total bs = byte_total bs'.
Proof.
  induction 1 as [|b l l' _ IH|a b l|l1 l2 l3 _ IH1 _ IH2];
    cbn [byte_total foldr]; [done|by f_equal|lia|congruence].
Qed.

(** X3.  A receiver that is not receiving (as constructed, after [Reset],
    or after a [BlobEnd], whether its checksum matched or not) drops every
    message that is not a [BlobStart]: its state is unchanged and the
    result is false.  So a transfer whose [BlobEnd] failed the checksum
    cannot be resumed or completed; only a new [BlobStart] restarts it. *)
Theorem idle_receiver_waits_for_BlobStart :
  (∀ b msgs,
     Receiving b = false → Forall not_BlobStart msgs →
     feed msgs b = Some b
     ∧ ∀ m, m ∈ msgs → OnMessage m b = Some (false, b))
  ∧ (∀ b data,
       Receiving b = true → (6 ≤ length data)%nat →
       field 0 1 data = Msg_BlobEnd →
       TotalLen b ≤ Z.of_nat (length (Buffer b)) →
       ∃ r b', OnMessage data b = Some (r, b') ∧ Receiving b' = false)
  ∧ Receiving initial = false
  ∧ ∀ b, Receiving (Reset b) = false.
Proof.
  split; [|split; [|done]].
  - intros b msgs Hr Hall. split.
    + induction Hall as [|m msgs Hm _ IH]; [done|].
      cbn [feed]. by rewrite OnMessage_idle.
    + intros m Hm. apply OnMessage_idle; [done|].
      by eapply Forall_forall in Hall.
  - intros b data Hr Hlen Ht Hbuf. rewrite OnMessage_BlobEnd by done.
    destruct (_ =? field 2 4 data); by eexists _, _.
Qed.

(** X4.  The checksum of a blob is the sum of its bytes modulo 2^32, so
    it does not depend on their order: a [BlobEnd] completes the blob
    whenever the buffer holds the bytes that were summed, in any order. *)
Theorem checksum_ignores_order :
  (∀ bs, byte_sum bs = byte_total bs mod 2 ^ 32)
  ∧ (∀ bs bs', bs ≡ₚ bs' → byte_sum bs = byte_sum bs')
  ∧ (∀ b type data,
       Receiving b = true → TotalLen b = Z.of_nat (length (Buffer b)) →
       Buffer b ≡ₚ data →
       OnMessage (msg_BlobEnd type (byte_sum data)) b
       = Some (true, mkBlob (Type_ b) (TotalLen b) (ReceivedLen b)
                            (Buffer b) true false)).
Proof.
  split; [exact byte_sum_total|]. split.
  - intros bs bs' Hp. by rewrite !byte_sum_total, (byte_total_perm _ _ Hp).
  - intros b type data Hr Ht Hp.
    destruct (msg_BlobEnd_fields type (byte_sum data)) as (Hl & H0 & H2).
    rewrite OnMessage_BlobEnd; [|done|lia|done|lia].
    rewrite H2, Ht, Nat2Z.id, firstn_all.
    rewrite (u32_small (byte_sum data)) by apply byte_sum_range.
    rewrite !byte_sum_total, (byte_total_perm _ _ Hp), Z.eqb_refl.
    by rewrite <-Ht.
Qed.

End BlobReceiver.

Lemma idle_receiver_waits_for_BlobStart_witness :
  BlobTransfer.feed
    [BlobTransfer.msg_BlobChunk 0 [x01]; BlobTransfer.msg_BlobEnd 1 1]
    BlobTransfer.initial
  = Some BlobTransfer.initial.
Proof.
  destruct idle_receiver_waits_for_BlobStart as (Hidle & _).
  apply Hidle; [reflexivity|].
  repeat constructor; vm_compute; discriminate.
Defined.

Lemma checksum_ignores_order_witness :
  BlobTransfer.byte_sum [x01; x02; x03] = BlobTransfer.byte_sum [x03; x01; x02]
  ∧ BlobTransfer.OnMessage
      (BlobTransfer.msg_BlobEnd 1 (BlobTransfer.byte_sum [x01; x02; x03]))
      (BlobTransfer.mkBlob 1 3 3 [x03; x01; x02] false true)
    = Some (true, BlobTransfer.mkBlob 1 3 3 [x03; x01; x02] true false).
Proof.
  destruct checksum_ignores_order as (_ & Hperm & Hend).
  assert (Hp : [x03; x01; x02] ≡ₚ [x01; x02; x03]).
  { etrans; [apply Permutation_swap|]. apply Permutation_skip, Permutation_swap. }
  split; [symmetry; apply Hperm, Hp|].
  apply (Hend (BlobTransfer.mkBlob 1 3 3 [x03; x01; x02] false true) 1
           [x01; x02; x03]); [reflexivity|reflexivity|exact Hp].
Defined.

(** ** The session: teardown, readiness and the frame counter *)
Section SessionLife.
Context {emu : Emulator}.
Import NetplaySession.

Lemma set_inputs_same (s : state) : set_inputs (InputBuf s) (InputReady s) s = s.
Proof. by destruct s. Qed.

Lemma Stop_stops t :
  transport_ok t →
  NetplayTransport.Connected (NetplayTransport.Stop t) = false
  ∧ NetplayTransport.Host (NetplayTransport.Stop t) = false
  ∧ NetplayTransport.Sent (NetplayTransport.Stop t) = NetplayTransport.Sent t
  ∧ NetplayTransport.Stop (NetplayTransport.Stop t) = NetplayTransport.Stop t.
Proof.
  intros Hok. unfold NetplayTransport.Stop.
  destruct (NetplayTransport.Host t) eqn:Hh; cbn [negb].
  - done.
  - rewrite Hh. cbn [negb]. split; [|done].
    destruct (NetplayTransport.Connected t) eqn:Hc; [|done].
    specialize (Hok Hc). congruence.
Qed.

Lemma delete_instances (insts : list (option NDS)) :
  length insts = 4%nat →
  for_upto (Z.to_nat kNetplayMaxPlayers)
    (λ (i : Z) (insts : list (option NDS)),
       if (insts !!! Z.to_nat i : option NDS) is Some _
       then <[Z.to_nat i := None]> insts
       else insts)
    insts
  = replicate 4 None.
Proof.
  intros Hlen.
  destruct insts as [|a [|b [|c [|d [|]]]]]; try discriminate.
  by destruct a, b, c, d.
Qed.

(** X5.  [DeInit] leaves the session inactive with no instances, its
    threads stopped and its transport disconnected; the input rings, the
    frame counter and the packets already sent stay.  The global [Current]
    pointer is cleared exactly when it named this session.  On the session
    it leaves, [RunFrame] returns 0 and does nothing, [ReadyForFrame] holds
    of every frame (there is no player to wait for), [SendLocalInput]
    sends nothing, no instance can be fetched, and a second [DeInit]
    changes nothing. *)
Theorem DeInit_tears_down this s g :
  length (Instances s) = 4%nat → transport_ok (Transport s) →
  let s' := (DeInit this s g).1 in
  let g' := (DeInit this s g).2 in
  Active s' = false ∧ NumInstances s' = 0 ∧ ThreadsRunning s' = false
  ∧ Instances s' = replicate 4 None
  ∧ NetplayTransport.IsConnected (Transport s') = false
  ∧ NetplayTransport.Sent (Transport s') = NetplayTransport.Sent (Transport s)
  ∧ InputBuf s' = InputBuf s ∧ InputReady s' = InputReady s
  ∧ CurrentFrame s' = CurrentFrame s
  ∧ (Current g = Some this → Current g' = None)
  ∧ (Current g ≠ Some this → g' = g)
  ∧ RunFrame s' = Some (0, s')
  ∧ (∀ f, ReadyForFrame f s' = true)
  ∧ (∀ input, SendLocalInput input s' = s')
  ∧ (∀ idx, GetInstance idx s' = None)
  ∧ GetDisplayInstance s' = None
  ∧ DeInit this s' g' = (s', g').
Proof.
  intros Hlen Hok s' g'. subst s' g'. unfold DeInit.
  destruct (Stop_stops (Transport s) Hok) as (Hc & Hh & Hs & Hss).
  assert (Hst : ∀ x : state,
            Instances (StopThreads x) = Instances x
            ∧ Transport (StopThreads x) = Transport x
            ∧ ThreadsRunning (StopThreads x) = false
            ∧ InputBuf (StopThreads x) = InputBuf x
            ∧ InputReady (StopThreads x) = InputReady x
            ∧ CurrentFrame (StopThreads x) = CurrentFrame x).
  { intros x. unfold StopThreads. destruct x as [? ? ? ? ? ? ? ? ? ? ? [] ? ? ? ? ? ? ?]; done. }
  destruct (Hst s) as (Hi1 & Ht1 & Hthr1 & Hb1 & Hr1 & Hf1).
  cbn [fst snd]. rewrite Hi1, Ht1, delete_instances by done.
  cbn [Active NumInstances ThreadsRunning Instances Transport InputBuf
       InputReady CurrentFrame].
  unfold NetplayTransport.IsConnected.
  repeat (split; [done|]).
  split; [intros E; by rewrite decide_True|].
  split; [intros E; by rewrite decide_False|].
  split; [done|]. split; [done|].
  split; [intros input; unfold SendLocalInput, NetplayTransport.IsConnected;
          cbn [Transport]; by rewrite Hc|].
  split.
  { intros idx. unfold GetInstance. cbn [NumInstances].
    by destruct ((idx >=? 0) && (idx <? 0)) eqn:E; [lia|]. }
  split.
  { unfold GetDisplayInstance. cbn [NumInstances].
    by destruct ((_ >=? 0) && (_ <? 0)) eqn:E; [lia|]. }
  clear Hi1 Ht1 Hb1 Hr1 Hf1 Hst.
  destruct (StopThreads s) as [? ? ? ? ? ? ? ? ? ? ? thr ? ? ? ? ? ? ?].
  cbn [ThreadsRunning] in Hthr1. subst thr.
  unfold StopThreads.
  cbn [Instances Transport LocalPlayerID HostMode InputBuf InputReady
       InputDelay CurrentFrame StartFrame InstanceScanlines ThreadsRunning
       LastStateHash LastHashFrame BlobRecv OnDesync OnDisconnect Fired negb].
  rewrite Hss, delete_instances by (by rewrite length_replicate).
  f_equal. destruct (decide (Current g = Some this)) as [E|E].
  - by rewrite decide_False.
  - by rewrite decide_False.
Qed.

Lemma fill_row_untouched {A} `{Inhabited A} (v : Z → A) p n a q j :
  0 ≤ p → 0 ≤ q → 0 ≤ j →
  (∀ f, 0 ≤ f < Z.of_nat n → f mod 256 ≠ j) →
  get2 (fill_row v p n a) q j = get2 a q j.
Proof.
  intros Hp Hq Hj. induction n as [|n IH]; intros Hfree; [done|].
  cbn. fold (fill_row v p n a). unfold INPUT_BUF_SIZE.
  rewrite get2_set2_ne; [apply IH; intros; apply Hfree; lia|lia| |lia|lia|].
  - apply Z.mod_pos_bound. lia.
  - intros [=]. eapply (Hfree (Z.of_nat n)); [lia|done].
Qed.

Lemma fill_rows_untouched {A} `{Inhabited A} (v : Z → A) np d a q j :
  0 ≤ q → 0 ≤ j →
  (∀ f, 0 ≤ f < Z.of_nat d → f mod 256 ≠ j) →
  get2 (fill_rows v np d a) q j = get2 a q j.
Proof.
  intros Hq Hj Hfree. induction np as [|np IH]; [done|].
  cbn. fold (fill_rows v np d a).
  rewrite fill_row_untouched; [done|lia|done|done|done].
Qed.

(** X6.  After a successful [Init] with delay [d], a frame below 256 is
    ready exactly when it is below [d]: the first [d] frames can run at
    once, frame [d] waits for input. *)
Theorem Init_readies_delay_frames this lp np d (s : state) g s' g' f :
  Init this lp np d s g = (true, s', g') → 0 ≤ f < 256 →
  ReadyForFrame f s' = true ↔ f < d.
Proof.
  intros E Hf. destruct (Init_true_inv _ _ _ _ _ _ _ _ E) as [Hnp Hlp].
  rewrite Init_accepts in E by done. simplify_eq.
  rewrite ReadyForFrame_spec. cbn [NumInstances InputReady].
  rewrite prefill_split. cbn [snd]. split.
  - intros Hall. destruct (decide (f < d)) as [|Hge]; [done|exfalso].
    specialize (Hall 0 ltac:(lia)).
    rewrite Z.mod_small in Hall by lia.
    rewrite fill_rows_untouched in Hall; [|lia|lia|].
    + unfold get2, cleared_InputReady in Hall.
      rewrite !lookup_total_replicate_2 in Hall by lia. done.
    + intros f' Hf' Hmod. rewrite Z.mod_small in Hmod by lia. lia.
  - intros Hlt i Hi.
    destruct (fill_rows_cell (λ _, true) (Z.to_nat np) (Z.to_nat d)
                cleared_InputReady i f) as (f1 & _ & _ & ->);
      [apply ring_shape_replicate|lia|lia|lia|done].
Qed.

(** What a processed frame leaves as it was. *)
Lemma RunFrame_keeps s r s' :
  RunFrame s = Some (r, s') → Active s = true → NumInstances s ≠ 0 →
  NumInstances s' = NumInstances s ∧ InputBuf s' = InputBuf s
  ∧ Active s' = true ∧ Fired s' = Fired s
  ∧ InputReady s'
    = clear_slot (CurrentFrame s mod 256) (Z.to_nat (NumInstances s))
        (InputReady s)
  ∧ CurrentFrame s' = u32 (CurrentFrame s + 1).
Proof.
  intros E Ha Hn.
  destruct (RunFrame_steps s r s' E Ha Hn) as (s1 & s3 & E1 & E3 & Hr & Hf).
  destruct (ApplyInputs_ready _ _ _ E1) as (Hr1 & Hb1 & Hn1 & Hf1).
  destruct (run_workers_keeps _ _ E3) as (Hr3 & Hb3 & Hn3 & Hf3 & Ht3 & Ha3 & Hfi3).
  assert (Hthr : ∀ x : state,
            let y := if ThreadsRunning x then x else StartThreads x in
            NumInstances y = NumInstances x ∧ InputBuf y = InputBuf x
            ∧ Active y = Active x ∧ Fired y = Fired x).
  { intros x. unfold StartThreads. by destruct (ThreadsRunning x). }
  destruct (Hthr s1) as (Hn2 & Hb2 & Ha2 & Hfi2).
  assert (Hd : ∀ x : state,
            NumInstances (desync_block x) = NumInstances x
            ∧ InputBuf (desync_block x) = InputBuf x
            ∧ Active (desync_block x) = Active x
            ∧ Fired (desync_block x) = Fired x).
  { intros x. unfold desync_block. by destruct ((_ >? 0) && _). }
  destruct (Hd s3) as (Hn4 & Hb4 & Ha4 & Hfi4).
  assert (Hmore : NumInstances s1 = NumInstances s ∧ Active s1 = Active s
                  ∧ Fired s1 = Fired s).
  { unfold ApplyInputs in E1. apply bind_Some in E1 as (insts & _ & E1).
    by simplify_eq. }
  destruct Hmore as (_ & Ha1 & Hfi1).
  unfold RunFrame in E. rewrite Ha in E.
  replace (NumInstances s =? 0) with false in E by lia. cbn [negb orb] in E.
  rewrite E1 in E. cbn [mbind option_bind] in E. rewrite E3 in E.
  cbn [mbind option_bind] in E. simplify_eq.
  cbn [NumInstances InputBuf Active Fired set_frame].
  rewrite Hn4, Hb4, Ha4, Hfi4, Hn3, Hb3, Ha3, Hfi3, Hn2, Hb2, Ha2, Hfi2.
  rewrite Hb1, Ha1, Hfi1, Hr, Hr1. done.
Qed.

(** X7.  A frame that runs consumes exactly one ring slot: afterwards the
    frame just run is no longer ready, and every frame of another slot is
    as ready as it was before; the stored inputs are not touched. *)
Theorem RunFrame_consumes_one_slot s :
  Active s = true → 0 < NumInstances s ≤ 4 → instances_created s →
  ring_shape (InputReady s) →
  ∃ r s',
    RunFrame s = Some (r, s')
    ∧ ReadyForFrame (CurrentFrame s) s' = false
    ∧ (∀ f, f mod 256 ≠ CurrentFrame s mod 256 →
            ReadyForFrame f s' = ReadyForFrame f s)
    ∧ InputBuf s' = InputBuf s.
Proof.
  intros Ha Hn Hc Hshape.
  destruct (RunFrame_returns s Ha ltac:(lia) Hc) as (r & s' & E & _).
  destruct (RunFrame_keeps s r s' E Ha ltac:(lia))
    as (Hn' & Hb' & _ & _ & Hr' & _).
  assert (Hm : ∀ x, 0 ≤ x mod 256 < 256)
    by (intros; apply Z.mod_pos_bound; lia).
  exists r, s'. split; [done|]. split; [|split; [|done]].
  - apply not_true_is_false. intros Hrdy.
    rewrite ReadyForFrame_spec in Hrdy. specialize (Hrdy 0).
    rewrite Hn', Hr' in Hrdy. specialize (Hrdy ltac:(lia)).
    rewrite clear_slot_cleared in Hrdy; [done|done|lia|apply Hm|lia].
  - intros f Hf. apply eq_true_iff_eq. rewrite !ReadyForFrame_spec.
    rewrite Hn', Hr'.
    split; intros Hall i Hi; specialize (Hall i Hi).
    + rewrite clear_slot_other in Hall; [done|lia|apply Hm|apply Hm|congruence].
    + rewrite clear_slot_other; [done|lia|apply Hm|apply Hm|congruence].
Qed.

(** X8.  [RunFrame] hashes and broadcasts only at checkpoints: at frame 0
    and at every frame that is not a multiple of 60 the transport, the
    recorded hash and its frame are left as they were, and no callback
    fires.  At a checkpoint of a session whose transport is not connected
    the hash is recorded and nothing is sent. *)
Theorem RunFrame_hashes_only_at_checkpoints s :
  Active s = true → NumInstances s ≠ 0 → instances_created s →
  ∃ r s',
    RunFrame s = Some (r, s')
    ∧ Fired s' = Fired s
    ∧ (CurrentFrame s ≤ 0 ∨ CurrentFrame s mod 60 ≠ 0 →
       Transport s' = Transport s ∧ LastStateHash s' = LastStateHash s
       ∧ LastHashFrame s' = LastHashFrame s)
    ∧ (NetplayTransport.IsConnected (Transport s) = false →
       Transport s' = Transport s)
    ∧ (0 < CurrentFrame s → CurrentFrame s mod 60 = 0 →
       LastHashFrame s' = CurrentFrame s).
Proof.
  intros Ha Hn Hc.
  destruct (RunFrame_returns s Ha Hn Hc) as (r & s' & E & _).
  destruct (RunFrame_keeps s r s' E Ha Hn) as (_ & _ & _ & Hfi & _).
  exists r, s'. split; [done|]. split; [done|].
  destruct (RunFrame_steps s r s' E Ha Hn) as (s1 & s3 & E1 & E3 & _ & _).
  destruct (run_workers_keeps _ _ E3) as (_ & _ & _ & Hf3 & Ht3 & _).
  assert (H1 : Transport s1 = Transport s ∧ LastStateHash s1 = LastStateHash s
               ∧ LastHashFrame s1 = LastHashFrame s
               ∧ CurrentFrame s1 = CurrentFrame s).
  { unfold ApplyInputs in E1. apply bind_Some in E1 as (insts & _ & E1).
    by simplify_eq. }
  destruct H1 as (Ht1 & Hh1 & Hhf1 & Hf1).
  set (s2 := if ThreadsRunning s1 then s1 else StartThreads s1) in *.
  assert (H2 : Transport s2 = Transport s1
               ∧ LastStateHash s2 = LastStateHash s1
               ∧ LastHashFrame s2 = LastHashFrame s1
               ∧ CurrentFrame s2 = CurrentFrame s1).
  { subst s2. unfold StartThreads. by destruct (ThreadsRunning s1). }
  destruct H2 as (Ht2 & Hh2 & Hhf2 & Hf2).
  assert (H3 : LastStateHash s3 = LastStateHash s2
               ∧ LastHashFrame s3 = LastHashFrame s2).
  { unfold run_workers in E3. apply bind_Some in E3 as (x & _ & E3).
    by simplify_eq. }
  destruct H3 as (Hh3 & Hhf3).
  unfold RunFrame in E. rewrite Ha in E.
  replace (NumInstances s =? 0) with false in E by lia. cbn [negb orb] in E.
  rewrite E1 in E. cbn [mbind option_bind] in E. fold s2 in E.
  rewrite E3 in E. cbn [mbind option_bind] in E. simplify_eq.
  cbn [Transport LastStateHash LastHashFrame set_frame].
  unfold desync_block, DESYNC_CHECK_INTERVAL.
  rewrite Hf3, Hf2, Hf1, Ht3, Ht2, Ht1.
  split; [|split].
  - intros Hoff.
    replace ((CurrentFrame s >? 0) && (CurrentFrame s mod 60 =? 0))
      with false by lia.
    rewrite Ht3, Ht2, Ht1, Hh3, Hh2, Hh1, Hhf3, Hhf2, Hhf1. done.
  - intros Hnc. destruct ((_ >? 0) && _).
    + cbn [Transport set_hash]. by rewrite Hnc.
    + by rewrite Ht3, Ht2, Ht1.
  - intros Hpos Hmod.
    replace ((CurrentFrame s >? 0) && (CurrentFrame s mod 60 =? 0))
      with true by lia.
    done.
Qed.

Lemma instances_created_RunFrame s r s' :
  RunFrame s = Some (r, s') → Active s = true → NumInstances s ≠ 0 →
  instances_created s → instances_created s'.
Proof.
  intros E Ha Hn Hc.
  destruct (RunFrame_returns s Ha Hn Hc) as (r0 & s0 & E0 & Hinst & _).
  rewrite E in E0. simplify_eq.
  destruct (RunFrame_keeps s r0 s0 E Ha Hn) as (Hn' & _).
  intros i Hi. rewrite Hn' in Hi. destruct (Hc i Hi) as [n Hin].
  specialize (Hinst (Z.of_nat i) n ltac:(lia)).
  rewrite Nat2Z.id in Hinst. rewrite (Hinst Hin). eauto.
Qed.

(** X9.  Once the instances are created an active session can run any
    number of frames: [RunFrame] never fails, the frame counter goes up by
    one per call (modulo 2^32), and the session stays active with the same
    players, instances created and stored inputs untouched. *)
Theorem RunFrames_counts n s :
  Active s = true → NumInstances s ≠ 0 → instances_created s →
  ∃ s', RunFrames n s = Some s'
    ∧ CurrentFrame s' = (if n is O then CurrentFrame s
                         else u32 (CurrentFrame s + Z.of_nat n))
    ∧ Active s' = true ∧ NumInstances s' = NumInstances s
    ∧ instances_created s' ∧ InputBuf s' = InputBuf s.
Proof.
  intros Ha Hn Hc. induction n as [|n IH].
  - exists s. done.
  - destruct IH as (s1 & E1 & Hf1 & Ha1 & Hn1 & Hc1 & Hb1).
    cbn [RunFrames]. rewrite E1. cbn [mbind option_bind].
    destruct (RunFrame_returns s1 Ha1 ltac:(lia) Hc1) as (r & s' & E & _).
    rewrite E. cbn [mbind option_bind snd].
    destruct (RunFrame_keeps s1 r s' E Ha1 ltac:(lia))
      as (Hn' & Hb' & Ha' & _ & _ & Hf').
    exists s'. split; [done|]. split.
    + rewrite Hf', Hf1. destruct n as [|n]; [f_equal; lia|].
      unfold u32. rewrite Zplus_mod_idemp_l. f_equal. lia.
    + split; [done|]. split; [lia|].
      split; [|congruence].
      eapply instances_created_RunFrame; eauto. lia.
Qed.

End SessionLife.

Lemma two_player_created : instances_created two_player_session.
Proof.
  intros [|[|i]] Hi; [vm_compute; eauto ..|]. vm_compute in Hi. lia.
Qed.

Lemma two_player_active :
  NetplaySession.Active two_player_session = true
  ∧ NetplaySession.NumInstances two_player_session = 2
  ∧ ring_shape (NetplaySession.InputReady two_player_session)
  ∧ length (NetplaySession.Instances two_player_session) = 4%nat
  ∧ transport_ok (NetplaySession.Transport two_player_session).
Proof.
  split; [vm_compute; reflexivity|]. split; [vm_compute; reflexivity|].
  split.
  { apply (Init_ring_shape (emu := recorder) 1%nat 0 2 4 NetplaySession.new
             fresh_globals two_player_idle _ two_player_init_eq). }
  split; [vm_compute; reflexivity|].
  intros H. vm_compute in H. discriminate.
Qed.

Lemma DeInit_tears_down_witness :
  NetplaySession.Active
    (NetplaySession.DeInit 1 two_player_session
       (NetplaySession.mkGlobals (Some 1%nat))).1 = false
  ∧ NetplaySession.Instances
      (NetplaySession.DeInit 1 two_player_session
         (NetplaySession.mkGlobals (Some 1%nat))).1 = replicate 4 None
  ∧ NetplaySession.Current
      (NetplaySession.DeInit 1 two_player_session
         (NetplaySession.mkGlobals (Some 1%nat))).2 = None
  ∧ (NetplaySession.DeInit 1 two_player_session
       (NetplaySession.mkGlobals (Some 2%nat))).2
    = NetplaySession.mkGlobals (Some 2%nat).
Proof.
  destruct two_player_active as (_ & _ & _ & Hlen & Hok).
  destruct (DeInit_tears_down 1 two_player_session
              (NetplaySession.mkGlobals (Some 1%nat)) Hlen Hok)
    as (Ha & _ & _ & Hi & _ & _ & _ & _ & _ & Hcur & _).
  destruct (DeInit_tears_down 1 two_player_session
              (NetplaySession.mkGlobals (Some 2%nat)) Hlen Hok)
    as (_ & _ & _ & _ & _ & _ & _ & _ & _ & _ & Hother & _).
  split; [exact Ha|]. split; [exact Hi|]. split; [exact (Hcur eq_refl)|].
  apply Hother. discriminate.
Defined.

Lemma Init_readies_delay_frames_witness :
  (NetplaySession.ReadyForFrame 3 two_player_idle = true ↔ 3 < 4)
  ∧ (NetplaySession.ReadyForFrame 4 two_player_idle = true ↔ 4 < 4).
Proof.
  split.
  - apply (Init_readies_delay_frames (emu := recorder) 1%nat 0 2 4
             NetplaySession.new fresh_globals two_player_idle _ 3
             two_player_init_eq). lia.
  - apply (Init_readies_delay_frames (emu := recorder) 1%nat 0 2 4
             NetplaySession.new fresh_globals two_player_idle _ 4
             two_player_init_eq). lia.
Defined.

Lemma RunFrame_consumes_one_slot_witness :
  ∃ r s',
    NetplaySession.RunFrame two_player_session = Some (r, s')
    ∧ NetplaySession.ReadyForFrame
        (NetplaySession.CurrentFrame two_player_session) s' = false
    ∧ NetplaySession.ReadyForFrame 1 s'
      = NetplaySession.ReadyForFrame 1 two_player_session.
Proof.
  destruct two_player_active as (Ha & Hn & Hr & _).
  destruct (RunFrame_consumes_one_slot two_player_session Ha
              ltac:(rewrite Hn; lia) two_player_created Hr)
    as (r & s' & E & Hnot & Hother & _).
  exists r, s'. split; [exact E|]. split; [exact Hnot|].
  apply Hother. vm_compute. discriminate.
Defined.

Lemma RunFrame_hashes_only_at_checkpoints_witness :
  ∃ r s',
    NetplaySession.RunFrame two_player_session = Some (r, s')
    ∧ NetplaySession.Transport s' = NetplaySession.Transport two_player_session
    ∧ NetplaySession.LastHashFrame s'
      = NetplaySession.LastHashFrame two_player_session.
Proof.
  destruct two_player_active as (Ha & Hn & _).
  destruct (RunFrame_hashes_only_at_checkpoints two_player_session Ha
              ltac:(rewrite Hn; lia) two_player_created)
    as (r & s' & E & _ & Hoff & _).
  exists r, s'. split; [exact E|].
  destruct Hoff as (Ht & _ & Hf); [left; vm_compute; discriminate|].
  split; [exact Ht|exact Hf].
Defined.

Lemma RunFrames_counts_witness :
  ∃ s', RunFrames 3 two_player_session = Some s'
    ∧ NetplaySession.CurrentFrame s'
      = u32 (NetplaySession.CurrentFrame two_player_session + 3)
    ∧ instances_created s'.
Proof.
  destruct two_player_active as (Ha & Hn & _).
  destruct (RunFrames_counts 3 two_player_session Ha
              ltac:(rewrite Hn; lia) two_player_created)
    as (s' & E & Hf & _ & _ & Hc & _).
  exists s'. split; [exact E|]. split; [exact Hf|exact Hc].
Defined.

(** ** The session: input and control messages *)
Section SessionMessages.
Context {emu : Emulator}.
Import NetplaySession.

Lemma field_drop (pre rest : list byte) off n :
  field (length pre + off) n (pre ++ rest) = field off n rest.
Proof. unfold field. by rewrite drop_app_add. Qed.

Lemma InputFrame_at_app (pre rest : list byte) off :
  InputFrame_at (length pre + off) (pre ++ rest) = InputFrame_at off rest.
Proof.
  unfold InputFrame_at. rewrite <-!Nat.add_assoc, !field_drop. done.
Qed.

Lemma InputFrame_at_head i (post : list byte) :
  InputFrame_fits i → InputFrame_at 0 (InputFrame_bytes i ++ post) = i.
Proof. apply (InputFrame_at_bytes 0 0 post i). Qed.

Lemma length_InputFrame_bytes i : length (InputFrame_bytes i) = 18%nat.
Proof. unfold InputFrame_bytes. by rewrite !length_app, !length_le_store. Qed.

Lemma length_concat_frames (fs : list InputFrame) :
  length (concat (map InputFrame_bytes fs)) = (18 * length fs)%nat.
Proof.
  induction fs as [|f fs IH]; [done|].
  cbn [map concat]. rewrite length_app, length_InputFrame_bytes, IH.
  cbn [length]. lia.
Qed.

(** What [SetRemoteInput] stores, and what it leaves. *)
Lemma SetRemoteInput_cell p input (s : state) :
  0 ≤ p < NumInstances s → NumInstances s ≤ 4 →
  ring_shape (InputBuf s) → ring_shape (InputReady s) →
  let s' := SetRemoteInput p input s in
  let slot := FrameNum input mod 256 in
  get2 (InputBuf s') p slot = input
  ∧ get2 (InputReady s') p slot = true
  ∧ (∀ q j, 0 ≤ q → 0 ≤ j → (q, j) ≠ (p, slot) →
       get2 (InputBuf s') q j = get2 (InputBuf s) q j
       ∧ get2 (InputReady s') q j = get2 (InputReady s) q j).
Proof.
  intros Hp Hn Hb Hr s' slot. subst s'. unfold SetRemoteInput.
  replace (p <? 0) with false by lia.
  replace (p >=? NumInstances s) with false by lia. cbn [orb].
  unfold INPUT_BUF_SIZE. fold slot. cbn [InputBuf InputReady set_inputs].
  assert (Hs : 0 ≤ slot < 256) by (apply Z.mod_pos_bound; lia).
  split; [|split].
  - apply get2_set2_eq; [lia|lia| |].
    + destruct Hb as [-> _]. lia.
    + rewrite ring_shape_row by (done || lia). lia.
  - apply get2_set2_eq; [lia|lia| |].
    + destruct Hr as [-> _]. lia.
    + rewrite ring_shape_row by (done || lia). lia.
  - intros q j Hq Hj Hne.
    rewrite !get2_set2_ne; [done|lia|lia|lia|lia|congruence
                           |lia|lia|lia|lia|congruence].
Qed.

(** X10.  An input travels unchanged: [SendLocalInput] on a connected
    transport hands ENet one reliable broadcast on the input channel, and
    that message, handled by the receiver, is stored by [SetRemoteInput]
    for the player the peer stands for (peer [k] is player [k + 1] on the
    host, player 0 on a client): the cell at slot [FrameNum mod 256] of
    that player holds the input as sent and is flagged ready, every other
    cell is as before.  When that player is not one of the receiver's
    instances the message changes nothing.  A transport that is not
    connected sends nothing. *)
Theorem input_message_round_trip (sender receiver : state) peerIdx input :
  InputFrame_fits input →
  let p := sender_player peerIdx receiver in
  let r' := HandleInputMessage peerIdx (msg_InputFrame input) receiver in
  let slot := FrameNum input mod 256 in
  (NetplayTransport.Connected (Transport sender) = true →
   NetplayTransport.Host (Transport sender) = true →
   Transport (SendLocalInput input sender)
   = with_sent [NetplayTransport.mkOut None Chan_Input true
                  (msg_InputFrame input)]
       (Transport sender))
  ∧ (NetplayTransport.Connected (Transport sender) = false →
     SendLocalInput input sender = sender)
  ∧ (0 ≤ p < NumInstances receiver → NumInstances receiver ≤ 4 →
     ring_shape (InputBuf receiver) → ring_shape (InputReady receiver) →
     get2 (InputBuf r') p slot = input
     ∧ get2 (InputReady r') p slot = true
     ∧ ∀ q j, 0 ≤ q → 0 ≤ j → (q, j) ≠ (p, slot) →
         get2 (InputBuf r') q j = get2 (InputBuf receiver) q j
         ∧ get2 (InputReady r') q j = get2 (InputReady receiver) q j)
  ∧ (p < 0 ∨ NumInstances receiver ≤ p → r' = receiver).
Proof.
  intros Hfit p r' slot. subst r'.
  rewrite (HandleInputMessage_frame peerIdx input receiver Hfit). fold p.
  split; [|split; [|split]].
  - intros Hc Hh. unfold SendLocalInput, NetplayTransport.IsConnected.
    rewrite Hc. cbn [negb Transport set_transport set_hash].
    unfold NetplayTransport.Broadcast. rewrite Hh. done.
  - intros Hc. unfold SendLocalInput, NetplayTransport.IsConnected.
    by rewrite Hc.
  - intros Hp Hn Hb Hr. by apply SetRemoteInput_cell.
  - intros Hp. unfold SetRemoteInput.
    by replace ((p <? 0) || (p >=? NumInstances receiver)) with true by lia.
Qed.

Lemma msg_InputBatch_frame (frames : list InputFrame) (trailing : list byte)
    k f :
  Forall InputFrame_fits frames → frames !! k = Some f →
  InputFrame_at (2 + 18 * k) (msg_InputBatch frames ++ trailing) = f.
Proof.
  intros Hfit Hk. unfold msg_InputBatch.
  rewrite <-(take_drop_middle frames k f Hk) at 2.
  rewrite map_app, concat_app. cbn [map concat].
  set (pre := le_store 1 Msg_InputBatch
              ++ le_store 1 (Z.of_nat (length frames))
              ++ concat (map InputFrame_bytes (take k frames))).
  assert (Hpre : length pre = (2 + 18 * k)%nat).
  { unfold pre. rewrite !length_app, !length_le_store, length_concat_frames.
    rewrite length_take_le; [lia|]. apply lookup_lt_Some in Hk. lia. }
  rewrite <-(Nat.add_0_r (2 + 18 * k)), <-Hpre.
  replace ((le_store 1 Msg_InputBatch
            ++ le_store 1 (Z.of_nat (length frames))
            ++ concat (map InputFrame_bytes (take k frames))
               ++ InputFrame_bytes f
                  ++ concat (map InputFrame_bytes (drop (S k) frames)))
           ++ trailing)
    with (pre ++ InputFrame_bytes f
              ++ concat (map InputFrame_bytes (drop (S k) frames))
              ++ trailing)
    by (unfold pre; by rewrite <-!app_assoc).
  rewrite InputFrame_at_app. apply InputFrame_at_head.
  by eapply Forall_lookup_1 in Hfit.
Qed.

(** X11.  An input batch of [n] frames (at most 255, the count being one
    byte) is handled as [n] single inputs, in order: the result is that of
    storing the frames one after the other with [SetRemoteInput] for the
    sender's player.  A batch shorter than its count announces is dropped
    whole: none of its frames is stored. *)
Theorem input_batch_is_stored_in_order peerIdx (s : state) :
  (∀ frames trailing,
     Forall InputFrame_fits frames → (length frames ≤ 255)%nat →
     HandleInputMessage peerIdx (msg_InputBatch frames ++ trailing) s
     = fold_left (λ s f, SetRemoteInput (sender_player peerIdx s) f s)
         frames s)
  ∧ (∀ data,
       field 0 1 data = Msg_InputBatch →
       Z.of_nat (length data) < 2 + 18 * field 1 1 data →
       HandleInputMessage peerIdx data s = s).
Proof.
  split.
  - intros frames trailing Hfit Hlen.
    set (data := msg_InputBatch frames ++ trailing).
    assert (Hdl : length data
                  = (2 + 18 * length frames + length trailing)%nat).
    { unfold data, msg_InputBatch.
      rewrite !length_app, !length_le_store, length_concat_frames. lia. }
    assert (Hty : field 0 1 data = Msg_InputBatch) by reflexivity.
    assert (Hcnt : field 1 1 data = Z.of_nat (length frames)).
    { unfold data, msg_InputBatch.
      pose proof (field_exact 1 (Z.of_nat (length frames))
                    (le_store 1 Msg_InputBatch)
                    (concat (map InputFrame_bytes frames) ++ trailing)) as E.
      rewrite length_le_store in E. rewrite <-!app_assoc. rewrite E.
      apply Z.mod_small. simpl. lia. }
    unfold HandleInputMessage. fold data. rewrite Hty, Hcnt, Hdl.
    unfold sizeof_MsgInputBatch, sizeof_InputFrame.
    rewrite (proj2 (Z.ltb_ge _ 1)) by lia.
    change (Msg_InputBatch =? Msg_InputFrame) with false.
    change (Msg_InputBatch =? Msg_InputBatch) with true. cbn match.
    rewrite (proj2 (Z.ltb_ge _ 2)) by lia.
    rewrite u32_small by lia.
    rewrite (proj2 (Z.ltb_ge _ (2 + Z.of_nat (length frames) * 18))) by lia.
    rewrite Nat2Z.id.
    rewrite <-(firstn_all frames) at 2.
    assert (Hk : (length frames ≤ length frames)%nat) by lia.
    revert Hk. generalize (length frames) at 1 3 4 as k.
    induction k as [|k IH]; intros Hk; [done|].
    cbn [for_upto]. rewrite IH by lia.
    destruct (lookup_lt_is_Some_2 frames k ltac:(lia)) as [f Hf].
    rewrite (take_S_r _ _ _ Hf), fold_left_app. cbn [fold_left].
    rewrite Nat2Z.id. f_equal.
    by apply msg_InputBatch_frame.
  - intros data Hty Hshort. unfold HandleInputMessage. rewrite Hty.
    destruct (Z.of_nat (length data) <? 1); [done|].
    change (Msg_InputBatch =? Msg_InputFrame) with false.
    change (Msg_InputBatch =? Msg_InputBatch) with true. cbn match.
    destruct (Z.of_nat (length data) <? sizeof_MsgInputBatch); [done|].
    pose proof (field_nonneg 1 1 data) as Hc.
    assert (Hc8 : field 1 1 data < 256).
    { unfold field. destruct (take 1 (drop 1 data)) as [|b [|]] eqn:E.
      - cbn. lia.
      - cbn. pose proof (byte_val_range b). lia.
      - apply (f_equal length) in E. rewrite length_take in E.
        cbn [length] in E. lia. }
    unfold sizeof_MsgInputBatch, sizeof_InputFrame.
    rewrite u32_small by lia.
    by replace (Z.of_nat (length data) <? 2 + field 1 1 data * 18)
      with true by lia.
Qed.

End SessionMessages.

Section ControlMessages.
Context {emu : Emulator}.
Import NetplaySession.

Lemma set_blobs_same (s : state) : set_blobs (BlobRecv s) s = s.
Proof. by destruct s. Qed.

Lemma offer_blob_ignored data recv :
  (∀ b, BlobTransfer.OnMessage data b = Some (false, b)) →
  offer_blob data recv = Some recv.
Proof.
  intros Hig. induction recv as [|b recv IH]; [done|].
  cbn [offer_blob]. rewrite Hig. cbn. by rewrite IH.
Qed.

Lemma OnMessage_short data b :
  (∀ n, control_size (field 0 1 data) = Some n →
        Z.of_nat (length data) < n) →
  BlobTransfer.OnMessage data b = Some (false, b).
Proof.
  intros Hshort. unfold BlobTransfer.OnMessage.
  destruct (Z.of_nat (length data) <? 1); [done|].
  unfold control_size in Hshort.
  destruct (field 0 1 data =? Msg_BlobStart) eqn:E1.
  { apply Z.eqb_eq in E1. rewrite E1 in Hshort.
    specialize (Hshort _ eq_refl).
    by rewrite (proj2 (Z.ltb_lt _ _)) by done. }
  destruct (field 0 1 data =? Msg_BlobChunk) eqn:E2.
  { apply Z.eqb_eq in E2. rewrite E2 in Hshort.
    specialize (Hshort _ eq_refl).
    rewrite (proj2 (Z.ltb_lt _ sizeof_MsgBlobChunk)) by done.
    by rewrite orb_true_r. }
  destruct (field 0 1 data =? Msg_BlobEnd) eqn:E3; [|done].
  apply Z.eqb_eq in E3. rewrite E3 in Hshort.
  specialize (Hshort _ eq_refl).
  rewrite (proj2 (Z.ltb_lt _ sizeof_MsgBlobEnd)) by done.
  by rewrite orb_true_r.
Qed.

(** X12.  A control message of a type the handler does not know, and a
    message shorter than the struct its type byte announces (an empty
    message included), is dropped: the session is unchanged, and no blob
    receiver sees any effect of it.  [SessionAccept] and [SyncReady] are
    only logged. *)
Theorem HandleControlMessage_drops_malformed peerIdx data (s : state) :
  ((∀ n, control_size (field 0 1 data) = Some n →
         Z.of_nat (length data) < n) →
   HandleControlMessage peerIdx data s = Some s)
  ∧ (field 0 1 data = Msg_SessionAccept ∨ field 0 1 data = Msg_SyncReady →
     HandleControlMessage peerIdx data s = Some s).
Proof.
  split.
  - intros Hshort. unfold HandleControlMessage.
    destruct (Z.of_nat (length data) <? 1); [done|].
    pose proof (OnMessage_short data) as Hblob.
    unfold control_size in Hshort.
    destruct (field 0 1 data =? Msg_SessionOffer) eqn:E1.
    { by rewrite (proj2 (Z.ltb_lt _ _)) by (by apply Hshort). }
    destruct (field 0 1 data =? Msg_SessionAccept) eqn:E2; [done|].
    destruct (field 0 1 data =? Msg_BlobStart) eqn:E3.
    { cbn [orb]. rewrite offer_blob_ignored.
      - cbn. by rewrite set_blobs_same.
      - intros b. apply Hblob. unfold control_size.
        by rewrite E1, E2, E3. }
    destruct (field 0 1 data =? Msg_BlobChunk) eqn:E4.
    { cbn [orb]. rewrite offer_blob_ignored.
      - cbn. by rewrite set_blobs_same.
      - intros b. apply Hblob. unfold control_size.
        by rewrite E1, E2, E3, E4. }
    destruct (field 0 1 data =? Msg_BlobEnd) eqn:E5.
    { cbn [orb]. rewrite offer_blob_ignored.
      - cbn. by rewrite set_blobs_same.
      - intros b. apply Hblob. unfold control_size.
        by rewrite E1, E2, E3, E4, E5. }
    cbn [orb].
    destruct (field 0 1 data =? Msg_SyncReady) eqn:E6; [done|].
    destruct (field 0 1 data =? Msg_StartGame) eqn:E7.
    { by rewrite (proj2 (Z.ltb_lt _ _)) by (by apply Hshort). }
    destruct (field 0 1 data =? Msg_DesyncAlert) eqn:E8.
    { by rewrite (proj2 (Z.ltb_lt _ _)) by (by apply Hshort). }
    destruct (field 0 1 data =? Msg_Disconnect) eqn:E9; [|done].
    by rewrite (proj2 (Z.ltb_lt _ _)) by (by apply Hshort).
  - intros Hty. unfold HandleControlMessage.
    destruct (Z.of_nat (length data) <? 1); [done|].
    destruct Hty as [-> | ->]; [|done].
    change (Msg_SessionAccept =? Msg_SessionOffer) with false.
    change (Msg_SessionAccept =? Msg_SessionAccept) with true.
    by destruct (_ <? sizeof_MsgSessionOffer).
Qed.

(** X13.  The two message handlers keep to their own state.  A control
    message never touches the instances, the input rings, the player
    count, the local player id, the active flag or the recorded hash, and
    only [StartGame] changes the frame counter and the input delay.  An
    input message changes nothing but the two input rings, and in them
    only the row of the player its sender stands for. *)
Theorem message_handlers_keep_apart peerIdx data (s : state) :
  (∀ s', HandleControlMessage peerIdx data s = Some s' →
     Instances s' = Instances s ∧ InputBuf s' = InputBuf s
     ∧ InputReady s' = InputReady s ∧ NumInstances s' = NumInstances s
     ∧ LocalPlayerID s' = LocalPlayerID s ∧ Active s' = Active s
     ∧ HostMode s' = HostMode s ∧ LastStateHash s' = LastStateHash s
     ∧ LastHashFrame s' = LastHashFrame s
     ∧ (field 0 1 data ≠ Msg_StartGame →
        CurrentFrame s' = CurrentFrame s ∧ InputDelay s' = InputDelay s))
  ∧ ∃ buf rdy,
      HandleInputMessage peerIdx data s = set_inputs buf rdy s
      ∧ ∀ q j, 0 ≤ q → 0 ≤ j → q ≠ sender_player peerIdx s →
          get2 buf q j = get2 (InputBuf s) q j
          ∧ get2 rdy q j = get2 (InputReady s) q j.
Proof.
  split.
  - intros s' E. unfold HandleControlMessage in E.
    destruct (Z.of_nat (length data) <? 1); [by simplify_eq|].
    destruct (field 0 1 data =? Msg_SessionOffer).
    { destruct (_ <? sizeof_MsgSessionOffer); by simplify_eq. }
    destruct (field 0 1 data =? Msg_SessionAccept); [by simplify_eq|].
    destruct ((field 0 1 data =? Msg_BlobStart)
              || (field 0 1 data =? Msg_BlobChunk)
              || (field 0 1 data =? Msg_BlobEnd)).
    { apply bind_Some in E as (blobs & _ & E). by simplify_eq. }
    destruct (field 0 1 data =? Msg_SyncReady); [by simplify_eq|].
    destruct (field 0 1 data =? Msg_StartGame) eqn:E7.
    { apply Z.eqb_eq in E7.
      destruct (_ <? sizeof_MsgStartGame); by simplify_eq. }
    destruct (field 0 1 data =? Msg_DesyncAlert).
    { destruct (_ <? sizeof_MsgDesyncAlert); [by simplify_eq|].
      destruct ((_ =? LastHashFrame s) && _); [|by simplify_eq].
      destruct (OnDesync s); by simplify_eq. }
    destruct (field 0 1 data =? Msg_Disconnect); [|by simplify_eq].
    destruct (_ <? sizeof_MsgDisconnect); [by simplify_eq|].
    destruct (OnDisconnect s); by simplify_eq.
  - assert (Hsame : ∃ buf rdy,
              s = set_inputs buf rdy s
              ∧ ∀ q j, 0 ≤ q → 0 ≤ j → q ≠ sender_player peerIdx s →
                  get2 buf q j = get2 (InputBuf s) q j
                  ∧ get2 rdy q j = get2 (InputReady s) q j).
    { exists (InputBuf s), (InputReady s). by rewrite set_inputs_same. }
    assert (Hstep : ∀ input (x : state),
              (∃ buf rdy,
                 x = set_inputs buf rdy s
                 ∧ ∀ q j, 0 ≤ q → 0 ≤ j → q ≠ sender_player peerIdx s →
                     get2 buf q j = get2 (InputBuf s) q j
                     ∧ get2 rdy q j = get2 (InputReady s) q j) →
              ∃ buf rdy,
                SetRemoteInput (sender_player peerIdx x) input x
                = set_inputs buf rdy s
                ∧ ∀ q j, 0 ≤ q → 0 ≤ j → q ≠ sender_player peerIdx s →
                    get2 buf q j = get2 (InputBuf s) q j
                    ∧ get2 rdy q j = get2 (InputReady s) q j).
    { intros input x (buf & rdy & -> & Hrows).
      change (sender_player peerIdx (set_inputs buf rdy s))
        with (sender_player peerIdx s).
      unfold SetRemoteInput.
      destruct ((_ <? 0) || (_ >=? _)) eqn:Erange; [by exists buf, rdy|].
      apply orb_false_elim in Erange as [Hlo _]. apply Z.ltb_ge in Hlo.
      eexists _, _. split; [reflexivity|].
      intros q j Hq Hj Hne. cbn [InputBuf InputReady set_inputs].
      assert (Hm : 0 ≤ FrameNum input mod INPUT_BUF_SIZE)
        by (apply Z.mod_pos_bound; unfold INPUT_BUF_SIZE; lia).
      rewrite !get2_set2_ne by (done || congruence). by apply Hrows. }
    unfold HandleInputMessage.
    destruct (Z.of_nat (length data) <? 1); [done|].
    destruct (field 0 1 data =? Msg_InputFrame).
    { destruct (_ <? sizeof_MsgInputFrame); [done|]. by apply Hstep. }
    destruct (field 0 1 data =? Msg_InputBatch); [|done].
    destruct (_ <? sizeof_MsgInputBatch); [done|].
    destruct (_ <? u32 _); [done|].
    induction (Z.to_nat (field 1 1 data)) as [|k IH]; [done|].
    cbn [for_upto]. by apply Hstep.
Qed.

(** X14.  The session handshake carries no player id and sets up no
    inputs.  A [SessionOffer] is answered with one reliable
    [SessionAccept] whose player id is 0, sent to the offering peer, and
    that answer is dropped by whoever receives it.  A [StartGame] sets the
    frame counter and the input delay to the values it carries; the input
    rings stay as they are: no slot is pre-filled or cleared for the new
    frame or delay. *)
Theorem handshake_messages peerIdx (s : state) :
  (∀ data,
     field 0 1 data = Msg_SessionOffer → (11 ≤ length data)%nat →
     peer_ok peerIdx (Transport s) →
     HandleControlMessage peerIdx data s
     = Some (set_transport
               (with_sent [to_peer peerIdx (msg_SessionAccept 0)]
                  (Transport s)) s))
  ∧ HandleControlMessage peerIdx (msg_SessionAccept 0) s = Some s
  ∧ ∀ frame delay,
      HandleControlMessage peerIdx (msg_StartGame frame delay) s
      = Some (set_frame (u32 frame) (u8 delay) s)
      ∧ InputBuf (set_frame (u32 frame) (u8 delay) s) = InputBuf s
      ∧ ∀ f, ReadyForFrame f (set_frame (u32 frame) (u8 delay) s)
             = ReadyForFrame f s.
Proof.
  split; [|split].
  - intros data Hty Hlen (Hh & Hi & Hp). unfold HandleControlMessage.
    rewrite Hty, (proj2 (Z.ltb_ge _ 1)) by lia.
    change (Msg_SessionOffer =? Msg_SessionOffer) with true. cbn match.
    rewrite (proj2 (Z.ltb_ge _ sizeof_MsgSessionOffer))
      by (unfold sizeof_MsgSessionOffer; lia).
    unfold NetplayTransport.SendTo. rewrite Hh, Hp. cbn [negb orb].
    rewrite (proj2 (Z.ltb_ge _ 0)) by lia.
    replace (peerIdx >=? NetplayTransport.NumPeers (Transport s))
      with false by lia.
    done.
  - reflexivity.
  - intros frame delay. split; [|split; [done|done]].
    unfold HandleControlMessage.
    assert (Hl : length (msg_StartGame frame delay) = 6%nat)
      by (unfold msg_StartGame; by rewrite !length_app, !length_le_store).
    rewrite Hl.
    assert (Hf1 : field 1 4 (msg_StartGame frame delay) = u32 frame)
      by apply (field_exact 4 frame (le_store 1 Msg_StartGame)
                  (le_store 1 delay)).
    assert (Hf5 : field 5 1 (msg_StartGame frame delay) = u8 delay).
    { pose proof (field_exact 1 delay
                    (le_store 1 Msg_StartGame ++ le_store 4 frame) []) as E.
      rewrite length_app, !length_le_store, app_nil_r, <-app_assoc in E.
      exact E. }
    rewrite Hf1, Hf5. reflexivity.
Qed.

End ControlMessages.

Lemma input_message_round_trip_witness :
  get2 (NetplaySession.InputBuf
          (NetplaySession.HandleInputMessage 0
             (NetplaySession.msg_InputFrame
                (mkInputFrame 7 0xFFE 0 0 0 0 0))
             two_player_session)) 1 7
  = mkInputFrame 7 0xFFE 0 0 0 0 0
  ∧ NetplaySession.HandleInputMessage 5
      (NetplaySession.msg_InputFrame (mkInputFrame 7 0xFFE 0 0 0 0 0))
      two_player_session
    = two_player_session.
Proof.
  assert (Hfit : InputFrame_fits (mkInputFrame 7 0xFFE 0 0 0 0 0)).
  { repeat split; vm_compute; congruence. }
  destruct two_player_active as (_ & Hn & Hr & _).
  assert (Hb : ring_shape (NetplaySession.InputBuf two_player_session)).
  { apply (Init_ring_shape (emu := recorder) 1%nat 0 2 4 NetplaySession.new
             fresh_globals two_player_idle _ two_player_init_eq). }
  split.
  - destruct (input_message_round_trip two_player_session two_player_session
                0 _ Hfit) as (_ & _ & Hcell & _).
    destruct Hcell as (Hc & _); [vm_compute; split; [discriminate|reflexivity]
                                |rewrite Hn; lia|exact Hb|exact Hr|].
    exact Hc.
  - destruct (input_message_round_trip two_player_session two_player_session
                5 _ Hfit) as (_ & _ & _ & Hout).
    apply Hout. right. vm_compute. discriminate.
Defined.

Lemma input_batch_is_stored_in_order_witness :
  NetplaySession.HandleInputMessage 0
    (msg_InputBatch [mkInputFrame 7 0xFFE 0 0 0 0 0;
                     mkInputFrame 8 0xFFF 0 0 0 0 0] ++ [])
    two_player_session
  = NetplaySession.SetRemoteInput 1 (mkInputFrame 8 0xFFF 0 0 0 0 0)
      (NetplaySession.SetRemoteInput 1 (mkInputFrame 7 0xFFE 0 0 0 0 0)
         two_player_session).
Proof.
  destruct (input_batch_is_stored_in_order 0 two_player_session) as (E & _).
  rewrite E; [reflexivity| |vm_compute; lia].
  repeat constructor; vm_compute; congruence.
Defined.

Lemma HandleControlMessage_drops_malformed_witness :
  NetplaySession.HandleControlMessage 0 [x16; x01; x02] two_player_session
  = Some two_player_session
  ∧ NetplaySession.HandleControlMessage 0 [x7f; x01; x02] two_player_session
    = Some two_player_session.
Proof.
  split.
  - destruct (HandleControlMessage_drops_malformed 0 [x16; x01; x02]
                two_player_session) as [Hdrop _].
    apply Hdrop.
    intros n Hn. vm_compute in Hn. injection Hn as <-. vm_compute. reflexivity.
  - destruct (HandleControlMessage_drops_malformed 0 [x7f; x01; x02]
                two_player_session) as [Hdrop _].
    apply Hdrop.
    intros n Hn. vm_compute in Hn. discriminate.
Defined.

Lemma message_handlers_keep_apart_witness :
  NetplaySession.InputBuf
    (NetplaySession.set_frame 60 2 two_player_session)
  = NetplaySession.InputBuf two_player_session.
Proof.
  destruct (message_handlers_keep_apart 0 (msg_StartGame 60 2)
              two_player_session) as (Hctl & _).
  destruct (Hctl (NetplaySession.set_frame 60 2 two_player_session))
    as (_ & Hb & _); [vm_compute; reflexivity|exact Hb].
Defined.

Lemma handshake_messages_witness :
  NetplaySession.HandleControlMessage 0
    (le_store 1 Msg_SessionOffer ++ replicate 10 x00) checkpoint_session
  = Some (NetplaySession.set_transport
            (with_sent [to_peer 0 (NetplaySession.msg_SessionAccept 0)]
               (NetplaySession.Transport checkpoint_session))
            checkpoint_session).
Proof.
  destruct (handshake_messages 0 checkpoint_session) as (Hoffer & _).
  apply Hoffer; [reflexivity|vm_compute; lia|].
  split; [reflexivity|].
  split; [vm_compute; split; [discriminate|reflexivity]|reflexivity].
Defined.

(** ** Blob dispatch and state sync *)
Section BlobDispatch.
Context {emu : Emulator}.
Import NetplaySession.

Lemma OnMessage_true m b b' :
  BlobTransfer.OnMessage m b = Some (true, b') → field 0 1 m = Msg_BlobEnd.
Proof.
  unfold BlobTransfer.OnMessage. intros E.
  destruct (Z.of_nat (length m) <? 1); [by simplify_eq|].
  destruct (field 0 1 m =? Msg_BlobStart).
  { destruct (_ <? sizeof_MsgBlobStart); by simplify_eq. }
  destruct (field 0 1 m =? Msg_BlobChunk).
  { destruct (negb _ || _); [by simplify_eq|].
    destruct (_ >? _); [by simplify_eq|].
    destruct (_ <=? _); by simplify_eq. }
  destruct (field 0 1 m =? Msg_BlobEnd) eqn:E3; [lia|by simplify_eq].
Qed.

Lemma Forall2_split {A B C} (R1 : A → B → Prop) (R2 : B → C → Prop) l k :
  Forall2 (λ a c, ∃ b, R1 a b ∧ R2 b c) l k →
  ∃ m, Forall2 R1 l m ∧ Forall2 R2 m k.
Proof.
  induction 1 as [|a c l k (b & H1 & H2) _ (m & IH1 & IH2)].
  - by exists [].
  - exists (b :: m). split; by constructor.
Qed.

(** A message that is not a [BlobEnd] reaches every receiver. *)
Lemma offer_blob_all m recv recv' :
  field 0 1 m ≠ Msg_BlobEnd →
  Forall2 (λ b b', ∃ r, BlobTransfer.OnMessage m b = Some (r, b')) recv recv' →
  offer_blob m recv = Some recv'.
Proof.
  intros Hm. induction 1 as [|b b' recv recv' [r Hb] _ IH]; [done|].
  cbn [offer_blob]. rewrite Hb. cbn.
  destruct r; [by apply OnMessage_true in Hb|]. by rewrite IH.
Qed.

Lemma offer_run_all ms recv recv' :
  Forall (λ m, field 0 1 m ≠ Msg_BlobEnd) ms →
  Forall2 (λ b b', BlobTransfer.feed ms b = Some b') recv recv' →
  offer_run ms recv = Some recv'.
Proof.
  intros Hms. revert recv. induction Hms as [|m ms Hm _ IH]; intros recv H.
  - cbn [offer_run]. f_equal.
    induction H as [|b b' l k E _ IHl]; [done|]. cbn in E. by simplify_eq.
  - cbn [offer_run].
    destruct (Forall2_split
                (λ b b1, ∃ r, BlobTransfer.OnMessage m b = Some (r, b1))
                (λ b1 b', BlobTransfer.feed ms b1 = Some b') recv recv')
      as (recv1 & H1 & H2).
    { eapply Forall2_impl; [exact H|]. intros b b' E. cbn [BlobTransfer.feed] in E.
      apply bind_Some in E as ([r b1] & E1 & E2). eauto. }
    rewrite (offer_blob_all m recv recv1 Hm H1). cbn. by apply IH.
Qed.

Lemma offer_run_app ms1 ms2 recv :
  offer_run (ms1 ++ ms2) recv = offer_run ms1 recv ≫= offer_run ms2.
Proof.
  revert recv. induction ms1 as [|m ms1 IH]; intros recv; [done|].
  cbn [app offer_run]. destruct (offer_blob m recv) as [r|]; [apply IH|done].
Qed.

Lemma feed_app ms1 ms2 b :
  BlobTransfer.feed (ms1 ++ ms2) b
  = BlobTransfer.feed ms1 b ≫= BlobTransfer.feed ms2.
Proof.
  revert b. induction ms1 as [|m ms1 IH]; intros b; [done|].
  cbn [app BlobTransfer.feed].
  destruct (BlobTransfer.OnMessage m b) as [[r b']|]; [apply IH|done].
Qed.

(** A receiver, whatever its state, after the [BlobStart] and the chunks
    of a blob. *)
Lemma feed_start_chunks type data b :
  0 ≤ type < 256 → Z.of_nat (length data) < 2 ^ 32 →
  ∃ b', BlobTransfer.feed
          (BlobTransfer.msg_BlobStart type (Z.of_nat (length data))
           :: BlobTransfer.chunk_messages (length data) 0 data) b
        = Some b'
        ∧ awaiting_end type data b'.
Proof.
  intros Hty Hlen. cbn [BlobTransfer.feed].
  destruct (msg_BlobStart_fields type (Z.of_nat (length data)))
    as (Hsl & Hs0 & Hs1 & Hs2).
  rewrite OnMessage_BlobStart by (done || lia).
  cbn [mbind option_bind snd]. rewrite Hs1, Hs2.
  rewrite u32_small by lia. rewrite Nat2Z.id.
  set (b0 := BlobTransfer.mkBlob _ _ _ _ _ _).
  destruct (feed_chunks (length data) 0 data b0)
    as (b1 & Hfeed & Hr1 & Ht1 & Hty1 & Hc1 & Hb1);
    [done|lia|lia|done|done| |].
  { cbn. by rewrite Nat.sub_0_r. }
  exists b1. split; [exact Hfeed|].
  unfold awaiting_end. rewrite Hr1, Hc1, Hb1, Hty1, Ht1. cbn.
  unfold u8. rewrite Z.mod_small by lia. done.
Qed.

Lemma chunk_messages_types fuel o data :
  Forall (λ m, field 0 1 m = Msg_BlobChunk)
    (BlobTransfer.chunk_messages fuel o data).
Proof.
  revert o. induction fuel as [|fuel IH]; intros o; [constructor|].
  cbn [BlobTransfer.chunk_messages]. destruct (o <? _); [|constructor].
  constructor; [reflexivity|apply IH].
Qed.

Lemma messages_blob type data :
  Forall blob_message (BlobTransfer.messages type data).
Proof.
  unfold BlobTransfer.messages. constructor; [by left|].
  apply Forall_app. split.
  - eapply Forall_impl; [apply chunk_messages_types|].
    intros m Hm. right. by left.
  - constructor; [|constructor]. right. by right.
Qed.

(** The whole stream of one blob through the dispatch loop: the first
    receiver ends holding the blob, every other receiver is left in the
    middle of the transfer. *)
Lemma blob_stream_dispatch type data b0 others :
  0 ≤ type < 256 → Z.of_nat (length data) < 2 ^ 32 →
  ∃ c0 others',
    offer_run (BlobTransfer.messages type data) (b0 :: others)
    = Some (c0 :: others')
    ∧ holds_blob type data c0
    ∧ length others' = length others
    ∧ Forall (awaiting_end type data) others'.
Proof.
  intros Hty Hlen. unfold BlobTransfer.messages.
  set (pre := BlobTransfer.msg_BlobStart type (Z.of_nat (length data))
              :: BlobTransfer.chunk_messages (length data) 0 data).
  change (BlobTransfer.msg_BlobStart type (Z.of_nat (length data))
          :: BlobTransfer.chunk_messages (length data) 0 data
             ++ [BlobTransfer.msg_BlobEnd type (BlobTransfer.byte_sum data)])
    with (pre ++ [BlobTransfer.msg_BlobEnd type (BlobTransfer.byte_sum data)]).
  rewrite offer_run_app.
  assert (Hpre : ∀ recv,
            ∃ recv', Forall2 (λ b b', BlobTransfer.feed pre b = Some b')
                       recv recv'
                     ∧ Forall (awaiting_end type data) recv').
  { induction recv as [|b recv (recv' & IH1 & IH2)]; [by exists []|].
    destruct (feed_start_chunks type data b Hty Hlen) as (b' & E & Hb').
    exists (b' :: recv'). split; by constructor. }
  destruct (Hpre (b0 :: others)) as (recv' & H2 & Hall).
  rewrite (offer_run_all pre (b0 :: others) recv').
  2:{ unfold pre. constructor; [by vm_compute|].
      eapply Forall_impl; [apply chunk_messages_types|].
      intros m ->. by vm_compute. }
  2:{ exact H2. }
  destruct recv' as [|b1 others'];
    [by apply Forall2_length in H2|].
  apply Forall2_length in H2. apply Forall_cons in Hall as [Hb1 Hall].
  destruct Hb1 as (Hr & Hc & Hb & Ht & Htl).
  cbn [mbind option_bind offer_run offer_blob].
  destruct (msg_BlobEnd_fields type (BlobTransfer.byte_sum data))
    as (Hel & He0 & He2).
  rewrite OnMessage_BlobEnd; [|done|lia|done|rewrite Hb, Htl; lia].
  rewrite He2, Hb, Htl, Nat2Z.id, firstn_all.
  rewrite (u32_small (BlobTransfer.byte_sum data)) by apply byte_sum_range.
  rewrite Z.eqb_refl. cbn.
  eexists _, _. split; [reflexivity|].
  split; [by rewrite <-Hb|]. split; [cbn [length] in H2; lia|done].
Qed.

Lemma HandleControlMessage_blob peerIdx m (s : state) :
  blob_message m →
  HandleControlMessage peerIdx m s
  = (λ r, set_blobs r s) <$> offer_blob m (BlobRecv s).
Proof.
  intros Hm. unfold HandleControlMessage.
  destruct (Z.of_nat (length m) <? 1) eqn:El.
  { assert (length m = 0%nat) as Hl by lia.
    destruct m; [|done]. exfalso.
    destruct Hm as [Hm|[Hm|Hm]]; vm_compute in Hm; discriminate. }
  assert (Hno : (field 0 1 m =? Msg_SessionOffer) = false
                ∧ (field 0 1 m =? Msg_SessionAccept) = false).
  { destruct Hm as [-> | [-> | ->]]; done. }
  destruct Hno as [Hno1 Hno2]. rewrite Hno1, Hno2.
  replace ((field 0 1 m =? Msg_BlobStart) || (field 0 1 m =? Msg_BlobChunk)
           || (field 0 1 m =? Msg_BlobEnd)) with true
    by (destruct Hm as [-> | [-> | ->]]; done).
  by destruct (offer_blob m (BlobRecv s)).
Qed.

Lemma handle_all_blobs peerIdx ms (s : state) :
  Forall blob_message ms →
  handle_all peerIdx ms s
  = (λ r, set_blobs r s) <$> offer_run ms (BlobRecv s).
Proof.
  intros Hms. revert s. induction Hms as [|m ms Hm _ IH]; intros s.
  - cbn. by rewrite set_blobs_same.
  - cbn [handle_all offer_run]. rewrite HandleControlMessage_blob by done.
    destruct (offer_blob m (BlobRecv s)) as [r|]; [|done]. cbn.
    rewrite IH. cbn [BlobRecv set_blobs].
    by destruct (offer_run ms r).
Qed.

(** X15.  The dispatch of blob messages does not look at the blob type.
    Whatever the type of a blob and whatever the five receivers held
    before, once the messages [Send] produces for it have been handled the
    first receiver ([BlobRecv[Blob_SRAM]]) holds the blob as complete, and
    each of the four others has its bytes but is still receiving and not
    complete; nothing else in the session changes. *)
Theorem blob_lands_in_first_receiver peerIdx type data (s : state) :
  0 ≤ type < 256 → Z.of_nat (length data) < 2 ^ 32 →
  length (BlobRecv s) = 5%nat →
  ∃ recv',
    handle_all peerIdx (BlobTransfer.messages type data) s
    = Some (set_blobs recv' s)
    ∧ length recv' = 5%nat
    ∧ holds_blob type data (recv' !!! 0%nat)
    ∧ ∀ i, (1 ≤ i < 5)%nat → awaiting_end type data (recv' !!! i).
Proof.
  intros Hty Hlen Hrecv.
  destruct (BlobRecv s) as [|b0 others] eqn:Eb; [done|].
  destruct (blob_stream_dispatch type data b0 others Hty Hlen)
    as (c0 & others' & E & Hc0 & Hl & Hall).
  exists (c0 :: others').
  rewrite handle_all_blobs by apply messages_blob. rewrite Eb, E.
  split; [done|]. cbn [length] in *. split; [lia|]. split; [done|].
  intros i Hi. destruct i as [|i]; [lia|].
  destruct (lookup_lt_is_Some_2 others' i ltac:(lia)) as [b Hb].
  rewrite (list_lookup_total_correct (c0 :: others') (S i) b Hb).
  by eapply Forall_lookup_1 in Hall.
Qed.

(** Streams of several blobs, one after the other. *)
Lemma blob_streams_dispatch blobs last recv :
  Forall sendable (blobs ++ [last]) → length recv = 5%nat →
  ∃ recv',
    offer_run (concat (map blob_stream (blobs ++ [last]))) recv = Some recv'
    ∧ length recv' = 5%nat
    ∧ holds_blob last.1 last.2 (recv' !!! 0%nat)
    ∧ awaiting_end last.1 last.2 (recv' !!! 1%nat).
Proof.
  revert recv. induction blobs as [|b blobs IH]; intros recv Hs Hlen.
  - cbn [app map concat]. rewrite app_nil_r.
    apply Forall_cons in Hs as [[Hty Hl] _].
    destruct recv as [|b0 others]; [done|].
    destruct (blob_stream_dispatch last.1 last.2 b0 others Hty Hl)
      as (c0 & others' & E & Hc0 & Hlo & Hall).
    exists (c0 :: others'). unfold blob_stream. rewrite E.
    cbn [length] in *. split; [done|]. split; [lia|]. split; [done|].
    destruct others' as [|b1 ?]; [cbn in *; lia|].
    by apply Forall_cons in Hall as [? _].
  - cbn [app map concat]. rewrite offer_run_app.
    apply Forall_cons in Hs as [[Hty Hl] Hs].
    destruct recv as [|b0 others]; [done|].
    destruct (blob_stream_dispatch b.1 b.2 b0 others Hty Hl)
      as (c0 & others' & E & _ & Hlo & _).
    change (blob_stream b) with (BlobTransfer.messages b.1 b.2).
    rewrite E. cbn [mbind option_bind].
    apply IH; [done|]. cbn [length] in *. lia.
Qed.

End BlobDispatch.

Section StateSyncFacts.
Context {emu : Emulator} {con : Console}.
Import NetplaySession.

Lemma TakeState_keeps inst (s s1 : state) out :
  TakeState inst s = (s1, out) →
  Transport s1 = Transport s ∧ NumInstances s1 = NumInstances s
  ∧ BlobRecv s1 = BlobRecv s.
Proof.
  unfold TakeState. intros E.
  destruct ((inst <? 0) || (inst >=? NumInstances s)); [by simplify_eq|].
  destruct (Instances s !!! Z.to_nat inst) as [n|]; [|by simplify_eq].
  destruct (DoSavestate_save n) as [n' o]. by simplify_eq.
Qed.

Lemma peer_ok_with_sent k more t : peer_ok k t → peer_ok k (with_sent more t).
Proof. by intros (? & ? & ?). Qed.

Lemma with_sent_with_sent a b t :
  with_sent b (with_sent a t) = with_sent (a ++ b) t.
Proof. unfold with_sent. cbn. by rewrite app_assoc. Qed.

Lemma length_first_u32 v : Z.of_nat (length (first_u32 v)) < 2 ^ 32.
Proof.
  unfold first_u32. rewrite length_take.
  assert (0 ≤ u32 (Z.of_nat (length v)) < 2 ^ 32)
    by (unfold u32; apply Z.mod_pos_bound; lia).
  lia.
Qed.

(** What the loop of [HostSendStates] has handed to ENet when it leaves
    with true: the streams of one blob per instance. *)
Lemma send_states_stream clientIdx idxs (s s' : state) :
  peer_ok clientIdx (Transport s) → Forall (λ i, 0 ≤ i < 255) idxs →
  send_states clientIdx idxs s = (true, s') →
  ∃ blobs,
    Transport s'
    = with_sent (map (to_peer clientIdx) (concat (map blob_stream blobs)))
        (Transport s)
    ∧ length blobs = length idxs ∧ Forall sendable blobs.
Proof.
  intros Hok Hidx. revert s Hok.
  induction Hidx as [|i idxs Hi _ IH]; intros s Hok E.
  - cbn in E. simplify_eq. exists []. split; [|done].
    unfold with_sent. cbn. rewrite app_nil_r. by destruct (Transport s').
  - cbn [send_states] in E.
    destruct (TakeState i s) as [s1 [d|]] eqn:Et; [|by simplify_eq].
    destruct (TakeState_keeps _ _ _ _ Et) as (Ht1 & _).
    rewrite Ht1 in E.
    destruct (Send_hands_over_messages clientIdx (Blob_Savestate0 + i)
                (first_u32 d) (Transport s)) as (Hsend & _).
    rewrite (Hsend Hok) in E.
    apply IH in E as (blobs & Ht & Hl & Hs).
    2:{ cbn [Transport set_transport set_hash]. by apply peer_ok_with_sent. }
    exists ((Blob_Savestate0 + i, first_u32 d) :: blobs).
    split; [|split].
    + rewrite Ht. cbn [Transport set_transport set_hash].
      rewrite with_sent_with_sent. cbn [map concat].
      by rewrite map_app.
    + cbn [length]. lia.
    + constructor; [|done]. split; cbn [fst snd].
      * unfold Blob_Savestate0. lia.
      * apply length_first_u32.
Qed.

Lemma payloads_since_with_sent k ms t :
  payloads_since t (with_sent (map (to_peer k) ms) t) = ms.
Proof.
  unfold payloads_since, with_sent. cbn [NetplayTransport.Sent].
  rewrite drop_app_length, map_map. cbn. apply map_id.
Qed.

(** The packets of a [HostSendStates] that returns true. *)
Lemma HostSendStates_stream clientIdx (host host' : state) :
  HostSendStates clientIdx host = Some (true, host') →
  0 < NumInstances host ≤ 4 → peer_ok clientIdx (Transport host) →
  ∃ blobs last,
    payloads_since (Transport host) (Transport host')
    = concat (map blob_stream (blobs ++ [last]))
    ∧ Forall sendable (blobs ++ [last]).
Proof.
  intros E Hn Hok. unfold HostSendStates in E.
  destruct (send_states clientIdx (seqZ 0 (NumInstances host)) host)
    as [ok s1] eqn:Es.
  destruct ok; [|by simplify_eq]. cbn [negb] in E.
  destruct (send_states_stream clientIdx (seqZ 0 (NumInstances host)) host s1
              Hok) as (blobs & Ht & Hl & Hs);
    [|exact Es|].
  { apply Forall_forall. intros i Hi%elem_of_seqZ. lia. }
  rewrite length_seqZ in Hl.
  assert (Hne : blobs ≠ []) by (intros ->; cbn in Hl; lia).
  apply bind_Some in E as (n & _ & E).
  assert (Hsnoc : ∀ l : list (Z * list byte),
            l ≠ [] → ∃ l' x, l = l' ++ [x]).
  { intros l. destruct l as [|a l] using rev_ind; [done|]. eauto. }
  destruct (GetNDSSave n) as [sram|].
  - destruct (u32 (Z.of_nat (length sram)) >? 0); simplify_eq.
    + exists blobs, (Blob_SRAM, first_u32 sram).
      cbn [Transport set_transport set_hash].
      destruct (Send_hands_over_messages clientIdx Blob_SRAM
                  (first_u32 sram) (Transport s1)) as (Hsend & _).
      rewrite Hsend by (rewrite Ht; by apply peer_ok_with_sent).
      rewrite Ht, with_sent_with_sent, <-map_app.
      rewrite payloads_since_with_sent.
      split; [by rewrite map_app, concat_app; cbn; rewrite app_nil_r|].
      apply Forall_app. split; [done|]. constructor; [|done].
      split; [done|apply length_first_u32].
    + destruct (Hsnoc blobs Hne) as (l' & x & ->).
      exists l', x. rewrite Ht, payloads_since_with_sent. done.
  - simplify_eq. destruct (Hsnoc blobs Hne) as (l' & x & ->).
    exists l', x. rewrite Ht, payloads_since_with_sent. done.
Qed.

Lemma blob_streams_blob (blobs : list (Z * list byte)) :
  Forall blob_message (concat (map blob_stream blobs)).
Proof.
  induction blobs as [|b blobs IH]; [constructor|].
  cbn [map concat]. apply Forall_app. split; [apply messages_blob|done].
Qed.

(** X16.  State sync cannot complete.  When [HostSendStates] has sent the
    states of its instances to a client and the client has handled every
    message of it in order, [ClientReceiveStates] still returns false and
    changes nothing: each blob was completed in the first receiver, the
    one [ClientReceiveStates] reads for the cartridge save memory, and
    the receiver of the first instance's state is still waiting for its
    [BlobEnd]. *)
Theorem state_sync_never_completes clientIdx peerIdx
    (host host' client : state) :
  HostSendStates clientIdx host = Some (true, host') →
  0 < NumInstances host ≤ 4 → peer_ok clientIdx (Transport host) →
  length (BlobRecv client) = 5%nat → 0 < NumInstances client →
  ∃ client',
    handle_all peerIdx (payloads_since (Transport host) (Transport host'))
      client
    = Some client'
    ∧ payloads_since (Transport host) (Transport host') ≠ []
    ∧ BlobTransfer.IsComplete (BlobRecv client' !!! 0%nat) = true
    ∧ BlobTransfer.IsComplete (BlobRecv client' !!! 1%nat) = false
    ∧ ClientReceiveStates client' = Some (false, client').
Proof.
  intros E Hn Hok Hrecv Hcn.
  destruct (HostSendStates_stream clientIdx host host' E Hn Hok)
    as (blobs & last & -> & Hs).
  destruct (blob_streams_dispatch blobs last (BlobRecv client) Hs Hrecv)
    as (recv' & Erun & Hl & (Hc0 & _) & (_ & Hc1 & _)).
  exists (set_blobs recv' client).
  rewrite handle_all_blobs by apply blob_streams_blob. rewrite Erun.
  split; [done|]. split.
  { rewrite map_app, concat_app. intros Hnil.
    apply app_eq_nil in Hnil as [_ Hnil]. cbn [map concat] in Hnil.
    unfold blob_stream, BlobTransfer.messages in Hnil. discriminate. }
  cbn [BlobRecv set_blobs]. unfold BlobTransfer.IsComplete.
  split; [done|]. split; [done|].
  unfold ClientReceiveStates. cbn [NumInstances set_blobs].
  rewrite seqZ_cons by lia. cbn [states_complete].
  change (Blob_Savestate0 + 0 >=? Blob_MAX) with false. cbn match.
  change (Z.to_nat (Blob_Savestate0 + 0)) with 1%nat.
  cbn [BlobRecv set_blobs]. unfold BlobTransfer.IsComplete. by rewrite Hc1.
Qed.

Lemma loop_pointwise {A} `{Inhabited A} (body : Z → list A → list A)
    (F : nat → A → A) N (l : list A) :
  (∀ i l, (i < length l)%nat →
          body (Z.of_nat i) l = <[i := F i (l !!! i)]> l) →
  (N ≤ length l)%nat →
  length (for_upto N body l) = length l
  ∧ (∀ i, (i < N)%nat → for_upto N body l !!! i = F i (l !!! i))
  ∧ (∀ i, (N ≤ i)%nat → for_upto N body l !!! i = l !!! i).
Proof.
  intros Hbody. induction N as [|N IH]; intros HN.
  - split; [done|]. split; [intros; lia|done].
  - destruct IH as (Hlen & Hlo & Hhi); [lia|].
    cbn [for_upto]. rewrite Hbody by lia.
    split; [by rewrite length_insert|]. split.
    + intros i Hi. destruct (decide (i = N)) as [->|Hne].
      * rewrite list_lookup_total_insert_eq by lia. by rewrite Hhi.
      * rewrite list_lookup_total_insert_ne by done. apply Hlo. lia.
    + intros i Hi. rewrite list_lookup_total_insert_ne by lia.
      apply Hhi. lia.
Qed.

(** X17.  [CreateInstances] makes, resets and registers one emulator per
    player, in order, and turns the sound off on every instance but the
    local player's; slots beyond the player count are left alone.  It
    always returns true.  Afterwards all instances are created, so on an
    active session [RunFrame] returns. *)
Theorem CreateInstances_makes_all this (argsBuilder : Z → NDSArgs)
    (s : state) :
  length (Instances s) = 4%nat → 0 ≤ NumInstances s ≤ 4 →
  let made i := Reset (NDS_new (argsBuilder i) i this) in
  let s' := (CreateInstances this argsBuilder s).1.2 in
  (CreateInstances this argsBuilder s).1.1 = true
  ∧ (CreateInstances this argsBuilder s).2 = seqZ 0 (NumInstances s)
  ∧ NumInstances s' = NumInstances s
  ∧ instances_created s'
  ∧ (∀ i, 0 ≤ i < NumInstances s →
       Instances s' !!! Z.to_nat i
       = Some (if i =? LocalPlayerID s then made i
               else SPU_SetPowerCnt 0 (made i)))
  ∧ (∀ i, (Z.to_nat (NumInstances s) ≤ i)%nat →
       Instances s' !!! i = Instances s !!! i)
  ∧ (Active s = true → NumInstances s ≠ 0 →
     ∃ r s'', RunFrame s' = Some (r, s'')).
Proof.
  intros Hlen Hn made s'. subst s'. unfold CreateInstances.
  cbn [fst snd]. unfold MuteNonLocalInstances.
  cbn [NumInstances LocalPlayerID Instances InstanceScanlines set_instances].
  set (N := Z.to_nat (NumInstances s)).
  destruct (loop_pointwise
              (λ (i : Z) (insts : list (option NDS)),
                 <[Z.to_nat i := Some (made i)]> insts)
              (λ i _, Some (made (Z.of_nat i))) N (Instances s))
    as (Hl1 & Hlo1 & Hhi1).
  { intros i l Hi. by rewrite Nat2Z.id. }
  { unfold N. lia. }
  set (l1 := for_upto N _ (Instances s)) in *.
  destruct (loop_pointwise
              (λ (i : Z) (insts : list (option NDS)),
                 if negb (i =? LocalPlayerID s) then
                   match (insts !!! Z.to_nat i : option NDS) with
                   | Some n => <[Z.to_nat i := Some (SPU_SetPowerCnt 0 n)]> insts
                   | None => insts
                   end
                 else insts)
              (λ i old, if negb (Z.of_nat i =? LocalPlayerID s)
                        then SPU_SetPowerCnt 0 <$> old else old)
              N l1)
    as (Hl2 & Hlo2 & Hhi2).
  { intros i l Hi. rewrite Nat2Z.id.
    assert (Hid : <[i := l !!! i]> l = l).
    { apply list_insert_id'. intros _. by apply list_lookup_lookup_total_lt. }
    destruct (negb _); [|done].
    destruct (l !!! i) as [n|] eqn:El; [done|]. done. }
  { rewrite Hl1. unfold N. lia. }
  set (l2 := for_upto N _ l1) in *.
  assert (Hcell : ∀ i, 0 ≤ i < NumInstances s →
            l2 !!! Z.to_nat i
            = Some (if i =? LocalPlayerID s then made i
                    else SPU_SetPowerCnt 0 (made i))).
  { intros i Hi. rewrite Hlo2, Hlo1 by (unfold N; lia).
    rewrite Z2Nat.id by lia. by destruct (i =? LocalPlayerID s). }
  assert (Hc : instances_created
                 (set_instances l2 (InstanceScanlines s)
                    (set_instances l1 (InstanceScanlines s) s))).
  { intros i Hi. cbn [NumInstances Instances set_instances] in *.
    specialize (Hcell (Z.of_nat i) ltac:(lia)). rewrite Nat2Z.id in Hcell.
    eexists. rewrite list_lookup_lookup_total_lt by (rewrite Hl2, Hl1; lia).
    by rewrite Hcell. }
  split; [done|]. split; [done|]. split; [done|]. split; [exact Hc|].
  split; [exact Hcell|]. split.
  - intros i Hi. by rewrite Hhi2, Hhi1.
  - intros Ha Hne.
    destruct (RunFrame_returns
                (set_instances l2 (InstanceScanlines s)
                   (set_instances l1 (InstanceScanlines s) s))
                Ha Hne Hc) as (r & s'' & E & _).
    eauto.
Qed.

End StateSyncFacts.

Lemma blob_lands_in_first_receiver_witness :
  ∃ recv',
    handle_all 0 (BlobTransfer.messages Blob_Savestate0 [x07])
      two_player_session
    = Some (NetplaySession.set_blobs recv' two_player_session)
    ∧ holds_blob Blob_Savestate0 [x07] (recv' !!! 0%nat)
    ∧ awaiting_end Blob_Savestate0 [x07] (recv' !!! 1%nat).
Proof.
  destruct (blob_lands_in_first_receiver 0 Blob_Savestate0 [x07]
              two_player_session)
    as (recv' & E & _ & H0 & Hrest).
  - vm_compute. split; [discriminate|reflexivity].
  - vm_compute. reflexivity.
  - vm_compute. reflexivity.
  - exists recv'. split; [exact E|]. split; [exact H0|].
    apply Hrest. lia.
Defined.

Lemma checkpoint_host_sends :
  NetplaySession.HostSendStates (con := recorder_console) 0 checkpoint_session
  = Some (true, synced_host).
Proof. vm_compute. reflexivity. Qed.

Lemma state_sync_never_completes_witness :
  ∃ client',
    handle_all 0
      (payloads_since (NetplaySession.Transport checkpoint_session)
         (NetplaySession.Transport synced_host))
      two_player_session
    = Some client'
    ∧ NetplaySession.ClientReceiveStates (con := recorder_console) client'
      = Some (false, client').
Proof.
  destruct (state_sync_never_completes (con := recorder_console) 0 0
              checkpoint_session synced_host two_player_session
              checkpoint_host_sends)
    as (client' & E & _ & _ & _ & Hno).
  - vm_compute. split; [reflexivity|discriminate].
  - split; [reflexivity|].
    split; [vm_compute; split; [discriminate|reflexivity]|reflexivity].
  - vm_compute. reflexivity.
  - vm_compute. reflexivity.
  - exists client'. split; [exact E|exact Hno].
Defined.

Lemma CreateInstances_makes_all_witness :
  instances_created
    (NetplaySession.CreateInstances (con := recorder_console) 1 (λ _, tt)
       two_player_idle).1.2
  ∧ (NetplaySession.CreateInstances (con := recorder_console) 1 (λ _, tt)
       two_player_idle).2
    = [0; 1].
Proof.
  destruct (CreateInstances_makes_all (con := recorder_console) 1 (λ _, tt)
              two_player_idle)
    as (_ & Hb & _ & Hc & _).
  - vm_compute. reflexivity.
  - vm_compute. split; discriminate.
  - split; [exact Hc|]. rewrite Hb. vm_compute. reflexivity.
Defined.

(** ** LAN bridge: the staleness window *)
Section Staleness.
Import LAN.

Lemma stale_in_window time_last p :
  stamped p → 500 ≤ time_last < 2 ^ 32 →
  stale time_last p = false
  ↔ time_last - 500 ≤ Magic (header p) ≤ time_last.
Proof.
  intros Hp Ht. unfold stale, u32.
  rewrite (Z.mod_small (time_last - 500)) by lia.
  rewrite orb_false_iff. lia.
Qed.

Lemma stale_early time_last p :
  stamped p → 0 ≤ time_last < 500 → stale time_last p = true.
Proof.
  intros Hp Ht. unfold stale, u32.
  replace (time_last - 500) with (time_last - 500 + 2 ^ 32 + (-1) * 2 ^ 32)
    by lia.
  rewrite Z.mod_add by lia. rewrite Z.mod_small by lia.
  apply orb_true_iff. unfold stamped in Hp. lia.
Qed.

Lemma scan_queue_all_stale type time_last q :
  Forall (λ p, stale time_last p = true) q →
  scan_queue type time_last q = ([], false).
Proof.
  induction 1 as [|p q Hp _ IH]; [done|].
  cbn [scan_queue]. by rewrite Hp.
Qed.

(** The network thread stamps what it queues with a 32-bit clock value. *)
Lemma NetworkThread_MP_stamped now peer p s :
  Forall stamped (RXQueue s) →
  Forall stamped (RXQueue (NetworkThread_MP now peer p s)).
Proof.
  intros Hq. unfold NetworkThread_MP.
  destruct (negb _); [done|]. destruct (_ =? _); [done|].
  cbn [set_queue RXQueue]. apply Forall_app. split; [done|].
  apply Forall_singleton. unfold stamped. cbn [header Magic]. unfold u32.
  apply Z.mod_pos_bound. lia.
Qed.

(** X18.  A queued packet is kept by [ProcessLAN] exactly when its receive
    wall-clock lies in the 500 ms up to the clock reading, provided the
    reading is at least 500.  While the 32-bit millisecond clock reads less
    than 500 (in the first half second after it starts or wraps) every
    queued packet counts as stale: [ProcessLAN] empties the queue and a
    non-blocking receive hands back nothing of it. *)
Theorem staleness_window time_last (s : state) :
  Forall stamped (RXQueue s) → 0 ≤ time_last < 2 ^ 32 →
  (500 ≤ time_last →
   ∀ p, p ∈ RXQueue s →
     stale time_last p = false
     ↔ time_last - 500 ≤ Magic (header p) ≤ time_last)
  ∧ (time_last < 500 → Host s = true →
     (∀ type,
        ProcessLAN type time_last s
        = (with_queue [] s, if type =? 2 then 2 else 0))
     ∧ ∃ r, RecvPacket time_last [] s = Some (r, with_queue [] s, 0)
            ∧ hands_nothing r).
Proof.
  intros Hq Ht. split.
  - intros H500 p Hp. apply stale_in_window; [|lia].
    by apply (proj1 (Forall_forall _ _) Hq).
  - intros Hearly Hhost.
    assert (Hall : Forall (λ p, stale time_last p = true) (RXQueue s)).
    { eapply Forall_impl; [exact Hq|]. intros p Hp.
      apply stale_early; [done|lia]. }
    assert (HP : ∀ type,
      ProcessLAN type time_last s
      = (with_queue [] s, if type =? 2 then 2 else 0)).
    { intros type. unfold ProcessLAN. rewrite Hhost. cbn [negb].
      rewrite scan_queue_all_stale by done. by destruct (type =? 2). }
    split; [exact HP|].
    exists (mkReceived 0 [] None). split; [|done].
    unfold RecvPacket, RecvPacketGeneric. rewrite Hhost. cbn [negb].
    rewrite HP. done.
Qed.

Lemma scan_queue_prefix type time_last q :
  ∃ dropped kept,
    q = dropped ++ kept
    ∧ Forall (λ p, stale time_last p = true) dropped
    ∧ match kept with
      | p :: _ => stale time_last p = false
      | [] => True
      end
    ∧ scan_queue type time_last q
      = match kept with
        | [] => ([], false)
        | p :: rest =>
            if type =? 2 then (kept, true)
            else if type =? 1 then
              if Type_ (header p) =? 0 then (kept, true) else (rest, false)
            else (kept, false)
        end.
Proof.
  induction q as [|p q (dropped & kept & Hq & Hst & Hk & Hscan)].
  - by exists [], [].
  - cbn [scan_queue]. destruct (stale time_last p) eqn:E.
    + exists (p :: dropped), kept. rewrite Hq at 1.
      split; [done|]. split; [by constructor|]. done.
    + exists [], (p :: q). split; [done|]. split; [done|]. done.
Qed.

(** X19.  A non-blocking receive ([RecvPacket]) never sleeps.  It drops the
    stale packets at the front of the RX queue.  If the first packet that
    is not stale is a frame (type 0) it is handed back.  If it is of
    another type it is discarded, and the packet behind it is handed back
    without being looked at: stale or not, frame or not.  With nothing
    left in the queue the call returns 0.  A packet is handed back with
    its payload, cut at 2048 bytes, when it holds the bytes its length
    field announces; the copy runs past the packet when it does not. *)
Theorem RecvPacket_skips_one_packet s time_last arrived :
  Host s = true →
  ∃ dropped kept,
    RXQueue s = dropped ++ kept
    ∧ Forall (λ p, stale time_last p = true) dropped
    ∧ match kept with
      | p :: _ => stale time_last p = false
      | [] => True
      end
    ∧ let left :=
        match kept with
        | p :: behind => if Type_ (header p) =? 0 then kept else behind
        | [] => []
        end in
      match left ++ arrived with
      | [] =>
          ∃ r s',
            RecvPacket time_last arrived s = Some (r, s', 0)
            ∧ hands_nothing r ∧ RXQueue s' = []
      | p :: rest =>
          (over_read p → RecvPacket time_last arrived s = None)
          ∧ (¬ over_read p →
             ∃ r s',
               RecvPacket time_last arrived s = Some (r, s', 0)
               ∧ hands_back p r
               ∧ length (copied r) = Z.to_nat (ret_len r)
               ∧ RXQueue s' = rest)
      end.
Proof.
  intros Hhost.
  destruct (scan_queue_prefix 1 time_last (RXQueue s))
    as (dropped & kept & Hq & Hst & Hk & Hscan).
  exists dropped, kept. split; [done|]. split; [done|]. split; [done|].
  cbn zeta. unfold RecvPacket.
  assert (Hgive : ∀ q (found : bool),
    scan_queue 1 time_last (RXQueue s) = (q, found) →
    match q ++ arrived with
    | [] =>
        ∃ r s',
          RecvPacketGeneric false time_last arrived s = Some (r, s', 0)
          ∧ hands_nothing r ∧ RXQueue s' = []
    | p :: rest =>
        (over_read p → RecvPacketGeneric false time_last arrived s = None)
        ∧ (¬ over_read p →
           ∃ r s',
             RecvPacketGeneric false time_last arrived s = Some (r, s', 0)
             ∧ hands_back p r
             ∧ length (copied r) = Z.to_nat (ret_len r)
             ∧ RXQueue s' = rest)
    end).
  { intros q found Hs.
    pose proof (RecvPacketGeneric_front false time_last arrived s q found
                  Hhost Hs) as Hfront.
    cbn zeta in Hfront.
    set (sl := if found then 0 else if false then 2 else 0) in Hfront.
    assert (Hsl : sl = 0) by (subst sl; by destruct found).
    clearbody sl. subst sl.
    destruct (q ++ arrived) as [|p rest].
    - eexists _, _. split; [exact Hfront|]. done.
    - destruct Hfront as [Hover Hok]. split; [exact Hover|].
      intros Hno. destruct (Hok Hno) as (r & s' & E & Hb & Hl & Hs' & _).
      exists r, s'. split; [exact E|]. split; [done|]. split; [done|].
      rewrite Hs'. done. }
  cbn [Z.eqb Pos.eqb] in Hscan.
  destruct kept as [|p behind]; [by apply (Hgive [] false)|].
  destruct (Type_ (header p) =? 0).
  - by apply (Hgive (p :: behind) true).
  - by apply (Hgive behind false).
Qed.

(** X20.  [ProcessLAN] only ever removes packets from the front of the RX
    queue and changes nothing else.  What it removes is stale, except that
    the check for a frame (type 1) also removes the first packet that is
    not stale when that packet is not a frame.  It sleeps, for 2 ms, only
    when it waits for a frame of the host (type 2) and every queued packet
    is stale; the per-frame call (type 0) never sleeps. *)
Theorem ProcessLAN_removes_a_prefix type time_last (s : state) :
  Host s = true →
  let s' := (ProcessLAN type time_last s).1 in
  let slept := (ProcessLAN type time_last s).2 in
  ∃ removed,
    RXQueue s = removed ++ RXQueue s'
    ∧ s' = with_queue (RXQueue s') s
    ∧ (type ≠ 1 → Forall (λ p, stale time_last p = true) removed)
    ∧ (type = 1 →
       ∃ front last,
         removed = front ++ last
         ∧ Forall (λ p, stale time_last p = true) front
         ∧ (last = []
            ∨ ∃ p, last = [p] ∧ stale time_last p = false
                   ∧ Type_ (header p) ≠ 0))
    ∧ (slept = 0 ∨ slept = 2)
    ∧ (slept = 2 ↔
       type = 2 ∧ Forall (λ p, stale time_last p = true) (RXQueue s)).
Proof.
  intros Hhost. cbn zeta.
  destruct (scan_queue_prefix type time_last (RXQueue s))
    as (dropped & kept & Hq & Hst & Hk & Hscan).
  unfold ProcessLAN. rewrite Hhost. cbn [negb]. rewrite Hscan. clear Hscan.
  destruct kept as [|p rest].
  - rewrite app_nil_r in Hq. subst dropped.
    exists (RXQueue s). cbn [fst snd].
    destruct (type =? 2) eqn:E2; cbn [fst snd set_queue RXQueue];
      (split; [by rewrite app_nil_r|]); (split; [done|]);
      (split; [done|]);
      (split; [intros _; exists (RXQueue s), [];
               rewrite app_nil_r; split; [done|]; split; [done|]; by left|]).
    + split; [by right|]. split; [intros _; split; [lia|done]|done].
    + split; [by left|]. split; [done|]. intros [H2 _]. lia.
  - assert (Hfresh : ¬ Forall (λ p, stale time_last p = true) (RXQueue s)).
    { rewrite Hq. intros Hall. apply Forall_app in Hall as [_ Hall].
      apply Forall_cons in Hall as [Hp _]. congruence. }
    destruct (type =? 2) eqn:E2; [|destruct (type =? 1) eqn:E1;
      [destruct (Type_ (header p) =? 0) eqn:E0|]];
      cbn [fst snd set_queue RXQueue].
    + exists dropped. split; [done|]. split; [done|]. split; [done|].
      split; [lia|]. split; [by left|]. split; [done|]. by intros [_ H].
    + exists dropped. split; [done|]. split; [done|]. split; [done|].
      split; [|split; [by left|split; [done|by intros [_ H]]]].
      intros _. exists dropped, []. rewrite app_nil_r.
      split; [done|]. split; [done|]. by left.
    + exists (dropped ++ [p]). split; [by rewrite <-app_assoc|].
      split; [done|]. split; [lia|].
      split; [|split; [by left|split; [done|by intros [_ H]]]].
      intros _. exists dropped, [p]. split; [done|]. split; [done|].
      right. exists p. split; [done|]. split; [done|]. lia.
    + exists dropped. split; [done|]. split; [done|]. split; [done|].
      split; [lia|]. split; [by left|]. split; [done|]. by intros [_ H].
Qed.

End Staleness.

(** A frame queued at wall-clock 1000 behind a reply queued at the same
    time, read at wall-clock 1200 and, after a restart of the clock, at
    wall-clock 300. *)
Lemma staleness_window_witness :
  (500 ≤ 1200 →
   ∀ p, p ∈ LAN.RXQueue
              (with_queue [reply_from 1 1 peer_of_player1; queued_frame]
                 lan_host) →
     LAN.stale 1200 p = false
     ↔ 1200 - 500 ≤ LAN.Magic (LAN.header p) ≤ 1200)
  ∧ LAN.ProcessLAN 0 300
      (with_queue [reply_from 1 1 peer_of_player1; queued_frame] lan_host)
    = (lan_host, 0).
Proof.
  assert (Hq : Forall stamped
                 (LAN.RXQueue
                    (with_queue [reply_from 1 1 peer_of_player1;
                                 queued_frame] lan_host))).
  { repeat constructor; vm_compute; congruence. }
  split.
  - apply (staleness_window 1200
             (with_queue [reply_from 1 1 peer_of_player1; queued_frame]
                lan_host) Hq).
    lia.
  - destruct (staleness_window 300
                (with_queue [reply_from 1 1 peer_of_player1; queued_frame]
                   lan_host) Hq) as [_ Hearly]; [lia|].
    destruct Hearly as [HP _]; [lia|reflexivity|].
    exact (HP 0).
Defined.

(** A reply and, behind it, a frame, both fresh: the reply is discarded
    and the frame handed back. *)
Lemma RecvPacket_skips_one_packet_witness :
  ¬ over_read queued_frame
  ∧ ∃ r s',
      LAN.RecvPacket 1200 []
        (with_queue [reply_from 1 1 peer_of_player1; queued_frame] lan_host)
      = Some (r, s', 0)
      ∧ hands_back queued_frame r ∧ LAN.RXQueue s' = [].
Proof.
  assert (Hno : ¬ over_read queued_frame) by (vm_compute; discriminate).
  split; [exact Hno|].
  destruct (RecvPacket_skips_one_packet
              (with_queue [reply_from 1 1 peer_of_player1; queued_frame]
                 lan_host) 1200 [] eq_refl)
    as (dropped & kept & Hq & Hst & _ & Hres).
  destruct dropped as [|d dropped].
  - cbn in Hq. subst kept. cbn zeta in Hres.
    change (LAN.Type_ (LAN.header (reply_from 1 1 peer_of_player1)) =? 0)
      with false in Hres.
    cbn [app] in Hres. destruct Hres as [_ Hres].
    destruct (Hres Hno) as (r & s' & E & Hb & _ & Hs).
    by exists r, s'.
  - exfalso. cbn in Hq. injection Hq as <- _.
    apply Forall_cons in Hst as [Hd _]. vm_compute in Hd. discriminate.
Defined.

Lemma ProcessLAN_removes_a_prefix_witness :
  ∃ removed,
    LAN.RXQueue
      (with_queue [reply_from 1 1 peer_of_player1; queued_frame] lan_host)
    = removed
      ++ LAN.RXQueue
           (LAN.ProcessLAN 1 1200
              (with_queue [reply_from 1 1 peer_of_player1; queued_frame]
                 lan_host)).1
    ∧ (LAN.ProcessLAN 1 1200
         (with_queue [reply_from 1 1 peer_of_player1; queued_frame]
            lan_host)).2 = 0.
Proof.
  destruct (ProcessLAN_removes_a_prefix 1 1200
              (with_queue [reply_from 1 1 peer_of_player1; queued_frame]
                 lan_host) eq_refl)
    as (removed & Hq & _ & _ & _ & _ & _).
  exists removed. split; [exact Hq|reflexivity].
Defined.

(** ** LAN bridge: MP packets from sender to receiver *)
Section Wire.
Import LAN.

Lemma length_MPPacketHeader_bytes h :
  length (MPPacketHeader_bytes h) = 24%nat.
Proof.
  unfold MPPacketHeader_bytes. by rewrite !length_app, !length_le_store.
Qed.

Lemma MPPacketHeader_at_bytes h (rest : list byte) :
  0 ≤ Magic h < 2 ^ 32 → 0 ≤ SenderID h < 2 ^ 32 → 0 ≤ Type_ h < 2 ^ 32 →
  0 ≤ Length h < 2 ^ 32 → 0 ≤ Timestamp h < 2 ^ 64 →
  MPPacketHeader_at (MPPacketHeader_bytes h ++ rest) = h.
Proof.
  intros H1 H2 H3 H4 H5. destruct h as [m sid t l ts].
  cbn [Magic SenderID Type_ Length Timestamp] in *.
  unfold MPPacketHeader_at, MPPacketHeader_bytes.
  cbn [Magic SenderID Type_ Length Timestamp].
  rewrite <-!app_assoc.
  rewrite (field_skip 4 0), (field_skip 4 4), (field_skip 4 0),
    (field_skip 4 8), (field_skip 4 4), (field_skip 4 0),
    (field_skip 4 12), (field_skip 4 8), (field_skip 4 4), (field_skip 4 0).
  rewrite !field_head.
  f_equal; apply Z.mod_small; simpl; lia.
Qed.

Lemma sent_header_fits type packet timestamp s :
  let h := sent_header type packet timestamp s in
  0 ≤ Magic h < 2 ^ 32 ∧ 0 ≤ SenderID h < 2 ^ 32 ∧ 0 ≤ Type_ h < 2 ^ 32
  ∧ 0 ≤ Length h < 2 ^ 32 ∧ 0 ≤ Timestamp h < 2 ^ 64.
Proof.
  cbn. unfold kPacketMagic, u32, u64.
  split; [lia|]. repeat split; apply Z.mod_pos_bound; lia.
Qed.

Lemma wire_packet_parts type packet timestamp s :
  MPPacketHeader_at (wire_packet type packet timestamp s)
  = sent_header type packet timestamp s
  ∧ drop 24 (wire_packet type packet timestamp s) = packet
  ∧ length (wire_packet type packet timestamp s)
    = (24 + length packet)%nat.
Proof.
  unfold wire_packet.
  destruct (sent_header_fits type packet timestamp s)
    as (H1 & H2 & H3 & H4 & H5).
  split; [by apply MPPacketHeader_at_bytes|]. split.
  - rewrite <-(length_MPPacketHeader_bytes
                 (sent_header type packet timestamp s)).
    apply drop_app_length.
  - by rewrite length_app, length_MPPacketHeader_bytes.
Qed.

(** What [SendPacketGeneric] does with a host at hand. *)
Lemma SendPacketGeneric_sends type packet timestamp s :
  Host s = true →
  SendPacketGeneric type packet timestamp s
  = (Z.of_nat (length packet),
     net_call
       (match LastHostPeer s with
        | Some peer =>
            if Z.land (u32 type) 0xFFFF =? 2
            then peer_send peer Chan_MP (wire_packet type packet timestamp s)
            else host_broadcast Chan_MP (wire_packet type packet timestamp s)
        | None => host_broadcast Chan_MP (wire_packet type packet timestamp s)
        end) s).
Proof.
  intros Hh. unfold SendPacketGeneric. rewrite Hh. cbn [negb].
  destruct (LastHostPeer s); [|done]. by destruct (_ =? 2).
Qed.

(** X21.  An MP packet survives the trip.  [SendPacketGeneric] hands ENet
    one packet, header and payload, and returns the payload length.  The
    network thread of another player queues that packet with the sender's
    id, the type, the length and the emulated timestamp as sent, the
    payload behind them, the wall-clock of the receipt and the peer it came
    from; a blocking receive made within the next 500 ms on an otherwise
    empty queue then hands back the payload, cut at 2048 bytes, with the
    timestamp.  The sender's own network thread drops the packet, and a
    packet shorter than a header is dropped by everyone. *)
Theorem MP_packet_round_trip type packet timestamp now peer time_last
    (a b : state) :
  Host a = true → Host b = true →
  u32 (ID (MyPlayer b)) ≠ u32 (ID (MyPlayer a)) →
  Z.of_nat (length packet) < 2 ^ 32 → 0 ≤ timestamp < 2 ^ 64 →
  let data := wire_packet type packet timestamp a in
  let queued :=
    queued_packet now peer (sent_header type packet timestamp a) packet in
  (SendPacketGeneric type packet timestamp a).1 = Z.of_nat (length packet)
  ∧ (∃ call, Net (SendPacketGeneric type packet timestamp a).2
             = Net a ++ [call]
       ∧ (call = host_broadcast Chan_MP data
          ∨ ∃ to, call = peer_send to Chan_MP data))
  ∧ NetworkThread_receive now peer data b
    = with_queue (RXQueue b ++ [queued]) b
  ∧ NetworkThread_receive now peer data a = a
  ∧ (∀ short, (length short < 24)%nat →
       NetworkThread_receive now peer short b = b)
  ∧ (RXQueue b = [] → 500 ≤ time_last < 2 ^ 32 →
     time_last - 500 ≤ u32 now ≤ time_last →
     ∃ r b',
       RecvHostPacket time_last []
         (NetworkThread_receive now peer data b) = Some (r, b', 0)
       ∧ ret_len r = Z.min (Z.of_nat (length packet)) 2048
       ∧ copied r = take 2048 packet
       ∧ out_timestamp r = Some timestamp
       ∧ RXQueue b' = []).
Proof.
  intros Ha Hb Hid Hlen Hts data queued.
  destruct (wire_packet_parts type packet timestamp a) as (Hat & Hdrop & Hl).
  fold data in Hat, Hdrop, Hl.
  assert (Hrecv : NetworkThread_receive now peer data b
                  = with_queue (RXQueue b ++ [queued]) b).
  { unfold NetworkThread_receive. rewrite Hl, Hat, Hdrop.
    rewrite (proj2 (Z.ltb_ge _ _)) by (unfold sizeof_MPPacketHeader; lia).
    unfold NetworkThread_MP. cbn [header sent_header Magic SenderID].
    rewrite Z.eqb_refl. cbn [negb].
    rewrite (proj2 (Z.eqb_neq _ _)) by congruence. done. }
  split; [by rewrite SendPacketGeneric_sends|]. split.
  { rewrite SendPacketGeneric_sends by done. cbn [snd net_call Net].
    eexists. split; [done|].
    destruct (LastHostPeer a) as [to|]; [|by left].
    destruct (_ =? 2); [right; by exists to|by left]. }
  split; [exact Hrecv|]. split.
  { unfold NetworkThread_receive. rewrite Hl, Hat.
    rewrite (proj2 (Z.ltb_ge _ _)) by (unfold sizeof_MPPacketHeader; lia).
    unfold NetworkThread_MP. cbn [header sent_header Magic SenderID].
    rewrite Z.eqb_refl. cbn [negb]. by rewrite Z.eqb_refl. }
  split.
  { intros short Hs. unfold NetworkThread_receive.
    by rewrite (proj2 (Z.ltb_lt _ _))
      by (unfold sizeof_MPPacketHeader; lia). }
  intros Hq Ht Hwin. rewrite Hrecv, Hq. cbn [app].
  assert (Hfresh : stale time_last queued = false).
  { apply stale_in_window; [|lia|done].
    unfold stamped. cbn. unfold u32. apply Z.mod_pos_bound. lia. }
  assert (Hu : u32 (Z.of_nat (length packet)) = Z.of_nat (length packet))
    by (apply Z.mod_small; lia).
  assert (Hno : ¬ over_read queued).
  { unfold over_read. cbn [queued queued_packet header sent_header Length
      body]. rewrite Hu. lia. }
  pose proof (RecvPacketGeneric_front true time_last [] (with_queue [queued] b)
                [queued] true) as Hfront.
  cbn zeta in Hfront. cbn [app] in Hfront.
  destruct Hfront as [_ Hok]; [done| |].
  { cbn [with_queue set_queue RXQueue scan_queue]. by rewrite Hfresh. }
  destruct (Hok Hno) as (r & b' & E & (Hr & Hc & Hts') & _ & Hs & _).
  exists r, b'. split; [exact E|].
  cbn [queued queued_packet header sent_header Length Timestamp body]
    in Hr, Hc, Hts'.
  rewrite Hu in Hr. split; [done|]. split; [|split].
  - rewrite Hc, Hr.
    destruct (decide (Z.of_nat (length packet) ≤ 2048)) as [Hle|Hgt].
    + rewrite Z.min_l by done. rewrite !take_ge; [done|lia|lia].
    + by rewrite Z.min_r by lia.
  - rewrite Hts'. unfold u64. by rewrite Z.mod_small by lia.
  - by rewrite Hs.
Qed.

End Wire.

(** A two-byte command of the host, received by player 1 at wall-clock
    1000 and read at 1200. *)
Lemma MP_packet_round_trip_witness :
  LAN.NetworkThread_receive 1000 peer_of_host
    (wire_packet 1 [x0a; x0b] 77 lan_host) lan_client
  = with_queue
      [LAN.mkPacket (LAN.mkHeader 1000 0 1 2 77) [x0a; x0b] peer_of_host]
      lan_client
  ∧ ∃ r b',
      LAN.RecvHostPacket 1200 []
        (LAN.NetworkThread_receive 1000 peer_of_host
           (wire_packet 1 [x0a; x0b] 77 lan_host) lan_client)
      = Some (r, b', 0)
      ∧ LAN.ret_len r = Z.min (Z.of_nat (length [x0a; x0b])) 2048
      ∧ LAN.copied r = take 2048 [x0a; x0b]
      ∧ LAN.out_timestamp r = Some 77
      ∧ LAN.RXQueue b' = [].
Proof.
  assert (Hid : u32 (LAN.ID (LAN.MyPlayer lan_client))
                ≠ u32 (LAN.ID (LAN.MyPlayer lan_host)))
    by (vm_compute; discriminate).
  assert (Hlen : Z.of_nat (length [x0a; x0b]) < 2 ^ 32)
    by (vm_compute; reflexivity).
  assert (Hts : 0 ≤ 77 < 2 ^ 64) by lia.
  destruct (MP_packet_round_trip 1 [x0a; x0b] 77 1000 peer_of_host 1200
              lan_host lan_client eq_refl eq_refl Hid Hlen Hts)
    as (_ & _ & Hrecv & _ & _ & Hget).
  split; [exact Hrecv|].
  apply Hget; [reflexivity|lia|vm_compute; split; discriminate].
Defined.

(** ** LAN bridge: where replies go *)
Section ReplyRouting.
Import LAN.

Lemma testbit_two n : 0 ≤ n → Z.testbit 2 n = (n =? 1).
Proof.
  intros Hn. change 2 with (Z.shiftl 1 1).
  rewrite Z.shiftl_spec, testbit_one by lia.
  destruct (n - 1 =? 0) eqn:E, (n =? 1) eqn:E'; lia.
Qed.

(** The low half of a reply's type word says "reply", whatever the aid. *)
Lemma reply_type_low aid : Z.land (u32 (reply_type aid)) 0xFFFF = 2.
Proof.
  apply Z.bits_inj'. intros n Hn. unfold u32, reply_type.
  rewrite Z.land_spec, Z.testbit_mod_pow2, Z.lor_spec, Z.shiftl_spec,
    testbit_two by lia.
  change 0xFFFF with (Z.ones 16). rewrite Z.testbit_ones_nonneg by lia.
  destruct (n <? 16) eqn:E16.
  - rewrite (Z.testbit_neg_r aid) by lia.
    rewrite orb_false_r, andb_true_r.
    destruct (n <? 32) eqn:E32; [done|lia].
  - rewrite andb_false_r. destruct (n =? 1) eqn:E1; lia.
Qed.

(** X22.  Replies follow the last command.  A reply is sent to one peer
    alone, the one the last command with a payload came from, once such a
    command has been handed out by a receive; before that (after [Begin],
    which forgets the peer) it is broadcast.  A command without payload,
    and a packet of any other type, does not change where replies go.
    (All this of packets that hold the bytes their length field
    announces; with another one the receive reads past the packet.)
    Frames, commands and acks are always broadcast. *)
Theorem replies_follow_commands (s : state) :
  Host s = true →
  (∀ packet ts aid,
     Net (SendReply packet ts aid s).2
     = Net s
       ++ [match LastHostPeer s with
           | Some peer =>
               peer_send peer Chan_MP
                 (wire_packet (reply_type aid) packet ts s)
           | None =>
               host_broadcast Chan_MP
                 (wire_packet (reply_type aid) packet ts s)
           end])
  ∧ (∀ packet ts,
       Net (SendPacket packet ts s).2
       = Net s ++ [host_broadcast Chan_MP (wire_packet 0 packet ts s)]
       ∧ Net (SendCmd packet ts s).2
         = Net s ++ [host_broadcast Chan_MP (wire_packet 1 packet ts s)]
       ∧ Net (SendAck packet ts s).2
         = Net s ++ [host_broadcast Chan_MP (wire_packet 3 packet ts s)])
  ∧ LastHostPeer (Begin s) = None ∧ LastHostID (Begin s) = -1
  ∧ (∀ time_last arrived p rest,
       RXQueue s = p :: rest → stale time_last p = false →
       (over_read p → RecvHostPacket time_last arrived s = None)
       ∧ (¬ over_read p →
          ∃ r s',
            RecvHostPacket time_last arrived s = Some (r, s', 0)
            ∧ Host s' = true
            ∧ (Type_ (header p) = 1 → Length (header p) ≠ 0 →
               LastHostID s' = SenderID (header p)
               ∧ ∀ packet ts aid,
                   Net (SendReply packet ts aid s').2
                   = Net s'
                     ++ [peer_send (userData p) Chan_MP
                           (wire_packet (reply_type aid) packet ts s')])
            ∧ (Type_ (header p) ≠ 1 ∨ Length (header p) = 0 →
               LastHostPeer s' = LastHostPeer s
               ∧ LastHostID s' = LastHostID s))).
Proof.
  intros Hh.
  assert (Hreply : ∀ s0 packet ts aid, Host s0 = true →
    Net (SendReply packet ts aid s0).2
    = Net s0
      ++ [match LastHostPeer s0 with
          | Some peer =>
              peer_send peer Chan_MP
                (wire_packet (reply_type aid) packet ts s0)
          | None =>
              host_broadcast Chan_MP
                (wire_packet (reply_type aid) packet ts s0)
          end]).
  { intros s0 packet ts aid H0. unfold SendReply.
    fold (reply_type aid). rewrite SendPacketGeneric_sends by done.
    rewrite reply_type_low. cbn [snd net_call Net Z.eqb Pos.eqb].
    by destruct (LastHostPeer s0). }
  split; [intros; by apply Hreply|]. split.
  { intros packet ts. unfold SendPacket, SendCmd, SendAck.
    rewrite !SendPacketGeneric_sends by done.
    cbn [snd net_call Net]. by destruct (LastHostPeer s). }
  split; [unfold Begin; by rewrite Hh|].
  split; [unfold Begin; by rewrite Hh|].
  intros time_last arrived p rest Hq Hfresh.
  pose proof (RecvPacketGeneric_front true time_last arrived s (p :: rest)
                true Hh) as Hfront.
  cbn zeta in Hfront. cbn [app] in Hfront.
  destruct Hfront as [Hover Hok].
  { rewrite Hq. cbn [scan_queue]. by rewrite Hfresh. }
  split; [exact Hover|]. intros Hno.
  destruct (Hok Hno) as (r & s' & E & _ & _ & Hs & Hlast).
  exists r, s'. split; [exact E|].
  assert (Hh' : Host s' = true) by (by rewrite Hs).
  split; [exact Hh'|]. split.
  - intros Ht Hl. rewrite Ht, (proj2 (Z.eqb_neq _ _) Hl) in Hlast.
    cbn in Hlast. injection Hlast as Hid Hpeer.
    split; [done|]. intros packet ts aid.
    rewrite Hreply by done. by rewrite Hpeer.
  - intros Hor.
    assert (Hc : (Type_ (header p) =? 1) && negb (Length (header p) =? 0)
                 = false).
    { destruct Hor as [Ht|Hl].
      - by rewrite (proj2 (Z.eqb_neq _ _) Ht).
      - rewrite Hl. apply andb_false_r. }
    rewrite Hc in Hlast. by injection Hlast as -> ->.
Qed.

End ReplyRouting.

(** Player 1 at the start of a game, the host's command behind it: its
    reply goes to the host alone. *)
Lemma replies_follow_commands_witness :
  LAN.Net (LAN.SendReply [x01] 78 1 (LAN.Begin lan_client)).2
  = LAN.Net (LAN.Begin lan_client)
    ++ [LAN.host_broadcast LAN.Chan_MP
          (wire_packet (reply_type 1) [x01] 78 (LAN.Begin lan_client))]
  ∧ ∃ r s',
      LAN.RecvHostPacket 1200 []
        (with_queue
           [LAN.mkPacket (LAN.mkHeader 1000 0 1 2 77) [x0a; x0b]
              peer_of_host]
           (LAN.Begin lan_client))
      = Some (r, s', 0)
      ∧ LAN.Net (LAN.SendReply [x01] 78 1 s').2
        = LAN.Net s'
          ++ [LAN.peer_send peer_of_host LAN.Chan_MP
                (wire_packet (reply_type 1) [x01] 78 s')].
Proof.
  split.
  - destruct (replies_follow_commands (LAN.Begin lan_client) eq_refl)
      as (Hreply & _).
    exact (Hreply [x01] 78 1).
  - destruct (replies_follow_commands
                (with_queue
                   [LAN.mkPacket (LAN.mkHeader 1000 0 1 2 77) [x0a; x0b]
                      peer_of_host]
                   (LAN.Begin lan_client)) eq_refl)
      as (_ & _ & _ & _ & Hrecv).
    destruct (Hrecv 1200 [] _ [] eq_refl eq_refl) as [_ Hok].
    destruct Hok as (r & s' & E & _ & Hcmd & _);
      [vm_compute; discriminate|].
    destruct Hcmd as [_ Hto]; [reflexivity|discriminate|].
    exists r, s'. split; [exact E|]. exact (Hto [x01] 78 1).
Defined.

(** ** LAN bridge: who is in the game *)
Section Connected.
Import LAN.

Lemma testbit_LAN_set_bit id m i :
  0 ≤ id < 16 → 0 ≤ i →
  Z.testbit (set_bit id m) i = Z.testbit m i || (i =? id).
Proof.
  intros Hid Hi. unfold set_bit, u16.
  rewrite Z.lor_spec, Z.testbit_mod_pow2, Z.shiftl_spec, testbit_one by lia.
  f_equal. destruct (i <? 16) eqn:E, (i - id =? 0) eqn:E', (i =? id) eqn:E'';
    cbn; lia.
Qed.

Lemma testbit_LAN_clear_bit id m i :
  0 ≤ id < 16 → 0 ≤ i → low16 m →
  Z.testbit (clear_bit id m) i = Z.testbit m i && negb (i =? id).
Proof.
  intros Hid Hi Hm. unfold clear_bit, u16.
  rewrite Z.land_spec, Z.testbit_mod_pow2, Z.lnot_spec, Z.shiftl_spec,
    testbit_one by lia.
  destruct (i <? 16) eqn:E.
  - cbn [andb]. f_equal.
    destruct (i - id =? 0) eqn:E', (i =? id) eqn:E''; cbn; lia.
  - rewrite (Hm i) by lia. done.
Qed.

(** X23.  [Begin] sets the local player's bit of the connected mask and
    [End] clears it; the other bits stay.  Each tells the others with a
    one-byte command, [PlayerConnect] or [PlayerDisconnect].  A host that
    receives such a command from a peer with a player entry sets, or
    clears, the bit of that entry's id and changes nothing else; from a
    peer without an entry the command is ignored. *)
Theorem connected_mask_bits (s : state) :
  (Host s = true → 0 ≤ ID (MyPlayer s) < 16 → low16 (ConnectedBitmask s) →
   (∀ i, 0 ≤ i →
      Z.testbit (ConnectedBitmask (Begin s)) i
      = Z.testbit (ConnectedBitmask s) i || (i =? ID (MyPlayer s)))
   ∧ (∀ i, 0 ≤ i →
        Z.testbit (ConnectedBitmask (End_ s)) i
        = Z.testbit (ConnectedBitmask s) i && negb (i =? ID (MyPlayer s)))
   ∧ Net (Begin s)
     = Net s ++ [host_broadcast Chan_Cmd (le_store 1 Cmd_PlayerConnect)]
   ∧ Net (End_ s)
     = Net s ++ [host_broadcast Chan_Cmd (le_store 1 Cmd_PlayerDisconnect)])
  ∧ (∀ sz pb pob peer slot,
       peer_data (PeerData s) (peer_ref peer) = Some slot →
       let k := ID (Players s !!! Z.to_nat slot) in
       0 ≤ k < 16 → low16 (ConnectedBitmask s) →
       (∃ mask,
          ProcessHostEvent_RECEIVE sz pb pob peer
            (le_store 1 Cmd_PlayerConnect) s
          = Some (set_connected mask s)
          ∧ ∀ i, 0 ≤ i →
              Z.testbit mask i
              = Z.testbit (ConnectedBitmask s) i || (i =? k))
       ∧ ∃ mask,
           ProcessHostEvent_RECEIVE sz pb pob peer
             (le_store 1 Cmd_PlayerDisconnect) s
           = Some (set_connected mask s)
           ∧ ∀ i, 0 ≤ i →
               Z.testbit mask i
               = Z.testbit (ConnectedBitmask s) i && negb (i =? k))
  ∧ (∀ sz pb pob peer,
       peer_data (PeerData s) (peer_ref peer) = None →
       ProcessHostEvent_RECEIVE sz pb pob peer
         (le_store 1 Cmd_PlayerConnect) s = Some s
       ∧ ProcessHostEvent_RECEIVE sz pb pob peer
           (le_store 1 Cmd_PlayerDisconnect) s = Some s).
Proof.
  split; [|split].
  - intros Hh Hid Hm. unfold Begin, End_. rewrite Hh.
    cbn [negb ConnectedBitmask Net].
    split; [intros i Hi; by apply testbit_LAN_set_bit|].
    split; [intros i Hi; by apply testbit_LAN_clear_bit|]. done.
  - intros sz pb pob peer slot Hslot k Hk Hm. split.
    + eexists. split.
      * unfold ProcessHostEvent_RECEIVE. cbn. rewrite Hslot. reflexivity.
      * intros i Hi. by apply testbit_LAN_set_bit.
    + eexists. split.
      * unfold ProcessHostEvent_RECEIVE. cbn. rewrite Hslot. reflexivity.
      * intros i Hi. by apply testbit_LAN_clear_bit.
  - intros sz pb pob peer Hnone.
    unfold ProcessHostEvent_RECEIVE. cbn. by rewrite Hnone.
Qed.

End Connected.

(** The host with players 1 and 2 in the game starts and ends its own game,
    and hears from player 2. *)
Lemma connected_mask_bits_witness :
  LAN.ConnectedBitmask (LAN.End_ lan_host) = 6
  ∧ (∀ i, 0 ≤ i →
       Z.testbit (LAN.ConnectedBitmask (LAN.Begin lan_host)) i
       = Z.testbit (LAN.ConnectedBitmask lan_host) i
         || (i =? LAN.ID (LAN.MyPlayer lan_host)))
  ∧ ∃ mask,
      LAN.ProcessHostEvent_RECEIVE 0 (λ _, []) (λ _, LAN.Player_zero)
        peer_of_player2 (le_store 1 LAN.Cmd_PlayerDisconnect) lan_host
      = Some (LAN.set_connected mask lan_host)
      ∧ ∀ i, 0 ≤ i →
          Z.testbit mask i
          = Z.testbit (LAN.ConnectedBitmask lan_host) i && negb (i =? 2).
Proof.
  assert (Hm : low16 (LAN.ConnectedBitmask lan_host))
    by exact (low16_u16 7).
  pose proof (connected_mask_bits lan_host) as [Hown [Hpeer _]].
  assert (Hid : 0 ≤ LAN.ID (LAN.MyPlayer lan_host) < 16)
    by (vm_compute; split; [discriminate|reflexivity]).
  destruct (Hown eq_refl Hid Hm) as (Hbegin & _).
  split; [reflexivity|]. split; [exact Hbegin|].
  assert (Hk : 0 ≤ LAN.ID (LAN.Players lan_host !!! Z.to_nat 2) < 16)
    by (vm_compute; split; [discriminate|reflexivity]).
  destruct (Hpeer 0%nat (λ _, []) (λ _, LAN.Player_zero) peer_of_player2 2
              eq_refl Hk Hm) as [_ Hoff].
  exact Hoff.
Defined.

(** ** LAN host: a player leaves *)
Section PlayerLeaves.
Import LAN.

Lemma occupied_free ps i f :
  (i < length ps)%nat → Status (ps !!! i) ≠ Player_None →
  (∀ p, Status (f p) = Player_None) →
  S (occupied (alter f i ps)) = occupied ps.
Proof.
  intros Hi Hocc Hf. revert i Hi Hocc.
  induction ps as [|p ps IH]; intros [|i] Hi Hocc; cbn in Hi; try lia.
  - cbn in Hocc. unfold occupied. cbn [alter list_alter].
    rewrite filter_cons_False by (rewrite Hf; naive_solver).
    by rewrite filter_cons_True by done.
  - cbn in Hocc. unfold occupied in *. cbn [alter list_alter].
    destruct (decide (Status p ≠ Player_None)).
    + rewrite !filter_cons_True by done. cbn. f_equal. apply IH; [lia|done].
    + rewrite !filter_cons_False by done. apply IH; [lia|done].
Qed.

(** The id search looks at the player count and at the status of the
    slots only. *)
Lemma assign_id_ext n id s s' :
  NumPlayers s = NumPlayers s' →
  (∀ j, Status (Players s !!! j) = Status (Players s' !!! j)) →
  assign_id n id s = assign_id n id s'.
Proof.
  intros Hn Hst. revert id. induction n as [|n IH]; intros id; [done|].
  cbn [assign_id]. rewrite Hn, Hst, IH. done.
Qed.

(** X24.  A player that connects and disconnects leaves the host as it
    found it: the player count is back, the slot it was given is free
    again and is the one the next peer will get, the other table entries
    never changed, the peer is forgotten and the player's bit of the
    connected mask is clear.  The host has sent the [ClientInit] and then
    broadcast the player list with the count as before.  A disconnect of a
    peer that never got a slot changes nothing. *)
Theorem host_connect_then_disconnect Player_bytes peer (s : state) :
  (table_ok s → NumPlayers s < MaxPlayers s → NumPlayers s < 16 →
   low16 (ConnectedBitmask s) →
   let id := assign_id 16 0 s in
   let s1 := ProcessHostEvent_CONNECT peer s in
   let s2 := ProcessHostEvent_DISCONNECT Player_bytes peer s1 in
   NumPlayers s1 = NumPlayers s + 1 ∧ NumPlayers s2 = NumPlayers s
   ∧ table_ok s2 ∧ slot_free s2 id ∧ assign_id 16 0 s2 = id
   ∧ (∀ j, 0 ≤ j → j ≠ id →
        Players s2 !!! Z.to_nat j = Players s !!! Z.to_nat j)
   ∧ RemotePeers s2 !! Z.to_nat id = Some None
   ∧ (∀ i, 0 ≤ i →
        Z.testbit (ConnectedBitmask s2) i
        = Z.testbit (ConnectedBitmask s) i && negb (i =? id))
   ∧ Net s2
     = Net s
       ++ [peer_send peer Chan_Cmd (cmd_ClientInit id (MaxPlayers s));
           host_broadcast Chan_Cmd
             (le_store 1 Cmd_PlayerList ++ le_store 1 (NumPlayers s)
              ++ concat (map Player_bytes (Players s2)))])
  ∧ (peer_data (PeerData s) (peer_ref peer) = None →
     ProcessHostEvent_DISCONNECT Player_bytes peer s = s).
Proof.
  split; [|intros Hnone; unfold ProcessHostEvent_DISCONNECT;
           by rewrite Hnone].
  intros Hok Hmax Hcap Hm id s1 s2.
  destruct (assign_id_lowest_free s Hok Hcap) as (Hid & Hfree & _).
  fold id in Hid, Hfree. destruct Hok as (Hlen & Hnum & Hpeers).
  assert (E1 : s1 = mkLAN (Host s) (IsHost s)
        (alter (claim_slot id peer) (Z.to_nat id) (Players s))
        (NumPlayers s + 1) (MaxPlayers s) (MyPlayer s)
        (<[Z.to_nat id := Some peer]> (RemotePeers s))
        ((peer_ref peer, id) :: PeerData s)
        (ConnectedBitmask s) (MPRecvTimeout s) (LastHostID s)
        (LastHostPeer s) (RXQueue s)
        (Net s ++ [peer_send peer Chan_Cmd
                     (cmd_ClientInit id (MaxPlayers s))])).
  { subst s1. unfold ProcessHostEvent_CONNECT.
    replace ((NumPlayers s >=? MaxPlayers s) || (NumPlayers s >=? 16))
      with false by lia.
    fold id. by replace (id <? 16) with true by lia. }
  set (ps2 := alter free_slot (Z.to_nat id)
                (alter (claim_slot id peer) (Z.to_nat id) (Players s))).
  assert (E2 : s2 = mkLAN (Host s) (IsHost s) ps2
        (NumPlayers s) (MaxPlayers s) (MyPlayer s)
        (<[Z.to_nat id := None]>
           (<[Z.to_nat id := Some peer]> (RemotePeers s)))
        ((peer_ref peer, id) :: PeerData s)
        (clear_bit id (ConnectedBitmask s)) (MPRecvTimeout s)
        (LastHostID s) (LastHostPeer s) (RXQueue s)
        ((Net s ++ [peer_send peer Chan_Cmd
                      (cmd_ClientInit id (MaxPlayers s))])
         ++ [host_broadcast Chan_Cmd
               (le_store 1 Cmd_PlayerList ++ le_store 1 (NumPlayers s)
                ++ concat (map Player_bytes ps2))])).
  { subst s2. rewrite E1. unfold ProcessHostEvent_DISCONNECT.
    cbn [PeerData peer_data peer_ref]. rewrite decide_True by done.
    cbn [Players]. rewrite list_lookup_total_alter_eq by lia.
    cbn [claim_slot ID]. unfold HostUpdatePlayerList, net_call.
    cbn [Host IsHost Players NumPlayers MaxPlayers MyPlayer RemotePeers
         PeerData ConnectedBitmask MPRecvTimeout LastHostID LastHostPeer
         RXQueue Net].
    replace (NumPlayers s + 1 - 1) with (NumPlayers s) by lia. done. }
  assert (Hst : ∀ j, Status (ps2 !!! j) = Status (Players s !!! j)).
  { intros j. subst ps2.
    destruct (decide (j = Z.to_nat id)) as [->|Hne].
    - rewrite list_lookup_total_alter_eq by (rewrite length_alter; lia).
      by rewrite Hfree.
    - by rewrite !list_lookup_total_alter_ne by done. }
  split; [by rewrite E1|]. rewrite E2.
  cbn [Players NumPlayers RemotePeers ConnectedBitmask Net].
  split; [done|].
  split; [|split; [unfold slot_free; cbn [Players]; by rewrite Hst|]].
  { split; [|split]; cbn [Players NumPlayers RemotePeers].
    - subst ps2. by rewrite !length_alter.
    - rewrite Hnum.
      pose proof (occupied_free
                    (alter (claim_slot id peer) (Z.to_nat id) (Players s))
                    (Z.to_nat id) free_slot) as Hf.
      pose proof (occupied_claim (Players s) (Z.to_nat id)
                    (claim_slot id peer)) as Hc.
      rewrite length_alter, list_lookup_total_alter_eq in Hf by lia.
      specialize (Hf ltac:(lia) ltac:(done) ltac:(done)).
      specialize (Hc ltac:(lia) Hfree ltac:(done)).
      fold ps2 in Hf. lia.
    - by rewrite !length_insert. }
  split; [by apply assign_id_ext|]. split.
  { intros j Hj Hne. subst ps2.
    rewrite !list_lookup_total_alter_ne by lia. done. }
  split; [apply list_lookup_insert_eq; rewrite length_insert; lia|].
  split; [intros i Hi; by apply testbit_LAN_clear_bit|].
  by rewrite <-app_assoc.
Qed.

End PlayerLeaves.

(** A fourth player joins the host and leaves again. *)
Lemma host_connect_then_disconnect_witness :
  let s2 :=
    LAN.ProcessHostEvent_DISCONNECT (λ _, []) new_peer
      (LAN.ProcessHostEvent_CONNECT new_peer lan_host) in
  LAN.NumPlayers s2 = LAN.NumPlayers lan_host
  ∧ LAN.Players s2 !!! 3%nat
    = LAN.mkPlayer 0 (replicate 32 x00) LAN.Player_None 0x0A000009 false 0
  ∧ LAN.assign_id 16 0 s2 = 3.
Proof.
  assert (Hok : table_ok lan_host).
  { split; [reflexivity|]. split; reflexivity. }
  assert (Hm : low16 (LAN.ConnectedBitmask lan_host))
    by exact (low16_u16 7).
  pose proof (host_connect_then_disconnect (λ _, []) new_peer lan_host)
    as [Hround _].
  destruct (Hround Hok ltac:(reflexivity) ltac:(reflexivity) Hm)
    as (_ & Hn & _ & _ & Hid & _).
  split; [exact Hn|]. split; [reflexivity|exact Hid].
Defined.

(** ** LAN: joining a session *)
Section Joining.
Import LAN.

Lemma player_name_terminated playername :
  length (player_name playername) = 32%nat
  ∧ <[31%nat := x00]> (player_name playername) = player_name playername.
Proof.
  unfold player_name.
  assert (Hl : (length (take 31 playername) ≤ 31)%nat)
    by (rewrite length_take; lia).
  split; [rewrite length_app, length_replicate; lia|].
  apply list_insert_id. rewrite lookup_app_r by lia.
  apply lookup_replicate_2. lia.
Qed.

Lemma cmd_PlayerInfo_fields pb me :
  length (cmd_PlayerInfo pb me) = (9 + length (pb me))%nat
  ∧ field 0 1 (cmd_PlayerInfo pb me) = Cmd_PlayerInfo
  ∧ field 1 4 (cmd_PlayerInfo pb me) = kLANMagic
  ∧ field 5 4 (cmd_PlayerInfo pb me) = kProtocolVersion
  ∧ take (length (pb me)) (drop 9 (cmd_PlayerInfo pb me)) = pb me.
Proof.
  unfold cmd_PlayerInfo.
  split; [by rewrite !length_app, !length_le_store|].
  split; [reflexivity|]. split; [reflexivity|]. split; [reflexivity|].
  cbn [le_store app drop]. by rewrite take_ge.
Qed.

(** X25.  Joining works end to end.  Below capacity the host answers a
    connect with a [ClientInit]; [StartClient] takes that packet and reads
    from it the id the host chose and the session's capacity; the
    [PlayerInfo] it sends back is accepted by the host, whose table then
    shows the slot as a client with the name the player gave (cut to 31
    bytes), the id, and the address of the connection.  The other entries
    are untouched, and the host broadcasts the new player list. *)
Theorem join_handshake sz pb pob peer playername (s : state) :
  table_ok s → NumPlayers s < MaxPlayers s → NumPlayers s < 16 →
  MaxPlayers s ≤ 16 →
  let id := assign_id 16 0 s in
  let s1 := ProcessHostEvent_CONNECT peer s in
  let me := with_ID id (StartClient_player playername) in
  length (pb me) = sz → pob (pb me) = me →
  Net s1 = Net s ++ [peer_send peer Chan_Cmd
                       (cmd_ClientInit id (MaxPlayers s))]
  ∧ StartClient_takes Chan_Cmd (cmd_ClientInit id (MaxPlayers s))
    = Some (Some (id, MaxPlayers s))
  ∧ ∃ s2,
      ProcessHostEvent_RECEIVE sz pb pob peer
        (StartClient_reply pb playername id) s1 = Some s2
      ∧ Players s2 !!! Z.to_nat id
        = mkPlayer id (player_name playername) Player_Client
            (address_host peer) false 0
      ∧ (∀ j, 0 ≤ j → j ≠ id →
           Players s2 !!! Z.to_nat j = Players s !!! Z.to_nat j)
      ∧ NumPlayers s2 = NumPlayers s + 1 ∧ table_ok s2
      ∧ Net s2
        = Net s1
          ++ [host_broadcast Chan_Cmd
                (le_store 1 Cmd_PlayerList
                 ++ le_store 1 (NumPlayers s + 1)
                 ++ concat (map pb (Players s2)))].
Proof.
  intros Hok Hmax Hcap H16 id s1 me Hsz Hpob.
  destruct (assign_id_lowest_free s Hok Hcap) as (Hid & Hfree & _).
  fold id in Hid, Hfree. destruct Hok as (Hlen & Hnum & Hpeers).
  assert (E1 : s1 = mkLAN (Host s) (IsHost s)
        (alter (claim_slot id peer) (Z.to_nat id) (Players s))
        (NumPlayers s + 1) (MaxPlayers s) (MyPlayer s)
        (<[Z.to_nat id := Some peer]> (RemotePeers s))
        ((peer_ref peer, id) :: PeerData s)
        (ConnectedBitmask s) (MPRecvTimeout s) (LastHostID s)
        (LastHostPeer s) (RXQueue s)
        (Net s ++ [peer_send peer Chan_Cmd
                     (cmd_ClientInit id (MaxPlayers s))])).
  { subst s1. unfold ProcessHostEvent_CONNECT.
    replace ((NumPlayers s >=? MaxPlayers s) || (NumPlayers s >=? 16))
      with false by lia.
    fold id. by replace (id <? 16) with true by lia. }
  split; [by rewrite E1|]. split.
  { destruct (cmd_ClientInit_fields id (MaxPlayers s))
      as (Hl & Hf0 & Hf1 & Hf5 & Hf9 & Hf10).
    unfold StartClient_takes. rewrite Hl, Hf0, Hf1, Hf5, Hf9, Hf10.
    unfold u8. rewrite !Z.mod_small by lia. cbn.
    destruct (MaxPlayers s >? 16) eqn:E; [lia|done]. }
  destruct (cmd_PlayerInfo_fields pb me) as (Hl & Hf0 & Hf1 & Hf5 & Hbody).
  destruct (player_name_terminated playername) as [_ Hname].
  set (entry := mkPlayer id (player_name playername) Player_Client
                  (address_host peer) false 0).
  set (ps2 := <[Z.to_nat id := entry]>
                (alter (claim_slot id peer) (Z.to_nat id) (Players s))).
  assert (E2 : ProcessHostEvent_RECEIVE sz pb pob peer
                 (StartClient_reply pb playername id) s1
               = Some (HostUpdatePlayerList pb
                   (mkLAN (Host s) (IsHost s) ps2
                      (NumPlayers s + 1) (MaxPlayers s) (MyPlayer s)
                      (<[Z.to_nat id := Some peer]> (RemotePeers s))
                      ((peer_ref peer, id) :: PeerData s)
                      (ConnectedBitmask s) (MPRecvTimeout s) (LastHostID s)
                      (LastHostPeer s) (RXQueue s) (Net s1)))).
  { rewrite E1. unfold ProcessHostEvent_RECEIVE, StartClient_reply. fold me.
    rewrite Hl, Hf0, Hf1, Hf5, Hsz.
    rewrite (proj2 (Z.ltb_ge _ _)) by lia.
    cbn [Z.eqb Pos.eqb]. rewrite Nat.eqb_refl, !Z.eqb_refl. cbn [negb orb].
    cbn [PeerData peer_data peer_ref].
    rewrite decide_True by done. cbn [mbind option_bind].
    unfold client_entry. rewrite <-Hsz, Hbody, Hpob.
    cbn [me with_ID StartClient_player ID Name Status Address IsLocalPlayer
         Ping].
    rewrite Hname. cbn [Players].
    rewrite list_lookup_total_alter_eq by lia. cbn [claim_slot ID].
    rewrite Z.eqb_refl. cbn [negb].
    cbn [Host IsHost Players NumPlayers MaxPlayers MyPlayer RemotePeers
         PeerData ConnectedBitmask MPRecvTimeout LastHostID LastHostPeer
         RXQueue Net].
    done. }
  eexists. split; [exact E2|].
  unfold HostUpdatePlayerList, net_call.
  cbn [Players NumPlayers RemotePeers Net].
  split; [subst ps2; apply list_lookup_total_insert_eq;
          rewrite length_alter; lia|].
  split.
  { intros j Hj Hne. subst ps2.
    rewrite list_lookup_total_insert_ne by lia.
    apply list_lookup_total_alter_ne. lia. }
  split; [done|]. split; [|done].
  split; [|split]; cbn [Players NumPlayers RemotePeers].
  - subst ps2. by rewrite length_insert, length_alter.
  - subst ps2. rewrite list_insert_alter, list_alter_alter_eq.
    rewrite occupied_claim; [lia|lia|done|done].
  - by rewrite length_insert.
Qed.

(** X26.  The host checks a [PlayerInfo] before it takes it over.  One of
    the wrong length is ignored.  One with the wrong magic or protocol
    version gets its sender disconnected, and so does one whose player id
    is not the id the host gave that peer; the table stays as it was.  What
    the host takes over is the name, cut after 31 bytes, the id, and the
    flag and ping the client sent; the status is always [Player_Client]
    and the address always that of the connection, whatever the client
    put there.  From a peer that has no slot a well-formed [PlayerInfo]
    makes the handler read through a null pointer. *)
Theorem PlayerInfo_is_checked sz pb pob peer data (s : state) :
  field 0 1 data = Cmd_PlayerInfo → (1 ≤ length data)%nat →
  (length data ≠ (9 + sz)%nat →
   ProcessHostEvent_RECEIVE sz pb pob peer data s = Some s)
  ∧ (length data = (9 + sz)%nat →
     (field 1 4 data ≠ kLANMagic ∨ field 5 4 data ≠ kProtocolVersion →
      ProcessHostEvent_RECEIVE sz pb pob peer data s
      = Some (net_call (peer_disconnect peer) s))
     ∧ (field 1 4 data = kLANMagic → field 5 4 data = kProtocolVersion →
        let sent := pob (take sz (drop 9 data)) in
        (peer_data (PeerData s) (peer_ref peer) = None →
         ProcessHostEvent_RECEIVE sz pb pob peer data s = None)
        ∧ ∀ slot,
            peer_data (PeerData s) (peer_ref peer) = Some slot →
            (ID sent ≠ ID (Players s !!! Z.to_nat slot) →
             ProcessHostEvent_RECEIVE sz pb pob peer data s
             = Some (net_call (peer_disconnect peer) s))
            ∧ (ID sent = ID (Players s !!! Z.to_nat slot) →
               (Z.to_nat slot < length (Players s))%nat →
               ∃ s',
                 ProcessHostEvent_RECEIVE sz pb pob peer data s = Some s'
                 ∧ Players s' !!! Z.to_nat slot
                   = mkPlayer (ID sent) (<[31%nat := x00]> (Name sent))
                       Player_Client (address_host peer)
                       (IsLocalPlayer sent) (Ping sent)
                 ∧ NumPlayers s' = NumPlayers s
                 ∧ ∀ j, j ≠ Z.to_nat slot →
                     Players s' !!! j = Players s !!! j))).
Proof.
  intros Hcmd Hlen.
  assert (Hhead : ∀ k : option state,
    ProcessHostEvent_RECEIVE sz pb pob peer data s
    = (if negb (length data =? 9 + sz)%nat then Some s
       else if negb (field 1 4 data =? kLANMagic)
               || negb (field 5 4 data =? kProtocolVersion)
       then Some (net_call (peer_disconnect peer) s)
       else
         slot ← peer_data (PeerData s) (peer_ref peer);
         let player := client_entry sz pob peer data in
         if negb (ID player =? ID (Players s !!! Z.to_nat slot))
         then Some (net_call (peer_disconnect peer) s)
         else
           Some (HostUpdatePlayerList pb
                   (mkLAN (Host s) (IsHost s)
                      (<[Z.to_nat slot := player]> (Players s))
                      (NumPlayers s) (MaxPlayers s) (MyPlayer s)
                      (RemotePeers s) (PeerData s) (ConnectedBitmask s)
                      (MPRecvTimeout s) (LastHostID s) (LastHostPeer s)
                      (RXQueue s) (Net s))))).
  { intros _. unfold ProcessHostEvent_RECEIVE.
    rewrite (proj2 (Z.ltb_ge _ _)) by lia. rewrite Hcmd. done. }
  specialize (Hhead None). rewrite Hhead. clear Hhead. split.
  - intros Hne. by rewrite (proj2 (Nat.eqb_neq _ _)) by done.
  - intros ->. rewrite Nat.eqb_refl. cbn [negb]. split.
    + intros [Hm|Hv].
      * by rewrite (proj2 (Z.eqb_neq _ _)) by done.
      * rewrite (proj2 (Z.eqb_neq (field 5 4 data) _)) by done.
        cbn [negb]. by rewrite orb_true_r.
    + intros -> ->. rewrite !Z.eqb_refl. cbn [negb orb]. cbn zeta. split.
      * by intros ->.
      * intros slot ->. cbn [mbind option_bind].
        change (ID (client_entry sz pob peer data))
          with (ID (pob (take sz (drop 9 data)))).
        split.
        -- intros Hne. by rewrite (proj2 (Z.eqb_neq _ _)) by done.
        -- intros Heq Hslot. rewrite (proj2 (Z.eqb_eq _ _) Heq). cbn [negb].
           eexists. split; [done|].
           unfold HostUpdatePlayerList, net_call. cbn [Players NumPlayers].
           split; [|split; [done|]].
           ++ rewrite list_lookup_total_insert_eq by done.
              unfold client_entry. f_equal.
           ++ intros j Hj. by rewrite list_lookup_total_insert_ne.
Qed.

End Joining.

(** A fourth player, "Ann", joins the host. *)
Lemma join_handshake_witness :
  let ann := [x41; x6e; x6e] in
  LAN.StartClient_takes LAN.Chan_Cmd (LAN.cmd_ClientInit 3 4)
  = Some (Some (3, 4))
  ∧ ∃ s2,
      LAN.ProcessHostEvent_RECEIVE 52 example_Player_bytes
        example_Player_of_bytes new_peer
        (LAN.StartClient_reply example_Player_bytes ann 3)
        (LAN.ProcessHostEvent_CONNECT new_peer lan_host)
      = Some s2
      ∧ LAN.Players s2 !!! 3%nat
        = LAN.mkPlayer 3 (LAN.player_name ann) LAN.Player_Client
            0x0A000009 false 0
      ∧ LAN.NumPlayers s2 = 4.
Proof.
  intros ann.
  assert (Hok : table_ok lan_host).
  { split; [reflexivity|]. split; reflexivity. }
  destruct (join_handshake 52 example_Player_bytes example_Player_of_bytes
              new_peer ann lan_host Hok ltac:(reflexivity)
              ltac:(reflexivity) ltac:(vm_compute; discriminate)
              ltac:(reflexivity) ltac:(vm_compute; reflexivity))
    as (_ & Htakes & s2 & Hrecv & Hslot & _ & Hn & _).
  split; [exact Htakes|]. exists s2.
  split; [exact Hrecv|]. split; [exact Hslot|exact Hn].
Defined.

(** A [PlayerInfo] that claims slot 1 on the connection of player 2, and
    one with a wrong magic. *)
Lemma PlayerInfo_is_checked_witness :
  let claim :=
    LAN.cmd_PlayerInfo example_Player_bytes
      (LAN.with_ID 1 (LAN.StartClient_player [x41])) in
  LAN.ProcessHostEvent_RECEIVE 52 example_Player_bytes
    example_Player_of_bytes peer_of_player2 claim lan_host
  = Some (LAN.net_call (LAN.peer_disconnect peer_of_player2) lan_host)
  ∧ LAN.ProcessHostEvent_RECEIVE 52 example_Player_bytes
      example_Player_of_bytes peer_of_player2
      (le_store 1 LAN.Cmd_PlayerInfo ++ replicate 60 x00) lan_host
    = Some (LAN.net_call (LAN.peer_disconnect peer_of_player2) lan_host).
Proof.
  intros claim. split.
  - destruct (PlayerInfo_is_checked 52 example_Player_bytes
                example_Player_of_bytes peer_of_player2 claim lan_host
                eq_refl ltac:(vm_compute; lia)) as [_ Hwell].
    destruct (Hwell eq_refl) as [_ Hmagic].
    destruct (Hmagic eq_refl eq_refl) as [_ Hslot].
    destruct (Hslot 2 eq_refl) as [Hid _].
    apply Hid. vm_compute. discriminate.
  - destruct (PlayerInfo_is_checked 52 example_Player_bytes
                example_Player_of_bytes peer_of_player2
                (le_store 1 LAN.Cmd_PlayerInfo ++ replicate 60 x00) lan_host
                eq_refl ltac:(vm_compute; lia)) as [_ Hwell].
    destruct (Hwell eq_refl) as [Hbad _].
    apply Hbad. left. vm_compute. discriminate.
Defined.

(** ** LAN: the player list *)
Section PlayerList.
Import LAN.

Lemma for_upto_collect {A B} `{Inhabited A} (P : A → Prop)
    `{∀ x, Decision (P x)} (f : A → B) (ps : list A)
    (body : Z → list B → list B) n :
  (∀ i acc,
     body (Z.of_nat i) acc
     = if decide (P (ps !!! i)) then acc ++ [f (ps !!! i)] else acc) →
  (n ≤ length ps)%nat →
  for_upto n body [] = map f (filter P (take n ps)).
Proof.
  intros Hbody. induction n as [|n IH]; intros Hn; [done|].
  cbn [for_upto]. rewrite Hbody, IH by lia.
  destruct (lookup_lt_is_Some_2 ps n) as [p Hp]; [lia|].
  rewrite (take_S_r _ _ _ Hp), filter_app, map_app.
  rewrite (list_lookup_total_correct _ _ _ Hp).
  destruct (decide (P p)) as [E|E].
  - rewrite filter_cons_True by done. by rewrite filter_nil.
  - rewrite filter_cons_False by done. by rewrite filter_nil, app_nil_r.
Qed.

Lemma GetPlayerList_closed HostAddress (s : state) :
  length (Players s) = 16%nat →
  GetPlayerList HostAddress s
  = map (shown HostAddress (MyPlayer s))
      (filter (λ p, Status p ≠ Player_None) (Players s)).
Proof.
  intros Hlen. unfold GetPlayerList.
  rewrite (for_upto_collect (λ p, Status p ≠ Player_None)
             (shown HostAddress (MyPlayer s)) (Players s)).
  - by rewrite take_ge by lia.
  - intros i acc. rewrite Nat2Z.id. cbn zeta. unfold shown.
    destruct (decide (Status (Players s !!! i) = Player_None)) as [E|E],
      (decide (Status (Players s !!! i) ≠ Player_None)) as [E'|E'];
      done.
  - lia.
Qed.

(** X27.  [GetPlayerList] shows the table entries that are in use, in slot
    order, one entry each: with a consistent table it has [NumPlayers]
    entries.  Names, ids, statuses and pings are those of the table.  An
    entry is flagged local exactly when its id is the local player's, and
    is then shown at the loopback address; of the others the host is shown
    at the address the session was joined at and the rest at the address
    the table has. *)
Theorem GetPlayerList_shows_players HostAddress (s : state) :
  length (Players s) = 16%nat →
  let l := GetPlayerList HostAddress s in
  l = map (shown HostAddress (MyPlayer s))
        (filter (λ p, Status p ≠ Player_None) (Players s))
  ∧ length l = occupied (Players s)
  ∧ (table_ok s → Z.of_nat (length l) = NumPlayers s)
  ∧ Forall2 (λ q p,
       ID q = ID p ∧ Name q = Name p ∧ Status q = Status p ∧ Ping q = Ping p
       ∧ Status p ≠ Player_None
       ∧ (IsLocalPlayer q = true ↔ ID p = ID (MyPlayer s))
       ∧ Address q
         = (if ID p =? ID (MyPlayer s) then kLocalhost
            else if decide (Status p = Player_Host) then HostAddress
            else Address p))
      l (filter (λ p, Status p ≠ Player_None) (Players s)).
Proof.
  intros Hlen l.
  assert (Hl : l = map (shown HostAddress (MyPlayer s))
                     (filter (λ p, Status p ≠ Player_None) (Players s))).
  { subst l. by apply GetPlayerList_closed. }
  split; [exact Hl|]. split; [by rewrite Hl, length_map|].
  split; [intros (_ & Hnum & _); by rewrite Hl, length_map, Hnum|].
  rewrite Hl. apply Forall2_fmap_l, Forall_Forall2_diag, Forall_forall.
  intros p Hp. apply list_elem_of_filter in Hp as [Hocc _].
  unfold compose, shown. cbn beta.
  destruct (ID p =? ID (MyPlayer s)) eqn:E; cbn.
  - apply Z.eqb_eq in E. by repeat split.
  - apply Z.eqb_neq in E. by repeat split.
Qed.

End PlayerList.

(** The list the host of three players shows. *)
Lemma GetPlayerList_shows_players_witness :
  length (LAN.GetPlayerList 0x0100007F lan_host) = 3%nat
  ∧ map LAN.IsLocalPlayer (LAN.GetPlayerList 0x0100007F lan_host)
    = [true; false; false].
Proof.
  destruct (GetPlayerList_shows_players 0x0100007F lan_host eq_refl)
    as (Hl & _).
  rewrite Hl. split; reflexivity.
Defined.

(** ** LAN: ending a session and hosting again *)
Section Ending.
Import LAN.

Lemma EndSession_loop (body : Z → list (option ENetPeer) * list NetCall
                              → list (option ENetPeer) * list NetCall)
    (me : Z) (peers0 : list (option ENetPeer)) (net0 : list NetCall) n :
  (∀ i peers net,
     body (Z.of_nat i) (peers, net)
     = if Z.of_nat i =? me then (peers, net)
       else (<[i := None]> peers,
             match (peers !!! i : option ENetPeer) with
             | Some peer => net ++ [peer_disconnect peer]
             | None => net
             end)) →
  let r := for_upto n body (peers0, net0) in
  length r.1 = length peers0
  ∧ (∀ i, (i < n)%nat → (i < length peers0)%nat →
       r.1 !!! i = if Z.of_nat i =? me then peers0 !!! i else None)
  ∧ (∀ i, (n ≤ i)%nat → r.1 !!! i = peers0 !!! i)
  ∧ r.2 = net0
          ++ omap (λ i : nat,
                     if Z.of_nat i =? me then None
                     else peer_disconnect
                            <$> (peers0 !!! i : option ENetPeer))
                  (seq 0 n).
Proof.
  intros Hbody. induction n as [|n IH]; cbn zeta.
  - cbn. split; [done|]. split; [intros; lia|]. split; [done|].
    by rewrite app_nil_r.
  - cbn zeta in IH. cbn [for_upto].
    destruct (for_upto n body (peers0, net0)) as [peers net].
    cbn [fst snd] in IH. destruct IH as (Hlen & Hlo & Hhi & Hnet).
    rewrite Hbody, seq_S, omap_app. cbn [seq omap list_omap Nat.add].
    destruct (Z.of_nat n =? me) eqn:E; cbn [fst snd].
    + split; [done|]. split.
      { intros i Hi Hi'. destruct (decide (i = n)) as [->|Hne].
        - rewrite E. by apply Hhi.
        - apply Hlo; [lia|done]. }
      split; [intros i Hi; apply Hhi; lia|].
      by rewrite Hnet, app_nil_r.
    + split; [by rewrite length_insert|]. split.
      { intros i Hi Hi'. destruct (decide (i = n)) as [->|Hne].
        - rewrite E. apply list_lookup_total_insert_eq. lia.
        - rewrite list_lookup_total_insert_ne by done.
          apply Hlo; [lia|done]. }
      split.
      { intros i Hi. rewrite list_lookup_total_insert_ne by lia.
        apply Hhi. lia. }
      rewrite (Hhi n) by lia. rewrite Hnet.
      destruct (peers0 !!! n) as [peer|]; cbn [fmap option_fmap option_map].
      * by rewrite <-app_assoc.
      * by rewrite app_nil_r.
Qed.

Lemma occupied_keep ps i f :
  (i < length ps)%nat → Status (ps !!! i) ≠ Player_None →
  (∀ p, Status (f p) ≠ Player_None) →
  occupied (alter f i ps) = occupied ps.
Proof.
  intros Hi Hocc Hf. revert i Hi Hocc.
  induction ps as [|p ps IH]; intros [|i] Hi Hocc; cbn in Hi; try lia.
  - cbn in Hocc. unfold occupied. cbn [alter list_alter].
    by rewrite !filter_cons_True by done.
  - cbn in Hocc. unfold occupied in *. cbn [alter list_alter].
    destruct (decide (Status p ≠ Player_None)).
    + rewrite !filter_cons_True by done. cbn. f_equal. apply IH; [lia|done].
    + rewrite !filter_cons_False by done. apply IH; [lia|done].
Qed.

(** X28.  [EndSession] asks ENet to disconnect every peer it holds (the
    slot of the local player's id left out), forgets them, empties the RX
    queue and gives up the ENet host.  It does not touch the player table,
    the player count or the connected mask, and a [StartHost] that follows
    resets only slot 0, the count and the capacity: the players of the
    session that ended are still in the table, [GetPlayerList] still shows
    them although the count says 1, and their bits are still set in the
    connected mask.  On a session that is not active [EndSession] does
    nothing. *)
Theorem EndSession_keeps_the_table playername numplayers HostAddress
    (s : state) :
  length (Players s) = 16%nat → length (RemotePeers s) = 16%nat →
  let s' := EndSession true s in
  let h := (StartHost true true playername numplayers s').2 in
  EndSession false s = s
  ∧ Host s' = false ∧ IsHost s' = false ∧ RXQueue s' = []
  ∧ Net s' = Net s ++ leaving s
  ∧ (∀ i, (i < 16)%nat →
       RemotePeers s' !!! i
       = if Z.of_nat i =? ID (MyPlayer s) then RemotePeers s !!! i else None)
  ∧ Players s' = Players s ∧ NumPlayers s' = NumPlayers s
  ∧ ConnectedBitmask s' = ConnectedBitmask s
  ∧ (numplayers ≤ 16 →
     (StartHost true true playername numplayers s').1 = true
     ∧ Host h = true ∧ NumPlayers h = 1 ∧ MaxPlayers h = numplayers
     ∧ ConnectedBitmask h = ConnectedBitmask s
     ∧ Players h !!! 0%nat
       = mkPlayer 0 (player_name playername) Player_Host kLocalhost false 0
     ∧ (∀ i, (1 ≤ i)%nat → Players h !!! i = Players s !!! i)
     ∧ (table_ok s → Status (Players s !!! 0%nat) ≠ Player_None →
        Z.of_nat (length (GetPlayerList HostAddress h)) = NumPlayers s)).
Proof.
  intros Hps Hlen s' h. split; [done|].
  assert (Hloop := EndSession_loop
    (λ (i : Z) '((peers, net) : list (option ENetPeer) * list NetCall),
       if i =? ID (MyPlayer s) then (peers, net)
       else
         (<[Z.to_nat i := None]> peers,
          match (peers !!! Z.to_nat i : option ENetPeer) with
          | Some peer => net ++ [peer_disconnect peer]
          | None => net
          end))
    (ID (MyPlayer s)) (RemotePeers s) (Net s) 16).
  cbn zeta in Hloop.
  destruct Hloop as (Hl & Hlo & _ & Hnet).
  { intros i peers net. by rewrite Nat2Z.id. }
  assert (E : s' = mkLAN false false (Players s) (NumPlayers s)
    (MaxPlayers s) (MyPlayer s)
    (for_upto 16
       (λ (i : Z) '((peers, net) : list (option ENetPeer) * list NetCall),
          if i =? ID (MyPlayer s) then (peers, net)
          else
            (<[Z.to_nat i := None]> peers,
             match (peers !!! Z.to_nat i : option ENetPeer) with
             | Some peer => net ++ [peer_disconnect peer]
             | None => net
             end))
       (RemotePeers s, Net s)).1
    [] (ConnectedBitmask s) (MPRecvTimeout s) (LastHostID s)
    (LastHostPeer s) []
    (for_upto 16
       (λ (i : Z) '((peers, net) : list (option ENetPeer) * list NetCall),
          if i =? ID (MyPlayer s) then (peers, net)
          else
            (<[Z.to_nat i := None]> peers,
             match (peers !!! Z.to_nat i : option ENetPeer) with
             | Some peer => net ++ [peer_disconnect peer]
             | None => net
             end))
       (RemotePeers s, Net s)).2).
  { subst s'. unfold EndSession. cbn [negb].
    by destruct (for_upto 16 _ _). }
  rewrite E. cbn [Host IsHost RXQueue Net RemotePeers Players NumPlayers
                  ConnectedBitmask].
  split; [done|]. split; [done|]. split; [done|].
  split; [exact Hnet|].
  split; [intros i Hi; apply Hlo; lia|].
  split; [done|]. split; [done|]. split; [done|].
  intros H16. subst h. rewrite E. unfold StartHost. cbn [negb].
  rewrite Z.gtb_ltb, (proj2 (Z.ltb_ge _ _)) by lia.
  cbn [fst snd Host NumPlayers MaxPlayers ConnectedBitmask Players MyPlayer].
  split; [done|]. split; [done|]. split; [done|]. split; [done|].
  split; [done|]. split; [|split].
  - apply list_lookup_total_insert_eq. lia.
  - intros i Hi. apply list_lookup_total_insert_ne. lia.
  - intros (_ & Hnum & _) Hocc.
    rewrite GetPlayerList_closed by (cbn [Players]; by rewrite length_insert).
    rewrite length_map. cbn [Players]. rewrite Hnum. f_equal.
    rewrite list_insert_alter. apply occupied_keep; [lia|done|done].
Qed.

End Ending.

(** The host of three players ends the session and hosts a game for two:
    both former clients are told to disconnect, and the new table still
    lists three players. *)
Lemma EndSession_keeps_the_table_witness :
  let h := (LAN.StartHost true true [x41] 2
              (LAN.EndSession true lan_host)).2 in
  LAN.Net (LAN.EndSession true lan_host)
  = [LAN.peer_disconnect peer_of_player1;
     LAN.peer_disconnect peer_of_player2]
  ∧ LAN.NumPlayers h = 1
  ∧ Z.of_nat (length (LAN.GetPlayerList 0x0100007F h)) = 3
  ∧ LAN.ConnectedBitmask h = 7.
Proof.
  intros h.
  assert (Hok : table_ok lan_host).
  { split; [reflexivity|]. split; reflexivity. }
  destruct (EndSession_keeps_the_table [x41] 2 0x0100007F lan_host
              eq_refl eq_refl)
    as (_ & _ & _ & _ & Hnet & _ & _ & _ & _ & Hhost).
  destruct Hhost as (_ & _ & Hn & _ & Hmask & _ & _ & Hlist); [lia|].
  split; [exact Hnet|]. split; [exact Hn|].
  split; [|exact Hmask].
  apply Hlist; [exact Hok|]. vm_compute. discriminate.
Defined.

(** ** LAN host: filling a session *)
Section Hosting.
Import LAN.

Lemma dense_connect k peer s :
  dense k s → k < MaxPlayers s → k < 16 →
  ProcessHostEvent_CONNECT peer s
  = mkLAN (Host s) (IsHost s)
      (alter (claim_slot k peer) (Z.to_nat k) (Players s))
      (k + 1) (MaxPlayers s) (MyPlayer s)
      (<[Z.to_nat k := Some peer]> (RemotePeers s))
      ((peer_ref peer, k) :: PeerData s)
      (ConnectedBitmask s) (MPRecvTimeout s) (LastHostID s)
      (LastHostPeer s) (RXQueue s)
      (Net s ++ [peer_send peer Chan_Cmd (cmd_ClientInit k (MaxPlayers s))])
  ∧ dense (k + 1) (ProcessHostEvent_CONNECT peer s).
Proof.
  intros (Hok & Hk & Hfull) Hmax Hcap.
  destruct (assign_id_lowest_free s Hok) as (Hid & Hfree & _); [lia|].
  destruct (assign_id_spec 16 0 s) as (_ & Hbelow & _); [lia|].
  assert (Hk0 : 0 ≤ k) by (destruct Hok as (_ & Hn & _); lia).
  assert (Eid : assign_id 16 0 s = k).
  { destruct (decide (assign_id 16 0 s < k)) as [Hlt|Hge].
    - destruct (Hfull (assign_id 16 0 s)); [lia|done].
    - destruct (decide (k < assign_id 16 0 s)) as [Hgt|]; [|lia].
      destruct (Hbelow k) as [Hlt _]; lia. }
  pose proof (table_ok_connect peer s Hok) as Hok'.
  assert (E : ProcessHostEvent_CONNECT peer s
    = mkLAN (Host s) (IsHost s)
      (alter (claim_slot k peer) (Z.to_nat k) (Players s))
      (k + 1) (MaxPlayers s) (MyPlayer s)
      (<[Z.to_nat k := Some peer]> (RemotePeers s))
      ((peer_ref peer, k) :: PeerData s)
      (ConnectedBitmask s) (MPRecvTimeout s) (LastHostID s)
      (LastHostPeer s) (RXQueue s)
      (Net s ++ [peer_send peer Chan_Cmd
                   (cmd_ClientInit k (MaxPlayers s))])).
  { unfold ProcessHostEvent_CONNECT.
    replace ((NumPlayers s >=? MaxPlayers s) || (NumPlayers s >=? 16))
      with false by lia.
    rewrite Eid, Hk. by replace (k <? 16) with true by lia. }
  split; [exact E|]. split; [exact Hok'|]. rewrite E.
  cbn [NumPlayers]. split; [done|].
  intros j Hj. unfold slot_free. cbn [Players].
  destruct Hok as (Hlen & _).
  destruct (decide (j = k)) as [->|Hne].
  - rewrite list_lookup_total_alter_eq by lia. done.
  - rewrite list_lookup_total_alter_ne by lia. apply Hfull. lia.
Qed.

Lemma connect_all_dense k peers s :
  dense k s → k + Z.of_nat (length peers) ≤ MaxPlayers s →
  k + Z.of_nat (length peers) ≤ 16 →
  dense (k + Z.of_nat (length peers)) (connect_all peers s)
  ∧ MaxPlayers (connect_all peers s) = MaxPlayers s
  ∧ Net (connect_all peers s)
    = Net s
      ++ imap (λ i peer,
                 peer_send peer Chan_Cmd
                   (cmd_ClientInit (k + Z.of_nat i) (MaxPlayers s)))
              peers.
Proof.
  intros Hd. induction peers as [|peer peers IH] using rev_ind;
    intros Hmax Hcap.
  - cbn. rewrite Z.add_0_r, app_nil_r. done.
  - rewrite length_app in Hmax, Hcap. cbn [length] in Hmax, Hcap.
    destruct IH as (Hd' & Hm' & Hnet'); [lia|lia|].
    unfold connect_all in *. rewrite fold_left_app. cbn [fold_left].
    destruct (dense_connect _ peer _ Hd') as [E Hd'']; [lia|lia|].
    rewrite length_app. cbn [length].
    replace (k + Z.of_nat (length peers + 1))
      with (k + Z.of_nat (length peers) + 1) by lia.
    split; [exact Hd''|]. rewrite E. cbn [MaxPlayers Net].
    split; [exact Hm'|].
    rewrite Hnet', Hm', imap_app, <-app_assoc. cbn [imap].
    by rewrite Nat.add_0_r.
Qed.

(** X29.  A host started for [numplayers] players (1 to 16) on a new LAN
    object counts itself: its table is consistent with one player, in slot
    0.  The peers that connect then get the ids 1, 2, ... in the order
    they connect, each with a [ClientInit] carrying its id and the
    capacity, as long as there are fewer than [numplayers] players; once
    [numplayers - 1] peers are in, every further connect is answered with
    a disconnect.  [StartHost] refuses more than 16 players, and does
    nothing before ENet is initialised. *)
Theorem StartHost_admits_the_capacity me playername numplayers
    (peers : list ENetPeer) :
  let h := (StartHost true true playername numplayers (LAN_new me)).2 in
  (∀ created s, 16 < numplayers →
     StartHost true created playername numplayers s = (false, s))
  ∧ (∀ created s,
       StartHost false created playername numplayers s = (false, s))
  ∧ (1 ≤ numplayers ≤ 16 →
     (StartHost true true playername numplayers (LAN_new me)).1 = true
     ∧ dense 1 h ∧ MaxPlayers h = numplayers
     ∧ (Z.of_nat (length peers) ≤ numplayers - 1 →
        dense (1 + Z.of_nat (length peers)) (connect_all peers h)
        ∧ Net (connect_all peers h)
          = imap (λ i peer,
                    peer_send peer Chan_Cmd
                      (cmd_ClientInit (1 + Z.of_nat i) numplayers))
                 peers)
     ∧ (Z.of_nat (length peers) = numplayers - 1 →
        ∀ late,
          ProcessHostEvent_CONNECT late (connect_all peers h)
          = net_call (peer_disconnect late) (connect_all peers h))).
Proof.
  intros h. split; [|split].
  - intros created s Hn. unfold StartHost. cbn [negb].
    by rewrite (proj2 (Z.gtb_lt _ _)) by lia.
  - done.
  - intros Hn.
    assert (E : StartHost true true playername numplayers (LAN_new me)
      = (true,
         mkLAN true true
           (mkPlayer 0 (player_name playername) Player_Host kLocalhost
                     false 0 :: replicate 15 Player_zero)
           1 numplayers
           (mkPlayer 0 (player_name playername) Player_Host kLocalhost
                     false 0)
           (replicate 16 None) [] 0 25 (-1) None [] [])).
    { unfold StartHost. cbn [negb].
      rewrite Z.gtb_ltb, (proj2 (Z.ltb_ge _ _)) by lia. done. }
    assert (Hd : dense 1 h).
    { subst h. rewrite E. cbn [snd]. split; [|split; [done|]].
      - split; [done|]. split; done.
      - intros j Hj. replace j with 0 by lia. unfold slot_free. cbn.
        done. }
    assert (Hm : MaxPlayers h = numplayers) by (subst h; by rewrite E).
    assert (Hnet : Net h = []) by (subst h; by rewrite E).
    split; [by rewrite E|]. split; [exact Hd|]. split; [exact Hm|].
    split.
    + intros Hlen.
      destruct (connect_all_dense 1 peers h Hd) as (Hd' & _ & Hnet');
        [lia|lia|].
      split; [exact Hd'|]. by rewrite Hnet', Hnet, Hm.
    + intros Hlen late.
      destruct (connect_all_dense 1 peers h Hd) as (Hd' & Hm' & _);
        [lia|lia|].
      destruct Hd' as (_ & Hnum & _).
      unfold ProcessHostEvent_CONNECT.
      replace ((NumPlayers (connect_all peers h)
                >=? MaxPlayers (connect_all peers h))
               || (NumPlayers (connect_all peers h) >=? 16))
        with true by lia.
      done.
Qed.

End Hosting.

(** A game for three: two peers get the ids 1 and 2, the third is turned
    away. *)
Lemma StartHost_admits_the_capacity_witness :
  let h := (LAN.StartHost true true [x41] 3 (LAN.LAN_new host_player)).2 in
  LAN.Net (connect_all [peer_of_player1; peer_of_player2] h)
  = [LAN.peer_send peer_of_player1 LAN.Chan_Cmd (LAN.cmd_ClientInit 1 3);
     LAN.peer_send peer_of_player2 LAN.Chan_Cmd (LAN.cmd_ClientInit 2 3)]
  ∧ LAN.ProcessHostEvent_CONNECT new_peer
      (connect_all [peer_of_player1; peer_of_player2] h)
    = LAN.net_call (LAN.peer_disconnect new_peer)
        (connect_all [peer_of_player1; peer_of_player2] h).
Proof.
  intros h.
  destruct (StartHost_admits_the_capacity host_player [x41] 3
              [peer_of_player1; peer_of_player2])
    as (_ & _ & Hhost).
  destruct Hhost as (_ & _ & _ & Hin & Hfull); [lia|].
  destruct Hin as [_ Hnet]; [cbn; lia|].
  split; [exact Hnet|]. apply Hfull. reflexivity.
Defined.

(** ** LAN client: connections from other clients *)
Section Mesh.
Import LAN.

Lemma find_client_spec n i host s :
  0 ≤ i →
  let r := find_client n i host s in
  (r = -1 ∧ ∀ j, i ≤ j < i + Z.of_nat n → ¬ known_at s host j)
  ∨ (i ≤ r < i + Z.of_nat n ∧ known_at s host r
     ∧ ∀ j, i ≤ j < r → ¬ known_at s host j).
Proof.
  revert i. induction n as [|n IH]; intros i Hi; cbn zeta.
  - left. split; [done|]. intros j Hj. lia.
  - cbn [find_client].
    assert (Hstep : ¬ known_at s host i →
      (find_client n (i + 1) host s = -1
       ∧ ∀ j, i ≤ j < i + Z.of_nat (S n) → ¬ known_at s host j)
      ∨ (i ≤ find_client n (i + 1) host s < i + Z.of_nat (S n)
         ∧ known_at s host (find_client n (i + 1) host s)
         ∧ ∀ j, i ≤ j < find_client n (i + 1) host s →
             ¬ known_at s host j)).
    { intros Hno. destruct (IH (i + 1)) as [[Hr Hnone]|(Hr & Hk & Hnone)];
        [lia| |].
      - left. split; [done|]. intros j Hj.
        destruct (decide (j = i)) as [->|Hne]; [done|]. apply Hnone. lia.
      - right. split; [lia|]. split; [done|]. intros j Hj.
        destruct (decide (j = i)) as [->|Hne]; [done|]. apply Hnone. lia. }
    destruct (i =? ID (MyPlayer s)) eqn:E1.
    { apply Hstep. intros (Hne & _). lia. }
    destruct (bool_decide (Status (Players s !!! Z.to_nat i) = Player_Client))
      eqn:E2; cbn [negb].
    2:{ apply Hstep. intros (_ & Hst & _).
        apply bool_decide_eq_false in E2. done. }
    destruct (Address (Players s !!! Z.to_nat i) =? host) eqn:E3.
    2:{ apply Hstep. intros (_ & _ & Ha). lia. }
    right. split; [lia|]. split; [|intros j Hj; lia].
    apply bool_decide_eq_true in E2. split; [lia|]. split; [done|lia].
Qed.

(** X30.  A client takes a connection from another client by its address
    alone.  The peer is registered as the first player, other than the
    local one, that the table shows as a client at that address, so of two
    clients behind one address only the one in the lower slot ever gets a
    peer; a connection from an address the table does not show is
    disconnected.  When a registered peer disconnects its entry stays, as
    [Player_Disconnected], and the player count with it; the connected bit
    of its id is cleared, and a new connection from its address is no
    longer taken for it. *)
Theorem client_takes_peers_by_address peer (s : state) :
  let host := address_host peer in
  ((∀ j, 0 ≤ j < 16 → ¬ known_at s host j) →
   ProcessClientEvent_CONNECT peer s = net_call (peer_disconnect peer) s)
  ∧ (∀ j, 0 ≤ j < 16 → known_at s host j →
       (∀ i, 0 ≤ i < j → ¬ known_at s host i) →
       ProcessClientEvent_CONNECT peer s = registered peer j s
       ∧ (length (Players s) = 16%nat →
          ID (Players s !!! Z.to_nat j) = j → low16 (ConnectedBitmask s) →
          let s' := ProcessClientEvent_DISCONNECT peer (registered peer j s) in
          Players s' !!! Z.to_nat j
          = mark_disconnected (Players s !!! Z.to_nat j)
          ∧ (∀ i, i ≠ Z.to_nat j → Players s' !!! i = Players s !!! i)
          ∧ NumPlayers s' = NumPlayers s
          ∧ (∀ i, 0 ≤ i →
               Z.testbit (ConnectedBitmask s') i
               = Z.testbit (ConnectedBitmask s) i && negb (i =? j))
          ∧ ¬ known_at s' host j
          ∧ ((∀ i, 0 ≤ i < 16 → i ≠ j → ¬ known_at s host i) →
             ∀ again, address_host again = host →
               ProcessClientEvent_CONNECT again s'
               = net_call (peer_disconnect again) s'))).
Proof.
  intros host.
  assert (Hnone : ∀ p s0,
    (∀ j, 0 ≤ j < 16 → ¬ known_at s0 (address_host p) j) →
    ProcessClientEvent_CONNECT p s0 = net_call (peer_disconnect p) s0).
  { intros p s0 Hno. unfold ProcessClientEvent_CONNECT.
    destruct (find_client_spec 16 0 (address_host p) s0)
      as [[Hr _]|(Hr & Hk & _)]; [lia| |].
    - by rewrite Hr.
    - destruct (Hno (find_client 16 0 (address_host p) s0)); [lia|done]. }
  split; [apply Hnone|].
  intros j Hj Hk Hfirst.
  assert (Hfind : find_client 16 0 host s = j).
  { destruct (find_client_spec 16 0 host s) as [[_ Hno]|(Hr & Hk' & Hno)];
      [lia| |].
    - destruct (Hno j); [lia|done].
    - destruct (decide (find_client 16 0 host s < j)) as [Hlt|Hge].
      + destruct (Hfirst (find_client 16 0 host s)); [lia|done].
      + destruct (decide (j < find_client 16 0 host s)) as [Hgt|]; [|lia].
        destruct (Hno j); [lia|done]. }
  split.
  { unfold ProcessClientEvent_CONNECT. fold host. rewrite Hfind.
    by rewrite (proj2 (Z.ltb_ge _ _)) by lia. }
  intros Hlen Hid Hm s'.
  assert (E : s' = mkLAN (Host s) (IsHost s)
        (alter mark_disconnected (Z.to_nat j) (Players s))
        (NumPlayers s) (MaxPlayers s) (MyPlayer s)
        (<[Z.to_nat j := None]>
           (<[Z.to_nat j := Some peer]> (RemotePeers s)))
        ((peer_ref peer, j) :: PeerData s)
        (clear_bit j (ConnectedBitmask s)) (MPRecvTimeout s)
        (LastHostID s) (LastHostPeer s) (RXQueue s) (Net s)).
  { subst s'. unfold ProcessClientEvent_DISCONNECT, registered.
    cbn [PeerData peer_data peer_ref]. rewrite decide_True by done.
    cbn [Players]. rewrite Hid. done. }
  assert (Hat : Players s' !!! Z.to_nat j
                = mark_disconnected (Players s !!! Z.to_nat j)).
  { rewrite E. cbn [Players]. apply list_lookup_total_alter_eq. lia. }
  assert (Hother : ∀ i, i ≠ Z.to_nat j → Players s' !!! i = Players s !!! i).
  { intros i Hi. rewrite E. cbn [Players].
    by apply list_lookup_total_alter_ne. }
  assert (Hnot : ¬ known_at s' host j).
  { intros (_ & Hst & _). rewrite Hat in Hst. discriminate. }
  split; [exact Hat|]. split; [exact Hother|].
  split; [by rewrite E|]. split.
  { intros i Hi. rewrite E. cbn [ConnectedBitmask].
    by apply testbit_LAN_clear_bit. }
  split; [exact Hnot|].
  intros Honly again Hagain. apply Hnone. rewrite Hagain.
  intros i Hi. destruct (decide (i = j)) as [->|Hne]; [done|].
  intros (Hme & Hst & Ha). apply (Honly i Hi Hne).
  rewrite Hother in Hst, Ha by lia.
  split; [|done]. by rewrite E in Hme.
Qed.

End Mesh.

(** Player 1 hears from player 2, and from a stranger. *)
Lemma client_takes_peers_by_address_witness :
  LAN.ProcessClientEvent_CONNECT new_peer lan_client
  = LAN.net_call (LAN.peer_disconnect new_peer) lan_client
  ∧ LAN.ProcessClientEvent_CONNECT peer_of_player2 lan_client
    = registered peer_of_player2 2 lan_client.
Proof.
  split.
  - destruct (client_takes_peers_by_address new_peer lan_client)
      as [Hnone _].
    apply Hnone. intros j Hj (Hme & Hst & Ha).
    assert (Hc : j = 0 ∨ j = 1 ∨ j = 2 ∨ 3 ≤ j) by lia.
    destruct Hc as [-> | [-> | [-> | Hc]]];
      [vm_compute in Hst; discriminate | vm_compute in Hme; congruence
      | vm_compute in Ha; discriminate |].
    replace j with (Z.of_nat (3 + Z.to_nat (j - 3))) in Hst by lia.
    rewrite Nat2Z.id in Hst.
    destruct (Z.to_nat (j - 3)) as [|[|[|[|[|[|[|[|[|[|[|[|[|n]]]]]]]]]]]]];
      vm_compute in Hst; discriminate.
  - destruct (client_takes_peers_by_address peer_of_player2 lan_client)
      as [_ Hreg].
    destruct (Hreg 2) as [Hconn _]; [lia| | |exact Hconn].
    + split; [vm_compute; discriminate|]. split; reflexivity.
    + intros i Hi (Hme & Hst & Ha).
      assert (Hc : i = 0 ∨ i = 1) by lia.
      destruct Hc as [-> | ->];
        [vm_compute in Hst; discriminate | vm_compute in Hme; congruence].
Defined.
